(* ===== verification/_CoqProject ===== *)
-Q . S2P
Prelude.v
GoStd.v
Patterns.v
GoNet.v
GoTime.v
Json.v
Cache.v
TransformIP.v
ClientHello.v
Conn.v
Fragment.v
Policy.v
Desync.v
DesyncWindows.v
Routing.v
IPPool.v
PoolRun.v
Session.v
Dns.v
DnsExchange.v
DnsMobile.v
DialPlan.v
TunBridge.v
Tunnel.v
Relay.v
Socks5Server.v
Socks5Client.v
Allocator.v
Stats.v
Dial.v
Dialer.v
HttpProxy.v
Servers.v
Doh.v
Config.v
PacketQueue.v
MobileDns.v
LumineProxy.v
Vpn.v
NetStack.v
TunDevice.v
ShadowAead.v
Obfs.v
ShadowStream.v
ShadowCore.v
Upstream.v
Engine.v
MobileApi.v
Flow.v
FlowRun.v
FlowFacts.v
RestApi.v
Format.v
Glue.v
