(* ===== verification/Prelude.v ===== *)
(** * Lumine for Android: a verification library

    Lumine is a proxy that carries a device's TCP and UDP traffic and disturbs
    what a censor would match: the TLS ClientHello is cut into records and
    segments around the server name, or preceded by a fake packet that dies on
    the way.  Traffic enters by three doors (the VPN, a SOCKS5 server, an HTTP
    proxy), is given a target and a policy by the configured rules, and leaves
    through a tunnel that treats the first bytes as the policy says.

    ** How the program corresponds to the files

    Generic parts:
    - [Prelude]: machine integers, bytes, slices that panic ([idx], [slice],
      [set_idx], type [go]), the state monad [St] whose [None] is a panic, errors
      as values ([result], [bindE]), the tactics and hints of the library;
    - [GoStd], [GoNet], [GoTime], [Json]: what the program uses of the Go standard
      library ([strings], [strconv], [net], [net/netip], [time.ParseDuration],
      [encoding/json]), by their documented behaviour;
    - [Conn]: the world of a handler, a trace of the calls made on connections
      with outcomes that the environment has in store ([World]); [Cache]: the
      interface of the caches.

    Data and rules:
    - [Patterns] (utils.go: [expandPattern], [splitByPipe]);
    - [TransformIP] (utils.go: [transformIP]);
    - [Policy] (policy.go: the record, its decoding, defaults and merge), and its
      text in [Format] (policy.go: [Policy.String]; internal/format);
    - [Routing] (policy.go: [genPolicy], [resolveDoHPolicyHost]; utils.go:
      [ipRedirect]) over the class [Resolver] of name resolution and pools;
    - [Dns] (dns.go) and [DnsMobile] (dns_mobile.go), which discharge parts of that
      class; [DialPlan] (dial_plan.go); [IPPool] (ippool.go) and [PoolRun],
      its scans, monitor and readers as interleaved steps.

    Sending:
    - [ClientHello] (utils.go: [parseClientHello]);
    - [Fragment] (fragment.go, waitack_linux.go): TLS records and TCP segments;
    - [Desync] (desync.go, desync_linux.go, desync_rules.go): the fake packet.

    Connections:
    - [Session]: a state that contains a [World] (class [HasWorld]), dialling, TLS
      alerts, the service that computes fake TTLs (class [TTLService]);
    - [TunBridge] (tun_bridge.go), [Tunnel] and [Relay] (tunnel.go), [Socks5Server]
      (socks5.go), [HttpProxy] (http.go), [Doh] (policy.go: [policyConn],
      [genDoHDialFunc]).

    The proxy protocols of the embedded tun2socks ([tun2socks/proxy],
    [tun2socks/transport]):
    - [Socks5Client] (socks5.go, proxy/socks5.go), [Obfs] (simple-obfs),
      [ShadowAead], [ShadowStream] and [ShadowCore] (shadowsocks);
    - [Upstream] (proxy/*.go, socks4.go): every proxy, and how it dials;
    - [Dialer] (dialer/*.go): the socket options of direct connections.

    The VPN:
    - [TunDevice] (core/device): the device under the stack; [NetStack] (core/):
      how gVisor's stack is configured and put together;
    - [Flow] (tunnel/*.go, tunnel/statistic): the loop that takes flows from the
      stack, their handlers, trackers and counters as goroutines of atomic actions;
      [FlowRun] has what holds of every run, [FlowFacts] the theorems;
    - [LumineProxy] (mobile/lumine_proxy.go): the proxy the VPN dials with; [Vpn]
      puts it together with the local DNS server and [TunBridge];
      [PacketQueue] (queued_packet_conn.go) and [MobileDns] (dns_tcp_conn.go,
      dns_mobile.go): the queue of a UDP flow and the local DNS server;
    - [RestApi] (restapi/): the server that shows and closes the flows;
    - [Allocator] (buffer/allocator): the buffers all of it copies with.

    Starting and stopping:
    - [Config] (internal/config.go) over [Dial] (internal/dial): the configuration
      becomes the tables the other parts read;
    - [Servers] (main.go, the accept loops of socks5.go and http.go);
    - [Glue]: hooks of the standard library, stubs of other systems, the log and the
      global tunnel of the engine;
    - [Engine] (engine/*.go): the key, [start] and [stop];
    - [Stats] and [MobileApi] (mobile/stats.go, mobile_api.go): what the Android
      application calls.

    On other systems: [DesyncWindows] (desync_windows.go, oob_windows.go).
    [DnsExchange] (dns.go) has the transports that [Dns] is given.

    A Go method is the definition of the same name; a loop is a [Fixpoint]; a
    pointer that may be nil is an option; a panic (an index out of range, a nil
    dereference) is [None]; an [error] is the [Fail] of a [result].  State the
    program keeps in globals is the state of the monad.

    ** What the theorems show

    - What is sent.  [sendRecords] delivers the ClientHello whole, whatever the
      cutting ([Fragment]); so does the fake-packet trick, and it leaves the TTL of
      the connection as it was ([Desync]).  The handlers inherit it: the VPN
      connection for every way the client splits its writes ([TunBridge]), the
      tunnel ([Tunnel]) and the DoH client ([Doh]).
    - What is refused.  A flow a policy blocks never reaches the peer.
    - Which rule applies.  The first policy that sets a field wins; [genPolicy]
      ends in one of its documented outcomes; the address that a domain was
      answered with leads back to the domain.
    - End to end.  From the question for a domain to the bytes of its flow, the
      policy of the domain governs what is dialled and what is sent ([Vpn]).
    - Parsers.  They never panic on the inputs they are given, and read back
      what was written.
    - Caches change nothing but time.
    - Address pools hand out addresses in proportion to the weights of a scan, and
      go on doing so while scans, the monitor and readers interleave.
    - Concurrency.  The two copies of a tunnel close both connections exactly
      once, in every interleaving, and the handler returns.
    - Proxies.  What a Shadowsocks end writes, the other end
      reads, however the network cuts it ([ShadowAead], [ShadowStream]); the TLS
      disguise starts with a ClientHello that [ClientHello] parses back ([Obfs]);
      the SOCKS5 client says what the program's own SOCKS5 server accepts
      ([Socks5Client]).
    - The VPN.  In every interleaving a flow carries exactly the bytes that
      arrive, closes both connections once and last, and the tunnel settles; the
      statistics count what was carried ([FlowFacts]).  A packet of the device
      reaches the stack as it is ([TunDevice]), a UDP packet meets exactly one of
      the fates the code has for it ([LumineProxy]), the queue is first in, first
      out and [Close] releases whoever waits ([PacketQueue]), the local DNS server
      gives one answer to each query ([MobileDns]).
    - Ownership.  The descriptor of the VPN is closed exactly once, by the side
      that owns it, over every history of calls ([MobileApi] over [Engine]); no
      upstream proxy leaks the connection of a dial that fails ([Upstream]);
      what [sendWithNoise] acquires on Windows it releases ([DesyncWindows], with
      [Paired] of [Conn]).
    - Configuration.  Loading installs all of a configuration or nothing
      ([Config]); no socket connects without its binding and mark ([Dialer]).
    - Access.  Without the token the REST server answers nothing and touches
      nothing ([RestApi]).
    Theorems whose name says so ([..._drops_single_record], [..._leaks_destination],
    [..._panics_without_name], [..._duplicates_tail], [..._replaces_host],
    [..._default_block_passes]) state behaviour that looks unintended.

    ** Fuel and bounds

    Go's [int] is [Z]: lengths and ports stay far below [2^63].  Narrow types are
    reduced explicitly ([u8], [u16], [u32]).  Fuel is given only where a loop is
    not structural, and is enough for it: the wait for an acknowledgement polls
    at most 502 times (5 s by 10 ms); an address block expands to at most 1000
    addresses (1001); the search for the TTL halves an interval of [maxTTL]
    values; parsers consume a byte per turn and get the length of their input.
    Loops that cut what they write ([write_loop] of [ShadowAead] and
    [ShadowStream], [tls_Write_loop] of [Obfs]) get one turn more than there are
    bytes, the derivation of keys one more than the bytes of the key, and
    [writeTo_loop] one more than the bytes that can still arrive.  A loop over
    ticks or over what a peer sends runs over a list: what arrives during the run.
    Step relations ([Relay], [PoolRun], [PacketQueue], [TunDevice], [Flow]) need no fuel;
    that their runs end is a theorem where it holds.

    ** Not modelled

    - Packages that are not in the repository: tries (addrtrie: lookup
      functions), caches (freelru: [Cache]), DNS messages (miekg/dns), loggers.
    - Parsing and printing of HTTP messages, and the HTTP transport
      ([net/http]): variables of the sections that use them.
    - The Kotlin application.
    - Log lines, and what is only printed.
    - gVisor, zap, chi, the websocket and the docker packages, wireguard's device,
      the ciphers, and operating systems: calls of the [World] whose outcomes the
      environment has in store, or variables of sections.
    - [gateway_windows.go], [dialdetect.go] (two calls of the standard library),
      [platform32_linux.go] and [platform64_linux.go] (conversions),
      [dns_patch.go] and [tz_android.go] (hooks of the standard library),
      the wrappers of zap in [tun2socks/log], [restapi/debug.go].
*)

From Stdlib Require Export ZArith Lia.
From Stdlib Require Import Strings.Byte Strings.Ascii.
From stdpp Require Export base numbers list strings pretty gmap.

#[global] Open Scope Z_scope.

(** ** Machine integers

    Go's [int] is a 64-bit signed integer on every platform the program ships
    for; lengths, offsets and ports stay far below [2^63], so they are plain
    [Z] here.  Where the source converts to a narrower unsigned type the
    reduction is written with [u8], [u16] or [u32]. *)

Definition u8 (z : Z) : Z := z mod 256.
Definition u16 (z : Z) : Z := z mod 65536.
Definition u32 (z : Z) : Z := z mod 4294967296.
Definition u64 (z : Z) : Z := z mod 18446744073709551616.
(** Conversion to, or overflow of, a signed 64-bit integer. *)
Definition s64 (z : Z) : Z :=
  (z + 9223372036854775808) mod 18446744073709551616 - 9223372036854775808.

Definition maxInt64 : Z := 9223372036854775807.

(** ** Bytes *)

Abbreviation byte := Byte.byte.
Abbreviation bytes := (list Byte.byte).

#[export] Instance byte_eq_decision : EqDecision byte := Byte.byte_eq_dec.

Definition bZ (b : byte) : Z := Z.of_N (Byte.to_N b).
Definition Zb (z : Z) : byte :=
  match Byte.of_N (Z.to_N (z mod 256)) with Some b => b | None => Byte.x00 end.

(** ** Errors

    A Go [error] is a value.  [ErrNew] is [errors.New] (and [fmt.Errorf]
    without [%w]); [ErrOp] is [internal/errors.WithStr]; [ErrWrap] is
    [fmt.Errorf] with one trailing [%w]; [ErrEnv] is an error the operating
    system or a library reports, known only by its text; [ErrJoin1] and
    [ErrJoin] are [errors.Join] of one and of two non-nil errors. *)

Inductive error :=
| ErrNew (msg : string)
| ErrOp (op : string) (e : error)
| ErrWrap (prefix : string) (e : error)
| ErrJoin1 (e : error)
| ErrJoin (e1 e2 : error)
| ErrEnv (msg : string)
| EOF
| ErrUnexpectedEOF
| ErrShortBuffer
| ErrClosed
| ErrClosedPipe
| ErrTimeout.

Inductive result (A : Type) :=
| Ok (a : A)
| Fail (e : error).
Arguments Ok {A} a.
Arguments Fail {A} e.

Definition is_ok {A} (r : result A) : bool :=
  match r with Ok _ => true | Fail _ => false end.

#[export] Instance error_eq_dec : EqDecision error.
Proof. solve_decision. Defined.
#[export] Instance result_eq_dec `{EqDecision A} : EqDecision (result A).
Proof. solve_decision. Defined.

(** ** Panics

    A computation that may panic (an index or a slice bound out of range, a
    division by zero) is an [option]: [None] is the panic.  Errors are values
    inside it. *)

Abbreviation go := option (only parsing).
Abbreviation panic := None (only parsing).

Declare Scope go_scope.
Delimit Scope go_scope with go.

(** [x ! m ; k]: bind through panics. *)
Notation "'let!' x ':=' m 'in' k" :=
  (match m with Some x => k | None => None end)
  (at level 10, x pattern, m at level 100, k at level 200)
  : go_scope.
(** [let? x := r in k]: the Go idiom [x, err := r; if err != nil { return err }]
    where the error is returned as it is. *)
Notation "'let?' x ':=' m 'in' k" :=
  (match m with Ok x => k | Fail e => Fail e end)
  (at level 10, x pattern, m at level 100, k at level 200)
  : go_scope.
(** Both: [m : go (result A)]. *)
Notation "'let!?' x ':=' m 'in' k" :=
  (match m with Some (Ok x) => k | Some (Fail e) => Some (Fail e) | None => None end)
  (at level 10, x pattern, m at level 100, k at level 200)
  : go_scope.
#[global] Open Scope go_scope.

(** ** Effects

    A stateful operation on a state [S] takes the state and returns a value
    and the new state, or panics. *)

Definition St (S A : Type) : Type := S → go (A * S).

Definition ret {S A} (a : A) : St S A := λ s, Some (a, s).
Definition bind {S A B} (m : St S A) (f : A → St S B) : St S B :=
  λ s, match m s with Some (a, s') => f a s' | None => None end.
(** Early return of an error. *)
Definition bindE {S A B} (m : St S (result A)) (f : A → St S (result B)) : St S (result B) :=
  bind m (λ r, match r with Ok a => f a | Fail e => ret (Fail e) end).
Definition lift {S A} (m : go A) : St S A :=
  λ s, match m with Some a => Some (a, s) | None => None end.
Definition get {S} : St S S := λ s, Some (s, s).
Definition put {S} (s : S) : St S unit := λ _, Some (tt, s).
Definition modify {S} (f : S → S) : St S unit := λ s, Some (tt, f s).
Definition throw {S A} (e : error) : St S (result A) := ret (Fail e).
(** [E.WithStr(op, err)] on the way out. *)
Definition wrap_op {S A} (op : string) (m : St S (result A)) : St S (result A) :=
  bind m (λ r, ret match r with Ok a => Ok a | Fail e => Fail (ErrOp op e) end).

Declare Scope st_scope.
Delimit Scope st_scope with st.
Notation "'let*' x ':=' m 'in' k" := (bind m (λ y, match y with x => k end))
  (at level 10, x pattern, m at level 100, k at level 200) : st_scope.
Notation "'let*?' x ':=' m 'in' k" := (bindE m (λ y, match y with x => k end))
  (at level 10, x pattern, m at level 100, k at level 200) : st_scope.
Notation "m ;;; k" := (bind m (λ _, k))
  (at level 100, right associativity) : st_scope.
Notation "m ;;? k" := (bindE m (λ _, k))
  (at level 100, right associativity) : st_scope.
#[global] Open Scope st_scope.

Lemma bind_ret_l {S A B} (a : A) (f : A → St S B) s : bind (ret a) f s = f a s.
Proof. done. Qed.

(** A step that does not panic can be skipped. *)
Lemma bind_lift_Some {S A B} (a : A) (f : A → St S B) : bind (lift (Some a)) f = f a.
Proof. done. Qed.

Lemma bind_Some {S A B} (m : St S A) (f : A → St S B) s r :
  bind m f s = Some r ↔ ∃ a s', m s = Some (a, s') ∧ f a s' = Some r.
Proof.
  unfold bind. destruct (m s) as [[a s']|]; split; intros H.
  - eauto.
  - by destruct H as (?&?&[= <- <-]&?).
  - done.
  - by destruct H as (?&?&?&?).
Qed.

Lemma bindE_unfold {S A B} (m : St S (result A)) (f : A → St S (result B)) s :
  bindE m f s =
  match m s with
  | Some (Ok a, s') => f a s'
  | Some (Fail e, s') => Some (Fail e, s')
  | None => None
  end.
Proof. unfold bindE, bind. by destruct (m s) as [[[a|e] s']|]. Qed.

Lemma bindE_assoc {S A B C} (m : St S (result A)) (f : A → St S (result B)) (k : B → St S (result C)) s :
  bindE (bindE m f) k s = bindE m (λ a, bindE (f a) k) s.
Proof. rewrite !bindE_unfold. by destruct (m s) as [[[a|e] s']|]; rewrite ?bindE_unfold. Qed.

(** ** Slices

    A slice is the list of its elements; its capacity is taken to be its
    length, so a slice expression that reaches past the length is a panic
    here even where Go would find spare capacity. *)

Definition len {A} (l : list A) : Z := Z.of_nat (length l).

Definition idx {A} (l : list A) (i : Z) : go A :=
  if decide (0 ≤ i) then l !! Z.to_nat i else None.

Definition slice {A} (l : list A) (i j : Z) : go (list A) :=
  if decide (0 ≤ i ≤ j ∧ j ≤ len l)
  then Some (take (Z.to_nat (j - i)) (drop (Z.to_nat i) l))
  else None.

Definition slice_to {A} (l : list A) (j : Z) : go (list A) := slice l 0 j.
Definition slice_from {A} (l : list A) (i : Z) : go (list A) := slice l i (len l).

(** [l[i] = x]. *)
Definition set_idx {A} (l : list A) (i : Z) (x : A) : go (list A) :=
  if decide (0 ≤ i < len l) then Some (<[Z.to_nat i := x]> l) else None.

(** Go's [copy(dst, src)]: the new [dst]; the count is [min len len]. *)
Definition copy {A} (dst src : list A) : list A :=
  take (length dst) src ++ drop (length src) dst.

Definition make_zero (n : Z) : bytes := replicate (Z.to_nat n) Byte.x00.

(** [binary.BigEndian.Uint16] reads the first two bytes. *)
Definition be16 (l : bytes) : go Z :=
  match l with
  | a :: b :: _ => Some (Z.lor (bZ b) (Z.shiftl (bZ a) 8))
  | _ => None
  end.

(** The two bytes [PutUint16] writes for [uint16(n)]. *)
Definition put16 (n : Z) : bytes := [Zb (Z.shiftr n 8); Zb n].
#[global] Arguments put16 : simpl never.

(** [errors.Join(a, b)] drops nil errors and is nil when nothing is left. *)
Definition errors_Join (a b : option error) : option error :=
  match a, b with
  | None, None => None
  | Some e, None | None, Some e => Some (ErrJoin1 e)
  | Some e1, Some e2 => Some (ErrJoin e1 e2)
  end.

(** [err.Error()] of the constructors above; the sentinel texts are those of
    the standard library. *)
Fixpoint error_Error (e : error) : string :=
  match e with
  | ErrNew msg => msg
  | ErrOp op e => op +:+ ": " +:+ error_Error e
  | ErrWrap p e => p +:+ error_Error e
  | ErrJoin1 e => error_Error e
  | ErrJoin e1 e2 => error_Error e1 +:+ String "010" "" +:+ error_Error e2
  | ErrEnv msg => msg
  | EOF => "EOF"
  | ErrUnexpectedEOF => "unexpected EOF"
  | ErrShortBuffer => "short buffer"
  | ErrClosed => "use of closed network connection"
  | ErrClosedPipe => "io: read/write on closed pipe"
  | ErrTimeout => "i/o timeout"
  end.

(** ** Lemmas: bytes *)

Lemma bZ_range b : 0 ≤ bZ b < 256.
Proof. unfold bZ. pose proof (Byte.to_N_bounded b). lia. Qed.

Lemma Zb_bZ b : Zb (bZ b) = b.
Proof.
  unfold Zb. pose proof (bZ_range b). rewrite Z.mod_small by done.
  unfold bZ. by rewrite N2Z.id, Byte.of_to_N.
Qed.

Lemma bZ_Zb z : bZ (Zb z) = z mod 256.
Proof.
  unfold Zb, bZ. pose proof (Z.mod_pos_bound z 256 ltac:(lia)).
  destruct (Byte.of_N _) as [b|] eqn:E.
  - apply Byte.to_of_N in E. rewrite E. lia.
  - apply Byte.of_N_None_iff in E. lia.
Qed.

Lemma bZ_Zb_small z : 0 ≤ z < 256 → bZ (Zb z) = z.
Proof. intros. by rewrite bZ_Zb, Z.mod_small. Qed.

Lemma bZ_inj a b : bZ a = bZ b → a = b.
Proof. intros H. by rewrite <-(Zb_bZ a), <-(Zb_bZ b), H. Qed.

Lemma lor_shiftl8 a b : 0 ≤ b < 256 → Z.lor b (Z.shiftl a 8) = a * 256 + b.
Proof.
  intros Hb. rewrite Z.shiftl_mul_pow2 by lia. change (2 ^ 8) with 256.
  enough (Z.land b (a * 256) = 0) by (pose proof (Z.add_lor_land b (a * 256)); lia).
  apply Z.bits_inj'. intros n Hn. rewrite Z.land_spec, Z.bits_0.
  change (a * 256) with (a * 2 ^ 8).
  destruct (decide (n < 8)).
  - by rewrite Z.mul_pow2_bits_low, andb_false_r by lia.
  - rewrite (Z.bits_above_log2 b), andb_false_l; [done|lia|].
    destruct (decide (b = 0)) as [->|]; [simpl; lia|].
    apply Z.log2_lt_pow2; [lia|]. apply Z.lt_le_trans with (2 ^ 8); [lia|].
    apply Z.pow_le_mono_r; lia.
Qed.

Lemma be16_cons a b l : be16 (a :: b :: l) = Some (bZ a * 256 + bZ b).
Proof. simpl. by rewrite lor_shiftl8 by apply bZ_range. Qed.

Lemma be16_range l n : be16 l = Some n → 0 ≤ n < 65536.
Proof.
  destruct l as [|a [|b l]]; try done. rewrite be16_cons. intros [= <-].
  pose proof (bZ_range a). pose proof (bZ_range b). lia.
Qed.

Lemma be16_put16 n l : be16 (put16 n ++ l) = Some (u16 n).
Proof.
  unfold put16. simpl app. rewrite be16_cons, !bZ_Zb, Z.shiftr_div_pow2 by lia.
  change (2 ^ 8) with 256. f_equal. unfold u16.
  change 65536 with (256 * 256). rewrite (Z.rem_mul_r n 256 256) by lia. lia.
Qed.

(** ** Lemmas: lists indexed by [Z] *)

Section lists.
  Context {A : Type}.
  Implicit Types (l : list A) (i j n : Z).

Lemma len_nonneg l : 0 ≤ len l.
Proof. unfold len. lia. Qed.
Lemma len_nil : len (@nil A) = 0.
Proof. done. Qed.
Lemma len_cons x l : len (x :: l) = 1 + len l.
Proof. unfold len. simpl. lia. Qed.
Lemma len_app l1 l2 : len (l1 ++ l2) = len l1 + len l2.
Proof. unfold len. rewrite length_app. lia. Qed.
Lemma len_replicate n (x : A) : 0 ≤ n → len (replicate (Z.to_nat n) x) = n.
Proof. unfold len. rewrite length_replicate. lia. Qed.
Lemma len_take n l : 0 ≤ n ≤ len l → len (take (Z.to_nat n) l) = n.
Proof. unfold len. rewrite length_take. lia. Qed.
Lemma len_drop n l : 0 ≤ n ≤ len l → len (drop (Z.to_nat n) l) = len l - n.
Proof. unfold len. rewrite length_drop. lia. Qed.
Lemma len_0_nil l : len l = 0 → l = [].
Proof. destruct l; [done|]. rewrite len_cons. pose proof (len_nonneg l). lia. Qed.

Lemma idx_Some l i : 0 ≤ i < len l → ∃ x, idx l i = Some x.
Proof.
    intros H. unfold idx. rewrite decide_True by lia.
    apply lookup_lt_is_Some. unfold len in H. lia.
Qed.
Lemma idx_Some_inv l i x : idx l i = Some x → 0 ≤ i < len l.
Proof.
    unfold idx. case_decide; [|done]. intros Hx%lookup_lt_Some. unfold len. lia.
Qed.
Lemma idx_None l i : ¬ (0 ≤ i < len l) → idx l i = None.
Proof.
    intros H. destruct (idx l i) eqn:E; [|done].
    apply idx_Some_inv in E. lia.
Qed.

Lemma slice_Some l i j :
    0 ≤ i ≤ j → j ≤ len l →
    slice l i j = Some (take (Z.to_nat (j - i)) (drop (Z.to_nat i) l)).
Proof. intros. unfold slice. by rewrite decide_True. Qed.

Lemma slice_Some_inv l i j r :
    slice l i j = Some r →
    0 ≤ i ≤ j ∧ j ≤ len l ∧ r = take (Z.to_nat (j - i)) (drop (Z.to_nat i) l).
Proof.
    unfold slice. case_decide; [|done]. intros [= <-]. tauto.
Qed.

Lemma slice_len l i j r : slice l i j = Some r → len r = j - i.
Proof.
    intros (?&?&->)%slice_Some_inv. unfold len in *.
    rewrite length_take, length_drop. lia.
Qed.

Lemma slice_to_Some l j :
    0 ≤ j ≤ len l → slice_to l j = Some (take (Z.to_nat j) l).
Proof. intros. unfold slice_to. rewrite slice_Some, Z.sub_0_r by lia. done. Qed.

Lemma slice_from_Some l i :
    0 ≤ i ≤ len l → slice_from l i = Some (drop (Z.to_nat i) l).
Proof.
    intros. unfold slice_from. rewrite slice_Some by lia. f_equal.
    apply take_ge. rewrite length_drop. unfold len. lia.
Qed.

Lemma slice_full l : slice l 0 (len l) = Some l.
Proof.
    pose proof (len_nonneg l). rewrite slice_Some by lia. f_equal.
    apply take_ge. unfold len. simpl. lia.
Qed.

  (** Two adjacent slices are one. *)
Lemma slice_app l i j k a b :
    slice l i j = Some a → slice l j k = Some b → slice l i k = Some (a ++ b).
Proof.
    intros (?&?&->)%slice_Some_inv (?&?&->)%slice_Some_inv.
    rewrite slice_Some by lia. f_equal.
    replace (Z.to_nat j) with (Z.to_nat i + Z.to_nat (j - i))%nat by lia.
    rewrite <-drop_drop, take_take_drop. f_equal. lia.
Qed.

Lemma idx_slice l i j r k :
    slice l i j = Some r → 0 ≤ k < j - i → idx r k = idx l (i + k).
Proof.
    intros (?&?&->)%slice_Some_inv ?. unfold idx.
    rewrite !decide_True by lia. rewrite lookup_take_lt, lookup_drop by lia.
    f_equal. lia.
Qed.

Lemma idx_app_l l1 l2 i : i < len l1 → idx (l1 ++ l2) i = idx l1 i.
Proof.
    intros. unfold idx. case_decide; [|done].
    apply lookup_app_l. unfold len in *. lia.
Qed.

Lemma idx_app_r l1 l2 i : len l1 ≤ i → idx (l1 ++ l2) i = idx l2 (i - len l1).
Proof.
    intros. pose proof (len_nonneg l1). unfold idx.
    rewrite !decide_True by lia. rewrite lookup_app_r by (unfold len in *; lia).
    f_equal. unfold len. lia.
Qed.

Lemma set_idx_Some l i x :
    0 ≤ i < len l → set_idx l i x = Some (<[Z.to_nat i := x]> l).
Proof. intros. unfold set_idx. by rewrite decide_True. Qed.

Lemma copy_len (d s : list A) : len (copy d s) = len d.
Proof.
    unfold copy, len. rewrite length_app, length_take, length_drop. lia.
Qed.

Lemma copy_full (d s : list A) : len d = len s → copy d s = s.
Proof.
    unfold copy, len. intros H. rewrite take_ge by lia.
    rewrite drop_ge by lia. apply app_nil_r.
Qed.

Lemma copy_prefix (d s : list A) :
    len s ≤ len d → copy d s = s ++ drop (length s) d.
Proof. unfold copy, len. intros. by rewrite take_ge by lia. Qed.
End lists.

Lemma be16_slice (d : bytes) i r :
  slice d i (i + 2) = Some r → ∃ n, be16 r = Some n ∧ 0 ≤ n < 65536.
Proof.
  intros H. pose proof (slice_len _ _ _ _ H) as Hl.
  destruct r as [|a [|b r]].
  - rewrite len_nil in Hl. lia.
  - rewrite len_cons, len_nil in Hl. lia.
  - eexists. split; [apply be16_cons|].
    pose proof (bZ_range a). pose proof (bZ_range b). lia.
Qed.

Lemma slice_u16 (d : bytes) i j :
  j = i + 2 → 0 ≤ i ∧ j ≤ len d →
  ∃ r n, slice d i j = Some r ∧ be16 r = Some n ∧ 0 ≤ n < 65536.
Proof.
  intros -> [??]. rewrite slice_Some by lia. eexists _.
  edestruct (be16_slice d i) as (n & Hn & ?); [by apply slice_Some; lia|]. by exists n.
Qed.

(** ** Hints and tactics *)

Create HintDb lumine.
Create Rewrite HintDb lumine.
#[export] Hint Resolve len_nonneg bZ_range : lumine.
#[export] Hint Rewrite @len_nil @len_cons @len_app bZ_Zb Zb_bZ : lumine.

(** Push every [len] of the context towards atoms, add that lengths are
    non-negative, and call [lia]. *)
Ltac len_facts :=
  repeat match goal with
  | |- context [len ?l] =>
      lazymatch goal with
      | _ : 0 ≤ len l |- _ => fail
      | _ => pose proof (len_nonneg l)
      end
  | _ : context [len ?l] |- _ =>
      lazymatch goal with
      | _ : 0 ≤ len l |- _ => fail
      | _ => pose proof (len_nonneg l)
      end
  end.
Ltac len_lia := autorewrite with lumine in *; len_facts; lia.

(** Run one step of a computation that indexes, slices or tests: a read whose
    bounds follow by [lia] is replaced by a fresh value, a test is split. *)
Ltac go_idx :=
  match goal with
  | |- context [match idx ?l ?i with _ => _ end] =>
      let x := fresh "b" in let H := fresh "Hidx" in
      destruct (idx_Some l i ltac:(lia)) as [x H]; rewrite H
  end.
Ltac go_u16 :=
  match goal with
  | |- context [match slice ?l ?i ?j with _ => _ end] =>
      let r := fresh "r" in let n := fresh "n" in
      let H := fresh "Hbe" in let Hn := fresh "Hrange" in
      destruct (slice_u16 l i j ltac:(lia) ltac:(lia)) as (r & n & -> & H & Hn); rewrite H
  end.
