(* ===== verification/GoStd.v ===== *)
(** * The part of the Go standard library the program's text handling uses

    [strings], [strconv], the decoding of strings into runes by [for range],
    and [slices.Contains].  A Go string is a sequence of bytes, a Rocq
    [string]; [bytes] are the values of [[]byte]. *)

From Stdlib Require Import Strings.Ascii Strings.Byte.
From S2P Require Import Prelude.

(** ** Strings and bytes *)

#[global] Arguments String.append !_ _ / : simpl nomatch.

Definition string_of_bytes (l : bytes) : string := String.string_of_list_byte l.
Definition bytes_of_string (s : string) : bytes := String.list_byte_of_string s.

Lemma bytes_of_string_of_bytes l : bytes_of_string (string_of_bytes l) = l.
Proof. apply String.list_byte_of_string_of_list_byte. Qed.
Lemma string_of_bytes_of_string s : string_of_bytes (bytes_of_string s) = s.
Proof. apply String.string_of_list_byte_of_string. Qed.

Definition slen (s : string) : Z := Z.of_nat (String.length s).

Definition ascZ (a : ascii) : Z := Z.of_N (N_of_ascii a).

Definition is_digit (a : ascii) : bool := (48 <=? ascZ a) && (ascZ a <=? 57).
Definition digit_val (a : ascii) : Z := ascZ a - 48.

(** [strings.HasPrefix], [s[n:]] and [s[:n]] where [n] is in range. *)
Fixpoint HasPrefix (s p : string) : bool :=
  match p, s with
  | EmptyString, _ => true
  | String a p', String b s' => bool_decide (a = b) && HasPrefix s' p'
  | _, _ => false
  end.

Fixpoint sdrop (n : nat) (s : string) : string :=
  match n, s with
  | O, _ => s
  | S n, String _ s' => sdrop n s'
  | S _, EmptyString => EmptyString
  end.

Fixpoint stake (n : nat) (s : string) : string :=
  match n, s with
  | O, _ => EmptyString
  | S n, String a s' => String a (stake n s')
  | S _, EmptyString => EmptyString
  end.

(** [strings.IndexByte] and [strings.LastIndexByte]: -1 when absent. *)
Fixpoint IndexByte (s : string) (c : ascii) : Z :=
  match s with
  | EmptyString => -1
  | String a s' =>
      if decide (a = c) then 0
      else let r := IndexByte s' c in if decide (r < 0) then -1 else r + 1
  end.

Fixpoint LastIndexByte (s : string) (c : ascii) : Z :=
  match s with
  | EmptyString => -1
  | String a s' =>
      let r := LastIndexByte s' c in
      if decide (0 ≤ r) then r + 1 else if decide (a = c) then 0 else -1
  end.

(** [strings.Contains(s, c)] for a one-byte [c]. *)
Fixpoint contains_byte (s : string) (c : ascii) : bool :=
  match s with
  | EmptyString => false
  | String a s' => bool_decide (a = c) || contains_byte s' c
  end.

(** [strings.Contains]. *)
Fixpoint Contains (s sub : string) : bool :=
  HasPrefix s sub ||
  match s with EmptyString => false | String _ s' => Contains s' sub end.

(** [strings.SplitSeq(s, sep)] for a one-byte [sep]: never empty. *)
Fixpoint Split (s : string) (sep : ascii) : list string :=
  match s with
  | EmptyString => [""%stdpp]
  | String a s' =>
      if decide (a = sep) then EmptyString :: Split s' sep
      else match Split s' sep with
           | x :: l => String a x :: l
           | [] => [String a EmptyString]
           end
  end.

Fixpoint Join (l : list string) (sep : string) : string :=
  match l with
  | [] => EmptyString
  | [x] => x
  | x :: l' => x +:+ sep +:+ Join l' sep
  end.

(** [strings.TrimSuffix(s, ".")]: drops one trailing dot. *)
Fixpoint TrimDotSuffix (s : string) : string :=
  match s with
  | EmptyString => EmptyString
  | String a EmptyString => if decide (a = "."%char) then EmptyString else s
  | String a s' => String a (TrimDotSuffix s')
  end.

(** [strings.TrimSpace], on the ASCII white space. *)
Fixpoint TrimLeftSpace (s : string) : string :=
  match s with
  | String a s' => if Ascii.is_space a then TrimLeftSpace s' else s
  | EmptyString => EmptyString
  end.
Fixpoint TrimRightSpace (s : string) : string :=
  match s with
  | EmptyString => EmptyString
  | String a s' =>
      match TrimRightSpace s' with
      | EmptyString => if Ascii.is_space a then EmptyString else String a EmptyString
      | r => String a r
      end
  end.
Definition TrimSpace (s : string) : string := TrimRightSpace (TrimLeftSpace s).

(** [strings.ToLower] and [strings.ToUpper] on ASCII letters; bytes outside
    ASCII are kept. *)
Definition lower_ascii (a : ascii) : ascii :=
  if (65 <=? ascZ a) && (ascZ a <=? 90) then ascii_of_N (N_of_ascii a + 32) else a.
Definition upper_ascii (a : ascii) : ascii :=
  if (97 <=? ascZ a) && (ascZ a <=? 122) then ascii_of_N (N_of_ascii a - 32) else a.
Fixpoint smap (f : ascii → ascii) (s : string) : string :=
  match s with EmptyString => EmptyString | String a s' => String (f a) (smap f s') end.
Definition ToLower : string → string := smap lower_ascii.
Definition ToUpper : string → string := smap upper_ascii.

(** ** strconv *)

(** [strconv.Itoa], [strconv.FormatInt(v, 10)], [strconv.FormatUint(v, 10)]. *)
Definition itoa (z : Z) : string := pretty z.

(** The value of a string of decimal digits, [None] when another byte occurs.
    The accumulator is unbounded; callers bound it. *)
Fixpoint digits_acc (s : string) (acc : Z) : option Z :=
  match s with
  | EmptyString => Some acc
  | String a s' => if is_digit a then digits_acc s' (acc * 10 + digit_val a) else None
  end.

(** [strconv.ParseUint(s, 10, bitSize)]: the empty string and any byte that is
    not a digit are syntax errors; a value of [2^bitSize] or more is out of
    range.  (Underscores are only accepted with base 0.) *)
Definition ParseUint (s : string) (bitSize : Z) : result Z :=
  match s with
  | EmptyString => Fail (ErrNew "strconv.ParseUint: invalid syntax")
  | _ =>
      match digits_acc s 0 with
      | Some n =>
          if decide (n < 2 ^ bitSize) then Ok n
          else Fail (ErrNew "strconv.ParseUint: value out of range")
      | None => Fail (ErrNew "strconv.ParseUint: invalid syntax")
      end
  end.

(** [strconv.Atoi] for a 64-bit int: an optional sign, then digits. *)
Definition Atoi (s : string) : result Z :=
  let bad := Fail (ErrNew "strconv.Atoi: invalid syntax") in
  let range := Fail (ErrNew "strconv.Atoi: value out of range") in
  let go_ neg d :=
    match d with
    | EmptyString => bad
    | _ =>
        match digits_acc d 0 with
        | None => bad
        | Some n =>
            let v := if neg : bool then - n else n in
            if decide (- maxInt64 - 1 ≤ v ≤ maxInt64) then Ok v else range
        end
    end in
  match s with
  | String "+" d => go_ false d
  | String "-" d => go_ true d
  | _ => go_ false s
  end.

(** ** Runes: [for _, ch := range s]

    Each iteration consumes one rune; [string(ch)] encodes it again.  A valid
    UTF-8 sequence is consumed whole and encoded to itself; any other byte is
    consumed alone and yields U+FFFD.  The tables are those of
    [unicode/utf8]. *)

Definition in_range (a : ascii) (lo hi : Z) : bool := (lo <=? ascZ a) && (ascZ a <=? hi).
Definition cont (a : ascii) : bool := in_range a 128 191.
Definition rune_error : string :=
  string_of_bytes [Byte.xef; Byte.xbf; Byte.xbd].

(** The number of bytes of the rune at the head, [None] for an invalid one. *)
Definition rune_width (s : string) : option nat :=
  match s with
  | EmptyString => None
  | String a s1 =>
    if ascZ a <? 128 then Some 1%nat
    else match s1 with
    | EmptyString => None
    | String b s2 =>
      if in_range a 194 223 then if cont b then Some 2%nat else None
      else match s2 with
      | EmptyString => None
      | String c s3 =>
        let lo3 := if ascZ a =? 224 then 160 else 128 in
        let hi3 := if ascZ a =? 237 then 159 else 191 in
        if in_range a 224 239
        then if in_range b lo3 hi3 && cont c then Some 3%nat else None
        else match s3 with
        | EmptyString => None
        | String d _ =>
          let lo4 := if ascZ a =? 240 then 144 else 128 in
          let hi4 := if ascZ a =? 244 then 143 else 191 in
          if in_range a 240 244
          then if in_range b lo4 hi4 && cont c && cont d then Some 4%nat else None
          else None
        end
      end
    end
  end.

(** The runes of [s], each as [string(ch)]; [fuel] bounds the iterations and
    the length of [s] is enough. *)
Fixpoint runes_fuel (fuel : nat) (s : string) : list string :=
  match fuel, s with
  | S fuel, String _ _ =>
      match rune_width s with
      | Some n => stake n s :: runes_fuel fuel (sdrop n s)
      | None => rune_error :: runes_fuel fuel (sdrop 1 s)
      end
  | _, _ => []
  end.
Definition runes (s : string) : list string := runes_fuel (String.length s) s.

Lemma append_assoc (a b c : string) : (a +:+ b) +:+ c = a +:+ b +:+ c.
Proof. induction a as [|x a IH]; simpl; [done|]. by rewrite IH. Qed.
Lemma append_nil_r (a : string) : a +:+ "" = a.
Proof. induction a as [|x a IH]; simpl; [done|]. by rewrite IH. Qed.
