(* ===== verification/Patterns.v ===== *)
(** * Pattern expansion: [expandPattern] and [splitByPipe]
      (internal/utils.go)

    The keys of the [hosts], [domain_policies] and [ip_policies] tables are
    patterns such as [(www|api).example.(com|net)].  [expandPattern] turns a
    pattern into the list of names it stands for. *)

From Stdlib Require Import Strings.Ascii.
From S2P Require Import Prelude GoStd.

(** [splitByPipe] accumulates the runes between two ['|']. *)
Fixpoint splitByPipe_loop (rs : list string) (curr : string) (result : list string)
    : list string :=
  match rs with
  | [] => result ++ [curr]
  | ch :: rs' =>
      if decide (ch = "|") then splitByPipe_loop rs' "" (result ++ [curr])
      else splitByPipe_loop rs' (curr +:+ ch) result
  end.

Definition splitByPipe (s : string) : list string :=
  match s with
  | EmptyString => [""]
  | _ => splitByPipe_loop (runes s) "" []
  end.

(** The first loop of [expandPattern]: [left] is the position of the first
    ['(']; the result is [(s[:left], s[left+1:])].  (A byte ['('] is never
    inside a longer rune, so the loop over runes finds the first such byte.) *)
Fixpoint find_left (s : string) : option (string * string) :=
  match s with
  | EmptyString => None
  | String a s' =>
      if decide (a = "("%char) then Some (EmptyString, s')
      else match find_left s' with
           | Some (p, r) => Some (String a p, r)
           | None => None
           end
  end.

(** The second loop: [right] is the position of the [')'] that brings [depth]
    to zero; the result is [(s[left+1:right], s[right+1:])]. *)
Fixpoint find_right (s : string) (depth : nat) : option (string * string) :=
  match s with
  | EmptyString => None
  | String a s' =>
      let depth' :=
        if decide (a = "("%char) then S depth
        else if decide (a = ")"%char) then Nat.pred depth else depth in
      if decide (a = ")"%char ∧ depth' = O) then Some (EmptyString, s')
      else match find_right s' depth' with
           | Some (i, r) => Some (String a i, r)
           | None => None
           end
  end.

Fixpoint expandPattern_fuel (fuel : nat) (s : string) : list string :=
  match fuel with
  | O => []
  | S fuel =>
      match find_left s with
      | None => splitByPipe s
      | Some (prefix, rest) =>
          match find_right rest 1 with
          | None => splitByPipe s
          | Some (inner, suffix) =>
              let parts := splitByPipe inner in
              let suffixResults := expandPattern_fuel fuel suffix in
              part ← parts; suff ← suffixResults;
              [prefix +:+ part +:+ suff]
          end
      end
  end.

(** Every recursive call is on a shorter string. *)
Definition expandPattern (s : string) : list string :=
  expandPattern_fuel (S (String.length s)) s.

Example expandPattern_ex1 :
  expandPattern "(www|api).x.(com|net)" =
  ["www.x.com"; "www.x.net"; "api.x.com"; "api.x.net"].
Proof. reflexivity. Qed.
Example expandPattern_ex2 : expandPattern "a|b" = ["a"; "b"].
Proof. reflexivity. Qed.
Example expandPattern_ex3 : expandPattern "a|b(c" = ["a"; "b(c"].
Proof. reflexivity. Qed.
Example expandPattern_ex4 : expandPattern "x(a(b|c))y" = ["xa(by"; "xc)y"].
Proof. reflexivity. Qed.

(** ** The cuts find what they should *)

(** What a group may contain: scanned from [depth], the depth never reaches
    zero, and it is [depth'] at the end. *)
Inductive scans : string → nat → nat → Prop :=
| scans_nil d : (0 < d)%nat → scans EmptyString d d
| scans_open s d d' : scans s (S d) d' → scans (String "(" s) d d'
| scans_close s d d' : scans s (S d) d' → scans (String ")" s) (S (S d)) d'
| scans_other a s d d' :
    a ≠ "("%char → a ≠ ")"%char → scans s d d' → scans (String a s) d d'.

Lemma find_left_sound s p r :
  find_left s = Some (p, r) → s = p +:+ String "(" r ∧ contains_byte p "(" = false.
Proof.
  revert p r. induction s as [|a s IH]; intros p r; simpl; [done|].
  destruct (decide (a = "("%char)) as [->|Ha].
  - by intros [= <- <-].
  - destruct (find_left s) as [[p' r']|]; [|done].
    intros [= <- <-]. destruct (IH p' r') as [-> Hc]; [done|].
    simpl. by rewrite bool_decide_eq_false_2.
Qed.

Lemma find_left_complete p r :
  contains_byte p "(" = false → find_left (p +:+ String "(" r) = Some (p, r).
Proof.
  induction p as [|a p IH]; simpl; [done|].
  intros [Ha Hp]%orb_false_elim. apply bool_decide_eq_false_1 in Ha.
  rewrite decide_False by done. by rewrite IH.
Qed.

Lemma find_left_None s : find_left s = None ↔ contains_byte s "(" = false.
Proof.
  induction s as [|a s IH]; simpl; [done|].
  destruct (decide (a = "("%char)) as [->|Ha].
  - done.
  - rewrite bool_decide_eq_false_2 by done. simpl. rewrite <-IH.
    by destruct (find_left s) as [[]|].
Qed.

Lemma find_right_sound s d i r :
  find_right s (S d) = Some (i, r) → s = i +:+ String ")" r ∧ scans i (S d) 1.
Proof.
  revert d i r. induction s as [|a s IH]; intros d i r; simpl; [done|].
  destruct (decide (a = "("%char)) as [->|Ho].
  - rewrite decide_False by (by intros [??]).
    destruct (find_right s (S (S d))) as [[i' r']|] eqn:E; [|done].
    intros [= <- <-]. apply IH in E as [-> ?]. split; [done|by constructor].
  - destruct (decide (a = ")"%char)) as [->|Hc].
    + destruct d as [|d].
      * rewrite decide_True by done. intros [= <- <-].
        split; [done|]. constructor. lia.
      * rewrite decide_False by (by intros [??]). simpl Nat.pred.
        destruct (find_right s (S d)) as [[i' r']|] eqn:E; [|done].
        intros [= <- <-]. apply IH in E as [-> ?]. split; [done|by constructor].
    + rewrite decide_False by (by intros [??]).
      destruct (find_right s (S d)) as [[i' r']|] eqn:E; [|done].
      intros [= <- <-]. apply IH in E as [-> ?]. split; [done|by constructor].
Qed.

Lemma find_right_complete i d d' r :
  scans i d d' → d' = 1%nat → find_right (i +:+ String ")" r) d = Some (i, r).
Proof.
  induction 1 as [d Hd|s d d' _ IH|s d d' _ IH|a s d d' Ho Hc _ IH]; intros ->; simpl.
  - done.
  - by rewrite IH.
  - by rewrite IH.
  - rewrite !(decide_False (P:=a = _)) by done.
    rewrite decide_False by (by intros [??]). by rewrite IH.
Qed.

(** ** [splitByPipe] cuts at the bars and loses nothing else *)

(** [strings.ToValidUTF8(s, U+FFFD)] rune by rune: what [for range] and
    [string(ch)] make of [s]. *)
Fixpoint concat_strings (l : list string) : string :=
  match l with [] => EmptyString | x :: l' => x +:+ concat_strings l' end.
Definition normalise (s : string) : string := concat_strings (runes s).

Fixpoint valid_utf8_fuel (fuel : nat) (s : string) : bool :=
  match fuel, s with
  | S fuel, String _ _ =>
      match rune_width s with
      | Some n => valid_utf8_fuel fuel (sdrop n s)
      | None => false
      end
  | _, _ => true
  end.
Definition valid_utf8 (s : string) : bool := valid_utf8_fuel (String.length s) s.


Lemma stake_sdrop n s : stake n s +:+ sdrop n s = s.
Proof. revert s. induction n as [|n IH]; intros [|a s]; simpl; [done..|]. by rewrite IH. Qed.

Lemma length_sdrop n s : String.length (sdrop n s) = (String.length s - n)%nat.
Proof. revert s. induction n as [|n IH]; intros [|a s]; simpl; [done..|]. apply IH. Qed.

Lemma rune_width_pos s n : rune_width s = Some n → (0 < n)%nat.
Proof. destruct s as [|a s]; simpl; [done|]. repeat case_match; intros; simplify_eq; lia. Qed.

Lemma normalise_fuel_valid fuel s :
  (String.length s ≤ fuel)%nat → valid_utf8_fuel fuel s = true →
  concat_strings (runes_fuel fuel s) = s.
Proof.
  revert s. induction fuel as [|fuel IH]; intros [|a s] Hl Hv; [done|simpl in Hl; lia|done|].
  cbn [valid_utf8_fuel runes_fuel] in *.
  destruct (rune_width (String a s)) as [n|] eqn:E; [|done].
  cbn [concat_strings]. apply rune_width_pos in E. rewrite IH; [apply stake_sdrop| |done].
  rewrite length_sdrop. simpl in *. lia.
Qed.

Lemma normalise_valid s : valid_utf8 s = true → normalise s = s.
Proof. intros. by apply normalise_fuel_valid. Qed.

Lemma Join_snoc l x sep :
  l ≠ [] → Join (l ++ [x]) sep = Join l sep +:+ sep +:+ x.
Proof.
  induction l as [|y l IH]; [done|]. intros _. destruct l as [|z l]; [done|].
  change (Join ((y :: z :: l) ++ [x]) sep) with (y +:+ sep +:+ Join ((z :: l) ++ [x]) sep).
  rewrite IH by done. simpl. by rewrite !append_assoc.
Qed.

(** The last, still open alternative of a list of alternatives. *)
Lemma Join_open l (c x : string) sep :
  Join (l ++ [c +:+ x]) sep = Join (l ++ [c]) sep +:+ x.
Proof.
  destruct l as [|y l]; [done|].
  rewrite !Join_snoc, !append_assoc by done. done.
Qed.

Lemma splitByPipe_loop_join rs curr res :
  Join (splitByPipe_loop rs curr res) "|" = Join (res ++ [curr]) "|" +:+ concat_strings rs.
Proof.
  revert curr res. induction rs as [|ch rs IH]; intros curr res; simpl.
  { by rewrite append_nil_r. }
  destruct (decide (ch = "|")) as [->|Hc]; rewrite IH.
  - by rewrite Join_snoc, append_nil_r, append_assoc by (by destruct res).
  - by rewrite Join_open, append_assoc.
Qed.

(** Bars never survive: a rune other than ["|"] contains no ['|'] byte. *)
Lemma cont_not_bar a : cont a = true → a ≠ "|"%char.
Proof. by intros ? ->. Qed.
Lemma in_range_not_bar a lo hi : 128 ≤ lo → in_range a lo hi = true → a ≠ "|"%char.
Proof. 
  intros Hlo [H _]%andb_true_iff ->. apply Z.leb_le in H.
  change (ascZ "|") with 124 in H. lia.
Qed.

Lemma contains_append s t c :
  contains_byte (s +:+ t) c = contains_byte s c || contains_byte t c.
Proof. induction s as [|a s IH]; simpl; [done|]. by rewrite IH, orb_assoc. Qed.

Lemma rune_no_bar s n :
  rune_width s = Some n → stake n s ≠ "|" → contains_byte (stake n s) "|" = false.
Proof.
  destruct s as [|a s]; [done|]. simpl.
  destruct (ascZ a <? 128) eqn:Ea.
  { intros [= <-] Hne. simpl. rewrite orb_false_r.
    apply bool_decide_eq_false_2. intros ->. by destruct Hne. }
  assert (a ≠ "|"%char) as Ha by (intros ->; done).
  destruct s as [|b s]; [done|].
  destruct (in_range a 194 223).
  { destruct (cont b) eqn:Eb; [|done]. intros [= <-] _. simpl.
    by rewrite !bool_decide_eq_false_2 by auto using cont_not_bar. }
  destruct s as [|c s]; [done|].
  destruct (in_range a 224 239).
  { destruct (in_range b _ _) eqn:Eb, (cont c) eqn:Ec; try done. intros [= <-] _. simpl.
    apply in_range_not_bar in Eb; [|by destruct (ascZ a =? 224)].
    by rewrite !bool_decide_eq_false_2 by auto using cont_not_bar. }
  destruct s as [|d s]; [done|]. destruct (in_range a 240 244); [|done].
  destruct (in_range b _ _) eqn:Eb, (cont c) eqn:Ec, (cont d) eqn:Ed; try done.
  intros [= <-] _. simpl.
  apply in_range_not_bar in Eb; [|by destruct (ascZ a =? 240)].
  by rewrite !bool_decide_eq_false_2 by auto using cont_not_bar.
Qed.

Lemma runes_no_bar fuel s :
  Forall (λ ch, ch ≠ "|" → contains_byte ch "|" = false) (runes_fuel fuel s).
Proof.
  revert s. induction fuel as [|fuel IH]; intros [|a s]; cbn [runes_fuel]; try constructor.
  destruct (rune_width (String a s)) as [n|] eqn:E; constructor; auto.
  by apply rune_no_bar.
Qed.

Lemma splitByPipe_loop_no_bar rs curr res :
  Forall (λ ch, ch ≠ "|" → contains_byte ch "|" = false) rs →
  contains_byte curr "|" = false →
  Forall (λ x, contains_byte x "|" = false) res →
  Forall (λ x, contains_byte x "|" = false) (splitByPipe_loop rs curr res).
Proof.
  intros Hrs. revert curr res.
  induction Hrs as [|ch rs Hch _ IH]; intros curr res Hc Hres; simpl.
  { apply Forall_app. auto. }
  destruct (decide (ch = "|")) as [->|Hne]; apply IH; auto.
  - apply Forall_app. auto.
  - by rewrite contains_append, Hc, Hch.
Qed.

(** The alternatives, joined by bars, are the text with its invalid bytes
    replaced, and no alternative contains a bar. *)
Theorem splitByPipe_spec s :
  Join (splitByPipe s) "|" = normalise s ∧
  Forall (λ x, contains_byte x "|" = false) (splitByPipe s).
Proof.
  destruct s as [|a s]; [split; [done|repeat constructor]|].
  unfold splitByPipe. split.
  - by rewrite splitByPipe_loop_join.
  - apply splitByPipe_loop_no_bar; [apply runes_no_bar|done|constructor].
Qed.

Lemma splitByPipe_loop_nonempty rs curr res : splitByPipe_loop rs curr res ≠ [].
Proof.
  revert curr res. induction rs as [|ch rs IH]; intros curr res; simpl.
  - by destruct res.
  - case_decide; apply IH.
Qed.

Lemma splitByPipe_nonempty s : splitByPipe s ≠ [].
Proof. destruct s; [done|]. apply splitByPipe_loop_nonempty. Qed.

(** ** What [expandPattern] computes *)

(** A pattern has a group when it is [prefix ( inner ) suffix] with no ['(']
    in the prefix and balanced parentheses inside. *)
Definition is_group (s prefix inner suffix : string) : Prop :=
  s = prefix +:+ String "(" (inner +:+ String ")" suffix) ∧
  contains_byte prefix "(" = false ∧ scans inner 1 1.

(** The names a pattern stands for: without a group, the alternatives between
    bars; with one, prefix, one alternative of the group (taken literally, a
    nested group is not expanded) and a name of the suffix. *)
Inductive Expands : string → string → Prop :=
| Expands_flat s w :
    (∀ p i r, ¬ is_group s p i r) → w ∈ splitByPipe s → Expands s w
| Expands_group s p i r part w :
    is_group s p i r → part ∈ splitByPipe i → Expands r w →
    Expands s (p +:+ part +:+ w).

Definition cut_group (s : string) : option (string * string * string) :=
  match find_left s with
  | None => None
  | Some (p, rest) =>
      match find_right rest 1 with
      | None => None
      | Some (i, r) => Some (p, i, r)
      end
  end.

Lemma cut_group_spec s p i r : cut_group s = Some (p, i, r) ↔ is_group s p i r.
Proof.
  unfold cut_group, is_group. split.
  - destruct (find_left s) as [[p' rest]|] eqn:E; [|done].
    destruct (find_right rest 1) as [[i' r']|] eqn:E'; [|done]. intros [= -> -> ->].
    apply find_left_sound in E as [-> Hp]. apply find_right_sound in E' as [-> Hs]. done.
  - intros (-> & Hp & Hs). rewrite find_left_complete by done.
    by rewrite (find_right_complete i 1 1 r).
Qed.

Lemma cut_group_None s : cut_group s = None ↔ ∀ p i r, ¬ is_group s p i r.
Proof.
  split.
  - intros H p i r Hg. apply cut_group_spec in Hg. by rewrite Hg in H.
  - intros H. destruct (cut_group s) as [[[p i] r]|] eqn:E; [|done].
    apply cut_group_spec in E. by destruct (H p i r).
Qed.

Lemma expandPattern_fuel_unfold fuel s :
  expandPattern_fuel (S fuel) s =
  match cut_group s with
  | None => splitByPipe s
  | Some (p, i, r) =>
      part ← splitByPipe i; suff ← expandPattern_fuel fuel r; [p +:+ part +:+ suff]
  end.
Proof.
  unfold cut_group. simpl. destruct (find_left s) as [[p rest]|]; [|done].
  by destruct (find_right rest 1) as [[i r]|].
Qed.

Lemma length_append s t :
  String.length (s +:+ t) = (String.length s + String.length t)%nat.
Proof. induction s as [|a s IH]; simpl; [done|]. by rewrite IH. Qed.

Lemma is_group_shorter s p i r :
  is_group s p i r → (String.length r < String.length s)%nat.
Proof. intros (-> & _ & _). rewrite length_append. simpl. rewrite length_append. simpl. lia. Qed.

Lemma is_group_unique s p i r p' i' r' :
  is_group s p i r → is_group s p' i' r' → (p, i, r) = (p', i', r').
Proof. intros H%cut_group_spec H'%cut_group_spec. by simplify_eq. Qed.

Lemma expandPattern_fuel_spec fuel s w :
  (String.length s < fuel)%nat → (w ∈ expandPattern_fuel fuel s ↔ Expands s w).
Proof.
  revert s w. induction fuel as [|fuel IH]; intros s w Hl; [lia|].
  rewrite expandPattern_fuel_unfold.
  destruct (cut_group s) as [[[p i] r]|] eqn:E.
  - apply cut_group_spec in E. pose proof (is_group_shorter _ _ _ _ E).
    rewrite list_elem_of_bind. split.
    + intros (part & Hin & Hpart). apply list_elem_of_bind in Hin as (v & Hv & Hr).
      apply list_elem_of_singleton in Hv as ->. eapply Expands_group; [done..|]. apply IH; [lia|done].
    + inversion 1 as [|? p' i' r' part v Hg Hp He]; subst.
      { match goal with Hn : ∀ _ _ _, ¬ _ |- _ => by destruct (Hn _ _ _ E) end. }
      pose proof (is_group_unique _ _ _ _ _ _ _ E Hg) as [= -> -> ->].
      exists part. split; [|done]. apply list_elem_of_bind. exists v.
      split; [by apply list_elem_of_singleton|]. apply IH; [lia|done].
  - pose proof (proj1 (cut_group_None s) E) as Hn. split.
    + intros. by constructor.
    + inversion 1; subst; [done|].
      match goal with Hg : is_group _ _ _ _ |- _ => by destruct (Hn _ _ _ Hg) end.
Qed.

(** C15: [expandPattern] returns exactly the names its pattern stands for, for
    every string, and always at least one. *)
Theorem expandPattern_correct (s : string) :
  (∀ w, w ∈ expandPattern s ↔ Expands s w) ∧ expandPattern s ≠ [].
Proof.
  split; [intros w; apply expandPattern_fuel_spec; lia|].
  unfold expandPattern. assert (String.length s < S (String.length s))%nat as Hl by lia.
  revert Hl. generalize (S (String.length s)) as fuel. intros fuel.
  revert s. induction fuel as [|fuel IH]; intros s Hl; [lia|].
  rewrite expandPattern_fuel_unfold.
  destruct (cut_group s) as [[[p i] r]|] eqn:E; [|apply splitByPipe_nonempty].
  apply cut_group_spec, is_group_shorter in E.
  destruct (splitByPipe i) as [|x l] eqn:Es; [by apply splitByPipe_nonempty in Es|].
  specialize (IH r ltac:(lia)). by destruct (expandPattern_fuel fuel r).
Qed.
