(* ===== verification/GoNet.v ===== *)
(** * [net/netip] and [net] address texts

    The parts of the Go standard library the program uses to read and print
    IP addresses: [netip.ParseAddr], [netip.ParsePrefix], [Addr.String],
    [Prefix.Contains], [Addr.Next], [net.ParseIP], [net.IP.String],
    [net.JoinHostPort] and [net.SplitHostPort].  They follow the library's
    documented grammar, written as the library writes them. *)

From Stdlib Require Import Strings.Ascii.
From S2P Require Import Prelude GoStd.

(** A [netip.Addr]: a 32-bit or a 128-bit number, the latter with a zone. *)
Inductive Addr :=
| AddrInvalid
| Addr4 (n : Z)
| Addr6 (n : Z) (zone : string).

#[export] Instance Addr_eq_dec : EqDecision Addr.
Proof. solve_decision. Defined.

Definition IsValid (a : Addr) : bool := match a with AddrInvalid => false | _ => true end.
Definition Is4 (a : Addr) : bool := match a with Addr4 _ => true | _ => false end.
Definition Is6 (a : Addr) : bool := match a with Addr6 _ _ => true | _ => false end.
(** [::ffff:a.b.c.d]. *)
Definition mapped (n : Z) : bool := Z.shiftr n 32 =? 65535.
Definition Is4In6 (a : Addr) : bool := match a with Addr6 n _ => mapped n | _ => false end.
Definition Zone (a : Addr) : string := match a with Addr6 _ z => z | _ => "" end.

Definition addr_wf (a : Addr) : Prop :=
  match a with
  | AddrInvalid => True
  | Addr4 n => 0 ≤ n < 2 ^ 32
  | Addr6 n _ => 0 ≤ n < 2 ^ 128
  end.

(** The [k]-th of [w] big-endian bytes of [n], and back. *)
Definition byte_of (w : nat) (n : Z) (k : nat) : Z := Z.shiftr n (8 * (Z.of_nat w - 1 - Z.of_nat k)) mod 256.
Definition bytes_of (w : nat) (n : Z) : list Z := byte_of w n <$> seq 0 w.
Definition of_bytes (l : list Z) : Z := foldl (λ acc b, acc * 256 + b) 0 l.

(** ** IPv4 text *)

(** [parseIPv4Fields]: one pass over the text; [first] is true at the first
    byte and [prev_dot] when the previous byte is a dot. *)
Fixpoint parseIPv4Fields (s : string) (first prev_dot : bool)
    (val digLen : Z) (fields : list Z) : result (list Z) :=
  match s with
  | EmptyString =>
      if decide (len fields < 3) then Fail (ErrNew "IPv4 address too short")
      else Ok (fields ++ [val])
  | String c s' =>
      if is_digit c then
        if decide (digLen = 1 ∧ val = 0)
        then Fail (ErrNew "IPv4 field has octet with leading zero")
        else
          let val := val * 10 + digit_val c in
          if decide (255 < val) then Fail (ErrNew "IPv4 field has value >255")
          else parseIPv4Fields s' false false val (digLen + 1) fields
      else if decide (c = "."%char) then
        if first || bool_decide (s' = EmptyString) || prev_dot
        then Fail (ErrNew "IPv4 field must have at least one digit")
        else if decide (len fields = 3) then Fail (ErrNew "IPv4 address too long")
        else parseIPv4Fields s' false true 0 0 (fields ++ [val])
      else Fail (ErrNew "unexpected character")
  end.

Definition parseIPv4 (s : string) : result Addr :=
  match parseIPv4Fields s true false 0 0 [] with
  | Ok l => Ok (Addr4 (of_bytes l))
  | Fail e => Fail e
  end.

(** ** IPv6 text *)

Definition hex_val (a : ascii) : option Z :=
  if is_digit a then Some (digit_val a)
  else if in_range a 97 102 then Some (ascZ a - 87)
  else if in_range a 65 70 then Some (ascZ a - 55)
  else None.

(** One group: up to four hex digits, read from [s]; the result is the number
    of digits, the value and the rest. *)
Fixpoint hex_group (s : string) (off : Z) (acc : Z) : result (Z * Z * string) :=
  match s with
  | EmptyString => Ok (off, acc, s)
  | String c s' =>
      match hex_val c with
      | None => Ok (off, acc, s)
      | Some d =>
          if decide (3 < off) then Fail (ErrNew "each group must have 4 or less digits")
          else hex_group s' (off + 1) (acc * 16 + d)
      end
  end.

(** The main loop.  [i] counts the bytes written to [ip] so far, [ip] is the
    list of those bytes, [ell] the position of the ellipsis. *)
Fixpoint parse6_loop (fuel : nat) (s : string) (ip : list Z) (ell : option Z)
    : result (string * list Z * option Z) :=
  match fuel with
  | O => Ok (s, ip, ell)
  | S fuel =>
    if decide (16 ≤ len ip) then Ok (s, ip, ell) else
    match hex_group s 0 0 with
    | Fail e => Fail e
    | Ok (off, acc, rest) =>
      if decide (off = 0)
      then Fail (ErrNew "each colon-separated field must have at least one digit")
      else match rest with
      | String "." _ =>
          if decide (ell = None ∧ len ip ≠ 12)
          then Fail (ErrNew "embedded IPv4 address must replace the final 2 fields of the address")
          else if decide (16 < len ip + 4)
          then Fail (ErrNew "too many hex fields to fit an embedded IPv4 at the end of the address")
          else match parseIPv4Fields s true false 0 0 [] with
               | Fail e => Fail e
               | Ok l => Ok (EmptyString, ip ++ l, ell)
               end
      | _ =>
          let ip := ip ++ [acc / 256; acc mod 256] in
          match rest with
          | EmptyString => Ok (EmptyString, ip, ell)
          | String ":" EmptyString =>
              Fail (ErrNew "colon must be followed by more characters")
          | String ":" (String c2 s2 as s1) =>
              if decide (c2 = ":"%char) then
                match ell with
                | Some _ => Fail (ErrNew "multiple :: in address")
                | None =>
                    match s2 with
                    | EmptyString => Ok (EmptyString, ip, Some (len ip))
                    | _ => parse6_loop fuel s2 ip (Some (len ip))
                    end
                end
              else parse6_loop fuel s1 ip ell
          | _ => Fail (ErrNew "unexpected character, want colon")
          end
      end
    end
  end.

Definition parseIPv6 (inp : string) : result Addr :=
  let i := IndexByte inp "%" in
  let s := if decide (i = -1) then inp else stake (Z.to_nat i) inp in
  let zone := if decide (i = -1) then EmptyString else sdrop (S (Z.to_nat i)) inp in
  if decide (i ≠ -1 ∧ zone = EmptyString)
  then Fail (ErrNew "zone must be a non-empty string") else
  let start :=
    match s with
    | String ":" (String ":" r) => (r, Some 0)
    | _ => (s, None)
    end in
  match start with
  | (EmptyString, Some _) => Ok (Addr6 0 zone)
  | (s, ell) =>
      match parse6_loop 9 s [] ell with
      | Fail e => Fail e
      | Ok (rest, ip, ell) =>
          if decide (rest ≠ EmptyString) then Fail (ErrNew "trailing garbage after address")
          else match ell with
          | None =>
              if decide (len ip < 16) then Fail (ErrNew "address string too short")
              else Ok (Addr6 (of_bytes ip) zone)
          | Some e =>
              if decide (len ip < 16) then
                let n := Z.to_nat e in
                Ok (Addr6 (of_bytes (take n ip ++ replicate (16 - length ip) 0 ++ drop n ip)) zone)
              else Fail (ErrNew "the :: must expand to at least one field of zeros")
          end
      end
  end.

(** The first of ['.'], [':'] and ['%'] decides. *)
Fixpoint addr_kind (s : string) : option ascii :=
  match s with
  | EmptyString => None
  | String c s' =>
      if decide (c = "."%char ∨ c = ":"%char ∨ c = "%"%char) then Some c else addr_kind s'
  end.

Definition ParseAddr (s : string) : result Addr :=
  match addr_kind s with
  | Some "."%char => parseIPv4 s
  | Some ":"%char => parseIPv6 s
  | Some _ => Fail (ErrNew "missing IPv6 address")
  | None => Fail (ErrNew "unable to parse IP")
  end.

(** ** Printing *)

Definition string4 (n : Z) : string := Join (itoa <$> bytes_of 4 n) ".".

Definition hex_digit (z : Z) : ascii :=
  if decide (z < 10) then ascii_of_N (Z.to_N (z + 48)) else ascii_of_N (Z.to_N (z + 87)).

(** [strconv.AppendUint(x, 16)] for a 16-bit [x]. *)
Definition hex16 (x : Z) : string :=
  let d k := String (hex_digit (x / 16 ^ k mod 16)) in
  if decide (x < 16) then d 0 ""
  else if decide (x < 256) then d 1 (d 0 "")
  else if decide (x < 4096) then d 2 (d 1 (d 0 ""))
  else d 3 (d 2 (d 1 (d 0 ""))).

Definition u16s (n : Z) : list Z :=
  (λ k, Z.shiftr n (16 * (7 - Z.of_nat k)) mod 65536) <$> seq 0 8.

(** The length of the run of zeros at the head. *)
Fixpoint zrun (l : list Z) : nat :=
  match l with 0 :: l' => S (zrun l') | _ => O end.

(** The first longest run of at least two zero groups, as (start, end). *)
Definition zero_run (l : list Z) : option (nat * nat) :=
  foldl (λ best i,
    let r := zrun (drop i l) in
    let cur := match best with Some (a, b) => (b - a)%nat | None => O end in
    if decide ((2 ≤ r ∧ cur < r)%nat) then Some (i, (i + r)%nat) else best)
    None (seq 0 8).

Definition string6 (n : Z) (zone : string) : string :=
  let l := u16s n in
  let body :=
    match zero_run l with
    | None => Join (hex16 <$> l) ":"
    | Some (a, b) => Join (hex16 <$> take a l) ":" +:+ "::" +:+ Join (hex16 <$> drop b l) ":"
    end in
  if decide (zone = "") then body else body +:+ "%" +:+ zone.

Definition AddrString (a : Addr) : string :=
  match a with
  | AddrInvalid => "invalid IP"
  | Addr4 n => string4 n
  | Addr6 n zone =>
      if mapped n then
        let s := "::ffff:" +:+ string4 (n mod 2 ^ 32) in
        if decide (zone = "") then s else s +:+ "%" +:+ zone
      else string6 n zone
  end.

(** ** Prefixes *)

Record Prefix := mkPrefix { pAddr : Addr; pBits : Z }.

Definition ParsePrefix (s : string) : result Prefix :=
  let i := LastIndexByte s "/" in
  if decide (i < 0) then Fail (ErrNew "no '/'") else
  let a := stake (Z.to_nat i) s in
  let bits := sdrop (S (Z.to_nat i)) s in
  match ParseAddr a with
  | Fail e => Fail e
  | Ok ip =>
      if decide (Is6 ip = true ∧ Zone ip ≠ "")
      then Fail (ErrNew "IPv6 zones cannot be present in a prefix") else
      (* a leading sign, or a leading zero before other digits, is refused *)
      let c0 := match bits with String c (String _ _) => Some c | _ => None end in
      if match c0 with Some c => (ascZ c <? 49) || (57 <? ascZ c) | None => false end
      then Fail (ErrNew "bad bits after slash") else
      match Atoi bits with
      | Fail e => Fail (ErrNew "bad bits after slash")
      | Ok n =>
          let maxBits := if Is6 ip then 128 else 32 in
          if decide (n < 0 ∨ maxBits < n) then Fail (ErrNew "prefix length out of range")
          else Ok (mkPrefix ip n)
      end
  end.

(** [Prefix.Masked().Addr()]: the host bits cleared. *)
Definition Masked (p : Prefix) : Addr :=
  match pAddr p with
  | Addr4 n => Addr4 (Z.shiftl (Z.shiftr n (32 - pBits p)) (32 - pBits p))
  | Addr6 n z => Addr6 (Z.shiftl (Z.shiftr n (128 - pBits p)) (128 - pBits p)) ""
  | AddrInvalid => AddrInvalid
  end.

(** [Prefix.Contains]: same family, no zone, equal leading bits. *)
Definition PrefixContains (p : Prefix) (ip : Addr) : bool :=
  match pAddr p, ip with
  | Addr4 a, Addr4 b => Z.shiftr a (32 - pBits p) =? Z.shiftr b (32 - pBits p)
  | Addr6 a _, Addr6 b z =>
      bool_decide (z = "") && (Z.shiftr a (128 - pBits p) =? Z.shiftr b (128 - pBits p))
  | _, _ => false
  end.

(** [Addr.Next]: the zero Addr past the last address. *)
Definition Next (a : Addr) : Addr :=
  match a with
  | Addr4 n => if decide (n + 1 < 2 ^ 32) then Addr4 (n + 1) else AddrInvalid
  | Addr6 n z => if decide (n + 1 < 2 ^ 128) then Addr6 (n + 1) z else AddrInvalid
  | AddrInvalid => AddrInvalid
  end.

(** [netip.AddrFromSlice]: 4 or 16 bytes. *)
Definition AddrFromSlice (l : list Z) : Addr * bool :=
  if decide (length l = 4%nat) then (Addr4 (of_bytes l), true)
  else if decide (length l = 16%nat) then (Addr6 (of_bytes l) "", true)
  else (AddrInvalid, false).

(** [Addr.AsSlice]. *)
Definition AsSlice (a : Addr) : list Z :=
  match a with
  | AddrInvalid => []
  | Addr4 n => bytes_of 4 n
  | Addr6 n _ => bytes_of 16 n
  end.

(** ** [net.IP]

    A [net.IP] is a byte slice; nil is [None].  [net.ParseIP] always returns
    the 16-byte form. *)

Definition IP := list Z.

Definition v4in6 (n : Z) : Z := 65535 * 2 ^ 32 + n.

Definition ParseIP (s : string) : option IP :=
  match ParseAddr s with
  | Ok (Addr4 n) => Some (bytes_of 16 (v4in6 n))
  | Ok (Addr6 n "") => Some (bytes_of 16 n)
  | _ => None
  end.

(** [ip.To4()]: [None] is nil. *)
Definition To4 (ip : IP) : option IP :=
  if decide (length ip = 4%nat) then Some ip
  else if decide (length ip = 16%nat ∧ mapped (of_bytes ip) = true)
  then Some (drop 12 ip) else None.

Definition IPString (ip : IP) : string :=
  if decide (length ip = 0%nat) then "<nil>"
  else match To4 ip with
  | Some p4 => Join (itoa <$> p4) "."
  | None =>
      if decide (length ip = 16%nat) then string6 (of_bytes ip) ""
      else "?" (* followed by the bytes in hexadecimal *)
  end.

(** ** Host and port *)

Definition JoinHostPort (host port : string) : string :=
  if contains_byte host ":" then "[" +:+ host +:+ "]:" +:+ port
  else host +:+ ":" +:+ port.

Definition addr_err (hostport why : string) : error :=
  ErrNew ("address " +:+ hostport +:+ ": " +:+ why).

Definition SplitHostPort (hostport : string) : result (string * string) :=
  let bad why := Fail (addr_err hostport why) in
  let i := LastIndexByte hostport ":" in
  if decide (i < 0) then bad "missing port in address" else
  let port := sdrop (S (Z.to_nat i)) hostport in
  match hostport with
  | String "[" _ =>
      let e := IndexByte hostport "]" in
      if decide (e < 0) then bad "missing ']' in address"
      else if decide (e + 1 = slen hostport) then bad "missing port in address"
      else if decide (e + 1 ≠ i) then
        match sdrop (Z.to_nat (e + 1)) hostport with
        | String ":" _ => bad "too many colons in address"
        | _ => bad "missing port in address"
        end
      else
        let host := stake (Z.to_nat (e - 1)) (sdrop 1 hostport) in
        if contains_byte (sdrop 1 hostport) "[" then bad "unexpected '[' in address"
        else if contains_byte (sdrop (Z.to_nat (e + 1)) hostport) "]"
        then bad "unexpected ']' in address"
        else Ok (host, port)
  | _ =>
      let host := stake (Z.to_nat i) hostport in
      if contains_byte host ":" then bad "too many colons in address"
      else if contains_byte hostport "[" then bad "unexpected '[' in address"
      else if contains_byte hostport "]" then bad "unexpected ']' in address"
      else Ok (host, port)
  end.

(** ** The library behaves as documented on sample texts *)

Definition reprint (s : string) : string :=
  match ParseAddr s with Ok a => AddrString a | Fail e => error_Error e end.

Example reprint_samples :
  reprint <$> ["10.0.0.1"; "255.255.255.255"; "::"; "::1"; "2001:db8::1";
               "2001:DB8:0:0:1:0:0:1"; "::ffff:1.2.3.4"; "fe80::1%eth0"; "1:2:3:4:5:6:7:8"; "1::"]
  = ["10.0.0.1"; "255.255.255.255"; "::"; "::1"; "2001:db8::1";
     "2001:db8::1:0:0:1"; "::ffff:1.2.3.4"; "fe80::1%eth0"; "1:2:3:4:5:6:7:8"; "1::"].
Proof. vm_compute. reflexivity. Qed.

Example parse_rejects :
  (is_ok ∘ ParseAddr) <$> ["1.2.3"; "01.2.3.4"; "1.2.3.256"; "1.2.3.4.5"; "1:2"; ":::"; "1::2::3";
                           "12345::"; "g::"; "1.2.3."; ""; "example.com"; "%eth0"; "1:2:3:4:5:6:7:8::"]
  = [false; false; false; false; false; false; false; false; false; false; false; false; false; false].
Proof. vm_compute. reflexivity. Qed.

Example host_port_samples :
  (JoinHostPort "::1" "80", JoinHostPort "a.b" "80", SplitHostPort "[::1]:80", SplitHostPort "a.b:80",
   is_ok (SplitHostPort "::1:80"), is_ok (SplitHostPort "a.b"), is_ok (SplitHostPort "[a]b:1"))
  = ("[::1]:80", "a.b:80", Ok ("::1", "80"), Ok ("a.b", "80"), false, false, false).
Proof. vm_compute. reflexivity. Qed.
