(* ===== verification/GoTime.v ===== *)
(** [time.ParseDuration] of the Go standard library, with the double-precision
    arithmetic it uses for fractions. *)

From Stdlib Require Import Strings.Ascii.
From S2P Require Import Prelude GoStd.

(** ** Double precision

    A non-negative finite double is [(m, e)], the number [m * 2^e]. *)

Definition f64 : Type := Z * Z.

(** The fraction [p / (q * 2^e)]. *)
Definition scaled (p q e : Z) : Z * Z :=
  if decide (0 ≤ e) then (p, q * 2 ^ e) else (p * 2 ^ (- e), q).

(** The exponent at which [p / q] has 53 bits: scaled by the first guess the
    quotient lies between [2^51] and [2^54]. *)
Definition round_exp (p q : Z) : Z :=
  let e0 := Z.log2 p - Z.log2 q - 52 in
  let '(n, d) := scaled p q e0 in
  let m := n / d in
  if decide (m < 2 ^ 52) then e0 - 1 else if decide (2 ^ 53 ≤ m) then e0 + 1 else e0.

(** [p / q] rounded to 53 significant bits, ties to even ([0 <= p], [0 < q]).
    The exponent range is not modelled: the magnitudes below stay between
    [10^-19] and [2^63 * 3600 * 10^9]. *)
Definition round64 (p q : Z) : f64 :=
  if decide (p = 0) then (0, 0) else
  let e := round_exp p q in
  let '(n, d) := scaled p q e in
  let m := n / d in
  let r := n mod d in
  let m := if decide (2 * r < d) then m
           else if decide (d < 2 * r) then m + 1
           else if Z.even m then m else m + 1 in
  (m, e).

Definition f_of_int (n : Z) : f64 := round64 n 1.
Definition f_div (a b : f64) : f64 :=
  let '(ma, ea) := a in let '(mb, eb) := b in
  let e := ea - eb in
  if decide (0 ≤ e) then round64 (ma * 2 ^ e) mb else round64 ma (mb * 2 ^ (- e)).
Definition f_mul (a b : f64) : f64 :=
  let '(ma, ea) := a in let '(mb, eb) := b in
  let e := ea + eb in
  if decide (0 ≤ e) then round64 (ma * mb * 2 ^ e) 1 else round64 (ma * mb) (2 ^ (- e)).
(** Conversion to an unsigned integer truncates. *)
Definition f_trunc (a : f64) : Z :=
  let '(m, e) := a in if decide (0 ≤ e) then m * 2 ^ e else m / 2 ^ (- e).

(** ** The parser *)

Definition max63 : Z := 2 ^ 63.

(** [leadingInt]: [None] on overflow. *)
Fixpoint leadingInt (x : Z) (s : string) : option (Z * string) :=
  match s with
  | EmptyString => Some (x, s)
  | String c r =>
      if negb (is_digit c) then Some (x, s) else
      if decide (max63 / 10 < x) then None else
      let x := x * 10 + digit_val c in
      if decide (max63 < x) then None else leadingInt x r
  end.

(** [leadingFraction]: digits past an overflow are skipped. *)
Fixpoint leadingFraction (x : Z) (scale : f64) (overflow : bool) (s : string)
    : Z * f64 * string :=
  match s with
  | EmptyString => (x, scale, s)
  | String c r =>
      if negb (is_digit c) then (x, scale, s) else
      if overflow then leadingFraction x scale true r else
      if decide ((max63 - 1) / 10 < x) then leadingFraction x scale true r else
      let y := x * 10 + digit_val c in
      if decide (max63 < y) then leadingFraction x scale true r else
      leadingFraction y (f_mul scale (f_of_int 10)) false r
  end.

(** The unit: everything up to the next digit or dot. *)
Fixpoint unit_prefix (s : string) : string * string :=
  match s with
  | EmptyString => ("", "")
  | String c r =>
      if is_digit c || bool_decide (c = "."%char) then ("", s)
      else let '(u, rest) := unit_prefix r in (String c u, rest)
  end.

(** "µs" and "μs" are UTF-8: C2 B5 and CE BC before the "s". *)
Definition micro1 : string := String "194" (String "181" "s").
Definition micro2 : string := String "206" (String "188" "s").
Definition unitMap (u : string) : option Z :=
  if decide (u = "ns") then Some 1
  else if decide (u = "us" ∨ u = micro1 ∨ u = micro2) then Some 1000
  else if decide (u = "ms") then Some 1000000
  else if decide (u = "s") then Some 1000000000
  else if decide (u = "m") then Some 60000000000
  else if decide (u = "h") then Some 3600000000000
  else None.

(** [quote] of the original text inside the messages is left out of the model:
    the message is the text between quotation marks. *)
Definition quoted (s : string) : string := String "034" s +:+ String "034" "".
Definition dur_err (orig : string) : error := ErrNew ("time: invalid duration " +:+ quoted orig).

(** The loop over the terms of the sum; [d] is what has been added up.  Every
    turn consumes at least a unit. *)
Fixpoint duration_terms (fuel : nat) (orig s : string) (d : Z) : result Z :=
  match fuel, s with
  | _, EmptyString => Ok d
  | O, _ => Ok d
  | S fuel, String c _ =>
      if negb (bool_decide (c = "."%char) || is_digit c) then Fail (dur_err orig) else
      match leadingInt 0 s with
      | None => Fail (dur_err orig)
      | Some (v, s1) =>
          let pre := negb (bool_decide (String.length s1 = String.length s)) in
          let '(f, scale, s2, post) :=
            match s1 with
            | String "."%char r =>
                let '(f, scale, s2) := leadingFraction 0 (1, 0) false r in
                (f, scale, s2, negb (bool_decide (String.length s2 = String.length r)))
            | _ => (0, (1, 0), s1, false)
            end in
          if negb (pre || post) then Fail (dur_err orig) else
          let '(u, s3) := unit_prefix s2 in
          if decide (u = "") then Fail (ErrNew ("time: missing unit in duration " +:+ quoted orig)) else
          match unitMap u with
          | None => Fail (ErrNew ("time: unknown unit " +:+ quoted u +:+ " in duration " +:+ quoted orig))
          | Some unit =>
              if decide (max63 / unit < v) then Fail (dur_err orig) else
              let v := v * unit in
              let v := if decide (0 < f)
                       then u64 (v + f_trunc (f_mul (f_of_int f) (f_div (f_of_int unit) scale)))
                       else v in
              if decide (max63 < v) then Fail (dur_err orig) else
              let d := u64 (d + v) in
              if decide (max63 < d) then Fail (dur_err orig) else
              duration_terms fuel orig s3 d
          end
      end
  end.

Definition ParseDuration (s : string) : result Z :=
  let orig := s in
  let '(neg, s) :=
    match s with
    | String "-"%char r => (true, r)
    | String "+"%char r => (false, r)
    | _ => (false, s)
    end in
  if decide (s = "0") then Ok 0 else
  if decide (s = "") then Fail (dur_err orig) else
  let? d := duration_terms (String.length s) orig s 0 in
  if neg then Ok (s64 (- d)) else
  if decide (max63 - 1 < d) then Fail (dur_err orig) else Ok d.

Example parse_durations :
  ParseDuration "300ms" = Ok 300000000 ∧
  ParseDuration "1.5h" = Ok 5400000000000 ∧
  ParseDuration "0.1s" = Ok 100000000 ∧
  ParseDuration "1m0.3s" = Ok 60300000000 ∧
  ParseDuration "-2us" = Ok (-2000) ∧
  ParseDuration "0" = Ok 0 ∧
  is_ok (ParseDuration "5") = false ∧
  is_ok (ParseDuration ".s") = false ∧
  is_ok (ParseDuration "9223372036s") = true ∧
  is_ok (ParseDuration "9223372037s") = false.
Proof. by vm_compute. Qed.
