(* ===== verification/Json.v ===== *)
(** Decoding of JSON objects into Go structs, as [encoding/json] does it: the
    input is the parsed value; keys select fields by exact name or by name up
    to case, a later key wins, [null] clears a pointer and leaves other plain
    fields alone, and the first error in document order is reported. *)

From Stdlib Require Import Strings.Ascii.
From S2P Require Import Prelude GoStd.

#[local] Set Warnings "-register-all".

(** A number literal carries its value when it is a decimal integer literal;
    fractions and exponents never decode into Go integers. *)
Inductive json :=
| JNull
| JBool (b : bool)
| JNum (n : option Z)
| JStr (s : string)
| JArr (l : list json)
| JObj (l : list (string * json)).

(** The text of a scalar, as handed to an [UnmarshalJSON] method; composite
    values only need to differ from every accepted text. *)
Definition raw_text (v : json) : string :=
  match v with
  | JNull => "null"
  | JBool true => "true"
  | JBool false => "false"
  | JNum (Some n) => itoa n
  | JNum None => "1.5"
  | JStr s => String "034" (s +:+ String "034" "")
  | JArr _ => "["
  | JObj _ => "{"
  end.

Definition type_error (what : string) : error := ErrEnv ("json: cannot unmarshal " +:+ what).

(** [json.Unmarshal(data, &s)] for a string [s]: [null] leaves it empty. *)
Definition unmarshal_string (v : json) : result string :=
  match v with
  | JStr s => Ok s
  | JNull => Ok ""
  | _ => Fail (type_error "value into Go value of type string")
  end.

(** How a field of a struct takes a value: the error of a value it refuses. *)
Definition check := json → option error.

Definition check_string : check := λ v,
  match v with JNull | JStr _ => None | _ => Some (type_error "value of type string") end.
Definition in_int (lo hi : Z) (n : Z) : bool := (lo <=? n) && (n <=? hi).
Definition check_int (lo hi : Z) : check := λ v,
  match v with
  | JNull => None
  | JNum (Some n) => if in_int lo hi n then None else Some (type_error "number")
  | _ => Some (type_error "value of type int")
  end.
Definition check_bool : check := λ v,
  match v with JNull | JBool _ => None | _ => Some (type_error "value of type bool") end.
Definition minInt : Z := - 2 ^ 63.
Definition maxInt : Z := 2 ^ 63 - 1.
Definition check_with {A} (f : json → result A) : check := λ v,
  match f v with Ok _ => None | Fail e => Some e end.

Definition fields : Type := list (string * check).

(** The field a key selects. *)
Definition field_of (fs : fields) (key : string) : option (string * check) :=
  match find (λ f, bool_decide (fst f = key)) fs with
  | Some f => Some f
  | None => find (λ f, bool_decide (ToLower (fst f) = ToLower key)) fs
  end.

Definition object := list (string * json).

(** The values a field receives, in order. *)
Definition values (fs : fields) (name : string) (o : object) : list json :=
  omap (λ '(k, v), match field_of fs k with
                   | Some (n, _) => if decide (n = name) then Some v else None
                   | None => None
                   end) o.

Definition first_error (fs : fields) (o : object) : option error :=
  head (omap (λ '(k, v), match field_of fs k with Some (_, c) => c v | None => None end) o).

(** A pointer field: [nil] unless the last value is not [null]. *)
Definition pointer_field {A} (get : json → option A) (fs : fields) (name : string)
    (o : object) : option A :=
  match last (values fs name o) with Some v => get v | None => None end.
(** A plain field keeps the last value that is not [null]. *)
Definition plain_field {A} (get : json → option A) (zero : A) (fs : fields) (name : string)
    (o : object) : A :=
  default zero (last (omap get (values fs name o))).
(** A field with an [UnmarshalJSON] method sees every value. *)
Definition custom_field {A} (f : json → result A) (zero : A) (fs : fields) (name : string)
    (o : object) : A :=
  match last (values fs name o) with
  | Some v => match f v with Ok a => a | Fail _ => zero end
  | None => zero
  end.

Definition get_string (v : json) : option string :=
  match v with JStr s => Some s | _ => None end.
Definition get_int (v : json) : option Z :=
  match v with JNum (Some n) => Some n | _ => None end.
Definition get_bool (v : json) : option bool :=
  match v with JBool b => Some b | _ => None end.

(** [json.Unmarshal(data, &tmp)] for a struct [tmp]: [k] builds it from the
    object; [null] leaves it zero. *)
Definition unmarshal_struct {A} (fs : fields) (k : object → A) (v : json) : result A :=
  match v with
  | JObj o => match first_error fs o with Some e => Fail e | None => Ok (k o) end
  | JNull => Ok (k [])
  | _ => Fail (type_error "value into Go struct")
  end.
