(* ===== verification/Cache.v ===== *)
(** The interface of a cache (the program's freelru maps, a third-party
    package): whatever it forgets, a hit is the value last stored. *)

From S2P Require Import Prelude.

Class Cache (K V C : Type) := {
  cget : C → K → option V;
  cadd : C → K → V → Z → C          (* AddWithLifetime *)
}.

Class CacheLaws (K V C : Type) `{Cache K V C} := {
  cget_cadd (c : C) (k k' : K) (v v' : V) l :
    cget (cadd c k v l) k' = Some v' → k' = k ∧ v' = v ∨ cget c k' = Some v'
}.

(** Everything a cache can answer satisfies [P]. *)
Definition cache_all {K V C} `{Cache K V C} (P : K → V → Prop) (c : C) : Prop :=
  ∀ k v, cget c k = Some v → P k v.

(** A global that may be nil. *)
Definition opt_get {K V C} `{Cache K V C} (c : option C) (k : K) : option V :=
  match c with Some c => cget c k | None => None end.
Definition opt_add {K V C} `{Cache K V C} (c : option C) (k : K) (v : V) (l : Z) : option C :=
  (λ c, cadd c k v l) <$> c.
Definition opt_all {K V C} `{Cache K V C} (P : K → V → Prop) (c : option C) : Prop :=
  ∀ k v, opt_get c k = Some v → P k v.

Section laws.
Context {K V C : Type} `{CacheLaws K V C}.

Lemma opt_all_add (P : K → V → Prop) (c : option C) k v l :
  opt_all P c → P k v → opt_all P (opt_add c k v l).
Proof.
  intros Hc Hv k' v'. destruct c as [c|]; simpl; [|done].
  intros [[-> ->]|Hg]%cget_cadd; [done|]. by apply Hc.
Qed.

Lemma opt_all_nil (P : K → V → Prop) : opt_all (C:=C) P None.
Proof. intros k v. done. Qed.
End laws.

(** A cache that never forgets, and one that never remembers. *)
#[export] Instance gmap_cache {V} : Cache string V (gmap string V) :=
  {| cget c k := c !! k; cadd c k v _ := <[k := v]> c |}.
#[export] Instance gmap_cache_laws {V} : CacheLaws string V (gmap string V).
Proof.
  constructor. intros c k k' v v' l. simpl. rewrite lookup_insert_Some.
  intros [[-> ->]|[_ ?]]; [by left|by right].
Qed.
#[export] Instance null_cache {K V} : Cache K V unit := {| cget _ _ := None; cadd c _ _ _ := c |}.
#[export] Instance null_cache_laws {K V} : CacheLaws K V unit.
Proof. by constructor. Qed.
