(* ===== verification/TransformIP.v ===== *)
(** [transformIP] of [internal/utils.go]: an address moved into another
    network, keeping its host bits. *)

From Stdlib Require Import Strings.Ascii.
From S2P Require Import Prelude GoStd GoNet.

(** Byte [i] of the new address, from the bytes of the address and of the
    masked network. *)
Definition new_byte (bits : Z) (ipBytes netBytes : list Z) (i : Z) : go Z :=
  let bitPos := u8 (i * 8) in
  let! ipb := idx ipBytes i in
  let! netb := idx netBytes i in
  if decide (u8 (bitPos + 8) ≤ bits) then Some netb
  else if decide (bits ≤ bitPos) then Some ipb
  else
    let maskBits := u8 (u8 bits - bitPos) in
    let mask := u8 (Z.shiftl 255 (u8 (8 - maskBits))) in
    Some (Z.lor (Z.land netb mask) (Z.land ipb (Z.lxor mask 255))).

Fixpoint new_bytes (bits : Z) (ipBytes netBytes : list Z) (is_ : list Z) : go (list Z) :=
  match is_ with
  | [] => Some []
  | i :: is_ =>
      let! b := new_byte bits ipBytes netBytes i in
      let! l := new_bytes bits ipBytes netBytes is_ in
      Some (b :: l)
  end.

Definition range (n : Z) : list Z := Z.of_nat <$> seq 0 (Z.to_nat n).

(** [As4], [As16] of an address of that family. *)
Definition addr_bytes (w : nat) (a : Addr) : list Z :=
  match a with
  | AddrInvalid => replicate w 0
  | Addr4 n => if decide (w = 4%nat) then bytes_of 4 n else bytes_of 16 (v4in6 n)
  | Addr6 n _ => bytes_of 16 n
  end.

Definition transformIP (ipStr targetNetStr : string) : go (result string) :=
  match ParseAddr ipStr with
  | Fail _ => Some (Fail (ErrNew "invalid IP"))
  | Ok ip =>
      match ParsePrefix targetNetStr with
      | Fail e => Some (Fail (ErrOp "invalid target network" e))
      | Ok prefix =>
          if negb (Bool.eqb (Is4 ip) (Is4 (pAddr prefix)))
          then Some (Fail (ErrNew "IP version mismatch between source IP and target network"))
          else
            let networkAddr := Masked prefix in
            let bits := pBits prefix in
            if Is4 ip then
              let! l := new_bytes bits (addr_bytes 4 ip) (addr_bytes 4 networkAddr) (range 4) in
              Some (Ok (AddrString (Addr4 (of_bytes l))))
            else
              let! l := new_bytes bits (addr_bytes 16 ip) (addr_bytes 16 networkAddr) (range 16) in
              Some (Ok (AddrString (Addr6 (of_bytes l) "")))
      end
  end.

Example transformIP_samples :
  transformIP "1.2.3.4" "10.20.30.0/20" = Some (Ok "10.20.19.4") ∧
  transformIP "1.2.3.4" "10.20.30.40/32" = Some (Ok "10.20.30.40") ∧
  transformIP "2001:db8::5" "fd00::/9" = Some (Ok "fd01:db8::5") ∧
  transformIP "1.2.3.4" "fd00::/8" =
    Some (Fail (ErrNew "IP version mismatch between source IP and target network")).
Proof. by vm_compute. Qed.

(** ** Bytes of numbers *)

Lemma bytes_of_S w n : bytes_of (S w) n = bytes_of w (Z.shiftr n 8) ++ [n mod 256].
Proof.
  unfold bytes_of. rewrite seq_S, fmap_app. f_equal.
  - apply list_fmap_ext. intros i k Hk. apply lookup_seq in Hk as [-> Hk].
    unfold byte_of. rewrite Z.shiftr_shiftr by lia. do 2 f_equal. lia.
  - simpl. unfold byte_of. do 2 f_equal. replace (8 * _) with 0 by lia. apply Z.shiftr_0_r.
Qed.

Lemma of_bytes_snoc l b : of_bytes (l ++ [b]) = of_bytes l * 256 + b.
Proof. unfold of_bytes. by rewrite foldl_app. Qed.

Lemma of_bytes_of w n : of_bytes (bytes_of w n) = n mod 2 ^ (8 * Z.of_nat w).
Proof.
  revert n. induction w as [|w IH]; intros n; [by rewrite Z.mod_1_r|].
  rewrite bytes_of_S, of_bytes_snoc, IH, Z.shiftr_div_pow2 by lia. change (2 ^ 8) with 256.
  replace (8 * Z.of_nat (S w)) with (8 + 8 * Z.of_nat w) by lia.
  rewrite Z.pow_add_r by lia. change (2 ^ 8) with 256.
  rewrite (Z.rem_mul_r n 256) by lia. lia.
Qed.

Lemma byte_of_bit w n k t :
  (k < w)%nat → 0 ≤ t < 8 →
  Z.testbit (byte_of w n k) t = Z.testbit n (8 * (Z.of_nat w - 1 - Z.of_nat k) + t).
Proof.
  intros Hk Ht. unfold byte_of. change 256 with (2 ^ 8).
  rewrite Z.mod_pow2_bits_low, Z.shiftr_spec by lia. f_equal. lia.
Qed.

Lemma byte_of_bound w n k : 0 ≤ byte_of w n k < 256.
Proof. unfold byte_of. apply Z.mod_pos_bound. lia. Qed.

Lemma bytes_bits_inj a b :
  0 ≤ a < 256 → 0 ≤ b < 256 → (∀ t, 0 ≤ t < 8 → Z.testbit a t = Z.testbit b t) → a = b.
Proof.
  intros Ha Hb H. change 256 with (2 ^ 8) in *.
  rewrite <-(Z.mod_small a (2 ^ 8)), <-(Z.mod_small b (2 ^ 8)) by done.
  apply Z.bits_inj'. intros t Ht. destruct (decide (t < 8)).
  - rewrite !Z.mod_pow2_bits_low by lia. by apply H.
  - by rewrite !Z.mod_pow2_bits_high by lia.
Qed.

(** The new address of [w] bytes: network bits above, host bits below. *)
Definition merged (w bits net ip : Z) : Z :=
  Z.lor (Z.shiftl (Z.shiftr net (w - bits)) (w - bits)) (ip mod 2 ^ (w - bits)).

Lemma merged_bit w bits net ip j :
  0 ≤ bits ≤ w → 0 ≤ j →
  Z.testbit (merged w bits net ip) j =
  if decide (w - bits ≤ j) then Z.testbit net j else Z.testbit ip j.
Proof.
  intros Hb Hj. unfold merged. rewrite Z.lor_spec, Z.shiftl_spec by lia. case_decide.
  - rewrite Z.shiftr_spec, Z.mod_pow2_bits_high, orb_false_r by lia. f_equal. lia.
  - rewrite (Z.testbit_neg_r _ (j - (w - bits))) by lia.
    by rewrite Z.mod_pow2_bits_low by lia.
Qed.

Lemma mask_bit m t :
  0 < m < 8 → 0 ≤ t < 8 →
  Z.testbit (u8 (Z.shiftl 255 (u8 (8 - m)))) t = bool_decide (8 - m ≤ t).
Proof.
  intros Hm Ht.
  assert (m = 1 ∨ m = 2 ∨ m = 3 ∨ m = 4 ∨ m = 5 ∨ m = 6 ∨ m = 7) as Hc by lia.
  assert (t = 0 ∨ t = 1 ∨ t = 2 ∨ t = 3 ∨ t = 4 ∨ t = 5 ∨ t = 6 ∨ t = 7) as Hd by lia.
  destruct Hc as [->|[->|[->|[->|[->|[->| ->]]]]]];
    destruct Hd as [->|[->|[->|[->|[->|[->|[->| ->]]]]]]]; reflexivity.
Qed.

(** Mixing two bytes under a mask gives a byte. *)
Lemma mixed_bound a b m : 0 ≤ a < 256 → 0 ≤ b < 256 → 0 ≤ Z.lor (Z.land a m) (Z.land b (Z.lxor m 255)) < 256.
Proof.
  intros Ha Hb. assert (∀ x, 0 ≤ x < 2 ^ 8 ↔ 0 ≤ x ∧ x mod 2 ^ 8 = x) as Hmod.
  { intros x. split; [intros; split; [lia|by apply Z.mod_small]|].
    intros [? <-]. by apply Z.mod_pos_bound. }
  change 256 with (2 ^ 8) in *. apply Hmod. split.
  - apply Z.lor_nonneg. split; apply Z.land_nonneg; lia.
  - rewrite <-!Z.land_ones by lia. rewrite Z.land_lor_distr_l, <-!Z.land_assoc.
    rewrite (Z.land_comm _ (Z.ones 8)), (Z.land_comm (Z.lxor _ _) (Z.ones 8)), !Z.land_assoc.
    rewrite !Z.land_ones by lia. by rewrite !Z.mod_small by lia.
Qed.

Lemma new_byte_spec (w : nat) bits net ip k :
  (w ≤ 16)%nat → 0 ≤ bits ≤ 8 * Z.of_nat w → (k < w)%nat →
  new_byte bits (bytes_of w ip)
    (bytes_of w (Z.shiftl (Z.shiftr net (8 * Z.of_nat w - bits)) (8 * Z.of_nat w - bits)))
    (Z.of_nat k) =
  Some (byte_of w (merged (8 * Z.of_nat w) bits net ip) k).
Proof.
  intros Hw Hb Hk. unfold new_byte.
  assert (Hidx : ∀ n, idx (bytes_of w n) (Z.of_nat k) = Some (byte_of w n k)).
  { intros n. unfold idx. rewrite decide_True by lia. rewrite Nat2Z.id. unfold bytes_of.
    rewrite list_lookup_fmap, lookup_seq_lt by done. done. }
  rewrite !Hidx. set (W := 8 * Z.of_nat w) in *.
  set (N := Z.shiftl _ _). set (j0 := 8 * (Z.of_nat w - 1 - Z.of_nat k)).
  assert (Hpos : u8 (Z.of_nat k * 8) = Z.of_nat k * 8) by (unfold u8; rewrite Z.mod_small; lia).
  assert (Hpos8 : u8 (Z.of_nat k * 8 + 8) = Z.of_nat k * 8 + 8) by (unfold u8; rewrite Z.mod_small; lia).
  rewrite Hpos, Hpos8.
  assert (HN : ∀ t, 0 ≤ t < 8 → W - bits ≤ j0 + t → Z.testbit (byte_of w N k) t = Z.testbit net (j0 + t)).
  { intros t Ht Hj. rewrite byte_of_bit by done. fold j0. unfold N.
    rewrite Z.shiftl_spec by lia. rewrite Z.shiftr_spec by lia. f_equal. lia. }
  assert (HM : ∀ t, 0 ≤ t < 8 → Z.testbit (byte_of w (merged W bits net ip) k) t =
    if decide (W - bits ≤ j0 + t) then Z.testbit net (j0 + t) else Z.testbit ip (j0 + t)).
  { intros t Ht. rewrite byte_of_bit by done. fold j0. apply merged_bit; lia. }
  case_decide; [|case_decide].
  - f_equal. apply bytes_bits_inj; [apply byte_of_bound..|]. intros t Ht.
    rewrite HM, HN by lia. by rewrite decide_True by lia.
  - f_equal. apply bytes_bits_inj; [apply byte_of_bound..|]. intros t Ht.
    rewrite HM by done. rewrite decide_False by lia. by rewrite byte_of_bit by done.
  - f_equal. set (m := bits - Z.of_nat k * 8).
    assert (Hm : u8 (u8 bits - Z.of_nat k * 8) = m).
    { unfold u8. rewrite (Z.mod_small bits) by lia. rewrite Z.mod_small; lia. }
    rewrite Hm. assert (0 < m < 8) by lia.
    apply bytes_bits_inj; [| |].
    + apply mixed_bound; apply byte_of_bound.
    + apply byte_of_bound.
    + intros t Ht. rewrite HM by done.
      rewrite Z.lor_spec, !Z.land_spec, Z.lxor_spec, mask_bit by done.
      assert (Z.testbit 255 t = true) as ->.
      { change 255 with (Z.ones 8). by apply Z.ones_spec_low. }
      rewrite byte_of_bit with (n := ip) by done. fold j0.
      case_bool_decide; case_decide; try (unfold m, W, j0 in *; lia).
      * rewrite HN by lia. by rewrite andb_true_r, andb_false_r, orb_false_r.
      * by rewrite andb_false_r, andb_true_r.
Qed.

Lemma new_bytes_spec (w : nat) bits net ip ks :
  (w ≤ 16)%nat → 0 ≤ bits ≤ 8 * Z.of_nat w → (∀ k, k ∈ ks → (k < w)%nat) →
  new_bytes bits (bytes_of w ip)
    (bytes_of w (Z.shiftl (Z.shiftr net (8 * Z.of_nat w - bits)) (8 * Z.of_nat w - bits)))
    (Z.of_nat <$> ks) =
  Some (byte_of w (merged (8 * Z.of_nat w) bits net ip) <$> ks).
Proof.
  intros Hw Hb. induction ks as [|k ks IH]; intros Hks; [done|]. cbn [fmap list_fmap new_bytes].
  rewrite new_byte_spec by (done || apply Hks; by left).
  change (list_fmap nat Z Z.of_nat) with (fmap (M:=list) Z.of_nat).
  rewrite IH by (intros; apply Hks; by right). done.
Qed.

(** ** Parsed addresses are in range *)

Definition byteZ (b : Z) : Prop := 0 ≤ b < 256.

Lemma of_bytes_bound l : Forall byteZ l → 0 ≤ of_bytes l < 2 ^ (8 * len l).
Proof.
  induction l as [|b l IH] using rev_ind; [done|]. intros [Hl [Hb _]%Forall_cons]%Forall_app.
  unfold byteZ in Hb. specialize (IH Hl).
  rewrite of_bytes_snoc, len_app. change (len [b]) with 1.
  replace (8 * (len l + 1)) with (8 + 8 * len l) by lia. pose proof (len_nonneg l).
  rewrite Z.pow_add_r by lia. change (2 ^ 8) with 256. nia.
Qed.

Lemma digit_val_bound c : is_digit c = true → 0 ≤ digit_val c ≤ 9.
Proof. unfold is_digit, digit_val. lia. Qed.

Lemma parseIPv4Fields_wf s first dot val dl fields l :
  parseIPv4Fields s first dot val dl fields = Ok l →
  0 ≤ val < 256 → Forall byteZ fields → len fields ≤ 3 → Forall byteZ l ∧ len l = 4.
Proof.
  revert first dot val dl fields. induction s as [|c s IH]; intros first dot val dl fields; simpl.
  - case_decide; [done|]. intros [= <-] Hv Hf Hn. split.
    + apply Forall_app. split; [done|]. by apply Forall_singleton.
    + rewrite len_app. change (len [val]) with 1. lia.
  - destruct (is_digit c) eqn:Hc.
    + case_decide; [done|]. case_decide; [done|]. pose proof (digit_val_bound c Hc).
      intros Hres ???. eapply IH; [exact Hres|lia|done|done].
    + case_decide; [|done]. destruct (_ || _ || _); [done|]. case_decide; [done|].
      intros Hres Hv Hf Hn. eapply IH; [exact Hres|lia| |].
      * apply Forall_app. split; [done|]. by apply Forall_singleton.
      * rewrite len_app. change (len [val]) with 1. lia.
Qed.

Lemma hex_val_bound c d : hex_val c = Some d → 0 ≤ d < 16.
Proof.
  unfold hex_val, in_range. destruct (is_digit c) eqn:E.
  - intros [= <-]. pose proof (digit_val_bound c E). lia.
  - destruct ((97 <=? ascZ c) && (ascZ c <=? 102)) eqn:E1; [intros H; injection H as <-; lia|].
    destruct ((65 <=? ascZ c) && (ascZ c <=? 70)) eqn:E2; [intros H; injection H as <-; lia|done].
Qed.

Lemma hex_group_bound s off acc off' acc' r :
  hex_group s off acc = Ok (off', acc', r) → 0 ≤ off ≤ 4 → 0 ≤ acc < 16 ^ off →
  0 ≤ acc' < 65536.
Proof.
  revert off acc. induction s as [|c s IH]; intros off acc; simpl.
  - intros [= <- <- <-] Ho Ha. pose proof (Z.pow_le_mono_r 16 off 4 ltac:(lia) ltac:(lia)). lia.
  - destruct (hex_val c) as [d|] eqn:E.
    + case_decide; [done|]. intros Hres Ho Ha. apply hex_val_bound in E.
      eapply IH; [exact Hres|lia|]. replace (off + 1) with (1 + off) by lia.
      rewrite Z.pow_add_r by lia. change (16 ^ 1) with 16. lia.
    + intros [= <- <- <-] Ho Ha. pose proof (Z.pow_le_mono_r 16 off 4 ltac:(lia) ltac:(lia)). lia.
Qed.

Definition ip_prefix_ok (ip : list Z) : Prop := Forall byteZ ip ∧ len ip ≤ 16 ∧ len ip mod 2 = 0.

Lemma ip_prefix_group ip acc :
  ip_prefix_ok ip → ¬ 16 ≤ len ip → 0 ≤ acc < 65536 → ip_prefix_ok (ip ++ [acc / 256; acc mod 256]).
Proof.
  intros (Hb & Hl & Hm) Hn Ha. split; [|rewrite len_app; change (len [_; _]) with 2].
  - apply Forall_app. split; [done|]. pose proof (Z.mod_pos_bound acc 256 ltac:(lia)).
    constructor; [|by constructor]. unfold byteZ. split; [apply Z.div_pos; lia|].
    apply Z.div_lt_upper_bound; lia.
  - rewrite Z.add_mod, Hm by lia. split; [|done].
    pose proof (Z.div_mod (len ip) 2 ltac:(lia)). lia.
Qed.

Lemma parse6_loop_wf fuel s ip ell s' ip' ell' :
  parse6_loop fuel s ip ell = Ok (s', ip', ell') → ip_prefix_ok ip → ip_prefix_ok ip'.
Proof.
  revert s ip ell. induction fuel as [|fuel IH]; intros s ip ell; [by intros [= _ -> _]|].
  cbn [parse6_loop]. case_decide as H16; [by intros [= _ -> _]|].
  destruct (hex_group s 0 0) as [[[off acc] rest]|] eqn:Hg; [|done].
  apply hex_group_bound in Hg; [|lia|lia]. case_decide; [done|].
  intros Hres Hip. pose proof (ip_prefix_group ip acc Hip H16 Hg) as Hnext.
  set (ip2 := ip ++ [acc / 256; acc mod 256]) in *.
  assert (Hdot : ∀ r', rest = String "."%char r' → ip_prefix_ok ip').
  { intros r' ->. case_decide; [done|]. case_decide; [done|].
    destruct (parseIPv4Fields s true false 0 0 []) as [l|] eqn:E; [|done].
    injection Hres as _ <- _. apply parseIPv4Fields_wf in E as [E1 E2]; [|lia|constructor|unfold len; simpl; lia].
    destruct Hip as (Hb & Hl & Hm). split; [by apply Forall_app|].
    rewrite len_app, E2. split; [lia|]. by rewrite Z.add_mod, Hm by lia. }
  destruct rest as [|c rest]; [by injection Hres as _ <- _|].
  destruct (decide (c = "."%char)) as [->|]; [by eapply Hdot|].
  assert (Hcolon : ∀ r', String c rest = String ":"%char r' → ip_prefix_ok ip').
  { intros r' [= -> ->]. destruct r' as [|c2 s2]; [done|]. revert Hres. case_decide.
    - destruct ell; [done|]. destruct s2; [by intros [= _ <- _]|]. intros Hres. by eapply IH.
    - intros Hres. by eapply IH. }
  destruct (decide (c = ":"%char)) as [->|]; [by eapply Hcolon|].
  exfalso. revert Hres. clear Hdot Hcolon. destruct c as [[] [] [] [] [] [] [] []]; try done.
Qed.

Lemma ParseAddr_wf s a : ParseAddr s = Ok a → addr_wf a.
Proof.
  unfold ParseAddr. destruct (addr_kind s) as [c|]; [|done].
  assert (H4 : ∀ a, parseIPv4 s = Ok a → addr_wf a).
  { intros a' H. unfold parseIPv4 in H. destruct (parseIPv4Fields _ _ _ _ _ _) as [l|] eqn:E; [|done].
    injection H as <-. apply parseIPv4Fields_wf in E as [E1 E2]; [|lia|constructor|unfold len; simpl; lia].
    simpl. pose proof (of_bytes_bound l E1) as Hb. by rewrite E2 in Hb. }
  assert (H6 : ∀ a, parseIPv6 s = Ok a → addr_wf a).
  { intros a' H. unfold parseIPv6 in H. case_decide; [done|].
    destruct (match (if decide (IndexByte s "%" = -1) then s else _) with String _ _ => _ | _ => _ end)
      as [s1 ell]. 
    assert (Hx : ∀ z, match parse6_loop 9 s1 [] ell with
      | Fail e => Fail e
      | Ok (rest, ip, ell) =>
          if decide (rest ≠ EmptyString) then Fail (ErrNew "trailing garbage after address")
          else match ell with
          | None => if decide (len ip < 16) then Fail (ErrNew "address string too short")
                    else Ok (Addr6 (of_bytes ip) z)
          | Some e => if decide (len ip < 16) then
                let n := Z.to_nat e in
                Ok (Addr6 (of_bytes (take n ip ++ replicate (16 - length ip) 0 ++ drop n ip)) z)
              else Fail (ErrNew "the :: must expand to at least one field of zeros")
          end
      end = Ok a' → addr_wf a').
    { clear H H0. intros z. destruct (parse6_loop 9 s1 [] ell) as [[[rest ip] ell']|] eqn:E; [|done].
      apply parse6_loop_wf in E as (Hb & Hl & Hm); [|split; [constructor|done]].
      case_decide; [done|]. destruct ell' as [e|]; case_decide; try done; intros [= <-]; simpl.
      - set (n := Z.to_nat e).
        assert (Forall byteZ (take n ip ++ replicate (16 - length ip) 0 ++ drop n ip)) as Hf.
        { rewrite !Forall_app. split; [by apply Forall_take|]. split; [|by apply Forall_drop].
          apply Forall_replicate. unfold byteZ. lia. }
        apply of_bytes_bound in Hf. revert Hf.
        assert (len (take n ip ++ replicate (16 - length ip) 0 ++ drop n ip) = 16) as ->.
        { unfold len in *. rewrite !length_app, length_replicate, length_take, length_drop. lia. }
        done.
      - apply of_bytes_bound in Hb. assert (len ip = 16) as Hlen by lia. by rewrite Hlen in Hb. }
    destruct s1, ell; try (by eapply Hx). injection H as <-. done. }
  destruct (decide (c = "."%char)) as [->|]; [apply H4|].
  destruct (decide (c = ":"%char)) as [->|]; [apply H6|].
  intros H. exfalso. revert H. destruct c as [[] [] [] [] [] [] [] []]; done.
Qed.

Lemma ParsePrefix_wf s p :
  ParsePrefix s = Ok p → addr_wf (pAddr p) ∧ 0 ≤ pBits p ≤ (if Is6 (pAddr p) then 128 else 32).
Proof.
  unfold ParsePrefix. case_decide; [done|].
  destruct (ParseAddr _) as [ip|] eqn:Ha; [|done]. apply ParseAddr_wf in Ha.
  case_decide; [done|]. destruct (match _ with Some c => _ | None => false end); [done|].
  destruct (Atoi _) as [n|]; [|done]. case_decide; [done|]. intros [= <-]. simpl.
  split; [done|]. lia.
Qed.

Lemma merged_bound w bits net ip :
  0 ≤ bits ≤ w → 0 ≤ net < 2 ^ w → 0 ≤ merged w bits net ip < 2 ^ w.
Proof.
  intros Hb Hn.
  assert (0 ≤ merged w bits net ip).
  { apply Z.lor_nonneg. split; [apply Z.shiftl_nonneg, Z.shiftr_nonneg; lia|].
    apply Z.mod_pos_bound. lia. }
  split; [done|]. destruct (decide (merged w bits net ip = 0)) as [->|]; [lia|].
  apply Z.log2_lt_pow2; [lia|]. apply Z.nle_gt. intros Hlog.
  pose proof (Z.bit_log2 (merged w bits net ip) ltac:(lia)) as Hbit.
  rewrite merged_bit, decide_True in Hbit by lia.
  destruct (decide (net = 0)) as [->|]; [by rewrite Z.bits_0 in Hbit|].
  rewrite Z.bits_above_log2 in Hbit; [done|lia|].
  apply Z.lt_le_trans with w; [apply Z.log2_lt_pow2; lia|done].
Qed.

Lemma merged_network w bits net ip :
  0 ≤ bits ≤ w → Z.shiftr (merged w bits net ip) (w - bits) = Z.shiftr net (w - bits).
Proof.
  intros Hb. apply Z.bits_inj'. intros j Hj. rewrite !Z.shiftr_spec, merged_bit by lia.
  by rewrite decide_True by lia.
Qed.

Lemma merged_host w bits net ip :
  0 ≤ bits ≤ w → merged w bits net ip mod 2 ^ (w - bits) = ip mod 2 ^ (w - bits).
Proof.
  intros Hb. apply Z.bits_inj'. intros j Hj. destruct (decide (j < w - bits)).
  - rewrite !Z.mod_pow2_bits_low, merged_bit by lia. by rewrite decide_False by lia.
  - by rewrite !Z.mod_pow2_bits_high by lia.
Qed.

(** The number of an address. *)
Definition addr_num (a : Addr) : Z :=
  match a with AddrInvalid => 0 | Addr4 n | Addr6 n _ => n end.

Lemma masked_bytes w n bits ip :
  (w ≤ 16)%nat → 0 ≤ bits ≤ 8 * Z.of_nat w →
  new_bytes bits (bytes_of w ip)
    (bytes_of w (Z.shiftl (Z.shiftr n (8 * Z.of_nat w - bits)) (8 * Z.of_nat w - bits)))
    (range (Z.of_nat w)) = Some (bytes_of w (merged (8 * Z.of_nat w) bits n ip)).
Proof.
  intros Hw Hb. unfold range. rewrite Nat2Z.id. rewrite new_bytes_spec; [done|done|done|].
  intros k Hk%elem_of_seq. lia.
Qed.

(** No input makes [transformIP] panic. *)
Lemma new_bytes_total bits ip net is_ :
  (∀ i, i ∈ is_ → 0 ≤ i < len ip ∧ 0 ≤ i < len net) → ∃ l, new_bytes bits ip net is_ = Some l.
Proof.
  induction is_ as [|i is_ IH]; intros H; [by exists []|]. simpl.
  destruct (H i ltac:(by left)) as [H1 H2]. unfold new_byte.
  destruct (idx_Some ip i H1) as [x ->], (idx_Some net i H2) as [y ->].
  destruct IH as [l ->]; [intros j Hj; apply H; by right|].
  repeat case_decide; by eexists.
Qed.

Lemma addr_bytes_len w a : w = 16%nat ∨ (w = 4%nat ∧ Is4 a = true) → len (addr_bytes w a) = Z.of_nat w.
Proof.
  assert (∀ w n, len (bytes_of w n) = Z.of_nat w) as Hb
    by (intros; unfold len, bytes_of; by rewrite length_fmap, length_seq).
  intros [->|[-> H]]; destruct a as [|n|n z]; cbn [addr_bytes].
  - reflexivity.
  - rewrite decide_False by lia. apply Hb.
  - apply Hb.
  - discriminate H.
  - rewrite decide_True by lia. apply Hb.
  - discriminate H.
Qed.

Lemma range_bound n i : i ∈ range n → 0 ≤ i < n.
Proof.
  unfold range. rewrite list_elem_of_fmap. intros (k & -> & Hk). apply elem_of_seq in Hk. lia.
Qed.

Lemma transformIP_total ipStr net : ∃ r, transformIP ipStr net = Some r.
Proof.
  unfold transformIP. destruct (ParseAddr ipStr) as [ip|]; [|by eexists].
  destruct (ParsePrefix net) as [p|]; [|by eexists].
  destruct (Bool.eqb (Is4 ip) (Is4 (pAddr p))) eqn:E; cbn [negb]; [|by eexists].
  apply eqb_prop in E. destruct (Is4 ip) eqn:H4.
  - destruct (new_bytes_total (pBits p) (addr_bytes 4 ip) (addr_bytes 4 (Masked p)) (range 4)) as [l ->];
      [|by eexists].
    intros i Hi%range_bound. rewrite (addr_bytes_len 4 ip), (addr_bytes_len 4 (Masked p)); [done|..];
      right; (split; [reflexivity|]); [|exact H4].
    unfold Masked. by destruct (pAddr p).
  - destruct (new_bytes_total (pBits p) (addr_bytes 16 ip) (addr_bytes 16 (Masked p)) (range 16)) as [l ->];
      [|by eexists].
    intros i Hi%range_bound. rewrite (addr_bytes_len 16 ip), (addr_bytes_len 16 (Masked p)) by auto.
    done.
Qed.

(** C14: whenever the address and the target network parse and are of one
    family, [transformIP] succeeds and prints an address that lies in the
    network and has the host bits of the address it was given. *)
Theorem transformIP_moves (ipStr targetNetStr : string) (ip : Addr) (prefix : Prefix) :
  ParseAddr ipStr = Ok ip → ParsePrefix targetNetStr = Ok prefix →
  Is4 ip = Is4 (pAddr prefix) → ip ≠ AddrInvalid → pAddr prefix ≠ AddrInvalid →
  ∃ a, transformIP ipStr targetNetStr = Some (Ok (AddrString a)) ∧ addr_wf a ∧ Is4 a = Is4 ip ∧
    PrefixContains prefix a = true ∧
    let host := (if Is4 ip then 32 else 128) - pBits prefix in
    addr_num a mod 2 ^ host = addr_num ip mod 2 ^ host.
Proof.
  intros Hip Hpre Hfam Hi Hp. unfold transformIP. rewrite Hip, Hpre, Hfam, eqb_reflx. cbn [negb].
  pose proof (ParseAddr_wf _ _ Hip) as Hwi. destruct (ParsePrefix_wf _ _ Hpre) as [Hwp Hbits].
  destruct prefix as [net bits]. simpl in Hfam, Hp, Hwp, Hbits. cbn [pAddr pBits].
  destruct ip as [|n|n z], net as [|m|m z']; try done; cbn [Is4 Is6] in *; unfold Masked; cbn [pAddr pBits addr_bytes].
  - rewrite !decide_True by done. pose proof (masked_bytes 4 m bits n ltac:(lia) ltac:(lia)) as Hm.
    change (8 * Z.of_nat 4) with 32 in Hm. change (Z.of_nat 4) with 4 in Hm. rewrite Hm.
    exists (Addr4 (merged 32 bits m n)). rewrite of_bytes_of.
    change (8 * Z.of_nat 4) with 32.
    pose proof (merged_bound 32 bits m n Hbits Hwp). rewrite Z.mod_small by done.
    split; [done|]. split; [done|]. split; [done|]. split.
    + unfold PrefixContains. cbn [pAddr pBits]. rewrite merged_network by done. apply Z.eqb_refl.
    + by apply merged_host.
  - pose proof (masked_bytes 16 m bits n ltac:(lia) ltac:(lia)) as Hm.
    change (8 * Z.of_nat 16) with 128 in Hm. change (Z.of_nat 16) with 16 in Hm. rewrite Hm.
    exists (Addr6 (merged 128 bits m n) ""). rewrite of_bytes_of.
    change (8 * Z.of_nat 16) with 128.
    pose proof (merged_bound 128 bits m n Hbits Hwp). rewrite Z.mod_small by done.
    split; [done|]. split; [done|]. split; [done|]. split.
    + unfold PrefixContains. cbn [pAddr pBits]. rewrite merged_network by done.
      rewrite bool_decide_true by done. apply Z.eqb_refl.
    + by apply merged_host.
Qed.

Lemma transformIP_moves_witness :
  ∃ a, transformIP "192.168.7.9" "10.20.0.0/14" = Some (Ok (AddrString a)) ∧
    PrefixContains (mkPrefix (Addr4 (10 * 2 ^ 24 + 20 * 2 ^ 16)) 14) a = true.
Proof.
  destruct (transformIP_moves "192.168.7.9" "10.20.0.0/14" (Addr4 (192 * 2 ^ 24 + 168 * 2 ^ 16 + 7 * 256 + 9))
    (mkPrefix (Addr4 (10 * 2 ^ 24 + 20 * 2 ^ 16)) 14)) as (a & Ha & _ & _ & Hc & _);
    [vm_compute; reflexivity|vm_compute; reflexivity|done|done|done|].
  by exists a.
Defined.
