(* ===== verification/ClientHello.v ===== *)
(** * The TLS ClientHello parser (internal/utils.go)

    [parseClientHello] locates the server name inside a captured TLS record;
    [findLastDotOrMidPos] picks the point at which the record is cut. *)

From Stdlib Require Import Btauto.
From S2P Require Import Prelude GoStd.

Definition tlsRecordTypeHandshake : Z := 0x16.
Definition tlsMajorVersion : Z := 0x3.
Definition tlsRecordHeaderLen : Z := 5.
Definition tlsHandshakeHeaderLen : Z := 4.
Definition tlsHandshakeTypeClientHello : Z := 0x1.
Definition tlsExtTypeSNI : Z := 0x0000.
Definition tlsExtTypeKeyShare : Z := 0x0033.
Definition tlsExtTypeECH : Z := 0x00fe.

(** The six results of [parseClientHello]. *)
Record hello := mkHello {
  prtVer : bytes;
  sniStart : Z;
  sniLen : Z;
  hasKeyShare : bool;
  hasECH : bool;
  helloErr : option error
}.

Definition bytes_LastIndexByte (l : bytes) (c : byte) : Z :=
  foldl (λ best '(i, b), if decide (b = c) then i else best) (-1)
    (imap (λ i b, (Z.of_nat i, b)) l).

Definition findLastDotOrMidPos (data : bytes) (sniStart sniLen : Z) : go Z :=
  let! sni := slice data sniStart (sniStart + sniLen) in
  let subIdx := bytes_LastIndexByte sni Byte.x2e in
  if decide (subIdx = -1) then Some (sniLen `quot` 2 + sniStart)
  else Some (sniStart + subIdx).

(** The SNI extension of the extensions loop: [Ok (nameStart, nameLen)]. *)
Definition parseSNI (data : bytes) (extDataStart extDataEnd extLen : Z)
    : go (result (Z * Z)) :=
  if decide (extLen < 2)
  then Some (Fail (ErrNew "malformed SNI extension (too short for list length)")) else
  let! l := slice data extDataStart (extDataStart + 2) in
  let! listLen := be16 l in
  if decide (listLen + 2 ≠ extLen)
  then Some (Fail (ErrNew "SNI list length field mismatch")) else
  let cursor := extDataStart + 2 in
  if decide (extDataEnd < cursor + 3)
  then Some (Fail (ErrNew "SNI entry too short")) else
  let! nameType := idx data cursor in
  if decide (bZ nameType ≠ 0)
  then Some (Fail (ErrNew "unsupported SNI name type")) else
  let! nl := slice data (cursor + 1) (cursor + 3) in
  let! nameLen := be16 nl in
  let nameStart := cursor + 3 in
  let nameEnd := nameStart + nameLen in
  if decide (extDataEnd < nameEnd)
  then Some (Fail (ErrNew "SNI name length exceeds extension"))
  else Some (Ok (nameStart, nameLen)).

(** The extensions loop.  Each turn moves [offset] forward by at least four
    bytes, so the length of the record is enough fuel. *)
Fixpoint parseExtensions (fuel : nat) (data : bytes) (offset extensionsEnd : Z)
    (h : hello) : go hello :=
  match fuel with
  | O => Some h
  | S fuel =>
    if decide (extensionsEnd < offset + 4) then Some h else
    let! tb := slice data offset (offset + 2) in
    let! extType := be16 tb in
    let! lb := slice data (offset + 2) (offset + 4) in
    let! extLen := be16 lb in
    let extDataStart := offset + 4 in
    let extDataEnd := extDataStart + extLen in
    let fail e := Some (mkHello (prtVer h) (sniStart h) (sniLen h)
                                (hasKeyShare h) (hasECH h) (Some e)) in
    if decide (extensionsEnd < extDataEnd)
    then fail (ErrNew "extension length exceeds extensions block") else
    let ks := bool_decide (extType = tlsExtTypeKeyShare) || hasKeyShare h in
    let ech := bool_decide (extType = tlsExtTypeECH) || hasECH h in
    if decide (sniStart h = -1 ∧ extType = tlsExtTypeSNI) then
      let! r := parseSNI data extDataStart extDataEnd extLen in
      match r with
      | Fail e => Some (mkHello (prtVer h) (sniStart h) (sniLen h) ks ech (Some e))
      | Ok (nameStart, nameLen) =>
          parseExtensions fuel data extDataEnd extensionsEnd
            (mkHello (prtVer h) nameStart nameLen ks ech None)
      end
    else
      parseExtensions fuel data extDataEnd extensionsEnd
        (mkHello (prtVer h) (sniStart h) (sniLen h) ks ech None)
  end.

Definition parseClientHello (data : bytes) : go hello :=
  let bad v msg := Some (mkHello v (-1) 0 false false (Some (ErrNew msg))) in
  let! d0 := idx data 0 in
  if decide (bZ d0 ≠ tlsRecordTypeHandshake)
  then bad [] "not a TLS handshake record" else
  let! d1 := idx data 1 in
  if decide (bZ d1 ≠ tlsMajorVersion)
  then bad [] "not a standard TLS record" else
  let! rl := slice data 3 5 in
  let! recordLen := be16 rl in
  if decide (len data < tlsRecordHeaderLen + recordLen)
  then bad [] "record length exceeds data size" else
  let offset := tlsRecordHeaderLen in
  if decide (recordLen < tlsHandshakeHeaderLen)
  then bad [] "handshake message too short" else
  let! ht := idx data offset in
  if decide (bZ ht ≠ tlsHandshakeTypeClientHello)
  then bad [] ("not a ClientHello handshake (type=" +:+ itoa (bZ ht) +:+ ")") else
  let! h1 := idx data (offset + 1) in
  let! h2 := idx data (offset + 2) in
  let! h3 := idx data (offset + 3) in
  let handshakeLen :=
    Z.lor (Z.lor (Z.shiftl (bZ h1) 16) (Z.shiftl (bZ h2) 8)) (bZ h3) in
  if decide (recordLen < handshakeLen + tlsHandshakeHeaderLen)
  then bad [] "handshake length exceeds record length" else
  let offset := offset + tlsHandshakeHeaderLen in
  if decide (handshakeLen < 2 + 32 + 1)
  then bad [] "ClientHello too short for mandatory fields" else
  let! prtVer := slice data offset (offset + 2) in
  let offset := offset + (2 + 32) in
  if decide (len data ≤ offset) then bad prtVer "unexpected end after Random" else
  let! sb := idx data offset in
  let sessionIDLen := bZ sb in
  let offset := offset + 1 in
  if decide (len data < offset + sessionIDLen)
  then bad prtVer "session_id length exceeds data" else
  let offset := offset + sessionIDLen in
  if decide (len data < offset + 2)
  then bad prtVer "cannot read cipher_suites length" else
  let! cb := slice data offset (offset + 2) in
  let! csLen := be16 cb in
  let offset := offset + 2 in
  if decide (len data < offset + csLen)
  then bad prtVer "cipher_suites exceed data" else
  let offset := offset + csLen in
  if decide (len data ≤ offset)
  then bad prtVer "cannot read compression_methods length" else
  let! mb := idx data offset in
  let compMethodsLen := bZ mb in
  let offset := offset + 1 in
  if decide (len data < offset + compMethodsLen)
  then bad prtVer "compression_methods exceed data" else
  let offset := offset + compMethodsLen in
  if decide (len data < offset + 2)
  then Some (mkHello prtVer (-1) 0 false false None) else
  let! eb := slice data offset (offset + 2) in
  let! extTotalLen := be16 eb in
  let offset := offset + 2 in
  if decide (len data < offset + extTotalLen)
  then bad prtVer "extensions length exceeds data" else
  parseExtensions (length data) data offset (offset + extTotalLen)
    (mkHello prtVer (-1) 0 false false None).

(** ** Reading a record front to back

    [reads data off rest]: from offset [off] on, [data] is [rest]. *)

Definition reads (data : bytes) (off : Z) (rest : bytes) : Prop :=
  ∃ pre, data = pre ++ rest ∧ len pre = off.

Lemma reads_start data : reads data 0 data.
Proof. by exists []. Qed.

Lemma reads_step data off a r off' :
  reads data off (a ++ r) → off' = off + len a → reads data off' r.
Proof.
  intros (pre & -> & Hl) ->. exists (pre ++ a). rewrite <-app_assoc. split; [done|].
  rewrite len_app. lia.
Qed.

Lemma reads_cons data off x r off' :
  reads data off (x :: r) → off' = off + 1 → reads data off' r.
Proof. intros H ->. apply (reads_step data off [x] r); [done|]. done. Qed.

Lemma reads_idx data off x r : reads data off (x :: r) → idx data off = Some x.
Proof.
  intros (pre & -> & Hl). rewrite idx_app_r by lia. by rewrite Hl, Z.sub_diag.
Qed.

Lemma reads_slice data off a r j :
  reads data off (a ++ r) → j = off + len a → slice data off j = Some a.
Proof.
  intros (pre & -> & Hl) ->. pose proof (len_nonneg pre). pose proof (len_nonneg a).
  pose proof (len_nonneg r).
  rewrite slice_Some by (rewrite ?len_app; lia). f_equal.
  replace (Z.to_nat off) with (length pre) by (unfold len in *; lia).
  rewrite drop_app_length.
  replace (Z.to_nat (off + len a - off)) with (length a) by (unfold len in *; lia).
  by rewrite take_app_length.
Qed.

Lemma reads_len data off r : reads data off r → len data = off + len r ∧ 0 ≤ off.
Proof.
  intros (pre & -> & Hl). pose proof (len_nonneg pre). rewrite len_app. lia.
Qed.

Lemma reads_put16 data off n r j :
  reads data off (put16 n ++ r) → j = off + 2 →
  slice data off j = Some (put16 n).
Proof. intros H ->. by eapply reads_slice. Qed.

Lemma be16_put16_small n : 0 ≤ n < 65536 → be16 (put16 n) = Some n.
Proof.
  intros. rewrite <-(app_nil_r (put16 n)), be16_put16. unfold u16. by rewrite Z.mod_small.
Qed.

(** ** A specification of the message, and its encoding *)

Inductive ext :=
| ExtSNI (name : bytes)                (* one host_name entry *)
| ExtOther (ty : Z) (body : bytes).

Record ClientHello := mkClientHello {
  ch_minor : byte;
  ch_ver1 : byte;
  ch_ver2 : byte;
  ch_random : bytes;
  ch_session_id : bytes;
  ch_ciphers : bytes;
  ch_compression : bytes;
  ch_exts : list ext
}.

Definition encode_ext (e : ext) : bytes :=
  match e with
  | ExtSNI name =>
      put16 tlsExtTypeSNI ++ put16 (len name + 5) ++ put16 (len name + 3) ++
      [Byte.x00] ++ put16 (len name) ++ name
  | ExtOther ty body => put16 ty ++ put16 (len body) ++ body
  end.
Definition encode_exts (l : list ext) : bytes := concat (encode_ext <$> l).

Definition encode_prefix (c : ClientHello) : bytes :=
  [ch_ver1 c; ch_ver2 c] ++ ch_random c ++
  [Zb (len (ch_session_id c))] ++ ch_session_id c ++
  put16 (len (ch_ciphers c)) ++ ch_ciphers c ++
  [Zb (len (ch_compression c))] ++ ch_compression c ++
  put16 (len (encode_exts (ch_exts c))).
Definition encode_body (c : ClientHello) : bytes :=
  encode_prefix c ++ encode_exts (ch_exts c).
Definition encode_hello (c : ClientHello) : bytes :=
  let hl := len (encode_body c) in
  [Byte.x16; Byte.x03; ch_minor c] ++ put16 (4 + hl) ++
  [Byte.x01; Byte.x00] ++ put16 hl ++ encode_body c.

Definition ext_wf (e : ext) : Prop :=
  match e with
  | ExtSNI name => True
  | ExtOther ty body => 0 < ty < 65536
  end.
Definition hello_wf (c : ClientHello) : Prop :=
  len (ch_random c) = 32 ∧ len (ch_session_id c) < 256 ∧
  len (ch_compression c) < 256 ∧ Forall ext_wf (ch_exts c) ∧
  len (encode_body c) + 4 < 65536.

(** Where the name is, for extensions that start at [off]. *)
Fixpoint find_sni (l : list ext) (off : Z) : Z * Z :=
  match l with
  | [] => (-1, 0)
  | ExtSNI name :: _ => (off + 9, len name)
  | (ExtOther _ _ as e) :: l' => find_sni l' (off + len (encode_ext e))
  end.
Fixpoint sni_name (l : list ext) : option bytes :=
  match l with
  | [] => None
  | ExtSNI name :: _ => Some name
  | ExtOther _ _ :: l' => sni_name l'
  end.
Definition has_ext (ty : Z) (l : list ext) : bool :=
  existsb (λ e, match e with ExtOther t _ => bool_decide (t = ty) | _ => false end) l.

Definition exts_offset (c : ClientHello) : Z := 9 + len (encode_prefix c).

Lemma encode_ext_len e :
  len (encode_ext e) = match e with ExtSNI n => 9 + len n | ExtOther _ b => 4 + len b end.
Proof. destruct e; unfold encode_ext, put16; autorewrite with lumine; lia. Qed.

Lemma encode_exts_cons e l : encode_exts (e :: l) = encode_ext e ++ encode_exts l.
Proof. done. Qed.

Lemma parseSNI_encode data off name r :
  len name + 5 < 65536 →
  reads data off (put16 (len name + 3) ++ [Byte.x00] ++ put16 (len name) ++ name ++ r) →
  parseSNI data off (off + (len name + 5)) (len name + 5) = Some (Ok (off + 5, len name)).
Proof.
  intros Hn Hr. pose proof (len_nonneg name). unfold parseSNI. rewrite decide_False by lia.
  rewrite (reads_put16 _ _ _ _ _ Hr), be16_put16_small by lia.
  rewrite decide_False by lia. rewrite decide_False by lia.
  assert (Hr1 := reads_step _ _ _ _ (off + 2) Hr eq_refl).
  rewrite (reads_idx _ _ _ _ Hr1). rewrite decide_False by (by vm_compute).
  assert (Hr2 := reads_cons _ _ _ _ (off + 3) Hr1 ltac:(lia)).
  replace (off + 2 + 1) with (off + 3) by lia.
  rewrite (reads_put16 _ _ _ _ _ Hr2), be16_put16_small by lia.
  rewrite decide_False by lia.
  by replace (off + 2 + 3) with (off + 5) by lia.
Qed.

(** The loop over the extensions of an encoded message. *)
(** The header of an extension is read, and the body follows it. *)
Lemma parseExtensions_header fuel data off stop ty n r h :
  0 ≤ ty < 65536 → 0 ≤ n < 65536 → off + 4 + n ≤ stop →
  reads data off (put16 ty ++ put16 n ++ r) →
  parseExtensions (S fuel) data off stop h =
    (let ks := bool_decide (ty = tlsExtTypeKeyShare) || hasKeyShare h in
     let ech := bool_decide (ty = tlsExtTypeECH) || hasECH h in
     if decide (sniStart h = -1 ∧ ty = tlsExtTypeSNI) then
       let! r := parseSNI data (off + 4) (off + 4 + n) n in
       match r with
       | Fail e => Some (mkHello (prtVer h) (sniStart h) (sniLen h) ks ech (Some e))
       | Ok (nameStart, nameLen) => parseExtensions fuel data (off + 4 + n) stop
           (mkHello (prtVer h) nameStart nameLen ks ech None)
       end
     else parseExtensions fuel data (off + 4 + n) stop
       (mkHello (prtVer h) (sniStart h) (sniLen h) ks ech None)) ∧
  reads data (off + 4) r.
Proof.
  intros Ht Hn Hs Hr. cbn [parseExtensions]. rewrite decide_False by lia.
  rewrite (reads_put16 _ _ _ _ _ Hr), be16_put16_small by lia.
  assert (Hr1 := reads_step _ _ _ _ (off + 2) Hr eq_refl).
  rewrite (reads_put16 _ _ _ _ _ Hr1), be16_put16_small by lia.
  split; [by rewrite decide_False by lia|].
  eapply reads_step; [exact Hr1|]. change (len (put16 n)) with 2. lia.
Qed.

Lemma parseExtensions_encode fuel data off l r v start nl ks ech :
  Forall ext_wf l → len (encode_exts l) < 65536 →
  len (encode_exts l) < 4 * Z.of_nat fuel →
  (start = -1 ∧ nl = 0) ∨ 0 ≤ start →
  reads data off (encode_exts l ++ r) →
  parseExtensions fuel data off (off + len (encode_exts l)) (mkHello v start nl ks ech None) =
  Some (mkHello v
    (if decide (start = -1) then fst (find_sni l off) else start)
    (if decide (start = -1) then snd (find_sni l off) else nl)
    (has_ext tlsExtTypeKeyShare l || ks) (has_ext tlsExtTypeECH l || ech) None).
Proof.
  revert fuel off start nl ks ech. induction l as [|e l IH];
    intros fuel off start nl ks ech Hwf Hlen Hfuel Hst Hr.
  { change (len (encode_exts [])) with 0 in *.
    destruct fuel as [|fuel]; [lia|]. cbn [parseExtensions].
    rewrite decide_True by lia. simpl. case_decide; [|done]. by destruct Hst as [[-> ->]|?]; [|lia]. }
  inversion Hwf as [|?? He Hwf']; subst.
  rewrite encode_exts_cons in *. rewrite len_app in *. rewrite <-app_assoc in Hr.
  pose proof (encode_ext_len e) as Hel. pose proof (len_nonneg (encode_exts l)).
  destruct fuel as [|fuel]; [destruct e; len_facts; lia|].
  assert (Hnext := reads_step _ _ _ _ _ Hr eq_refl).
  destruct e as [name|ty body]; cbn match beta in Hel; len_facts.
  - cbn [encode_ext] in Hr. rewrite <-!app_assoc in Hr.
    edestruct (parseExtensions_header fuel) as [-> Hr2]; [| | |exact Hr|]; [unfold tlsExtTypeSNI; lia|lia..|].
    replace (off + (len (encode_ext (ExtSNI name)) + len (encode_exts l)))
      with (off + 4 + (len name + 5) + len (encode_exts l)) by lia.
    rewrite Hel in Hnext. replace (off + (9 + len name)) with (off + 4 + (len name + 5)) in Hnext by lia.
    cbn [sniStart hasKeyShare hasECH prtVer sniLen]. cbv zeta.
    destruct (decide (start = -1)) as [->|Hne].
    + rewrite decide_True by done.
      rewrite (parseSNI_encode data (off + 4) name _ ltac:(lia) Hr2).
      pose proof (reads_len _ _ _ Hr2). len_facts.
      rewrite IH by (done || lia). rewrite !decide_False by lia.
      simpl. by replace (off + 4 + 5) with (off + 9) by lia.
    + rewrite decide_False by tauto. rewrite IH by (done || lia).
      rewrite !decide_False by lia. done.
  - cbn [encode_ext] in Hr. rewrite <-!app_assoc in Hr. simpl in He.
    edestruct (parseExtensions_header fuel) as [-> Hr2]; [| | |exact Hr|]; [lia..|].
    replace (off + (len (encode_ext (ExtOther ty body)) + len (encode_exts l)))
      with (off + 4 + len body + len (encode_exts l)) by lia.
    rewrite Hel in Hnext. replace (off + (4 + len body)) with (off + 4 + len body) in Hnext by lia.
    cbn [sniStart hasKeyShare hasECH prtVer sniLen]. cbv zeta.
    rewrite decide_False by (unfold tlsExtTypeSNI; lia).
    rewrite IH by (done || len_facts; lia).
    change (find_sni (ExtOther ty body :: l) off)
      with (find_sni l (off + len (encode_ext (ExtOther ty body)))).
    rewrite Hel. replace (off + (4 + len body)) with (off + 4 + len body) by lia.
    f_equal. unfold has_ext. simpl existsb. f_equal; btauto.
Qed.

Lemma handshake_len h2 h3 :
  0 ≤ h3 < 256 →
  Z.lor (Z.lor (Z.shiftl 0 16) (Z.shiftl h2 8)) h3 = h2 * 256 + h3.
Proof. intros. rewrite Z.shiftl_0_l, Z.lor_0_l, Z.lor_comm. by apply lor_shiftl8. Qed.

(** One reading step of [parseClientHello] on an encoded message. *)
Ltac read_idx H := rewrite (reads_idx _ _ _ _ H).
Ltac read16 H :=
  rewrite (reads_put16 _ _ _ _ _ H eq_refl), be16_put16_small by lia.

(** The body of an encoded message, field by field. *)
Lemma encode_body_fields c :
  encode_body c =
  ch_ver1 c :: ch_ver2 c :: (ch_random c ++ Zb (len (ch_session_id c)) ::
  (ch_session_id c ++ put16 (len (ch_ciphers c)) ++ ch_ciphers c ++
   Zb (len (ch_compression c)) :: (ch_compression c ++
   put16 (len (encode_exts (ch_exts c))) ++ encode_exts (ch_exts c)))).
Proof.
  unfold encode_body, encode_prefix. rewrite <-!app_assoc. done.
Qed.

Lemma encode_prefix_len c :
  len (encode_prefix c) =
  len (ch_random c) + len (ch_session_id c) + len (ch_ciphers c) + len (ch_compression c) + 8.
Proof. unfold encode_prefix, put16. autorewrite with lumine. lia. Qed.

Lemma encode_body_len c :
  len (encode_body c) = len (encode_prefix c) + len (encode_exts (ch_exts c)).
Proof. unfold encode_body. apply len_app. Qed.

Lemma put16_split n r : put16 n ++ r = Zb (Z.shiftr n 8) :: Zb n :: r.
Proof. done. Qed.

Lemma put16_val n : 0 ≤ n < 65536 → bZ (Zb (Z.shiftr n 8)) * 256 + bZ (Zb n) = n.
Proof.
  intros H. pose proof (be16_put16_small n H) as Hb.
  unfold put16 in Hb. rewrite be16_cons in Hb. by injection Hb.
Qed.

(** From the protocol version on. *)
Lemma parse_hello_header (c : ClientHello) (tail : bytes) :
  hello_wf c →
  let data := encode_hello c ++ tail in
  reads data 9 (encode_body c ++ tail) ∧
  idx data 0 = Some Byte.x16 ∧ idx data 1 = Some Byte.x03 ∧
  slice data 3 5 = Some (put16 (4 + len (encode_body c))) ∧
  idx data 5 = Some Byte.x01 ∧ idx data 6 = Some Byte.x00 ∧
  idx data 7 = Some (Zb (Z.shiftr (len (encode_body c)) 8)) ∧
  idx data 8 = Some (Zb (len (encode_body c))).
Proof.
  intros Hwf data. subst data. unfold encode_hello. rewrite <-!app_assoc.
  assert (H0 := reads_start ([Byte.x16; Byte.x03; ch_minor c] ++
    put16 (4 + len (encode_body c)) ++ [Byte.x01; Byte.x00] ++
    put16 (len (encode_body c)) ++ encode_body c ++ tail)).
  set (data := _ ++ _) in *. unfold data in H0 at 2.
  assert (H3 := reads_step _ _ _ _ 3 H0 eq_refl).
  assert (H5 := reads_step _ _ _ _ 5 H3 eq_refl).
  assert (H7 := reads_step _ _ _ _ 7 H5 eq_refl).
  assert (H9 := reads_step _ _ _ _ 9 H7 eq_refl).
  split; [done|]. repeat split; try done. by apply (reads_put16 _ _ _ _ _ H3).
Qed.

(** Parsing what [encode_hello] prints. *)
Lemma find_sni_slice data l off r name :
  reads data off (encode_exts l ++ r) → sni_name l = Some name →
  let '(s, n) := find_sni l off in slice data s (s + n) = Some name.
Proof.
  revert off. induction l as [|e l IH]; intros off Hr Hn; [done|].
  rewrite encode_exts_cons, <-app_assoc in Hr. destruct e as [nm|ty body].
  - injection Hn as ->. simpl find_sni. cbn [encode_ext] in Hr. rewrite <-!app_assoc in Hr.
    do 4 (eapply reads_step in Hr; [|done]).
    eapply (reads_step _ _ _ _ (off + 9)) in Hr; [by eapply reads_slice|].
    change (len (put16 _)) with 2. change (len [Byte.x00]) with 1. lia.
  - simpl in Hn. eapply reads_step in Hr; [|done].
    by apply (IH (off + len (encode_ext (ExtOther ty body)))).
Qed.

Lemma parse_encode (c : ClientHello) (tail : bytes) :
  hello_wf c →
  parseClientHello (encode_hello c ++ tail) =
  Some (mkHello [ch_ver1 c; ch_ver2 c]
          (fst (find_sni (ch_exts c) (exts_offset c)))
          (snd (find_sni (ch_exts c) (exts_offset c)))
          (has_ext tlsExtTypeKeyShare (ch_exts c)) (has_ext tlsExtTypeECH (ch_exts c)) None) ∧
  ∀ name, sni_name (ch_exts c) = Some name →
    let '(s, n) := find_sni (ch_exts c) (exts_offset c) in
    slice (encode_hello c ++ tail) s (s + n) = Some name.
Proof.
  intros Hwf. pose proof (parse_hello_header c tail Hwf) as
    (H9 & I0 & I1 & S3 & I5 & I6 & I7 & I8).
  destruct Hwf as (Hr & Hs & Hm & Hexts & Hlen).
  set (data := encode_hello c ++ tail) in *.
  pose proof (encode_body_len c) as Hbl. pose proof (encode_prefix_len c) as Hpl.
  pose proof (reads_len _ _ _ H9) as [Hdl _]. rewrite len_app in Hdl.
  split.
  - len_facts. unfold parseClientHello. rewrite I0, I1, S3.
    unfold tlsRecordTypeHandshake, tlsMajorVersion, tlsRecordHeaderLen,
      tlsHandshakeHeaderLen, tlsHandshakeTypeClientHello in *.
    rewrite be16_put16_small by lia.
    rewrite decide_False by (by vm_compute). rewrite decide_False by (by vm_compute).
    rewrite decide_False by lia. rewrite decide_False by lia.
    rewrite I5. rewrite decide_False by (by vm_compute).
    change (5 + 1) with 6. change (5 + 2) with 7. change (5 + 3) with 8.
    rewrite I6, I7, I8. change (bZ Byte.x00) with 0.
    rewrite handshake_len, put16_val by (apply bZ_range || lia).
    rewrite decide_False by lia. rewrite decide_False by lia.
    change (5 + 4) with 9. change (9 + (2 + 32)) with 43.
    rewrite encode_body_fields in H9. cbn [app] in H9.
    rewrite (reads_slice _ _ [ch_ver1 c; ch_ver2 c] _ (9 + 2) H9 eq_refl).
    rewrite decide_False by lia.
    apply (reads_step _ 9 [ch_ver1 c; ch_ver2 c] _ 11) in H9; [|done].
    rewrite <-!app_assoc in H9. apply (reads_step _ _ _ _ 43) in H9; [|lia].
    cbn [app] in H9. read_idx H9. rewrite bZ_Zb_small by lia.
    rewrite decide_False by lia. apply (reads_cons _ _ _ _ (43 + 1)) in H9; [|done].
    rewrite <-!app_assoc in H9. cbn [app] in H9.
    eapply reads_step in H9; [|done]. rewrite decide_False by lia. read16 H9.
    eapply reads_step in H9; [|done]. change (len (put16 _)) with 2 in H9.
    rewrite decide_False by lia. eapply reads_step in H9; [|done].
    rewrite decide_False by lia. read_idx H9. rewrite bZ_Zb_small by lia.
    eapply reads_cons in H9; [|done]. rewrite decide_False by lia.
    rewrite <-!app_assoc in H9. eapply reads_step in H9; [|done].
    rewrite decide_False by lia. read16 H9.
    eapply reads_step in H9; [|done]. change (len (put16 _)) with 2 in H9.
    rewrite decide_False by lia.
    pose proof (reads_len _ _ _ H9) as [Hdl' _]. rewrite len_app in Hdl'.
    rewrite (parseExtensions_encode _ _ _ _ tail) by (done || (unfold len in *; lia)).
    rewrite !decide_True by done. rewrite !orb_false_r.
    by replace (exts_offset c) with
      (43 + 1 + len (ch_session_id c) + 2 + len (ch_ciphers c) + 1 +
       len (ch_compression c) + 2) by (unfold exts_offset; lia).
  - intros name Hn. unfold encode_body in H9. rewrite <-app_assoc in H9.
    eapply reads_step in H9; [|done]. change (9 + len (encode_prefix c)) with (exts_offset c) in H9.
    by apply (find_sni_slice _ _ _ _ _ H9).
Qed.

(** C6: parsing an encoded ClientHello, whatever follows it in the buffer,
    succeeds and returns the protocol version, the exact position and length
    of the first server name (-1 and 0 when there is none), and whether the
    key_share and ECH extensions are present. *)
Theorem parse_encode_hello (c : ClientHello) (tail : bytes) :
  hello_wf c →
  parseClientHello (encode_hello c ++ tail) =
  Some (mkHello [ch_ver1 c; ch_ver2 c]
          (fst (find_sni (ch_exts c) (exts_offset c)))
          (snd (find_sni (ch_exts c) (exts_offset c)))
          (has_ext tlsExtTypeKeyShare (ch_exts c)) (has_ext tlsExtTypeECH (ch_exts c)) None) ∧
  ∀ name, sni_name (ch_exts c) = Some name →
    let '(s, n) := find_sni (ch_exts c) (exts_offset c) in
    slice (encode_hello c ++ tail) s (s + n) = Some name.
Proof. apply parse_encode. Qed.

(** ** No input makes the parser read out of bounds *)

Definition sni_in_bounds (data : bytes) (lo : Z) (h : hello) : Prop :=
  sniStart h = -1 ∧ sniLen h = 0 ∨
  lo ≤ sniStart h ∧ 0 ≤ sniLen h ∧ sniStart h + sniLen h ≤ len data.

Lemma parseSNI_safe data s e l :
  0 ≤ s → e = s + l → e ≤ len data →
  ∃ r, parseSNI data s e l = Some r ∧
    ∀ a n, r = Ok (a, n) → a = s + 5 ∧ 0 ≤ n ∧ a + n ≤ e.
Proof.
  intros Hs -> He. unfold parseSNI.
  case_decide; [by eexists|]. go_u16.
  case_decide; [by eexists|]. case_decide; [by eexists|]. go_idx.
  case_decide; [by eexists|]. go_u16.
  case_decide; [by eexists|]. eexists. split; [done|]. intros a m [= <- <-]. lia.
Qed.

Lemma parseExtensions_safe fuel data off e lo h :
  0 ≤ lo ≤ off + 9 → 0 ≤ off → e ≤ len data → sni_in_bounds data lo h → len (prtVer h) = 2 →
  ∃ h', parseExtensions fuel data off e h = Some h' ∧
    sni_in_bounds data lo h' ∧ len (prtVer h') = 2.
Proof.
  revert off h. induction fuel as [|fuel IH]; intros off h Hlo Hoff He Hb Hv; simpl.
  { by eexists. }
  case_decide; [by eexists|]. go_u16. go_u16.
  case_decide; [by eexists|].
  case_decide as Hd.
  - edestruct (parseSNI_safe data (off + 4) (off + 4 + n0) n0) as ([[a m]|err] & -> & Hr); try lia.
    + destruct (Hr a m eq_refl) as (-> & ? & ?).
      apply IH; try lia; [|done]. right. simpl. lia.
    + eexists. split; [done|]. split; [|done]. destruct Hb as [[-> ->]|[? _]]; [by left|].
      destruct Hd. simpl in *. right. lia.
  - apply IH; try lia; done.
Qed.

Lemma parseClientHello_total (data : bytes) :
  5 ≤ len data →
  ∃ h, parseClientHello data = Some h ∧
    (helloErr h = None → len (prtVer h) = 2 ∧ sni_in_bounds data 58 h).
Proof.
  intros Hlen. unfold parseClientHello.
  assert (Hbad : ∀ v msg, ∃ h,
    Some (mkHello v (-1) 0 false false (Some (ErrNew msg))) = Some h ∧
    (helloErr h = None → len (prtVer h) = 2 ∧ sni_in_bounds data 58 h)) by (by eexists).
  unfold tlsRecordTypeHandshake, tlsMajorVersion, tlsRecordHeaderLen,
    tlsHandshakeHeaderLen, tlsHandshakeTypeClientHello.
  go_idx. case_decide; [by eexists|]. go_idx. case_decide; [by eexists|].
  go_u16. do 2 (case_decide; [by eexists|]). go_idx. case_decide; [by eexists|].
  do 3 go_idx. do 2 (case_decide; [by eexists|]).
  rewrite (slice_Some data (5 + 4)) by lia.
  assert (Hv : len (take (Z.to_nat (5 + 4 + 2 - (5 + 4))) (drop (Z.to_nat (5 + 4)) data)) = 2)
    by (unfold len in *; rewrite length_take, length_drop; lia).
  revert Hv. generalize (take (Z.to_nat (5 + 4 + 2 - (5 + 4))) (drop (Z.to_nat (5 + 4)) data)) as ver.
  intros ver Hv. case_decide; [by eexists|].
  go_idx. pose proof (bZ_range b5). do 2 (case_decide; [by eexists|]). go_u16.
  do 2 (case_decide; [by eexists|]). go_idx. pose proof (bZ_range b6).
  case_decide; [by eexists|].
  case_decide; [eexists; split; [done|]; intros _; split; [done|by left]|].
  go_u16. case_decide; [by eexists|].
  match goal with
  | |- context [parseExtensions _ data ?off ?e ?h0] =>
      destruct (parseExtensions_safe (length data) data off e 58 h0) as (h & -> & Hb & Hv')
  end; simpl; try lia; [by left|].
  by exists h.
Qed.

(** C7: [parseClientHello] panics on no buffer of at least a record header
    (five bytes); when it reports no error the version field has two bytes, and
    a server name it reports can be sliced out of the buffer, from offset 58 or
    later. *)
Theorem parseClientHello_safe (data : bytes) :
  5 ≤ len data →
  ∃ h, parseClientHello data = Some h ∧
    (helloErr h = None → len (prtVer h) = 2 ∧
       ((sniStart h = -1 ∧ sniLen h = 0) ∨
        58 ≤ sniStart h ∧ ∃ name, slice data (sniStart h) (sniStart h + sniLen h) = Some name ∧
          len name = sniLen h)).
Proof.
  intros Hlen. destruct (parseClientHello_total data Hlen) as (h & Hh & Hok).
  exists h. split; [done|]. intros He. destruct (Hok He) as [Hv [?|(H1 & H2 & H3)]]; [auto|].
  split; [done|]. right. split; [done|]. eexists. split; [apply slice_Some; lia|].
  rewrite len_take; [lia|]. rewrite len_drop by lia. lia.
Qed.

(** ** Witnesses *)

Definition sample_hello : ClientHello :=
  mkClientHello Byte.x01 Byte.x03 Byte.x03 (make_zero 32) [Byte.x07] [Byte.x13; Byte.x01]
    [Byte.x00] [ExtOther 10 [Byte.x01]; ExtSNI [Byte.x61; Byte.x2e; Byte.x62]; ExtOther 0x33 []].

Lemma parse_encode_hello_witness :
  hello_wf sample_hello ∧
  parseClientHello (encode_hello sample_hello ++ [Byte.xff]) =
  Some (mkHello [Byte.x03; Byte.x03] 67 3 true false None) ∧
  slice (encode_hello sample_hello ++ [Byte.xff]) 67 70 = Some [Byte.x61; Byte.x2e; Byte.x62].
Proof.
  assert (H : hello_wf sample_hello).
  { split; [done|]. split; [done|]. split; [done|]. split; [|done].
    repeat constructor; done. }
  split; [exact H|].
  destruct (parse_encode_hello sample_hello [Byte.xff] H) as [H1 H2].
  split; [exact H1|]. exact (H2 _ eq_refl).
Defined.

Lemma parseClientHello_safe_witness :
  5 ≤ len (make_zero 64) ∧ ∃ h, parseClientHello (make_zero 64) = Some h.
Proof.
  split; [done|]. destruct (parseClientHello_safe (make_zero 64)) as (h & Hh & _); [done|].
  by exists h.
Defined.
