(* ===== verification/Conn.v ===== *)
(** Connections and the world a handler runs in: a trace of the calls it makes
    with their outcomes, the outcomes the system has in store, the monotonic
    clock and what the peers send.  [Cautious] is the promise a sending routine
    makes to its callers: it stops at the first call that fails. *)

From S2P Require Import Prelude.

(** ** Durations ([time.Duration], in nanoseconds) *)

Definition Millisecond : Z := 1000000.
Definition Second : Z := 1000 * Millisecond.

(** ** Connections

    A connection is its number and whether it is a [*net.TCPConn]. *)

Record conn := mkConn { cid : Z; is_tcp : bool }.
#[export] Instance conn_eq_dec : EqDecision conn.
Proof. solve_decision. Defined.

(** ** What a program does to the outside *)

Inductive event :=
| ESyscallConn (c : conn)
| EControl (c : conn)
| EWrite (c : conn) (data : bytes)
| EWriteTo (c : conn) (data : bytes) (dst : string)   (* a packet *)
| ERawWrite (c : conn)
| ESendOOB (c : conn) (data : bytes)      (* send(2) with MSG_OOB *)
| EGetTCPInfo (c : conn)
| ESleep (d : Z)
| EGetTTL (c : conn)
| ESetTTL (c : conn) (ttl : Z)
| ENoise (c : conn) (fake real : bytes)    (* splice of a page rewritten in flight *)
| EFile (content : bytes)                  (* a write that leaves the file with this content *)
| ETransmit (c : conn) (n : Z)             (* the file's first [n] bytes are handed to the system *)
| ESys (name : string)
| EClose (c : conn)
| ECloseWrite (c : conn)
| EDial (target : string) (timeout : Z)
| ECopy (dst src : conn).
#[export] Instance event_eq_dec : EqDecision event.
Proof. solve_decision. Defined.

Record World := mkWorld {
  trace : list (event * option error);   (* calls made, oldest first, with their error *)
  verdicts : list (option error);        (* outcomes of the coming calls; then success *)
  now : Z;                               (* monotonic clock *)
  lags : list Z;                         (* time that passes besides sleeping *)
  unacked : list Z;                      (* coming values of tcpi_unacked; then 0 *)
  ttls : list Z;                         (* coming values of getsockopt; then 64 *)
  inbox : gmap Z bytes                   (* what each connection still delivers *)
}.

Definition St_W := St World.

(** One call: it has the next outcome in store. *)
Definition call (e : event) : St World (result unit) := λ w,
  let v := head (verdicts w) in
  let r := default None v in
  Some (match r with None => Ok tt | Some err => Fail err end,
        mkWorld (trace w ++ [(e, r)]) (tail (verdicts w)) (now w) (lags w)
          (unacked w) (ttls w) (inbox w)).

Definition nowM : St World Z := λ w,
  let t := now w + Z.max 0 (default 0 (head (lags w))) in
  Some (t, mkWorld (trace w) (verdicts w) t (tail (lags w)) (unacked w) (ttls w) (inbox w)).

(** [time.Sleep] returns at once for a delay that is not positive. *)
Definition sleep (d : Z) : St World unit := λ w,
  Some (tt, mkWorld (trace w ++ [(ESleep d, None)]) (verdicts w) (now w + Z.max 0 d) (lags w)
              (unacked w) (ttls w) (inbox w)).

Definition next_unacked : St World Z := λ w,
  Some (default 0 (head (unacked w)),
        mkWorld (trace w) (verdicts w) (now w) (lags w) (tail (unacked w)) (ttls w) (inbox w)).
Definition next_ttl : St World Z := λ w,
  Some (default 64 (head (ttls w)),
        mkWorld (trace w) (verdicts w) (now w) (lags w) (unacked w) (tail (ttls w)) (inbox w)).

(** [conn.Write(b)]. *)
Definition write (c : conn) (b : bytes) : St World (result unit) := call (EWrite c b).

(** [conn.Close()], whose error is at most logged. *)
Definition close (c : conn) : St World unit :=
  let* _ := call (EClose c) in ret tt.

(** [io.ReadFull(conn, buf)] for a buffer of [n] bytes. *)
Definition readN (c : conn) (n : Z) : St World (result bytes) := λ w,
  let b := default [] (inbox w !! cid c) in
  let got := take (Z.to_nat n) b in
  Some (if decide (len got = n) then Ok got
        else if decide (got = []) then Fail EOF else Fail ErrUnexpectedEOF,
        mkWorld (trace w) (verdicts w) (now w) (lags w) (unacked w) (ttls w)
          (<[cid c := drop (Z.to_nat n) b]> (inbox w))).

(** [io.ReadFull]: the bytes it got, and its error. *)
Definition readFull (c : conn) (n : Z) : St World (bytes * option error) := λ w,
  let b := default [] (inbox w !! cid c) in
  let got := take (Z.to_nat n) b in
  Some ((got, if decide (len got = n) then None else if decide (got = []) then Some EOF else Some ErrUnexpectedEOF),
        mkWorld (trace w) (verdicts w) (now w) (lags w) (unacked w) (ttls w) (<[cid c := drop (Z.to_nat n) b]> (inbox w))).

(** One [Read] into a buffer of [n] bytes; the network has [k] bytes ready. *)
Definition readSome (c : conn) (n k : Z) : St World (result bytes) := λ w,
  let b := default [] (inbox w !! cid c) in
  if decide (b = [] ∧ 0 < n) then Some (Fail EOF, w) else
  let m := Z.to_nat (Z.min n (Z.max 1 k)) in
  Some (Ok (take m b),
        mkWorld (trace w) (verdicts w) (now w) (lags w) (unacked w) (ttls w) (<[cid c := drop m b]> (inbox w))).

(** [getTCPRawConn]. *)
Definition getTCPRawConn (c : conn) : St World (result unit) :=
  if is_tcp c then
    let* r := call (ESyscallConn c) in
    match r with
    | Fail err => throw (ErrOp "get raw conn" err)
    | Ok _ => ret (Ok tt)
    end
  else throw (ErrNew "connection is not *net.TCPConn").

(** [sendWithOOB]: the bytes and the urgent byte leave in one [send].  The
    system call is repeated by the source while it is interrupted; its outcome
    here is the first that is not [EINTR]. *)
Definition sendWithOOB (c : conn) (data : bytes) (oob : byte) : St World (result unit) :=
  let*? _ := getTCPRawConn c in
  let toSend := data ++ [oob] in
  let* r := call (ERawWrite c) in
  match r with
  | Fail err => throw (ErrOp "raw write (send)" err)
  | Ok _ =>
      let* r := call (ESendOOB c toSend) in
      match r with
      | Fail err => throw (ErrOp "send (MSG_OOB)" err)
      | Ok _ => ret (Ok tt)
      end
  end.

(** [defer fin]: [fin] runs whatever [m] returns. *)
Definition deferring {A} (fin : St World unit) (m : St World A) : St World A :=
  let* r := m in let* _ := fin in ret r.

(** A call whose error is ignored. *)
Definition ignoring (e : event) : St World unit := let* _ := call e in ret tt.

(** Run [f i x] over a list, from index [i], until one fails. *)
Fixpoint rangeE {A} (f : Z → A → St World (result unit)) (i : Z) (l : list A)
    : St World (result unit) :=
  match l with
  | [] => ret (Ok tt)
  | x :: l => let*? _ := f i x in rangeE f (i + 1) l
  end.

(** ** Observations *)

Definition events (w : World) : list event := fst <$> trace w.

Definition ok_events (w : World) : list event :=
  omap (λ ev, match snd ev with None => Some (fst ev) | Some _ => None end) (trace w).

(** The same world where every call has succeeded and will succeed. *)
Definition fair (w : World) : World :=
  mkWorld ((λ ev, (fst ev, None)) <$> trace w) [] (now w) (lags w) (unacked w) (ttls w)
    (inbox w).

Lemma fair_fair w : fair (fair w) = fair w.
Proof. unfold fair. f_equal. simpl. by rewrite <-list_fmap_compose. Qed.

Lemma events_fair w : events (fair w) = events w.
Proof. unfold events, fair. simpl. by rewrite <-list_fmap_compose. Qed.

(** ** Stopping at the first failure

    A computation is cautious when it only ever adds to the trace, and
    - if it returns normally, it does the same in a world without failures;
    - if it returns an error, the calls it made are the first of those it
      makes in a world without failures. *)

Definition grows {A} (m : St World A) : Prop :=
  ∀ w a w', m w = Some (a, w') → events w `prefix_of` events w'.

Class Cautious {A} (m : St World (result A)) : Prop := {
  cautious_grows : grows m;
  cautious_ok w a w' : m w = Some (Ok a, w') → m (fair w) = Some (Ok a, fair w');
  cautious_fail w e w' r w'' :
    m w = Some (Fail e, w') → m (fair w) = Some (r, w'') →
    events w' `prefix_of` events w''
}.

(** A computation that cannot fail and does not look at outcomes. *)
Class Steady {A} (m : St World A) : Prop := {
  steady_grows : grows m;
  steady_fair w a w' : m w = Some (a, w') → m (fair w) = Some (a, fair w')
}.

#[export] Instance ret_steady {A} (a : A) : Steady (ret a).
Proof. by split; intros w ? ? H; injection H as <- <-. Qed.
#[export] Instance nowM_steady : Steady nowM.
Proof. by split; intros w ? ? H; injection H as <- <-. Qed.
#[export] Instance next_unacked_steady : Steady next_unacked.
Proof. by split; intros w ? ? H; injection H as <- <-. Qed.
#[export] Instance next_ttl_steady : Steady next_ttl.
Proof. by split; intros w ? ? H; injection H as <- <-. Qed.

Lemma events_snoc w e r v n l u t i :
  events (mkWorld (trace w ++ [(e, r)]) v n l u t i) = events w ++ [e].
Proof. unfold events. simpl. by rewrite fmap_app. Qed.

#[export] Instance sleep_steady d : Steady (sleep d).
Proof.
  split; intros w ? ? H; injection H as <- <-.
  - rewrite events_snoc. by apply prefix_app_r.
  - unfold sleep, fair. simpl. by rewrite fmap_app.
Qed.

#[export] Instance call_cautious e : Cautious (call e).
Proof.
  split.
  - intros w ? ? Hw. injection Hw as _ <-. rewrite events_snoc. by apply prefix_app_r.
  - intros w ? ? Hw. unfold call in *. destruct (default None _) eqn:E; [done|].
    injection Hw as <- <-. unfold fair. simpl. by rewrite fmap_app.
  - intros w ? w' r w'' Hw Hf. injection Hf as _ <-.
    unfold call in Hw. injection Hw as _ <-. unfold events. simpl.
    by rewrite !fmap_app, <-list_fmap_compose.
Qed.

#[export] Instance steady_ok {A} (m : St World (result A)) a :
  Steady m → (∀ w r w', m w = Some (r, w') → r = Ok a) → Cautious m.
Proof.
  intros [Hg Hf] Hok. split; [done|eauto|].
  intros w e w' r w'' H. by apply Hok in H.
Qed.

#[export] Instance ret_cautious {A} (r : result A) : Cautious (ret r).
Proof.
  split; [apply ret_steady|by intros w ? ? H; injection H as -> <-|].
  intros w ? ? ? ? H H'. injection H as -> <-. injection H' as <- <-. by rewrite events_fair.
Qed.

#[export] Instance throw_cautious {A} e : Cautious (throw (A:=A) e).
Proof. apply ret_cautious. Qed.

Lemma prefix_via w1 w2 w3 :
  events w1 `prefix_of` events w2 → events w2 `prefix_of` events w3 →
  events w1 `prefix_of` events w3.
Proof. apply transitivity. Qed.

Lemma grows_at {A} (m : St World A) w a w' :
  grows m → m w = Some (a, w') → events w `prefix_of` events w'.
Proof. intros H. apply H. Qed.
Lemma fails_at {A} (m : St World (result A)) w e w' r w'' :
  Cautious m → m w = Some (Fail e, w') → m (fair w) = Some (r, w'') →
  events w' `prefix_of` events w''.
Proof. intros H. apply H. Qed.

Lemma bind_grows {A B} (m : St World A) (f : A → St World B) :
  grows m → (∀ a, grows (f a)) → grows (bind m f).
Proof.
  intros Hm Hf w b w' (a & w1 & Ha & H)%bind_Some.
  apply prefix_via with w1; [by eapply Hm|by eapply Hf].
Qed.

(** The common shape: an outcome is either passed on or turned into an error
    by something that makes no calls. *)
#[export] Instance bind_result_cautious {A B} (m : St World (result A))
    (f : A → St World (result B)) (g : error → error) :
  Cautious m → (∀ a, Cautious (f a)) →
  Cautious (bind m (λ r, match r with Ok a => f a | Fail e => throw (g e) end)).
Proof.
  intros Hm Hf. split.
  - apply bind_grows; [apply Hm|]. intros [a|e]; [apply Hf|apply ret_steady].
  - intros w b w' ([a|e] & w1 & Ha & H)%bind_Some; [|done]. unfold bind.
    apply cautious_ok in Ha as ->. by apply cautious_ok.
  - intros w e w' r w'' ([a|e'] & w1 & Ha & H)%bind_Some.
    + unfold bind. apply cautious_ok in Ha as ->. intros Hr. exact (fails_at _ _ _ _ _ _ (Hf a) H Hr).
    + injection H as _ <-. unfold bind.
      destruct (m (fair w)) as [[[a|e2] w2]|] eqn:E; [| |done]; intros Hr.
      * apply prefix_via with w2; [exact (fails_at _ _ _ _ _ _ Hm Ha E)|].
        exact (grows_at _ _ _ _ cautious_grows Hr).
      * injection Hr as _ <-. exact (fails_at _ _ _ _ _ _ Hm Ha E).
Qed.

#[export] Instance bindE_cautious {A B} (m : St World (result A)) (f : A → St World (result B)) :
  Cautious m → (∀ a, Cautious (f a)) → Cautious (bindE m f).
Proof. apply (bind_result_cautious m f id). Qed.

#[export] Instance bind_steady_cautious {A B} (m : St World A) (f : A → St World (result B)) :
  Steady m → (∀ a, Cautious (f a)) → Cautious (bind m f).
Proof.
  intros Hm Hf. split.
  - apply bind_grows; [apply Hm|intros; apply Hf].
  - intros w b w' (a & w1 & Ha & H)%bind_Some. unfold bind.
    apply steady_fair in Ha as ->. by apply cautious_ok.
  - intros w e w' r w'' (a & w1 & Ha & H)%bind_Some. unfold bind.
    apply steady_fair in Ha as ->. intros Hr. exact (fails_at _ _ _ _ _ _ (Hf a) H Hr).
Qed.

#[export] Instance wrap_op_cautious {A} op (m : St World (result A)) :
  Cautious m → Cautious (wrap_op op m).
Proof.
  intros Hm. split.
  - apply bind_grows; [apply Hm|]. intros ?. apply ret_steady.
  - intros w b w' ([a|e] & w1 & Ha & H)%bind_Some; [|done].
    injection H as <- <-. unfold wrap_op, bind. by apply cautious_ok in Ha as ->.
  - intros w e w' r w'' ([a|e'] & w1 & Ha & H)%bind_Some; [done|].
    injection H as _ <-. unfold wrap_op, bind.
    destruct (m (fair w)) as [[r2 w2]|] eqn:E; [|done].
    intros Hr. injection Hr as _ <-. exact (fails_at _ _ _ _ _ _ Hm Ha E).
Qed.

#[export] Instance if_cautious {A} (b : bool) (m1 m2 : St World (result A)) :
  Cautious m1 → Cautious m2 → Cautious (if b then m1 else m2).
Proof. by destruct b. Qed.
#[export] Instance decide_cautious {A} P `{Decision P} (m1 m2 : St World (result A)) :
  Cautious m1 → Cautious m2 → Cautious (if decide P then m1 else m2).
Proof. by case_decide. Qed.

#[export] Instance lift_cautious {A B} (m : go A) (f : A → St World (result B)) :
  (∀ a, Cautious (f a)) → Cautious (bind (lift m) f).
Proof.
  intros Hf. unfold bind, lift. destruct m as [a|]; [apply Hf|].
  by split.
Qed.

#[export] Instance rangeE_cautious {A} (f : Z → A → St World (result unit)) i l :
  (∀ i a, Cautious (f i a)) → Cautious (rangeE f i l).
Proof. intros Hf. revert i. induction l as [|x l IH]; intros i; apply _. Qed.

#[export] Instance getTCPRawConn_cautious c : Cautious (getTCPRawConn c).
Proof. unfold getTCPRawConn. apply if_cautious; apply _. Qed.
#[export] Instance sendWithOOB_cautious c d b : Cautious (sendWithOOB c d b).
Proof.
  unfold sendWithOOB. apply bindE_cautious; [apply _|intros _].
  apply (bind_result_cautious _ _ (ErrOp "raw write (send)")); [apply _|intros _].
  apply (bind_result_cautious _ _ (ErrOp "send (MSG_OOB)")); apply _.
Qed.
#[export] Instance write_cautious c d : Cautious (write c d).
Proof. apply call_cautious. Qed.

(** ** What reaches the peer

    [Runs m a l]: [m] never panics, and when it returns without error it
    returns [a] and [l] is exactly what it has done to the outgoing streams:
    packets sent and hop limits set. *)

Definition is_data (e : event) : bool :=
  match e with
  | EWrite _ _ | EWriteTo _ _ _ | ESendOOB _ _ | ENoise _ _ _ | EFile _ | ETransmit _ _ | ESetTTL _ _ => true
  | _ => false
  end.

Definition sent (w : World) : list event := filter is_data (events w).

Class Runs {A} (m : St World (result A)) (a : A) (l : list event) : Prop := {
  runs_total w : ∃ r w', m w = Some (r, w');
  runs_ok w a' w' : m w = Some (Ok a', w') → a' = a ∧ sent w' = sent w ++ l
}.

Lemma sent_snoc w e r v n l u t i :
  sent (mkWorld (trace w ++ [(e, r)]) v n l u t i) = sent w ++ (if is_data e then [e] else []).
Proof. unfold sent. rewrite events_snoc, filter_app. f_equal. by destruct e. Qed.

(** [m] returns and sends nothing. *)
Class Silent {A} (m : St World A) : Prop :=
  silent w : ∃ a w', m w = Some (a, w') ∧ sent w' = sent w.

#[export] Instance ret_silent {A} (a : A) : Silent (ret a).
Proof. intros w. by exists a, w. Qed.
#[export] Instance nowM_silent : Silent nowM.
Proof. intros w. by eexists _, _. Qed.
#[export] Instance next_unacked_silent : Silent next_unacked.
Proof. intros w. by eexists _, _. Qed.
#[export] Instance sleep_silent d : Silent (sleep d).
Proof.
  intros w. eexists _, _. split; [done|].
  unfold sent. by rewrite events_snoc, filter_app, app_nil_r.
Qed.

#[export] Instance ret_runs {A} (a : A) : Runs (ret (Ok a)) a [].
Proof.
  split; intros w; [by eexists _, _|].
  intros ?? H. injection H as -> ->. by rewrite app_nil_r.
Qed.
#[export] Instance throw_runs {A} e (a : A) l : Runs (throw e) a l.
Proof. split; intros w; [by eexists _, _|done]. Qed.

#[export] Instance call_runs e : Runs (call e) tt (if is_data e then [e] else []).
Proof.
  split; intros w; [by eexists _, _|]. intros [] w' H. split; [done|].
  injection H as _ <-. unfold sent. rewrite events_snoc, filter_app. f_equal.
  by destruct e.
Qed.

#[export] Instance bindE_runs {A B} (m : St World (result A)) (f : A → St World (result B)) a b l1 l2 :
  Runs m a l1 → Runs (f a) b l2 → Runs (bindE m f) b (l1 ++ l2).
Proof.
  intros Hm Hf. split; intros w; rewrite bindE_unfold.
  - destruct (runs_total (m:=m) w) as ([a1|e] & w1 & E); rewrite E; [|by eexists _, _].
    apply (runs_ok (m:=m)) in E as [-> _]. apply runs_total.
  - intros b' w'.
    destruct (m w) as [[[a1|e] w1]|] eqn:E; [|done|done].
    apply (runs_ok (m:=m)) in E as [-> E1]. intros [-> E2]%(runs_ok (m:=f a)).
    split; [done|]. by rewrite E2, E1, app_assoc.
Qed.

#[export] Instance bind_silent_runs {A B} (m : St World A) (f : A → St World (result B)) b l :
  Silent m → (∀ a, Runs (f a) b l) → Runs (bind m f) b l.
Proof.
  intros Hm Hf. split; intros w; unfold bind; destruct (silent (m:=m) w) as (a & w1 & -> & Hs).
  - apply runs_total.
  - intros b' w' [-> E]%(runs_ok (m:=f a)). by rewrite E, Hs.
Qed.

#[export] Instance bind_result_runs {A B} (m : St World (result A)) (f : A → St World (result B))
    (g : error → error) a b l1 l2 :
  Runs m a l1 → Runs (f a) b l2 →
  Runs (bind m (λ r, match r with Ok a => f a | Fail e => throw (g e) end)) b (l1 ++ l2).
Proof.
  intros Hm Hf. split; intros w; unfold bind.
  - destruct (runs_total (m:=m) w) as ([a1|e] & w1 & E); rewrite E; [|by eexists _, _].
    apply (runs_ok (m:=m)) in E as [-> _]. apply runs_total.
  - intros b' w'. destruct (m w) as [[[a1|e] w1]|] eqn:E; [|done|done].
    apply (runs_ok (m:=m)) in E as [-> E1]. intros [-> E2]%(runs_ok (m:=f a)).
    split; [done|]. by rewrite E2, E1, app_assoc.
Qed.

#[export] Instance wrap_op_runs {A} op (m : St World (result A)) a l :
  Runs m a l → Runs (wrap_op op m) a l.
Proof.
  intros Hm. split; intros w; unfold wrap_op, bind.
  - destruct (runs_total (m:=m) w) as (r & w1 & ->). by eexists _, _.
  - intros b' w'. destruct (m w) as [[[a1|e] w1]|] eqn:E; [|done|done].
    intros H. injection H as -> ->. by apply runs_ok.
Qed.

Lemma deferring_runs {A} (fin : St World unit) (m : St World (result A)) a l :
  Silent fin → Runs m a l → Runs (deferring fin m) a l.
Proof.
  intros Hf Hm. split; intros w; unfold deferring, bind.
  - destruct (runs_total (m:=m) w) as (r & w1 & ->).
    destruct (Hf w1) as (? & w2 & -> & _). by eexists _, _.
  - intros b' w'. destruct (m w) as [[r w1]|] eqn:E; [|done].
    destruct (Hf w1) as (? & w2 & -> & Hs). intros H. injection H as -> <-.
    rewrite Hs. by apply runs_ok.
Qed.

#[export] Instance ignoring_silent e : is_data e = false → Silent (ignoring e).
Proof.
  intros He w. eexists _, _. split; [done|]. unfold sent, events. simpl.
  rewrite fmap_app, filter_app. cbn [fmap list_fmap fst].
  rewrite filter_cons_False by (simpl; rewrite He; intros []). by rewrite filter_nil, app_nil_r.
Qed.

#[export] Instance bind_silent {A B} (m : St World A) (f : A → St World B) :
  Silent m → (∀ a, Silent (f a)) → Silent (bind m f).
Proof.
  intros Hm Hf w. unfold bind. destruct (Hm w) as (a & w1 & -> & H1).
  destruct (Hf a w1) as (b & w2 & -> & H2). exists b, w2. split; [done|]. by rewrite H2.
Qed.

Lemma lift_runs {A B} (m : go A) x (f : A → St World (result B)) b l :
  m = Some x → Runs (f x) b l → Runs (bind (lift m) f) b l.
Proof. by intros ->. Qed.

Lemma runs_eq {A} (m : St World (result A)) a l l' : Runs m a l → l = l' → Runs m a l'.
Proof. by intros ? <-. Qed.

(** What a loop sends, when iteration [i] on [x] sends [g i x]. *)
Fixpoint collect {A} (g : Z → A → list event) (i : Z) (l : list A) : list event :=
  match l with
  | [] => []
  | x :: l => g i x ++ collect g (i + 1) l
  end.

Lemma rangeE_runs {A} (f : Z → A → St World (result unit)) (g : Z → A → list event) i l :
  (∀ j x, x ∈ l → Runs (f j x) tt (g j x)) → Runs (rangeE f i l) tt (collect g i l).
Proof.
  revert i. induction l as [|x l IH]; intros i H; simpl; [apply _|].
  apply (bindE_runs _ _ tt); [apply H; by left|].
  apply IH. intros j y Hy. apply H. by right.
Qed.

#[export] Instance getTCPRawConn_runs c : Runs (getTCPRawConn c) tt [].
Proof.
  unfold getTCPRawConn. destruct (is_tcp c); [|apply _].
  eapply runs_eq; [apply (bind_result_runs _ _ (ErrOp "get raw conn") tt tt [] []); [apply call_runs|apply _]|done].
Qed.

#[export] Instance sendWithOOB_runs c d b : Runs (sendWithOOB c d b) tt [ESendOOB c (d ++ [b])].
Proof.
  unfold sendWithOOB. apply (bindE_runs _ _ tt _ [] _); [apply _|].
  apply (bind_result_runs _ _ (ErrOp "raw write (send)") tt tt [] _); [apply call_runs|].
  apply (bind_result_runs _ _ (ErrOp "send (MSG_OOB)") tt tt [_] []); [apply call_runs|apply _].
Qed.
#[export] Instance write_runs c d : Runs (write c d) tt [EWrite c d].
Proof. apply (call_runs (EWrite c d)). Qed.

(** The bytes [c] reads in order.  TCP has one urgent pointer: an urgent byte
    is out of band only as long as no later urgent byte replaces it. *)
Definition is_oob (c : conn) (e : event) : bool :=
  match e with ESendOOB c' _ => bool_decide (c' = c) | _ => false end.

Fixpoint inband (c : conn) (l : list event) : bytes :=
  match l with
  | [] => []
  | EWrite c' d :: l => (if decide (c' = c) then d else []) ++ inband c l
  | ESendOOB c' d :: l =>
      (if decide (c' = c) then if existsb (is_oob c) l then d else removelast d else []) ++
      inband c l
  | ENoise c' _ real :: l => (if decide (c' = c) then real else []) ++ inband c l
  | _ :: l => inband c l
  end.

(** The unit tests of the definition. *)
Example inband_two_urgent c :
  inband c [ESendOOB c [Byte.x01; Byte.x02]; ESendOOB c [Byte.x03; Byte.x00]; EWrite c [Byte.x04]] =
  [Byte.x01; Byte.x02; Byte.x03; Byte.x04].
Proof. simpl. rewrite !decide_True, bool_decide_true by done. done. Qed.

(** ** Reading a stream *)

Lemma readN_take c n w :
  0 ≤ n ≤ len (default [] (inbox w !! cid c)) →
  ∃ w', readN c n w = Some (Ok (take (Z.to_nat n) (default [] (inbox w !! cid c))), w') ∧
    trace w' = trace w ∧ verdicts w' = verdicts w ∧
    default [] (inbox w' !! cid c) = drop (Z.to_nat n) (default [] (inbox w !! cid c)).
Proof.
  intros Hn. unfold readN. rewrite len_take by done. rewrite decide_True by done.
  eexists. split; [done|]. cbn [trace verdicts inbox]. by rewrite lookup_insert_eq.
Qed.

Lemma readN_short c n w :
  len (default [] (inbox w !! cid c)) < n →
  ∃ e w', readN c n w = Some (Fail e, w') ∧ trace w' = trace w ∧ verdicts w' = verdicts w.
Proof.
  intros Hn. unfold readN. set (b := default [] _) in *. rewrite decide_False.
  - destruct (decide _); by eexists _, _.
  - unfold len in *. rewrite length_take. lia.
Qed.

Lemma ignoring_total e w : ∃ w', ignoring e w = Some (tt, w') ∧ events w' = events w ++ [e].
Proof.
  unfold ignoring, bind, call, ret. destruct (default None (head (verdicts w))); eexists; (split; [done|]);
    apply events_snoc.
Qed.

(** ** Calls that are not made *)

(** [m] adds calls to the trace, none of them [e]. *)
Class Spares {A} (e : event) (m : St World A) : Prop :=
  spares w a w' : m w = Some (a, w') → ∃ l, events w' = events w ++ l ∧ e ∉ l.

#[export] Instance ret_spares {A} e (a : A) : Spares e (ret a).
Proof. intros w a' w' H. injection H as _ <-. exists []. rewrite app_nil_r. split; [done|apply not_elem_of_nil]. Qed.

#[export] Instance bind_spares {A B} e (m : St World A) (f : A → St World B) :
  Spares e m → (∀ a, Spares e (f a)) → Spares e (bind m f).
Proof.
  intros Hm Hf w b w' (a & w1 & E1 & E2)%bind_Some.
  apply Hm in E1 as (l1 & H1 & N1). apply (Hf a) in E2 as (l2 & H2 & N2).
  exists (l1 ++ l2). rewrite H2, H1, app_assoc. split; [done|]. rewrite elem_of_app. by intros [].
Qed.

#[export] Instance bindE_spares {A B} e (m : St World (result A)) (f : A → St World (result B)) :
  Spares e m → (∀ a, Spares e (f a)) → Spares e (bindE m f).
Proof. intros Hm Hf. apply bind_spares; [done|]. intros [a|x]; apply _. Qed.

Lemma call_spares e e' : e' ≠ e → Spares e (call e').
Proof.
  intros Hne w r w' H. injection H as _ <-. exists [e']. rewrite events_snoc. split; [done|].
  rewrite list_elem_of_singleton. congruence.
Qed.

#[export] Instance lift_spares {A} e (m : go A) : Spares e (lift m).
Proof.
  intros w a w' H. unfold lift in H. destruct m; [|done]. injection H as _ <-. exists [].
  rewrite app_nil_r. split; [done|apply not_elem_of_nil].
Qed.
#[export] Instance write_spares c d b : Spares (EClose c) (write d b).
Proof. by apply call_spares. Qed.
#[export] Instance readN_spares e c n : Spares e (readN c n).
Proof. intros w a w' H. injection H as _ <-. exists []. rewrite app_nil_r. split; [done|apply not_elem_of_nil]. Qed.
Lemma ignoring_spares e e' : e' ≠ e → Spares e (ignoring e').
Proof. intros H. apply bind_spares; [by apply call_spares|]. intros ?; apply _. Qed.

(** ** What is acquired is released

    [Paired a b m]: among the calls [m] makes, [b] is made exactly as often as
    [a] succeeds. *)

Definition acquired (a : event) (l : list (event * option error)) : nat := length (filter (λ x, x = (a, None)) l).
Definition released (b : event) (l : list (event * option error)) : nat := length (filter (λ x, x.1 = b) l).

Class Paired {A} (a b : event) (m : St World A) : Prop :=
  paired w r w' : m w = Some (r, w') → ∃ l, trace w' = trace w ++ l ∧ acquired a l = released b l.

(** [m] releases once more than it acquires. *)
Class Releases {A} (a b : event) (m : St World A) : Prop :=
  releases w r w' : m w = Some (r, w') → ∃ l, trace w' = trace w ++ l ∧ released b l = S (acquired a l).

Lemma acquired_app a l1 l2 : acquired a (l1 ++ l2) = (acquired a l1 + acquired a l2)%nat.
Proof. unfold acquired. by rewrite filter_app, length_app. Qed.
Lemma released_app b l1 l2 : released b (l1 ++ l2) = (released b l1 + released b l2)%nat.
Proof. unfold released. by rewrite filter_app, length_app. Qed.

Lemma counts_one a b e v :
  acquired a [(e, v)] = (if decide (e = a ∧ v = None) then 1%nat else 0%nat) ∧
  released b [(e, v)] = (if decide (e = b) then 1%nat else 0%nat).
Proof.
  unfold acquired, released. split.
  - case_decide as H; [destruct H as [-> ->]; by rewrite filter_cons_True|].
    rewrite filter_cons_False; [done|]. intros [= -> ->]. by apply H.
  - case_decide; [by rewrite filter_cons_True|]. by rewrite filter_cons_False.
Qed.

#[export] Instance ret_paired {A} a b (x : A) : Paired a b (ret x).
Proof. intros w r w' [= <- <-]. exists []. by rewrite app_nil_r. Qed.
#[export] Instance throw_paired {A} a b e : Paired a b (throw (A:=A) e).
Proof. apply ret_paired. Qed.

(** A call of neither. *)
Definition other (a b e : event) : bool := bool_decide (e ≠ a ∧ e ≠ b).
Lemma other_one a b e v : other a b e = true → acquired a [(e, v)] = released b [(e, v)].
Proof.
  intros [Ha Hb]%bool_decide_eq_true. destruct (counts_one a b e v) as [-> ->].
  by rewrite !decide_False by tauto.
Qed.
Lemma call_paired a b e : other a b e = true → Paired a b (call e).
Proof. intros H w r w' [= <- <-]. eexists. split; [done|by apply other_one]. Qed.
Lemma sleep_paired a b d : other a b (ESleep d) = true → Paired a b (sleep d).
Proof. intros H w r w' [= <- <-]. eexists. split; [done|by apply other_one]. Qed.

#[export] Instance bind_paired {A B} a b (m : St World A) (f : A → St World B) :
  Paired a b m → (∀ x, Paired a b (f x)) → Paired a b (bind m f).
Proof.
  intros Hm Hf w r w' (x & w1 & E1 & E2)%bind_Some.
  apply Hm in E1 as (l1 & H1 & N1). apply (Hf x) in E2 as (l2 & H2 & N2).
  exists (l1 ++ l2). rewrite H2, H1, app_assoc, acquired_app, released_app, N1, N2. done.
Qed.
#[export] Instance bindE_paired {A B} a b (m : St World (result A)) (f : A → St World (result B)) :
  Paired a b m → (∀ x, Paired a b (f x)) → Paired a b (bindE m f).
Proof. intros Hm Hf. apply bind_paired; [done|]. intros [x|e]; [apply Hf|apply _]. Qed.
#[export] Instance wrap_op_paired {A} a b op (m : St World (result A)) : Paired a b m → Paired a b (wrap_op op m).
Proof. intros Hm. apply bind_paired; [done|]. intros ?. apply ret_paired. Qed.
Lemma ignoring_paired a b e : other a b e = true → Paired a b (ignoring e).
Proof. intros H. apply bind_paired; [by apply call_paired|apply _]. Qed.
#[export] Instance deferring_paired {A} a b fin (m : St World A) :
  Paired a b fin → Paired a b m → Paired a b (deferring fin m).
Proof. intros. apply bind_paired; [done|]. intros r. apply bind_paired; [done|]. apply _. Qed.

(** The resource: [call a], and when it succeeds a body that defers [b]. *)
Lemma acquire_paired {A} a b (g : error → error) (m : St World (result A)) :
  a ≠ b → Releases a b m →
  Paired a b (let* r := call a in match r with Fail err => throw (g err) | Ok _ => m end).
Proof.
  intros Hab Hm w r w' (x & w1 & E1 & E2)%bind_Some. injection E1 as Hx <-.
  destruct (counts_one a b a (default None (head (verdicts w)))) as [H1 H2].
  rewrite decide_False in H2 by done. destruct x as [u|e].
  - apply Hm in E2 as (l & H & N). cbn [trace] in H. eexists ([_] ++ l). rewrite app_assoc. split; [exact H|].
    rewrite acquired_app, released_app, N, H1, H2. destruct (default None (head (verdicts w))); [done|].
    by rewrite decide_True.
  - injection E2 as <- <-. eexists [_]. split; [done|]. rewrite H1, H2.
    destruct (default None (head (verdicts w))); [|done]. by rewrite decide_False by (intros [_ [=]]).
Qed.

Lemma acquireE_paired {A} a b (f : unit → St World (result A)) :
  a ≠ b → Releases a b (f tt) → Paired a b (bindE (call a) f).
Proof.
  intros Hab Hf w r w' H. apply (acquire_paired a b id (f tt) Hab Hf w r w').
  revert H. unfold bindE, bind. by destruct (call a w) as [[[[]|] ?]|].
Qed.

Lemma deferring_keeps {A} a b fin (m : St World A) :
  Paired a b fin → Releases a b m → Releases a b (deferring fin m).
Proof.
  intros Hf Hm w r w' (x & w1 & E1 & E2)%bind_Some. apply Hm in E1 as (l1 & H1 & N1).
  apply bind_Some in E2 as (u & w2 & E2 & E3). apply Hf in E2 as (l2 & H2 & N2). injection E3 as _ <-.
  exists (l1 ++ l2). rewrite H2, H1, app_assoc, acquired_app, released_app, N1, N2. split; [done|lia].
Qed.

Lemma deferring_releases {A} a b fin (m : St World A) :
  Releases a b fin → Paired a b m → Releases a b (deferring fin m).
Proof.
  intros Hf Hm w r w' (x & w1 & E1 & E2)%bind_Some. apply Hm in E1 as (l1 & H1 & N1).
  apply bind_Some in E2 as (u & w2 & E2 & E3). apply Hf in E2 as (l2 & H2 & N2). injection E3 as _ <-.
  exists (l1 ++ l2). rewrite H2, H1, app_assoc, acquired_app, released_app, N1, N2. split; [done|lia].
Qed.

Lemma ignoring_releases a b : a ≠ b → Releases a b (ignoring b).
Proof.
  intros Hab w r w' (x & w1 & E1 & E2)%bind_Some. injection E1 as _ <-. injection E2 as _ <-.
  eexists. split; [done|]. destruct (counts_one a b b (default None (head (verdicts w)))) as [-> ->].
  rewrite decide_True, decide_False; [done| |done]. intros [-> _]. done.
Qed.

(** A step of the proof that a routine is [Paired], by its outermost construct. *)
Ltac paired_step :=
  match goal with
  | |- Paired _ _ (ret _) => apply ret_paired
  | |- Paired _ _ (throw _) => apply throw_paired
  | |- Paired _ _ (call _) => apply call_paired; reflexivity
  | |- Paired _ _ (sleep _) => apply sleep_paired; reflexivity
  | |- Paired _ _ (ignoring _) => apply ignoring_paired; reflexivity
  | |- Paired _ _ (wrap_op _ _) => apply wrap_op_paired
  | |- Paired _ _ (deferring _ _) => apply deferring_paired
  | |- Paired ?a _ (bind (call ?a) _) => eapply (acquire_paired _ _ (ErrOp _)); [done|]
  | |- Paired ?a _ (bindE (call ?a) _) => apply acquireE_paired; [done|]
  | |- Releases _ ?b (deferring (ignoring ?b) _) => apply deferring_releases; [by apply ignoring_releases|]
  | |- Releases _ _ (deferring _ _) => apply deferring_keeps
  | |- Paired _ _ (bindE _ _) => apply bindE_paired; [|intros ?]
  | |- Paired _ _ (bind _ _) => apply bind_paired; [|intros ?]
  | |- Paired _ _ (match ?x with _ => _ end) => destruct x
  end.
