(* ===== verification/Fragment.v ===== *)
(** [internal/waitack_linux.go] and [internal/fragment.go]: waiting for the
    peer to acknowledge what was sent, and sending a ClientHello cut into TLS
    records and TCP segments around the server name. *)

From S2P Require Import Prelude GoStd ClientHello Conn.

(** ** Waiting for acknowledgements *)

Definition waitForAckOverallTimeout : Z := 5 * Second.
Definition waitForAckEarlyThreshold : Z := 20 * Millisecond.
Definition waitForAckPollInterval : Z := 10 * Millisecond.

(** The polling loop.  [fuel] bounds the iterations; each takes at least the
    poll interval, so [ack_fuel] is never used up ([waitForAck_total]). *)
Fixpoint ack_loop (fuel : nat) (c : conn) (start delay : Z) : St World (result unit) :=
  match fuel with
  | O => lift panic
  | S fuel =>
      let* t := nowM in
      if decide (start + waitForAckOverallTimeout < t)
      then throw (ErrNew "wait for ACK: timeout exceeded") else
      let*? _ := call (EGetTCPInfo c) in
      let* n := next_unacked in
      if decide (n = 0) then
        let* t := nowM in
        let* _ := (if decide (t - start ≤ waitForAckEarlyThreshold)
                   then sleep delay else ret tt) in
        ret (Ok tt)
      else
        let* _ := sleep waitForAckPollInterval in
        ack_loop fuel c start delay
  end.

Definition ack_fuel : nat := 502.

Definition waitForAck (enabled : bool) (c : conn) (delay : Z) : St World (result unit) :=
  if negb enabled then
    let* _ := sleep delay in ret (Ok tt)
  else
    let*? _ := getTCPRawConn c in
    let* r := call (EControl c) in
    match r with
    | Fail err => throw (ErrOp "wait for ACK: raw control" err)
    | Ok _ =>
        let* start := nowM in
        wrap_op "wait for ACK" (ack_loop ack_fuel c start delay)
    end.

(** ** Cutting *)

Definition makeRecord (header payload : bytes) : bytes :=
  copy (make_zero 3) header ++ put16 (len payload) ++
  copy (make_zero (len payload)) payload.

(** [part] number [i] of the loop of [splitAndAppend]. *)
Definition part (data : bytes) (base n i : Z) : go bytes :=
  if decide (i = n - 1) then slice_from data (i * base)
  else slice data (i * base) ((i + 1) * base).

Definition add_header (header : option bytes) (p : bytes) : bytes :=
  match header with Some h => makeRecord h p | None => p end.

Fixpoint split_loop (data : bytes) (header : option bytes) (base n : Z) (todo : list Z)
    (result : list bytes) : go (list bytes) :=
  match todo with
  | [] => Some result
  | i :: todo =>
      let! p := part data base n i in
      split_loop data header base n todo (result ++ [add_header header p])
  end.

(** [for i := range n]. *)
Definition range (n : Z) : list Z := Z.of_nat <$> seq 0 (Z.to_nat n).

Definition splitAndAppend (data : bytes) (header : option bytes) (n : Z)
    (result : list bytes) : go (list bytes) :=
  if decide (n ≤ 0) then Some result else
  if decide (n = 1 ∨ len data < n) then Some (result ++ [add_header header data]) else
  split_loop data header (Z.quot (len data) n) n (range n) result.

(** ** Sending *)

(** Write packet number [i]; the error names it, counting from one. *)
Definition write_nth (what : string) (c : conn) (i : Z) (p : bytes) : St World (result unit) :=
  wrap_op (what +:+ itoa (i + 1)) (write c p).

(** The first 35 bytes in two urgent sends: bytes 15 and 0x0 are the urgent
    ones. *)
Definition send_oobex (c : conn) (b : bytes) (enabled : bool) (interval : Z)
    : St World (result bytes) :=
  let* a := lift (slice_to b 15) in
  let* x := lift (idx b 15) in
  let*? _ := wrap_op "oob 1" (sendWithOOB c a x) in
  let* a := lift (slice b 16 35) in
  let*? _ := wrap_op "oob 2" (sendWithOOB c a Byte.x00) in
  let*? _ := waitForAck enabled c interval in
  let* rest := lift (slice_from b 35) in
  ret (Ok rest).

(** Packets of one record ([records == 1]). *)
Definition send_packet (c : conn) (oob enabled : bool) (interval : Z) (i : Z) (p : bytes)
    : St World (result unit) :=
  let*? _ := (if decide (i = 0 ∧ oob = true)
              then wrap_op "oob" (sendWithOOB c p Byte.x00)
              else write_nth "write packet " c i p) in
  waitForAck enabled c interval.

(** One segment per record ([segments == -1]). *)
Definition send_chunk (c : conn) (oob oobex enabled : bool) (interval : Z) (i : Z) (p : bytes)
    : St World (result unit) :=
  let*? _ :=
    (if decide (i = 0) then
       if oob then wrap_op "oob" (sendWithOOB c p Byte.x00)
       else if decide (oobex = true ∧ 0 < len p) then
         let l := len p in
         let* a := lift (slice_to p (l - 1)) in
         let* x := lift (idx p (l - 1)) in
         wrap_op "oob 1" (sendWithOOB c a x)
       else wrap_op "write record 1" (write c p)
     else if decide (i = 1 ∧ oobex = true) then wrap_op "oob 2" (sendWithOOB c p Byte.x00)
     else write_nth "write record " c i p) in
  waitForAck enabled c interval.

(** Segments of equal length of the merged records. *)
Definition send_segment (c : conn) (merged : bytes) (base segments : Z)
    (oob enabled : bool) (interval : Z) (_ : Z) (i : Z) : St World (result unit) :=
  let start := i * base in
  let stop := if decide (i = segments - 1) then len merged else start + base in
  let* seg := lift (slice merged start stop) in
  let*? _ := (if decide (i = 0 ∧ oob = true)
              then wrap_op "oob" (sendWithOOB c seg Byte.x00)
              else write_nth "write segment " c i seg) in
  waitForAck enabled c interval.

(** The rest of a single record, cut into segments around the server name. *)
Definition send_segments (c : conn) (clientHello : bytes) (offset length segments : Z)
    (oob enabled : bool) (interval : Z) : St World (result unit) :=
  if decide (segments = 1) then wrap_op "send remaining data" (write c clientHello) else
  let leftSegments := Z.quot segments 2 in
  let rightSegments := segments - leftSegments in
  let* cut := lift (findLastDotOrMidPos clientHello offset length) in
  let* l := lift (slice_to clientHello cut) in
  let* packets := lift (splitAndAppend l None leftSegments []) in
  let* r := lift (slice_from clientHello cut) in
  let* packets := lift (splitAndAppend r None rightSegments packets) in
  rangeE (send_packet c oob enabled interval) 0 packets.

(** The records of a fragmented hello, around the server name. *)
Definition cut_records (clientHello : bytes) (offset length records : Z) : go (list bytes) :=
  let leftChunks := Z.quot records 2 in
  let rightChunks := records - leftChunks in
  let! cut := findLastDotOrMidPos clientHello offset length in
  let! header := slice_to clientHello 3 in
  let! l := slice clientHello tlsRecordHeaderLen cut in
  let! chunks := splitAndAppend l (Some header) leftChunks [] in
  let! r := slice_from clientHello cut in
  splitAndAppend r (Some header) rightChunks chunks.

(** The records, one after the other, cut into segments of equal length. *)
Definition send_merged (c : conn) (merged : bytes) (segments : Z)
    (oob oobex enabled : bool) (interval : Z) : St World (result unit) :=
  let*? merged :=
    (if decide (oobex = true ∧ 35 ≤ len merged)
     then send_oobex c merged enabled interval
     else ret (Ok merged)) in
  if decide (segments = 1 ∨ len merged ≤ segments) then write c merged else
  let base := Z.quot (len merged) segments in
  rangeE (send_segment c merged base segments oob enabled interval) 0 (range segments).

Definition sendRecords (c : conn) (clientHello : bytes) (offset length records segments : Z)
    (oob oobex modMinorVer waitForAckEnabled : bool) (interval : Z) : St World (result unit) :=
  let records := if decide (records = 0) then 1 else records in
  let segments := if decide (segments = 0) then 1 else segments in
  let* clientHello :=
    lift (if modMinorVer then set_idx clientHello 2 Byte.x04 else Some clientHello) in
  if decide (records = 1) then
    if decide (oobex = true ∧ 35 ≤ len clientHello) then
      let*? clientHello := send_oobex c clientHello waitForAckEnabled interval in
      send_segments c clientHello (offset - 35) length segments oob waitForAckEnabled interval
    else
      send_segments c clientHello offset length segments oob waitForAckEnabled interval
  else
    let* chunks := lift (cut_records clientHello offset length records) in
    if decide (segments = -1) then
      rangeE (send_chunk c oob oobex waitForAckEnabled interval) 0 chunks
    else
      send_merged c (concat chunks) segments oob oobex waitForAckEnabled interval.

(** ** Waiting terminates and sends nothing *)

Lemma ack_loop_total fuel c start delay w :
  (0 < fuel)%nat →
  start + waitForAckOverallTimeout < now w + (Z.of_nat fuel - 1) * waitForAckPollInterval →
  ∃ r w', ack_loop fuel c start delay w = Some (r, w') ∧ sent w' = sent w.
Proof.
  unfold waitForAckOverallTimeout, waitForAckPollInterval, Second, Millisecond.
  revert w. induction fuel as [|fuel IH]; intros w Hpos Hw; [lia|]. clear Hpos.
  cbn [ack_loop]. unfold bind at 1, nowM at 1.
  set (t := now w + _). assert (now w ≤ t) by (unfold t; lia).
  case_decide as Ht; [by eexists _, _|].
  rewrite bindE_unfold. cbn [call]. simpl. destruct (default None (head (verdicts w))) as [e|].
  { eexists _, _. split; [done|]. unfold sent, events. simpl.
    by rewrite !fmap_app, !filter_app, !app_nil_r. }
  unfold bind at 1, next_unacked. case_decide.
  - unfold bind, nowM. case_decide; eexists _, _; (split; [done|]); unfold sent, events; simpl;
      by rewrite !fmap_app, !filter_app, !app_nil_r.
  - destruct fuel as [|fuel]; [unfold waitForAckOverallTimeout, Second, Millisecond in Ht; lia|].
    edestruct IH as (r & w' & Hr & Hs); [lia| |eexists _, _; split; [exact Hr|]].
    + simpl. unfold waitForAckPollInterval, Millisecond. lia.
    + rewrite Hs. unfold sent, events. simpl. by rewrite !fmap_app, !filter_app, !app_nil_r.
Qed.

#[export] Instance waitForAck_runs enabled c delay : Runs (waitForAck enabled c delay) tt [].
Proof.
  unfold waitForAck. destruct enabled; simpl negb; cbn iota.
  2: { apply bind_silent_runs; apply _. }
  apply (bindE_runs _ _ tt _ [] []); [apply _|].
  apply (bind_result_runs _ _ (ErrOp "wait for ACK: raw control") tt tt [] []); [apply call_runs|].
  assert (∀ start w, now w = start → ∃ r w', ack_loop ack_fuel c start delay w = Some (r, w') ∧
    sent w' = sent w) as Hl.
  { intros start w <-. apply ack_loop_total; [by unfold ack_fuel; lia|].
    unfold ack_fuel, waitForAckOverallTimeout, waitForAckPollInterval, Second, Millisecond. lia. }
  split; intros w; unfold bind at 1, nowM.
  - edestruct Hl as (r & w' & Hr & _); [|unfold wrap_op, bind; rewrite Hr; by eexists _, _].
    done.
  - intros [] w' Hw. split; [done|]. rewrite app_nil_r. revert Hw. unfold wrap_op, bind.
    edestruct Hl as (r & w1 & Hr & Hs); [|rewrite Hr].
    + done.
    + intros H. injection H as _ <-. by rewrite Hs.
Qed.

#[export] Instance ack_loop_cautious fuel c start delay : Cautious (ack_loop fuel c start delay).
Proof.
  induction fuel as [|fuel IH]; cbn [ack_loop]; [by split|].
  apply bind_steady_cautious; [apply _|intros t]. apply decide_cautious; [apply _|].
  apply bindE_cautious; [apply _|intros _].
  apply bind_steady_cautious; [apply _|intros n]. apply decide_cautious.
  - apply bind_steady_cautious; [apply _|intros t'].
    apply bind_steady_cautious; [case_decide; apply _|intros; apply _].
  - apply bind_steady_cautious; [apply _|intros; apply IH].
Qed.

#[export] Instance waitForAck_cautious enabled c delay : Cautious (waitForAck enabled c delay).
Proof.
  unfold waitForAck. apply if_cautious.
  - apply bind_steady_cautious; apply _.
  - apply bindE_cautious; [apply _|intros _].
    apply (bind_result_cautious _ _ (ErrOp "wait for ACK: raw control")); [apply _|intros _].
    apply bind_steady_cautious; [apply _|intros; apply wrap_op_cautious, _].
Qed.

(** ** Cutting loses nothing *)

Lemma makeRecord_eq header payload :
  len header = 3 → makeRecord header payload = header ++ put16 (len payload) ++ payload.
Proof.
  intros Hh. unfold makeRecord. rewrite (copy_full _ header) by (by rewrite Hh).
  rewrite (copy_full _ payload); [done|].
  unfold make_zero. rewrite len_replicate; [done|apply len_nonneg].
Qed.

Lemma part_Some data n i :
  0 < n ≤ len data → 0 ≤ i < n →
  part data (Z.quot (len data) n) n i =
  slice data (i * Z.quot (len data) n)
    (if decide (i = n - 1) then len data else (i + 1) * Z.quot (len data) n) ∧
  0 ≤ i * Z.quot (len data) n ≤
    (if decide (i = n - 1) then len data else (i + 1) * Z.quot (len data) n) ∧
  (if decide (i = n - 1) then len data else (i + 1) * Z.quot (len data) n) ≤ len data.
Proof.
  intros Hn Hi. rewrite Z.quot_div_nonneg by lia. unfold part, slice_from.
  pose proof (Z.mul_div_le (len data) n ltac:(lia)).
  assert (0 < len data / n) by (apply Z.div_str_pos; lia).
  case_decide; (split; [done|nia]).
Qed.

Lemma split_loop_spec data header n m result :
  0 < n ≤ len data → (m ≤ Z.to_nat n)%nat →
  ∃ ps, split_loop data header (Z.quot (len data) n) n
          (Z.of_nat <$> seq (Z.to_nat n - m) m) result =
        Some (result ++ (add_header header <$> ps)) ∧ length ps = m ∧
        (m ≠ 0%nat → slice_from data (Z.of_nat (Z.to_nat n - m) * Z.quot (len data) n) = Some (concat ps)).
Proof.
  intros Hn. revert result. induction m as [|m IH]; intros result Hm; simpl.
  { exists []. by rewrite app_nil_r. }
  change (list_fmap nat Z Z.of_nat) with (fmap (M:=list) Z.of_nat).
  set (i := Z.of_nat (Z.to_nat n - S m)).
  destruct (part_Some data n i Hn ltac:(lia)) as (-> & Hb1 & Hb2).
  rewrite (slice_Some data) by done. set (p := take _ _).
  replace (S (Z.to_nat n - S m))%nat with (Z.to_nat n - m)%nat by lia.
  destruct (IH (result ++ [add_header header p]) ltac:(lia)) as (ps & -> & Hl & Hc).
  exists (p :: ps). split; [by rewrite <-app_assoc|]. split; [simpl; lia|]. intros _.
  assert (Hp : slice data (i * Z.quot (len data) n)
    (if decide (i = n - 1) then len data else (i + 1) * Z.quot (len data) n) = Some p)
    by (by apply slice_Some).
  unfold slice_from in *. destruct m as [|m].
  - rewrite decide_True in Hp by lia. destruct ps; [|done]. simpl. by rewrite app_nil_r.
  - rewrite decide_False in Hp by lia. specialize (Hc ltac:(done)).
    simpl. eapply slice_app; [exact Hp|]. rewrite <-Hc. do 2 f_equal. lia.
Qed.

Lemma splitAndAppend_spec data header n result :
  0 < n → ∃ ps, splitAndAppend data header n result = Some (result ++ (add_header header <$> ps)) ∧
    concat ps = data ∧ ps ≠ [] ∧ len ps ≤ n.
Proof.
  intros Hn. unfold splitAndAppend. rewrite decide_False by lia.
  case_decide as Hc.
  { exists [data]. split; [done|]. simpl. rewrite app_nil_r. split; [done|]. split; [done|].
    unfold len. simpl. lia. }
  destruct (split_loop_spec data header n (Z.to_nat n) result) as (ps & Hs & Hl & Hd); [lia|lia|].
  rewrite Nat.sub_diag in Hs, Hd. unfold range. exists ps. split; [done|].
  specialize (Hd ltac:(lia)). simpl in Hd. unfold slice_from in Hd. rewrite slice_full in Hd.
  injection Hd as Hd. split; [done|]. split; [|unfold len; lia].
  intros ->. simpl in Hl. lia.
Qed.

(** ** What the packets carry *)

Definition writes (c : conn) (ps : list bytes) : list event := EWrite c <$> ps.

Lemma writes_no_oob c ps : existsb (is_oob c) (writes c ps) = false.
Proof. by induction ps. Qed.

Lemma inband_writes c ps : inband c (writes c ps) = concat ps.
Proof. induction ps as [|p ps IH]; simpl; [done|]. by rewrite decide_True, IH. Qed.

Lemma inband_oob_writes c p x ps :
  inband c (ESendOOB c (p ++ [x]) :: writes c ps) = p ++ concat ps.
Proof.
  cbn [inband]. by rewrite decide_True, writes_no_oob, removelast_last, inband_writes.
Qed.

Lemma inband_2oob_writes c p x q y ps :
  inband c (ESendOOB c (p ++ [x]) :: ESendOOB c (q ++ [y]) :: writes c ps) =
  (p ++ [x]) ++ q ++ concat ps.
Proof.
  rewrite <-(inband_oob_writes c q y). cbn [inband existsb is_oob].
  by rewrite decide_True, bool_decide_true.
Qed.

Definition first_oob (c : conn) (oob : bool) (ps : list bytes) : list event :=
  match ps with
  | p :: ps => (if oob then ESendOOB c (p ++ [Byte.x00]) else EWrite c p) :: writes c ps
  | [] => []
  end.

Lemma inband_first_oob c oob ps : inband c (first_oob c oob ps) = concat ps.
Proof.
  destruct ps as [|p ps]; [done|]. destruct oob; simpl first_oob.
  - apply inband_oob_writes.
  - apply (inband_writes c (p :: ps)).
Qed.

(** ** The sending loops *)

Lemma collect_writes c (g : Z → bytes → list event) i ps :
  (∀ j p, i ≤ j → g j p = [EWrite c p]) → collect g i ps = writes c ps.
Proof.
  revert i. induction ps as [|p ps IH]; intros i Hg; [done|]. simpl.
  rewrite Hg by lia. simpl. f_equal. apply IH. intros. apply Hg. lia.
Qed.

Lemma collect_first_oob c (g : Z → bytes → list event) oob ps :
  (∀ j p, 0 ≤ j → g j p = [if decide (j = 0 ∧ oob = true)
                           then ESendOOB c (p ++ [Byte.x00]) else EWrite c p]) →
  collect g 0 ps = first_oob c oob ps.
Proof.
  intros Hg. destruct ps as [|p ps]; [done|]. simpl. rewrite Hg by lia.
  simpl. f_equal; [by destruct oob|]. apply collect_writes.
  intros j q Hj. rewrite Hg by lia. by rewrite decide_False by (intros [??]; lia).
Qed.

Lemma send_packet_runs c oob en iv ps :
  Runs (rangeE (send_packet c oob en iv) 0 ps) tt (first_oob c oob ps).
Proof.
  eapply runs_eq.
  - apply (rangeE_runs _ (λ i p, [if decide (i = 0 ∧ oob = true)
                                   then ESendOOB c (p ++ [Byte.x00]) else EWrite c p])).
    intros j p _. unfold send_packet.
    eapply (bindE_runs _ _ tt _ [_] []); [|apply _]. case_decide; apply _.
  - by apply collect_first_oob.
Qed.

(** The first two packets of [send_chunk], when the second is urgent. *)
Definition first_oobex (c : conn) (ps : list bytes) : list event :=
  match ps with
  | p :: q :: ps =>
      ESendOOB c p :: ESendOOB c (q ++ [Byte.x00]) :: writes c ps
  | [p] => [ESendOOB c p]
  | [] => []
  end.

Lemma inband_first_oobex c ps :
  (1 < length ps)%nat → Forall (λ p, p ≠ []) ps → inband c (first_oobex c ps) = concat ps.
Proof.
  destruct ps as [|p [|q ps]]; simpl length; [lia|lia|]. intros _ [Hp _]%Forall_cons.
  destruct p as [|x p] using rev_ind; [done|]. simpl first_oobex.
  by rewrite inband_2oob_writes.
Qed.

Definition chunk_event (c : conn) (oob oobex : bool) (i : Z) (p : bytes) : event :=
  if decide (i = 0) then
    if oob then ESendOOB c (p ++ [Byte.x00])
    else if oobex then ESendOOB c p else EWrite c p
  else if decide (i = 1 ∧ oobex = true) then ESendOOB c (p ++ [Byte.x00]) else EWrite c p.

Lemma init_last (p : bytes) :
  0 < len p → ∃ a x, p = a ++ [x] ∧ slice_to p (len p - 1) = Some a ∧ idx p (len p - 1) = Some x.
Proof.
  destruct p as [|x p] using rev_ind; [done|]. intros _. exists p, x.
  rewrite !len_app. change (len [x]) with 1. pose proof (len_nonneg p).
  replace (len p + 1 - 1) with (len p) by lia. split; [done|]. split.
  - rewrite slice_to_Some by (rewrite len_app; change (len [x]) with 1; lia).
    f_equal. unfold len. rewrite Nat2Z.id. apply take_app_length.
  - rewrite idx_app_r, Z.sub_diag by lia. done.
Qed.

Lemma send_chunk_runs c oob oobex en iv i p :
  p ≠ [] → Runs (send_chunk c oob oobex en iv i p) tt [chunk_event c oob oobex i p].
Proof.
  intros Hp. unfold send_chunk, chunk_event. eapply (bindE_runs _ _ tt _ [_] []); [|apply _].
  case_decide; [|case_decide; apply _].
  destruct oob; [apply _|]. assert (0 < len p).
  { destruct p; [done|]. rewrite len_cons. pose proof (len_nonneg p). lia. }
  destruct oobex; [rewrite decide_True by done|rewrite decide_False by (by intros [??]); apply _].
  destruct (init_last p) as (a & x & -> & Ha & Hx); [done|].
  eapply lift_runs; [exact Ha|]. eapply lift_runs; [exact Hx|]. apply _.
Qed.

Lemma send_chunks_runs c oob oobex en iv ps :
  Forall (λ p, p ≠ []) ps → oob = false ∨ oobex = false →
  Runs (rangeE (send_chunk c oob oobex en iv) 0 ps) tt
    (if oobex then first_oobex c ps else first_oob c oob ps).
Proof.
  intros Hps Ho. eapply runs_eq.
  - apply (rangeE_runs _ (λ i p, [chunk_event c oob oobex i p])).
    intros j p Hj. apply send_chunk_runs. rewrite Forall_forall in Hps. by apply Hps.
  - destruct oobex.
    + destruct Ho as [->|]; [|done].
      destruct ps as [|p [|q ps]]; [done|done|]. simpl. do 2 f_equal.
      apply collect_writes. intros j r Hj. unfold chunk_event.
      rewrite decide_False by lia. by rewrite decide_False by (intros [??]; lia).
    + apply collect_first_oob. intros j p Hj. unfold chunk_event. f_equal.
      destruct Ho, oob; repeat case_decide; intuition congruence.
Qed.

(** Segment [i] of [n], as the loop of [sendRecords] cuts it. *)
Definition segment (data : bytes) (n i : Z) : bytes :=
  default [] (part data (Z.quot (len data) n) n i).

Lemma split_loop_segments data n todo result qs :
  split_loop data None (Z.quot (len data) n) n todo result = Some (result ++ qs) →
  qs = segment data n <$> todo.
Proof.
  revert result qs. induction todo as [|i todo IH]; intros result qs; simpl.
  { intros [= H]. rewrite <-(app_nil_r result) in H at 1. by apply app_inv_head in H. }
  unfold segment at 1. destruct (part _ _ _ i) as [p|] eqn:Hp; [|done]. simpl. intros H.
  assert (∃ rest, qs = p :: rest) as [rest ->].
  { clear -H. assert (∀ todo res r, split_loop data None (Z.quot (len data) n) n todo res = Some r →
      ∃ t, r = res ++ t) as Hx.
    { intros l. induction l as [|k l IH]; intros res r; simpl.
      - intros [= ->]. exists []. by rewrite app_nil_r.
      - destruct (part _ _ _ k); [|done]. intros [t ->]%IH. eexists. by rewrite <-app_assoc. }
    apply Hx in H as [t H]. rewrite <-app_assoc in H. apply app_inv_head in H. by eexists. }
  f_equal. apply (IH (result ++ [p])). by rewrite <-app_assoc.
Qed.

Lemma segments_concat data n :
  0 < n ≤ len data → concat (segment data n <$> range n) = data.
Proof.
  intros Hn. destruct (split_loop_spec data None n (Z.to_nat n) []) as (ps & Hs & Hl & Hd); [lia..|].
  rewrite Nat.sub_diag in Hs, Hd. apply split_loop_segments in Hs.
  replace (add_header None <$> ps) with ps in Hs by (symmetry; apply list_fmap_id).
  fold (range n) in Hs. rewrite <-Hs. specialize (Hd ltac:(lia)).
  unfold slice_from in Hd. simpl in Hd. rewrite slice_full in Hd. by injection Hd.
Qed.

Lemma send_segments_runs c merged n oob en iv :
  1 < n < len merged →
  Runs (rangeE (send_segment c merged (Z.quot (len merged) n) n oob en iv) 0 (range n)) tt
    (first_oob c oob (segment merged n <$> range n)).
Proof.
  intros Hn. eapply runs_eq.
  - apply (rangeE_runs _ (λ _ i, [if decide (i = 0 ∧ oob = true)
      then ESendOOB c (segment merged n i ++ [Byte.x00]) else EWrite c (segment merged n i)])).
    intros j i (k & -> & Hk)%list_elem_of_fmap. apply elem_of_seq in Hk.
    unfold send_segment. destruct (part_Some merged n (Z.of_nat k)) as (Hp & Hb & Hb'); [lia..|].
    eapply (lift_runs _ (segment merged n (Z.of_nat k))).
    + unfold segment. rewrite Hp.
      replace (Z.of_nat k * Z.quot (len merged) n + Z.quot (len merged) n) with
        ((Z.of_nat k + 1) * Z.quot (len merged) n) by lia.
      by rewrite (slice_Some merged) by done.
    + eapply (bindE_runs _ _ tt _ [_] []); [|apply _].
      destruct (decide (Z.of_nat k = 0 ∧ oob = true)); apply _.
  - unfold range. destruct (Z.to_nat n) as [|m] eqn:E; [lia|]. simpl.
    change (list_fmap nat Z Z.of_nat) with (fmap (M:=list) Z.of_nat).
    f_equal; [by destruct oob|].
    assert (∀ k z, (0 < k)%nat → collect (λ _ i, [if decide (i = 0 ∧ oob = true)
      then ESendOOB c (segment merged n i ++ [Byte.x00]) else EWrite c (segment merged n i)]) z
      (Z.of_nat <$> seq k m) = writes c (segment merged n <$> (Z.of_nat <$> seq k m))) as Hc.
    { clear. induction m as [|m IH]; intros k z Hk; [done|]. simpl.
      rewrite decide_False by (intros [??]; lia). simpl. f_equal. apply IH. lia. }
    apply Hc. lia.
Qed.

(** ** The whole sender *)

Lemma LastIndexByte_bounds (l : bytes) x (b : Z) (i : nat) :
  let r := foldl (λ best '(i, b), if decide (b = x) then i else best) b
             (imap (λ k y, (Z.of_nat (i + k), y)) l) in
  (r = b ∨ Z.of_nat i ≤ r < Z.of_nat i + len l ∧ l !! (Z.to_nat r - i)%nat = Some x).
Proof.
  revert b i. induction l as [|y l IH]; intros b i; simpl; [by left|].
  rewrite (imap_ext _ (λ k y, (Z.of_nat (S i + k), y))) by (intros; simpl; do 2 f_equal; lia).
  rewrite len_cons. pose proof (len_nonneg l). rewrite Nat.add_0_r.
  destruct (IH (if decide (y = x) then Z.of_nat i else b) (S i)) as [->|[Hr Hx]].
  - case_decide as Hd; [|by left]. right. subst. rewrite Nat2Z.id, Nat.sub_diag. split; [lia|done].
  - right. split; [lia|].
    set (r := foldl _ _ _) in *. by replace (Z.to_nat r - i)%nat with (S (Z.to_nat r - S i)) by lia.
Qed.

Lemma findLastDotOrMidPos_Some data off n :
  0 ≤ off → 0 ≤ n → off + n ≤ len data →
  ∃ cut, findLastDotOrMidPos data off n = Some cut ∧ off ≤ cut ≤ off + n ∧
    (2 ≤ n → cut < off + n ∧ (cut = off → idx data off = Some Byte.x2e)).
Proof.
  intros Ho Hn Hl. unfold findLastDotOrMidPos.
  destruct (slice data off (off + n)) as [sni|] eqn:Hs; [|by rewrite slice_Some in Hs by lia].
  pose proof (slice_len _ _ _ _ Hs) as Hsl.
  pose proof (LastIndexByte_bounds sni Byte.x2e (-1) 0) as Hb.
  change (foldl _ _ _) with (bytes_LastIndexByte sni Byte.x2e) in Hb. cbn zeta in Hb.
  set (r := bytes_LastIndexByte sni Byte.x2e) in *.
  rewrite Z.quot_div_nonneg by lia.
  pose proof (Z.mul_div_le n 2 ltac:(lia)).
  assert (2 ≤ n → 1 ≤ n / 2) by (intros; apply Z.div_le_lower_bound; lia).
  assert (0 ≤ n / 2) by (apply Z.div_pos; lia).
  case_decide as Hr.
  - eexists. split; [done|]. split; [lia|]. intros. split; [lia|]. intros. lia.
  - destruct Hb as [|[Hb Hx]]; [done|]. eexists. split; [done|]. split; [lia|].
    intros. split; [lia|]. intros He. assert (Hz : r = 0) by lia. rewrite Hz in Hx. simpl in Hx.
    replace off with (off + 0) by lia. rewrite <-(idx_slice _ _ _ _ 0 Hs) by lia. exact Hx.
Qed.

Lemma send_oobex_runs c b en iv :
  35 ≤ len b → ∃ p x q, b = (p ++ [x]) ++ q ++ drop 35 b ∧
    Runs (send_oobex c b en iv) (drop 35 b)
      [ESendOOB c (p ++ [x]); ESendOOB c (q ++ [Byte.x00])].
Proof.
  intros Hb. unfold send_oobex.
  destruct (idx_Some b 15 ltac:(lia)) as [x Hx].
  exists (take 15 b), x, (take 19 (drop 16 b)).
  assert (Heq : b = (take 15 b ++ [x]) ++ take 19 (drop 16 b) ++ drop 35 b).
  { unfold idx in Hx. simpl in Hx. rewrite <-(take_S_r b 15 x Hx).
    replace (drop 35 b) with (drop 19 (drop 16 b)) by (by rewrite drop_drop).
    by rewrite take_drop, take_drop. }
  split; [done|].
  eapply lift_runs; [apply slice_to_Some; lia|]. eapply lift_runs; [done|].
  eapply (bindE_runs _ _ tt _ [_] [_]); [apply _|].
  eapply lift_runs; [apply (slice_Some b 16 35); lia|].
  eapply (bindE_runs _ _ tt _ [_] []); [apply _|].
  eapply (bindE_runs _ _ tt _ [] []); [apply _|].
  eapply lift_runs; [apply slice_from_Some; lia|]. apply _.
Qed.

Definition bump_version (modMinorVer : bool) (hello : bytes) : bytes :=
  if modMinorVer then <[2%nat := Byte.x04]> hello else hello.

Lemma bump_version_len mm hello : len (bump_version mm hello) = len hello.
Proof. unfold bump_version. destruct mm; [|done]. unfold len. by rewrite length_insert. Qed.

Lemma bump_version_Some (mm : bool) (hello : bytes) :
  3 ≤ len hello →
  (if mm then set_idx hello 2 Byte.x04 else Some hello) = Some (bump_version mm hello).
Proof. intros. destruct mm; [|done]. apply set_idx_Some. lia. Qed.

Lemma add_header_None (ps : list bytes) : add_header None <$> ps = ps.
Proof. apply list_fmap_id. Qed.

(** The packets of a routine that is given [b] to send: the first may be
    urgent, and in band they carry [b]. *)
Definition carries (c : conn) (oob : bool) (b : bytes) (l : list event) : Prop :=
  ∃ ps, l = first_oob c oob ps ∧ concat ps = b.

Lemma send_segments_runs' c h off n segs oob en iv :
  0 ≤ off → 0 ≤ n → off + n ≤ len h → 1 ≤ segs →
  ∃ l, Runs (send_segments c h off n segs oob en iv) tt l ∧
    carries c (oob && bool_decide (segs ≠ 1)) h l.
Proof.
  intros Ho Hn Hl Hs. unfold send_segments. case_decide as H1.
  - subst. eexists. split; [apply _|]. exists [h]. simpl. rewrite andb_false_r, app_nil_r. done.
  - destruct (findLastDotOrMidPos_Some h off n Ho Hn Hl) as (cut & Hcut & Hc & _).
    destruct (splitAndAppend_spec (take (Z.to_nat cut) h) None (Z.quot segs 2) [])
      as (ls & Hls & Hlc & _); [rewrite Z.quot_div_nonneg by lia; apply Z.div_str_pos; lia|].
    destruct (splitAndAppend_spec (drop (Z.to_nat cut) h) None (segs - Z.quot segs 2) ls)
      as (rs & Hrs & Hrc & _).
    { rewrite Z.quot_div_nonneg by lia. pose proof (Z.div_lt segs 2 ltac:(lia) ltac:(lia)). lia. }
    rewrite add_header_None in *. eexists. split.
    + eapply lift_runs; [exact Hcut|]. eapply lift_runs; [apply slice_to_Some; lia|].
      eapply lift_runs; [exact Hls|]. eapply lift_runs; [apply slice_from_Some; lia|].
      eapply lift_runs; [exact Hrs|]. apply send_packet_runs.
    + exists (ls ++ rs). rewrite bool_decide_true, andb_true_r by done. split; [done|].
      by rewrite concat_app, Hlc, Hrc, take_drop.
Qed.

Definition sni_ok (hello : bytes) (off n : Z) : Prop :=
  5 ≤ off ∧ 0 ≤ n ∧ off + n ≤ len hello.

(** The records of a hello and their payloads: the two sides of the cut. *)
Lemma cut_records_spec h off n records :
  sni_ok h off n → 2 ≤ records →
  ∃ cut left right,
    findLastDotOrMidPos h off n = Some cut ∧ off ≤ cut ≤ off + n ∧
    cut_records h off n records = Some (makeRecord (take 3 h) <$> (left ++ right)) ∧
    slice h 5 cut = Some (concat left) ∧ slice_from h cut = Some (concat right) ∧
    left ≠ [] ∧ right ≠ [] ∧ len left + len right ≤ records.
Proof.
  intros (Ho & Hn & Hl) Hr. unfold cut_records.
  destruct (findLastDotOrMidPos_Some h off n ltac:(lia) Hn Hl) as (cut & -> & Hc & _).
  rewrite (slice_to_Some h 3), (slice_Some h), (slice_from_Some h)
    by (unfold tlsRecordHeaderLen; lia).
  unfold tlsRecordHeaderLen. rewrite Z.quot_div_nonneg by lia.
  set (l := take _ (drop _ h)). change (take (Z.to_nat 3) h) with (take 3 h).
  pose proof (Z.div_lt records 2 ltac:(lia) ltac:(lia)).
  pose proof (Z.div_str_pos records 2 ltac:(lia)).
  destruct (splitAndAppend_spec l (Some (take 3 h)) (records / 2) []) as (ls & -> & Hlc & ? & ?); [done|].
  destruct (splitAndAppend_spec (drop (Z.to_nat cut) h) (Some (take 3 h)) (records - records / 2)
    ([] ++ (add_header (Some (take 3 h)) <$> ls))) as (rs & -> & Hrc & ? & ?); [lia|].
  exists cut, ls, rs. split; [done|]. split; [done|]. split; [by rewrite fmap_app|].
  split; [|split; [|split; [done|split; [done|lia]]]].
  - rewrite Hlc. apply slice_Some; lia.
  - rewrite Hrc. apply slice_from_Some. lia.
Qed.

Lemma send_merged_runs c merged segs oob oobex en iv :
  1 ≤ segs → oob = false ∨ oobex = false →
  ∃ l, Runs (send_merged c merged segs oob oobex en iv) tt l ∧ inband c l = merged.
Proof.
  intros Hs Ho. unfold send_merged.
  assert (Hrest : ∀ m, ∃ l, Runs (if decide (segs = 1 ∨ len m ≤ segs) then write c m else
      rangeE (send_segment c m (Z.quot (len m) segs) segs oob en iv) 0 (range segs)) tt l ∧
      carries c (oob && negb (bool_decide (segs = 1 ∨ len m ≤ segs))) m l).
  { intros m. case_decide as Hc.
    - exists [EWrite c m]. split; [apply _|]. exists [m]. rewrite bool_decide_true by done.
      simpl. rewrite andb_false_r, app_nil_r. done.
    - eexists. split; [apply send_segments_runs; lia|]. exists (segment m segs <$> range segs). split; [|apply segments_concat; lia].
      by rewrite bool_decide_false, andb_true_r. }
  destruct (decide (oobex = true ∧ 35 ≤ len merged)) as [[-> Hm]|Hex].
  - destruct Ho as [->|]; [|done].
    destruct (send_oobex_runs c merged en iv Hm) as (p & x & q & Hq & Hr).
    destruct (Hrest (drop 35 merged)) as (l & Hl & ps & -> & Hps).
    eexists. split; [eapply bindE_runs; [exact Hr|exact Hl]|].
    etransitivity; [|symmetry; exact Hq]. rewrite <-Hps. clear.
    destruct ps as [|r ps]; [apply (inband_2oob_writes c p x q _ [])|].
    apply (inband_2oob_writes c p x q _ (r :: ps)).
  - destruct (Hrest merged) as (l & Hl & ps & -> & Hps).
    eexists. split; [eapply (bindE_runs _ _ merged _ [] _); [apply _|exact Hl]|].
    simpl app. by rewrite inband_first_oob.
Qed.

(** ** The receiving side: reading TLS records off a stream *)

Fixpoint read_records (fuel : nat) (b : bytes) : option (list (bytes * bytes)) :=
  match fuel, b with
  | _, [] => Some []
  | S fuel, t :: v1 :: v2 :: h :: l :: rest =>
      let n := bZ h * 256 + bZ l in
      if decide (n ≤ len rest) then
        rs ← read_records fuel (drop (Z.to_nat n) rest);
        Some (([t; v1; v2], take (Z.to_nat n) rest) :: rs)
      else None
  | _, _ => None
  end.

Lemma read_records_concat hdr ps fuel :
  len hdr = 3 → Forall (λ p, len p < 65536) ps → (length ps ≤ fuel)%nat →
  read_records fuel (concat (makeRecord hdr <$> ps)) = Some ((λ p, (hdr, p)) <$> ps).
Proof.
  intros Hh Hps. revert fuel. induction Hps as [|p ps Hp Hps IH]; intros fuel Hf.
  { by destruct fuel. }
  destruct fuel as [|fuel]; [simpl in Hf; lia|].
  cbn [fmap list_fmap concat]. rewrite makeRecord_eq, <-!app_assoc by done.
  destruct hdr as [|t [|v1 [|v2 [|]]]]; [done..| |unfold len in Hh; simpl in Hh; lia].
  unfold put16. cbn [app read_records].
  pose proof (put16_val (len p) ltac:(pose proof (len_nonneg p); lia)) as ->.
  rewrite decide_True by (rewrite len_app; pose proof (len_nonneg (concat (makeRecord [t; v1; v2] <$> ps))); unfold fmap in *; lia).
  unfold len. rewrite Nat2Z.id. rewrite drop_app_length, take_app_length.
  change (list_fmap bytes bytes (makeRecord [t; v1; v2]) ps) with (makeRecord [t; v1; v2] <$> ps).
  rewrite IH by (simpl in Hf; lia). done.
Qed.

Lemma makeRecord_len hdr p : len hdr = 3 → len (makeRecord hdr p) = 5 + len p.
Proof. intros H. rewrite makeRecord_eq by done. rewrite !len_app, H. change (len (put16 _)) with 2. lia. Qed.

Lemma makeRecord_nonempty hdr ps :
  len hdr = 3 → Forall (λ p, p ≠ []) (makeRecord hdr <$> ps).
Proof.
  intros H. apply Forall_fmap, Forall_true. intros p. simpl. intros Hp.
  pose proof (makeRecord_len hdr p H) as Hl. rewrite Hp in Hl. pose proof (len_nonneg p).
  change (len []) with 0 in Hl. lia.
Qed.

Lemma records_length hdr ps :
  len hdr = 3 → (length ps ≤ length (concat (makeRecord hdr <$> ps)))%nat.
Proof.
  intros H. induction ps as [|p ps IH]; [simpl; lia|]. cbn [fmap list_fmap concat length].
  rewrite length_app. pose proof (makeRecord_len hdr p H). unfold len in *.
  change (list_fmap bytes bytes (makeRecord hdr) ps) with (makeRecord hdr <$> ps). lia.
Qed.

Lemma concat_member_len (p : bytes) ps : p ∈ ps → len p ≤ len (concat ps).
Proof.
  induction ps as [|q ps IH]; [by intros ?%not_elem_of_nil|].
  rewrite elem_of_cons. intros [->|Hp]; simpl; rewrite len_app;
    pose proof (len_nonneg (concat ps)); pose proof (len_nonneg q); [lia|].
  specialize (IH Hp). lia.
Qed.

(** What [sendRecords] needs of a hello whose name is at [off], of length [n],
    and of the settings: [oob] and [oob_ex] are not both on, and the settings
    of one record do not ask for one segment per record. *)
Definition send_ok (hello : bytes) (off n records segments : Z) (oob oobex : bool) : Prop :=
  sni_ok hello off n ∧ (oobex = true → 35 ≤ off) ∧ len hello ≤ 65540 ∧
  0 ≤ records ∧ -1 ≤ segments ∧ (records ≤ 1 → segments ≠ -1) ∧ (oob = false ∨ oobex = false).

(** The peer [c] gets [hello] from the calls [l]: as it is with one record;
    with more, as at most [records] TLS records with the hello's header and
    together its payload, cut at a point strictly inside the name when that
    has two bytes and does not start with a dot. *)
Definition delivers (c : conn) (hello : bytes) (off n records : Z) (l : list event) : Prop :=
  (records ≤ 1 → inband c l = hello) ∧
  (2 ≤ records → ∃ cut left right,
     read_records (length (inband c l)) (inband c l) =
       Some ((λ p, (take 3 hello, p)) <$> (left ++ right)) ∧
     slice hello 5 cut = Some (concat left) ∧ slice_from hello cut = Some (concat right) ∧
     left ≠ [] ∧ right ≠ [] ∧ len left + len right ≤ records ∧
     (2 ≤ n → idx hello off ≠ Some Byte.x2e → off < cut < off + n)).

(** One record: the hello in segments, after the urgent byte where it is asked. *)
Lemma send_whole_runs (c : conn) (hello : bytes) (off n segs : Z)
    (oob oobex enabled : bool) (interval : Z) :
  sni_ok hello off n → (oobex = true → 35 ≤ off) → 1 ≤ segs → (oob = false ∨ oobex = false) →
  ∃ l, Runs (if decide (oobex = true ∧ 35 ≤ len hello) then
      bindE (send_oobex c hello enabled interval)
        (λ h, send_segments c h (off - 35) n segs oob enabled interval)
      else send_segments c hello off n segs oob enabled interval) tt l ∧
    inband c l = hello.
Proof.
  intros (Ho & Hn & Hl) Hex Hs Hoo.
  destruct (decide (oobex = true ∧ 35 ≤ len hello)) as [[-> H35]|Hno].
  - destruct Hoo as [->|]; [|done]. specialize (Hex eq_refl).
    destruct (send_oobex_runs c hello enabled interval H35) as (p & x & q & Hq & Hrun).
    destruct (send_segments_runs' c (drop 35 hello) (off - 35) n segs false enabled interval)
      as (l & Hl2 & ps & -> & Hps); [lia|lia|rewrite (len_drop 35) by lia; lia|lia|].
    eexists. split; [eapply bindE_runs; [exact Hrun|exact Hl2]|].
    etransitivity; [|symmetry; exact Hq]. rewrite <-Hps. clear. simpl andb.
    destruct ps as [|r ps]; [apply (inband_2oob_writes c p x q _ [])|].
    apply (inband_2oob_writes c p x q _ (r :: ps)).
  - destruct (send_segments_runs' c hello off n segs oob enabled interval)
      as (l & Hl2 & ps & -> & Hps); [lia..|].
    eexists. split; [exact Hl2|]. by rewrite inband_first_oob.
Qed.

(** Many records: each on its own, or the lot in segments. *)
Lemma send_records_runs (c : conn) (hdr : bytes) (payloads : list bytes) (segs : Z)
    (oob oobex enabled : bool) (interval : Z) :
  let chunks := makeRecord hdr <$> payloads in
  len hdr = 3 → (2 ≤ length payloads)%nat → segs = -1 ∨ 1 ≤ segs → (oob = false ∨ oobex = false) →
  ∃ l, Runs (if decide (segs = -1) then rangeE (send_chunk c oob oobex enabled interval) 0 chunks
      else send_merged c (concat chunks) segs oob oobex enabled interval) tt l ∧
    inband c l = concat chunks.
Proof.
  intros chunks H3 H2 Hs Hoo. case_decide; [|apply send_merged_runs; [lia|done]].
  eexists. split; [apply send_chunks_runs; [by apply makeRecord_nonempty|done]|].
  destruct oobex; [|apply inband_first_oob].
  apply inband_first_oobex; [|by apply makeRecord_nonempty].
  unfold chunks. rewrite length_fmap. lia.
Qed.

Lemma sendRecords_runs (c : conn) (hello : bytes) (off n records segments : Z)
    (oob oobex modMinorVer enabled : bool) (interval : Z) :
  send_ok hello off n records segments oob oobex →
  ∃ l, Runs (sendRecords c hello off n records segments oob oobex modMinorVer enabled interval) tt l ∧
    delivers c (bump_version modMinorVer hello) off n records l.
Proof.
  intros ((Ho & Hn & Hl) & Hex & H64 & Hr & Hs & Hrs & Hoo). unfold delivers.
  set (hello' := bump_version modMinorVer hello).
  assert (Hlen : len hello' = len hello) by apply bump_version_len.
  assert (Hbump := bump_version_Some modMinorVer hello ltac:(lia)). fold hello' in Hbump.
  unfold sendRecords. set (recs := if decide (records = 0) then 1 else records).
  set (segs := if decide (segments = 0) then 1 else segments).
  assert (segs = -1 ∨ 1 ≤ segs) by (unfold segs; case_decide; lia).
  destruct (decide (recs = 1)) as [H1|H1].
  - assert (records ≤ 1) by (unfold recs in H1; case_decide; lia).
    destruct (send_whole_runs c hello' off n segs oob oobex enabled interval) as (l & Hrun & Hin);
      [unfold sni_ok; lia|done|unfold segs in *; case_decide; lia|done|].
    exists l. split; [eapply lift_runs; [exact Hbump|exact Hrun]|]. split; [done|lia].
  - assert (2 ≤ records ∧ recs = records) as [H2 ->] by (unfold recs in *; case_decide; lia).
    destruct (cut_records_spec hello' off n records) as
      (cut & left & right & Hcut & Hb & Hchunks & Hleft & Hright & Hln & Hrn & Hcount);
      [unfold sni_ok; lia|lia|].
    assert (H3 : len (take 3 hello') = 3) by (apply (len_take 3); lia).
    destruct (send_records_runs c (take 3 hello') (left ++ right) segs oob oobex enabled interval)
      as (l & Hrun & Hin); [done|rewrite length_app; destruct left, right; try done; simpl; lia|done..|].
    exists l. split; [eapply lift_runs; [exact Hbump|]; eapply lift_runs; [exact Hchunks|exact Hrun]|].
    split; [lia|]. intros _. exists cut, left, right. rewrite Hin.
    split; [|do 5 (split; [done|])].
    + apply read_records_concat; [done| |by apply records_length].
      apply Forall_forall. intros p [Hp|Hp]%elem_of_app; apply concat_member_len in Hp;
        [apply slice_len in Hleft|apply slice_len in Hright]; lia.
    + intros Hn2 Hdot. destruct (findLastDotOrMidPos_Some hello' off n) as (cut' & Hc' & ? & Hstrict); [lia..|].
      rewrite Hcut in Hc'. injection Hc' as <-. destruct (Hstrict Hn2) as [? Hd].
      split; [|lia]. destruct (decide (cut = off)) as [Heq|]; [by apply Hd in Heq|lia].
Qed.


(** ** Failures *)

#[export] Instance send_oobex_cautious c b en iv : Cautious (send_oobex c b en iv).
Proof. unfold send_oobex. apply _. Qed.
#[export] Instance write_nth_cautious what c i p : Cautious (write_nth what c i p).
Proof. unfold write_nth. apply _. Qed.
#[export] Instance send_packet_cautious c oob en iv i p : Cautious (send_packet c oob en iv i p).
Proof. unfold send_packet. apply _. Qed.
#[export] Instance send_chunk_cautious c oob oobex en iv i p :
  Cautious (send_chunk c oob oobex en iv i p).
Proof. unfold send_chunk. apply _. Qed.
#[export] Instance send_segment_cautious c m base segs oob en iv k i :
  Cautious (send_segment c m base segs oob en iv k i).
Proof. unfold send_segment. apply _. Qed.
#[export] Instance send_segments_cautious c h off n segs oob en iv :
  Cautious (send_segments c h off n segs oob en iv).
Proof. unfold send_segments. apply _. Qed.
#[export] Instance send_merged_cautious c m segs oob oobex en iv :
  Cautious (send_merged c m segs oob oobex en iv).
Proof. unfold send_merged. apply _. Qed.
#[export] Instance sendRecords_cautious c hello off n records segments oob oobex mm en iv :
  Cautious (sendRecords c hello off n records segments oob oobex mm en iv).
Proof. unfold sendRecords. apply _. Qed.

(** Whatever the arguments, when [sendRecords] returns an error the calls
    it has made (writes, urgent sends, polls, sleeps) are the first of those it
    makes when nothing fails: it stops at the first failing call and never
    sends a later packet. *)
Theorem sendRecords_stops_at_failure (c : conn) (hello : bytes) (off n records segments : Z)
    (oob oobex modMinorVer enabled : bool) (interval : Z) (w w' w'' : World) e r :
  let send := sendRecords c hello off n records segments oob oobex modMinorVer enabled interval in
  send w = Some (Fail e, w') → send (fair w) = Some (r, w'') →
  events w' `prefix_of` events w''.
Proof. intros send. apply fails_at. unfold send. apply _. Qed.

(** With one record and one segment per record ([num_records] 1 or unset,
    [num_segs] -1) and no [oob_ex], [sendRecords] reports success and sends
    nothing at all. *)
Theorem sendRecords_drops_single_record (c : conn) (hello : bytes) (off n records : Z)
    (oob enabled : bool) (interval : Z) (w : World) :
  sni_ok hello off n → records = 0 ∨ records = 1 →
  sendRecords c hello off n records (-1) oob false false enabled interval w = Some (Ok tt, w).
Proof.
  intros (Ho & Hn & Hl) Hr. unfold sendRecords, bind, lift, send_segments, splitAndAppend.
  assert ((if decide (records = 0) then 1 else records) = 1) as -> by (case_decide; lia).
  destruct (findLastDotOrMidPos_Some hello off n ltac:(lia) Hn Hl) as (cut & Hcut & Hc & _).
  simpl. unfold bind, lift. rewrite Hcut, slice_to_Some, slice_from_Some by lia. done.
Qed.

(** ** Witnesses *)

Definition hello_conn : conn := mkConn 1 true.
Definition quiet : World := mkWorld [] [] 0 [] [] [] ∅.
(** A hello with the name "a.b" at offset 67. *)
Definition hello_bytes : bytes := encode_hello sample_hello.

Lemma hello_send_ok records segments oob oobex :
  0 ≤ records → -1 ≤ segments → (records ≤ 1 → segments ≠ -1) → oob = false ∨ oobex = false →
  send_ok hello_bytes 67 3 records segments oob oobex.
Proof.
  intros. split; [unfold sni_ok; vm_compute; intuition congruence|].
  split; [done|]. by split; [vm_compute|].
Qed.


Lemma sendRecords_stops_at_failure_witness :
  let send := sendRecords hello_conn hello_bytes 67 3 2 2 false false false false 0 in
  let w := mkWorld [] [None; Some (ErrEnv "reset")] 0 [] [] [] ∅ in
  ∃ e r w' w'', send w = Some (Fail e, w') ∧ send (fair w) = Some (r, w'') ∧
    events w' `prefix_of` events w''.
Proof.
  intros send w.
  destruct (send w) as [[[?|e] w']|] eqn:E1; [vm_compute in E1; discriminate| |vm_compute in E1; discriminate].
  destruct (send (fair w)) as [[r w'']|] eqn:E2; [|vm_compute in E2; discriminate].
  exists e, r, w', w''. split; [done|]. split; [done|].
  exact (sendRecords_stops_at_failure hello_conn hello_bytes 67 3 2 2 false false false false 0
           w w' w'' e r E1 E2).
Defined.

Lemma sendRecords_drops_single_record_witness :
  sni_ok hello_bytes 67 3 ∧
  sendRecords hello_conn hello_bytes 67 3 1 (-1) false false false false 0 quiet = Some (Ok tt, quiet).
Proof.
  assert (H : sni_ok hello_bytes 67 3) by (unfold sni_ok; vm_compute; intuition congruence).
  split; [exact H|]. apply sendRecords_drops_single_record; [exact H|by right].
Defined.
