(* ===== verification/Policy.v ===== *)
(** [internal/policy.go], the data: modes, the policy record, its defaults, its
    decoding from JSON and the merge of several policies. *)

From Stdlib Require Import Strings.Ascii.
From S2P Require Import Prelude GoStd GoTime Conn Json.

Definition unsetInt : Z := -1.
Definition unsetString : string := "-".
Definition defaultConnectTimeout : Z := 10 * Second.
Definition defaultTTLDAttempts : Z := 2.
Definition defaultTTLDMaxTTL : Z := 64.
Definition defaultTTLDFakeSleep : Z := 200 * Millisecond.
Definition defaultTTLDSingleTimeout : Z := 500 * Millisecond.

(** ** Modes *)

Inductive SniffOverrideMode :=
| SniffOverrideUnset | SniffOverrideOff | SniffOverrideAlways | SniffOverridePolicyExists.
Inductive Mode :=
| ModeUnknown | ModeRaw | ModeDirect | ModeTLSRF | ModeTTLD | ModeBlock | ModeTLSAlert.
Inductive DNSMode :=
| DNSModeUnknown | DNSModePreferIPv4 | DNSModePreferIPv6 | DNSModeIPv4Only | DNSModeIPv6Only.
Inductive TriBool := BoolUnset | BoolFalse | BoolTrue.

Definition ModeDefault : Mode := ModeTLSRF.
Definition DNSModeDefault : DNSMode := DNSModePreferIPv4.

#[export] Instance SniffOverrideMode_eq_dec : EqDecision SniffOverrideMode.
Proof. solve_decision. Defined.
#[export] Instance Mode_eq_dec : EqDecision Mode.
Proof. solve_decision. Defined.
#[export] Instance DNSMode_eq_dec : EqDecision DNSMode.
Proof. solve_decision. Defined.
#[export] Instance TriBool_eq_dec : EqDecision TriBool.
Proof. solve_decision. Defined.

Definition SniffOverrideMode_UnmarshalJSON (v : json) : result SniffOverrideMode :=
  let? s := unmarshal_string v in
  if decide (s = "off") then Ok SniffOverrideOff
  else if decide (s = "always") then Ok SniffOverrideAlways
  else if decide (s = "policy_exists") then Ok SniffOverridePolicyExists
  else Fail (ErrNew ("invalid sniff_override: " +:+ s)).

Definition Mode_UnmarshalJSON (v : json) : result Mode :=
  let? s := unmarshal_string v in
  if decide (s = "raw") then Ok ModeRaw
  else if decide (s = "direct") then Ok ModeDirect
  else if decide (s = "tls-rf") then Ok ModeTLSRF
  else if decide (s = "ttl-d") then Ok ModeTTLD
  else if decide (s = "block") then Ok ModeBlock
  else if decide (s = "tls-alert") then Ok ModeTLSAlert
  else Fail (ErrNew ("invalid mode: " +:+ s)).

Definition Mode_String (m : Mode) : string :=
  match m with
  | ModeRaw => "raw" | ModeDirect => "direct" | ModeTLSRF => "tls-rf" | ModeTTLD => "ttl-d"
  | ModeBlock => "block" | ModeTLSAlert => "tls-alert" | ModeUnknown => "unknown"
  end.

Definition DNSMode_UnmarshalJSON (v : json) : result DNSMode :=
  let? s := unmarshal_string v in
  if decide (s = "prefer_ipv4") then Ok DNSModePreferIPv4
  else if decide (s = "prefer_ipv6") then Ok DNSModePreferIPv6
  else if decide (s = "ipv4_only") then Ok DNSModeIPv4Only
  else if decide (s = "ipv6_only") then Ok DNSModeIPv6Only
  else Fail (ErrNew ("invalid dns_mode: " +:+ s)).

Definition DNSMode_String (m : DNSMode) : string :=
  match m with
  | DNSModePreferIPv4 => "prefer_ipv4" | DNSModePreferIPv6 => "prefer_ipv6"
  | DNSModeIPv4Only => "ipv4_only" | DNSModeIPv6Only => "ipv6_only"
  | DNSModeUnknown => "unknown"
  end.

Definition IsTrue (b : TriBool) : bool := bool_decide (b = BoolTrue).
Definition IsUnset (b : TriBool) : bool := bool_decide (b = BoolUnset).

Definition TriBool_UnmarshalJSON (v : json) : result TriBool :=
  let s := raw_text v in
  if decide (s = "null") then Ok BoolUnset
  else if decide (s = "false") then Ok BoolFalse
  else if decide (s = "true") then Ok BoolTrue
  else Fail (ErrNew ("invalid bool: " +:+ s)).

(** ** The record *)

Record Policy := mkPolicy {
  ReplyFirst : TriBool;
  pSniff : SniffOverrideMode;
  pDNSMode : DNSMode;
  ConnectTimeout : Z;
  Host : string;
  MapTo : string;
  Port : Z;
  HttpStatus : Z;
  TLS13Only : TriBool;
  pMode : Mode;
  NumRecords : Z;
  NumSegments : Z;
  WaitForAck : TriBool;
  OOB : TriBool;
  OOBEx : TriBool;
  ModMinorVer : TriBool;
  SendInterval : Z;
  FakeTTL : Z;
  FakeSleep : Z;
  MaxTTL : Z;
  Attempts : Z;
  SingleTimeout : Z
}.

#[export] Instance Policy_eq_dec : EqDecision Policy.
Proof. solve_decision. Defined.

(** [Policy{}] *)
Definition Policy_zero : Policy :=
  mkPolicy BoolUnset SniffOverrideUnset DNSModeUnknown 0 "" "" 0 0 BoolUnset ModeUnknown
    0 0 BoolUnset BoolUnset BoolUnset BoolUnset 0 0 0 0 0 0.

Definition normalizePolicyDefaults (p : Policy) : Policy :=
  let ttld := bool_decide ((if decide (pMode p = ModeUnknown) then ModeDefault else pMode p) = ModeTTLD) in
  {| ReplyFirst := ReplyFirst p;
     pSniff := pSniff p;
     pDNSMode := if decide (pDNSMode p = DNSModeUnknown) then DNSModeDefault else pDNSMode p;
     ConnectTimeout := if decide (ConnectTimeout p ≤ 0) then defaultConnectTimeout else ConnectTimeout p;
     Host := if decide (Host p = "") then unsetString else Host p;
     MapTo := if decide (MapTo p = "") then unsetString else MapTo p;
     Port := Port p;
     HttpStatus := HttpStatus p;
     TLS13Only := TLS13Only p;
     pMode := if decide (pMode p = ModeUnknown) then ModeDefault else pMode p;
     NumRecords := NumRecords p;
     NumSegments := NumSegments p;
     WaitForAck := WaitForAck p;
     OOB := OOB p;
     OOBEx := OOBEx p;
     ModMinorVer := ModMinorVer p;
     SendInterval := SendInterval p;
     FakeTTL := FakeTTL p;
     FakeSleep := if decide (ttld = true ∧ FakeSleep p ≤ 0) then defaultTTLDFakeSleep else FakeSleep p;
     MaxTTL := if decide (ttld = true ∧ MaxTTL p ≤ 1) then defaultTTLDMaxTTL else MaxTTL p;
     Attempts := if decide (ttld = true ∧ Attempts p ≤ 0) then defaultTTLDAttempts else Attempts p;
     SingleTimeout :=
       if decide (ttld = true ∧ SingleTimeout p ≤ 0) then defaultTTLDSingleTimeout else SingleTimeout p |}.

(** ** Decoding *)

Definition policy_fields : fields :=
  [("sniff_override", check_with SniffOverrideMode_UnmarshalJSON);
   ("reply_first", check_with TriBool_UnmarshalJSON);
   ("connect_timeout", check_string);
   ("host", check_string);
   ("map_to", check_string);
   ("port", check_int minInt maxInt);
   ("dns_mode", check_with DNSMode_UnmarshalJSON);
   ("http_status", check_int minInt maxInt);
   ("tls13_only", check_with TriBool_UnmarshalJSON);
   ("mode", check_with Mode_UnmarshalJSON);
   ("num_records", check_int minInt maxInt);
   ("num_segs", check_int minInt maxInt);
   ("wait_for_ack", check_with TriBool_UnmarshalJSON);
   ("oob", check_with TriBool_UnmarshalJSON);
   ("oob_ex", check_with TriBool_UnmarshalJSON);
   ("mod_minor_ver", check_with TriBool_UnmarshalJSON);
   ("send_interval", check_string);
   ("fake_ttl", check_int minInt maxInt);
   ("fake_sleep", check_string);
   ("max_ttl", check_int minInt maxInt);
   ("attempts", check_int minInt maxInt);
   ("single_timeout", check_string)].

Definition strp (name : string) (o : object) : option string :=
  pointer_field get_string policy_fields name o.
Definition intp (name : string) (o : object) : option Z :=
  pointer_field get_int policy_fields name o.
Definition tri (name : string) (o : object) : TriBool :=
  custom_field TriBool_UnmarshalJSON BoolUnset policy_fields name o.

(** A string field: [-] is reserved. *)
Definition take_string (name : string) (v : option string) : result string :=
  match v with
  | None => Ok unsetString
  | Some s => if decide (s = unsetString) then Fail (ErrNew (name +:+ " cannot be `-`")) else Ok s
  end.

(** An integer field: [unset] when absent, an error [why] when [bad]. *)
Definition take_int (name why : string) (unset : Z) (bad : Z → bool) (v : option Z) : result Z :=
  match v with
  | None => Ok unset
  | Some n => if bad n then Fail (ErrNew (name +:+ " " +:+ itoa n +:+ ": " +:+ why)) else Ok n
  end.

(** A duration field. *)
Definition take_duration (name why : string) (unset : Z) (bad : Z → bool) (v : option string)
    : result Z :=
  match v with
  | None => Ok unset
  | Some s =>
      match ParseDuration s with
      | Fail e => Fail (ErrWrap ("parse " +:+ name +:+ " " +:+ s +:+ ": ") e)
      | Ok d => if bad d then Fail (ErrNew (name +:+ " " +:+ s +:+ ": " +:+ why)) else Ok d
      end
  end.

Definition outside : string := "outside the valid range".
Definition not_positive : string := "must be greater than 0".

(** [UnmarshalJSON] of a policy; [p] is the policy before the call. *)
Definition Policy_UnmarshalJSON (p : Policy) (data : json) : result Policy :=
  let? o := unmarshal_struct policy_fields id data in
  let? host := take_string "host" (strp "host" o) in
  let? map_to := take_string "map_to" (strp "map_to" o) in
  let? port := take_int "port" outside unsetInt (λ n, (n <? 0) || (65535 <? n)) (intp "port" o) in
  let? http_status := take_int "http_status" outside unsetInt (λ n, n <? 0) (intp "http_status" o) in
  let? num_records :=
    take_int "num_records" not_positive (NumRecords p) (λ n, n <=? 0) (intp "num_records" o) in
  let? num_segs :=
    take_int "num_segs" outside (NumSegments p) (λ n, (n =? 0) || (n <? -1)) (intp "num_segs" o) in
  let? fake_ttl := take_int "fake_ttl" outside unsetInt (λ n, (n <? 0) || (255 <? n)) (intp "fake_ttl" o) in
  let? attempts :=
    take_int "attempts" "must be greater than 1" (Attempts p) (λ n, n <? 1) (intp "attempts" o) in
  let? max_ttl :=
    take_int "max_ttl" outside (MaxTTL p) (λ n, (n <=? 1) || (255 <? n)) (intp "max_ttl" o) in
  let? connect_timeout :=
    take_duration "connect_timeout" not_positive unsetInt (λ d, d <=? 0) (strp "connect_timeout" o) in
  let? send_interval :=
    take_duration "send_interval" outside unsetInt (λ d, d <? 0) (strp "send_interval" o) in
  let? fake_sleep :=
    take_duration "fake_sleep" not_positive (FakeSleep p) (λ d, d <=? 0) (strp "fake_sleep" o) in
  let? single_timeout :=
    take_duration "single_timeout" not_positive unsetInt (λ d, d <=? 0) (strp "single_timeout" o) in
  Ok {| ReplyFirst := tri "reply_first" o;
        pSniff := custom_field SniffOverrideMode_UnmarshalJSON SniffOverrideUnset policy_fields "sniff_override" o;
        pDNSMode := custom_field DNSMode_UnmarshalJSON DNSModeUnknown policy_fields "dns_mode" o;
        ConnectTimeout := connect_timeout;
        Host := host;
        MapTo := map_to;
        Port := port;
        HttpStatus := http_status;
        TLS13Only := tri "tls13_only" o;
        pMode := custom_field Mode_UnmarshalJSON ModeUnknown policy_fields "mode" o;
        NumRecords := num_records;
        NumSegments := num_segs;
        WaitForAck := tri "wait_for_ack" o;
        OOB := tri "oob" o;
        OOBEx := tri "oob_ex" o;
        ModMinorVer := tri "mod_minor_ver" o;
        SendInterval := send_interval;
        FakeTTL := fake_ttl;
        FakeSleep := fake_sleep;
        MaxTTL := max_ttl;
        Attempts := attempts;
        SingleTimeout := single_timeout |}.

(** ** Merging *)

(** [if merged.f == unset && p.f != unset { merged.f = p.f }] *)
Definition pick {A} `{EqDecision A} (unset merged p : A) : A :=
  if decide (merged = unset ∧ p ≠ unset) then p else merged.

Definition merge_empty : Policy :=
  mkPolicy BoolUnset SniffOverrideUnset DNSModeUnknown unsetInt unsetString unsetString
    unsetInt unsetInt BoolUnset ModeUnknown 0 0 BoolUnset BoolUnset BoolUnset BoolUnset
    unsetInt unsetInt 0 0 0 unsetInt.

Definition merge_step (m p : Policy) : Policy :=
  {| ReplyFirst := pick BoolUnset (ReplyFirst m) (ReplyFirst p);
     pSniff := pick SniffOverrideUnset (pSniff m) (pSniff p);
     pDNSMode := pick DNSModeUnknown (pDNSMode m) (pDNSMode p);
     ConnectTimeout := pick unsetInt (ConnectTimeout m) (ConnectTimeout p);
     Host := pick unsetString (Host m) (Host p);
     MapTo := pick unsetString (MapTo m) (MapTo p);
     Port := pick unsetInt (Port m) (Port p);
     HttpStatus := pick unsetInt (HttpStatus m) (HttpStatus p);
     TLS13Only := pick BoolUnset (TLS13Only m) (TLS13Only p);
     pMode := pick ModeUnknown (pMode m) (pMode p);
     NumRecords := pick 0 (NumRecords m) (NumRecords p);
     NumSegments := pick 0 (NumSegments m) (NumSegments p);
     WaitForAck := pick BoolUnset (WaitForAck m) (WaitForAck p);
     OOB := pick BoolUnset (OOB m) (OOB p);
     OOBEx := pick BoolUnset (OOBEx m) (OOBEx p);
     ModMinorVer := pick BoolUnset (ModMinorVer m) (ModMinorVer p);
     SendInterval := pick unsetInt (SendInterval m) (SendInterval p);
     FakeTTL := pick unsetInt (FakeTTL m) (FakeTTL p);
     FakeSleep := pick 0 (FakeSleep m) (FakeSleep p);
     MaxTTL := pick 0 (MaxTTL m) (MaxTTL p);
     Attempts := pick 0 (Attempts m) (Attempts p);
     SingleTimeout := pick unsetInt (SingleTimeout m) (SingleTimeout p) |}.

(** Filling in the modes before [normalizePolicyDefaults] changes nothing it
    would not do itself, but it is what the code does. *)
Definition default_modes (m : Policy) : Policy :=
  mkPolicy (ReplyFirst m) (pSniff m)
    (if decide (pDNSMode m = DNSModeUnknown) then DNSModeDefault else pDNSMode m)
    (ConnectTimeout m) (Host m) (MapTo m) (Port m) (HttpStatus m) (TLS13Only m)
    (if decide (pMode m = ModeUnknown) then ModeDefault else pMode m)
    (NumRecords m) (NumSegments m) (WaitForAck m) (OOB m) (OOBEx m) (ModMinorVer m)
    (SendInterval m) (FakeTTL m) (FakeSleep m) (MaxTTL m) (Attempts m) (SingleTimeout m).

Definition mergePolicies (policies : list Policy) : Policy :=
  normalizePolicyDefaults (default_modes (foldl merge_step merge_empty policies)).

(** ** Merging takes the first policy that sets a field *)

Definition first_set {A} `{EqDecision A} (unset : A) (l : list A) : A :=
  default unset (find (λ x, negb (bool_decide (x = unset))) l).

Lemma pick_unset {A} `{EqDecision A} (u x : A) : pick u u x = x.
Proof. unfold pick. case_decide as H; [done|]. destruct (decide (x = u)); [done|]. by destruct H. Qed.

Lemma pick_set {A} `{EqDecision A} (u m x : A) : m ≠ u → pick u m x = m.
Proof. intros H. unfold pick. case_decide as Hd; [|done]. by destruct Hd. Qed.

Lemma foldl_pick {A} `{EqDecision A} (u : A) (l : list A) (m : A) :
  foldl (pick u) m l = if decide (m = u) then first_set u l else m.
Proof.
  revert m. induction l as [|x l IH]; intros m; simpl.
  - case_decide; [done|done].
  - rewrite IH. destruct (decide (m = u)) as [->|Hm].
    + rewrite pick_unset. unfold first_set. simpl. case_decide as Hx.
      * by rewrite bool_decide_true.
      * by rewrite bool_decide_false.
    + rewrite pick_set by done. by rewrite decide_False.
Qed.

(** A getter of a field commutes with the loop. *)
Lemma merge_field {A} `{EqDecision A} (get : Policy → A) (u : A) ps m :
  (∀ m p, get (merge_step m p) = pick u (get m) (get p)) → get m = u →
  get (foldl merge_step m ps) = first_set u (get <$> ps).
Proof.
  intros Hs Hm. assert (get (foldl merge_step m ps) = foldl (pick u) (get m) (get <$> ps)) as ->.
  { clear Hm. revert m. induction ps as [|p ps IH]; intros m; simpl; [done|]. by rewrite IH, Hs. }
  rewrite foldl_pick, Hm. by rewrite decide_True.
Qed.

(** The policy whose fields are those of the first policy that sets them. *)
Definition first_of (ps : list Policy) : Policy :=
  {| ReplyFirst := first_set BoolUnset (ReplyFirst <$> ps);
     pSniff := first_set SniffOverrideUnset (pSniff <$> ps);
     pDNSMode := first_set DNSModeUnknown (pDNSMode <$> ps);
     ConnectTimeout := first_set unsetInt (ConnectTimeout <$> ps);
     Host := first_set unsetString (Host <$> ps);
     MapTo := first_set unsetString (MapTo <$> ps);
     Port := first_set unsetInt (Port <$> ps);
     HttpStatus := first_set unsetInt (HttpStatus <$> ps);
     TLS13Only := first_set BoolUnset (TLS13Only <$> ps);
     pMode := first_set ModeUnknown (pMode <$> ps);
     NumRecords := first_set 0 (NumRecords <$> ps);
     NumSegments := first_set 0 (NumSegments <$> ps);
     WaitForAck := first_set BoolUnset (WaitForAck <$> ps);
     OOB := first_set BoolUnset (OOB <$> ps);
     OOBEx := first_set BoolUnset (OOBEx <$> ps);
     ModMinorVer := first_set BoolUnset (ModMinorVer <$> ps);
     SendInterval := first_set unsetInt (SendInterval <$> ps);
     FakeTTL := first_set unsetInt (FakeTTL <$> ps);
     FakeSleep := first_set 0 (FakeSleep <$> ps);
     MaxTTL := first_set 0 (MaxTTL <$> ps);
     Attempts := first_set 0 (Attempts <$> ps);
     SingleTimeout := first_set unsetInt (SingleTimeout <$> ps) |}.

Lemma merge_first_of ps : foldl merge_step merge_empty ps = first_of ps.
Proof.
  assert (∀ p q, ReplyFirst p = ReplyFirst q → pSniff p = pSniff q → pDNSMode p = pDNSMode q →
    ConnectTimeout p = ConnectTimeout q → Host p = Host q → MapTo p = MapTo q → Port p = Port q →
    HttpStatus p = HttpStatus q → TLS13Only p = TLS13Only q → pMode p = pMode q →
    NumRecords p = NumRecords q → NumSegments p = NumSegments q → WaitForAck p = WaitForAck q →
    OOB p = OOB q → OOBEx p = OOBEx q → ModMinorVer p = ModMinorVer q →
    SendInterval p = SendInterval q → FakeTTL p = FakeTTL q → FakeSleep p = FakeSleep q →
    MaxTTL p = MaxTTL q → Attempts p = Attempts q → SingleTimeout p = SingleTimeout q → p = q) as Hext.
  { intros [] []. simpl. by intros; subst. }
  apply Hext; by apply merge_field.
Qed.

Lemma default_modes_normalized p : normalizePolicyDefaults (default_modes p) = normalizePolicyDefaults p.
Proof.
  destruct p as [? ? d ? ? ? ? ? ? m ? ? ? ? ? ? ? ? ? ? ? ?]. destruct d, m; reflexivity.
Qed.

(** C4: merging policies gives, field by field, the value of the first policy
    that sets the field, and then the defaults. *)
Theorem mergePolicies_first_wins (ps : list Policy) :
  mergePolicies ps = normalizePolicyDefaults (first_of ps).
Proof. unfold mergePolicies. by rewrite merge_first_of, default_modes_normalized. Qed.

(** ** Well-formed policies *)

(** What a decoded policy guarantees. *)
Definition policy_wf (p : Policy) : Prop :=
  (-1 ≤ Port p ≤ 65535) ∧ -1 ≤ HttpStatus p ∧ 0 ≤ NumRecords p ∧ -1 ≤ NumSegments p ∧
  (-1 ≤ FakeTTL p ≤ 255) ∧ 0 ≤ Attempts p ∧ (MaxTTL p = 0 ∨ 2 ≤ MaxTTL p ≤ 255) ∧
  -1 ≤ ConnectTimeout p ∧ -1 ≤ SendInterval p ∧ 0 ≤ FakeSleep p ∧ -1 ≤ SingleTimeout p.

(** What a policy in use guarantees on top. *)
Definition policy_ready (p : Policy) : Prop :=
  (-1 ≤ Port p ≤ 65535) ∧ -1 ≤ HttpStatus p ∧ 0 ≤ NumRecords p ∧ -1 ≤ NumSegments p ∧
  (-1 ≤ FakeTTL p ≤ 255) ∧ -1 ≤ SendInterval p ∧
  pMode p ≠ ModeUnknown ∧ pDNSMode p ≠ DNSModeUnknown ∧ 0 < ConnectTimeout p ∧
  Host p ≠ "" ∧ MapTo p ≠ "" ∧
  (pMode p = ModeTTLD →
     1 ≤ Attempts p ∧ 2 ≤ MaxTTL p ≤ 255 ∧ 0 < FakeSleep p ∧ 0 < SingleTimeout p).

Lemma take_int_Ok name why unset bad v n :
  take_int name why unset bad v = Ok n → n = unset ∨ bad n = false.
Proof.
  destruct v as [z|]; simpl; [|by intros [= ->]; left].
  destruct (bad z) eqn:E; [done|]. intros [= ->]. by right.
Qed.

Lemma take_duration_Ok name why unset bad v n :
  take_duration name why unset bad v = Ok n → n = unset ∨ bad n = false.
Proof.
  destruct v as [s|]; simpl; [|by intros [= ->]; left].
  destruct (ParseDuration s) as [d|]; [|done]. destruct (bad d) eqn:E; [done|].
  intros [= ->]. by right.
Qed.


Lemma first_set_forall {A} `{EqDecision A} (P : A → Prop) (u : A) l :
  P u → Forall P l → P (first_set u l).
Proof.
  intros Hu. unfold first_set. induction 1 as [|x l Hx Hl IH]; simpl; [done|].
  by destruct (negb _).
Qed.

Lemma first_set_wf {A} `{EqDecision A} (get : Policy → A) (P : A → Prop) (u : A) ps :
  P u → (∀ p, policy_wf p → P (get p)) → Forall policy_wf ps → P (first_set u (get <$> ps)).
Proof.
  intros Hu Hp Hps. apply first_set_forall; [done|]. apply Forall_fmap.
  eapply Forall_impl; [exact Hps|done].
Qed.

Lemma merge_ready (ps : list Policy) :
  Forall policy_wf ps → policy_ready (mergePolicies ps).
Proof.
  intros H. unfold mergePolicies. rewrite merge_first_of, default_modes_normalized.
  assert (policy_wf (first_of ps)) as (? & ? & ? & ? & ? & ? & ? & ? & ? & ? & ?).
  { unfold policy_wf, first_of, unsetInt. cbn [Port HttpStatus NumRecords NumSegments FakeTTL Attempts
      MaxTTL ConnectTimeout SendInterval FakeSleep SingleTimeout].
    repeat match goal with |- _ ∧ _ => split end;
      lazymatch goal with
      | |- context [first_set ?u (?get <$> ps)] =>
          let x := constr:(first_set u (get <$> ps)) in
          pattern x; apply first_set_wf; [cbn beta; lia| |done];
          intros p (? & ? & ? & ? & ? & ? & ? & ? & ? & ? & ?); cbn beta; lia
      end. }
  revert H0 H1 H2 H3 H4 H5 H6 H7 H8 H9 H10. generalize (first_of ps) as p. clear. intros p.
  intros. unfold policy_ready, normalizePolicyDefaults. simpl.
  unfold defaultConnectTimeout, defaultTTLDAttempts, defaultTTLDMaxTTL, defaultTTLDFakeSleep,
    defaultTTLDSingleTimeout, Second, Millisecond.
  repeat match goal with |- _ ∧ _ => split end; try lia; try (case_decide; done || lia).
  intros Hm. rewrite Hm, bool_decide_true by done. clear Hm.
  repeat match goal with |- _ ∧ _ => split end;
    match goal with |- context [decide (_ ∧ ?Q)] =>
      destruct (decide Q); [rewrite decide_True by done|rewrite decide_False by (by intros [??])]
    end; lia.
Qed.

(** Merging well-formed policies always gives a policy that is ready for
    use: modes known, a positive connect timeout, host and redirect not empty,
    and with [ttl-d] positive attempts, timeouts and a hop limit in 2..255. *)
Theorem mergePolicies_ready (ps : list Policy) :
  Forall policy_wf ps → policy_ready (mergePolicies ps).
Proof. apply merge_ready. Qed.

(** ** Witnesses *)

Definition sample_document : json :=
  JObj [("mode", JStr "ttl-d"); ("Port", JNum (Some 8443)); ("fake_sleep", JStr "50ms");
        ("host", JNull); ("tls13_only", JBool true)].

Example sample_document_decodes :
  ∃ q, Policy_UnmarshalJSON Policy_zero sample_document = Ok q ∧
    pMode q = ModeTTLD ∧ Port q = 8443 ∧ FakeSleep q = 50000000 ∧ Host q = "-" ∧ TLS13Only q = BoolTrue.
Proof. eexists. split; [vm_compute; reflexivity|done]. Qed.

Example refused_documents :
  is_ok (Policy_UnmarshalJSON Policy_zero (JObj [("mode", JNull)])) = false ∧
  is_ok (Policy_UnmarshalJSON Policy_zero (JObj [("oob", JNull)])) = true ∧
  is_ok (Policy_UnmarshalJSON Policy_zero (JObj [("port", JNum (Some 65536))])) = false ∧
  is_ok (Policy_UnmarshalJSON Policy_zero (JObj [("host", JStr "-")])) = false ∧
  is_ok (Policy_UnmarshalJSON Policy_zero (JObj [("num_segs", JNum (Some (-1)))])) = true.
Proof. by vm_compute. Qed.

Lemma Policy_zero_wf : policy_wf Policy_zero.
Proof. unfold policy_wf. simpl. lia. Qed.


Lemma mergePolicies_ready_witness :
  Forall policy_wf [Policy_zero; merge_empty] ∧ policy_ready (mergePolicies [Policy_zero; merge_empty]).
Proof.
  assert (H : Forall policy_wf [Policy_zero; merge_empty]).
  { constructor; [|constructor; [|constructor]]; unfold policy_wf; simpl; unfold unsetInt; lia. }
  split; [exact H|]. exact (mergePolicies_ready _ H).
Defined.

Lemma normalizePolicyDefaults_wf p : policy_wf p → policy_wf (normalizePolicyDefaults p).
Proof.
  intros (? & ? & ? & ? & ? & ? & ? & ? & ? & ? & ?).
  unfold policy_wf, normalizePolicyDefaults. cbn [Port HttpStatus NumRecords NumSegments FakeTTL
    Attempts MaxTTL ConnectTimeout SendInterval FakeSleep SingleTimeout].
  unfold defaultConnectTimeout, defaultTTLDAttempts, defaultTTLDMaxTTL, defaultTTLDFakeSleep,
    defaultTTLDSingleTimeout, Second, Millisecond.
  generalize (bool_decide ((if decide (pMode p = ModeUnknown) then ModeDefault else pMode p) = ModeTTLD)).
  intros b. repeat match goal with |- _ ∧ _ => split end; try lia; repeat case_decide; lia.
Qed.
