(* ===== verification/Desync.v ===== *)
(** [internal/desync_rules.go], [internal/desync.go] and
    [internal/desync_linux.go]: the rules that turn a hop count into the TTL of
    the fake packet, the search for the hop count, and the fake packet itself. *)

From S2P Require Import Prelude GoStd Patterns ClientHello Conn Fragment Policy Cache.
From Stdlib Require Import Strings.Ascii Sorting.Permutation Sorting.Sorted.

(** ** Rules *)

Inductive rule_op := OpMinus | OpSet.     (* '-' and '=' *)
Record rule := mkRule { threshold : Z; typ : rule_op; val : Z }.

(** [for i < len(b) && '0' <= b[i] <= '9']: the value of the digits in front
    (a 64-bit [int]), whether there is one, and what follows. *)
Fixpoint scan_int (acc : Z) (s : string) : Z * bool * string :=
  match s with
  | String a r =>
      if is_digit a then
        let '(v, _, rest) := scan_int (s64 (acc * 10 + (ascZ a - 48))) r in (v, true, rest)
      else (acc, false, s)
  | EmptyString => (acc, false, s)
  end.

(** The loop of [parseTTLRules]; [Ok None] is the nil slice it returns for a
    plain number.  Every turn consumes a byte. *)
Fixpoint rules_loop (fuel : nat) (b : string) (rules : list rule) : result (option (list rule)) :=
  match fuel, b with
  | _, EmptyString => Ok (Some rules)
  | O, _ => Ok (Some rules)
  | S fuel, _ =>
      let '(a, some, rest) := scan_int 0 b in
      if negb some then Fail (ErrNew "invalid rule: missing left number") else
      match rest with
      | EmptyString =>
          if decide (rules = []) then Ok None
          else Fail (ErrNew "invalid rule: missing operator")
      | String c rest =>
          let op := if decide (c = "-"%char) then Some OpMinus
                    else if decide (c = "="%char) then Some OpSet else None in
          match op with
          | None => Fail (ErrNew "invalid operator")
          | Some op =>
              let '(v, some, rest) := scan_int 0 rest in
              if negb some then Fail (ErrNew "invalid rule: missing right number") else
              let rest := match rest with
                          | String c r => if decide (c = ";"%char) then r else rest
                          | EmptyString => rest
                          end in
              rules_loop fuel rest (rules ++ [mkRule a op v])
          end
      end
  end.

(** [sort.Slice] with [rules[i].threshold > rules[j].threshold]: the insertion
    sort it uses on short slices; rules of equal threshold keep their order. *)
Fixpoint insert_rule (r : rule) (l : list rule) : list rule :=
  match l with
  | [] => [r]
  | x :: l' => if decide (threshold x < threshold r) then r :: l else x :: insert_rule r l'
  end.
Definition sort_rules (l : list rule) : list rule := foldl (λ acc r, insert_rule r acc) [] l.

Definition parseTTLRules (conf : string) : result (option (list rule)) :=
  if decide (conf = "") then Fail (ErrNew "empty config") else
  let? rules := rules_loop (String.length conf) conf [] in
  Ok (sort_rules <$> rules).

Definition validateTTLRules (conf : string) : option error :=
  match parseTTLRules conf with Ok _ => None | Fail e => Some e end.

(** ** [calcTTL] *)

Fixpoint apply_rules (rules : list rule) (ttl : Z) : result Z :=
  match rules with
  | [] => Fail (ErrNew "no matching TTL rule")
  | r :: rules =>
      if decide (threshold r ≤ ttl) then
        Ok match typ r with OpMinus => s64 (ttl - val r) | OpSet => val r end
      else apply_rules rules ttl
  end.

Fixpoint plain_int (acc : Z) (s : string) : result Z :=
  match s with
  | EmptyString => Ok acc
  | String a r =>
      if is_digit a then plain_int (s64 (acc * 10 + (ascZ a - 48))) r
      else Fail (ErrNew "invalid integer config")
  end.

(** What [loadTTLRules] stores in [calcTTL]. *)
Definition loadTTLRules (conf : string) : result (Z → result Z) :=
  let? rules := parseTTLRules conf in
  Ok match rules with
     | None => λ _, plain_int 0 conf
     | Some rules => apply_rules rules
     end.

(** ** The search for the hop count

    [dial ttl k] is the error of attempt [k] (from 0) to open a TCP connection
    whose packets live [ttl] hops; [ErrTimeout] is the [net.OpError] that
    reports a timeout. *)

Section detect.
  Context (dial : Z → Z → option error).

(** [for range attempts]: [Ok true] when an attempt succeeds. *)
Fixpoint attempts_loop (mid : Z) (k : Z) (n : nat) : result bool :=
  match n with
  | O => Ok false
  | S n =>
      match dial mid k with
      | None => Ok true
      | Some ErrTimeout => attempts_loop mid (k + 1) n
      | Some err => Fail (ErrOp ("dial " +:+ itoa mid) err)
      end
  end.

(** [for low <= high]: the interval shrinks with every turn. *)
Fixpoint detect_loop (fuel : nat) (attempts low high found : Z) : result Z :=
  match fuel with
  | O => Ok found
  | S fuel =>
      if decide (high < low) then Ok found else
      let mid := Z.quot (low + high) 2 in
      match attempts_loop mid 0 (Z.to_nat attempts) with
      | Fail e => Fail e
      | Ok true => detect_loop fuel attempts low (mid - 1) mid
      | Ok false => detect_loop fuel attempts (mid + 1) high found
      end
  end.

(** The fuel is the length of the interval, plus one. *)
Definition detectMinimalReachableTTL (maxTTL attempts : Z) : result Z :=
  detect_loop (S (Z.to_nat maxTTL)) attempts 1 maxTTL unsetInt.

(** An addressee [k] hops away: attempts with fewer hops time out, and with
    enough hops one of the attempts succeeds after timeouts. *)
Definition hops_away (k attempts : Z) : Prop :=
  ∀ ttl, 1 ≤ ttl →
    (ttl < k → ∀ a, 0 ≤ a < attempts → dial ttl a = Some ErrTimeout) ∧
    (k ≤ ttl → ∃ a, 0 ≤ a < attempts ∧ dial ttl a = None ∧
       ∀ b, 0 ≤ b < a → dial ttl b = Some ErrTimeout).

Lemma attempts_loop_timeouts ttl k n :
  (∀ a, k ≤ a < k + Z.of_nat n → dial ttl a = Some ErrTimeout) →
  attempts_loop ttl k n = Ok false.
Proof.
  revert k. induction n as [|n IH]; intros k H; [done|]. simpl.
  rewrite H by lia. apply IH. intros. apply H. lia.
Qed.

Lemma attempts_loop_success ttl k n a :
  k ≤ a < k + Z.of_nat n → dial ttl a = None →
  (∀ b, k ≤ b < a → dial ttl b = Some ErrTimeout) →
  attempts_loop ttl k n = Ok true.
Proof.
  revert k. induction n as [|n IH]; intros k Ha Hn Hb; [lia|]. simpl.
  destruct (decide (a = k)) as [->|]; [by rewrite Hn|].
  rewrite Hb by lia. apply IH; [lia|done|]. intros. apply Hb. lia.
Qed.

Lemma attempts_loop_hops k attempts ttl :
  hops_away k attempts → 1 ≤ ttl →
  attempts_loop ttl 0 (Z.to_nat attempts) = Ok (bool_decide (k ≤ ttl)).
Proof.
  intros H Httl. destruct (H ttl Httl) as [H1 H2]. case_bool_decide as Hk.
  - destruct (H2 Hk) as (a & Ha & Hn & Hb).
    apply (attempts_loop_success _ _ _ a); [lia|done|intros; apply Hb; lia].
  - apply attempts_loop_timeouts. intros. apply H1; lia.
Qed.

Lemma detect_loop_minimal k maxTTL attempts fuel low high found :
  hops_away k attempts → 1 ≤ low → low ≤ k → (Z.to_nat (high + 1 - low) < fuel)%nat →
  (found = unsetInt ∧ high = maxTTL ∨ found = high + 1 ∧ k ≤ found ≤ maxTTL) →
  detect_loop fuel attempts low high found = Ok (if decide (k ≤ maxTTL) then k else unsetInt).
Proof.
  intros Hk. revert low high found. induction fuel as [|fuel IH]; intros low high found Hl Hlk Hf Hinv; [lia|].
  cbn [detect_loop]. destruct (decide (high < low)) as [Hd|Hd].
  { f_equal. case_decide; destruct Hinv as [[-> ->]|[-> ?]]; try lia. }
  rewrite Z.quot_div_nonneg by lia.
  pose proof (Z.div_le_lower_bound (low + high) 2 low ltac:(lia) ltac:(lia)).
  pose proof (Z.div_le_upper_bound (low + high) 2 high ltac:(lia) ltac:(lia)).
  rewrite (attempts_loop_hops k) by (done || lia).
  case_bool_decide; apply IH; lia.
Qed.
End detect.

(** C9: against an addressee [k] hops away the binary search of
    [detectMinimalReachableTTL] terminates and returns exactly [k] when
    [k <= maxTTL], and [unsetInt] otherwise, for any number of attempts and
    however many of them time out before one succeeds. *)
Theorem detectMinimalReachableTTL_minimal (dial : Z → Z → option error) (k maxTTL attempts : Z) :
  hops_away dial k attempts → 1 ≤ k → 0 ≤ maxTTL →
  detectMinimalReachableTTL dial maxTTL attempts =
  Ok (if decide (k ≤ maxTTL) then k else unsetInt).
Proof.
  intros Hk H1 Hm. apply (detect_loop_minimal dial); try done; [lia|]. by left.
Qed.

Lemma detectMinimalReachableTTL_minimal_witness :
  let dial := λ ttl a, if decide (7 ≤ ttl ∧ a = 1) then None else Some ErrTimeout in
  hops_away dial 7 2 ∧ detectMinimalReachableTTL dial 64 2 = Ok 7.
Proof.
  intros dial. assert (H : hops_away dial 7 2).
  { intros ttl _. unfold dial. split.
    - intros. by rewrite decide_False by lia.
    - intros. exists 1. split; [lia|]. split; [by rewrite decide_True by lia|].
      intros. by rewrite decide_False by lia. }
  split; [exact H|].
  exact (detectMinimalReachableTTL_minimal dial 7 64 2 H ltac:(done) ltac:(done)).
Defined.

(** ** Rules: parsing, ordering, applying *)

Definition print_op (o : rule_op) : string := match o with OpMinus => "-" | OpSet => "=" end.
Definition print_rule (r : rule) : string :=
  itoa (threshold r) +:+ print_op (typ r) +:+ itoa (val r).
Definition rule_wf (r : rule) : Prop := 0 ≤ threshold r ≤ maxInt64 ∧ 0 ≤ val r ≤ maxInt64.

Lemma scan_int_digit acc a s :
  is_digit a = true → s64 (acc * 10 + (ascZ a - 48)) = acc * 10 + (ascZ a - 48) →
  scan_int acc (String a s) =
    let '(v, _, rest) := scan_int (acc * 10 + (ascZ a - 48)) s in (v, true, rest).
Proof. intros Hd Hs. cbn [scan_int]. by rewrite Hd, Hs. Qed.

Lemma s64_small z : 0 ≤ z ≤ maxInt64 → s64 z = z.
Proof. unfold s64, maxInt64. intros. rewrite Z.mod_small; lia. Qed.

Lemma pretty_N_char_digit (x : N) :
  (x < 10)%N → is_digit (pretty_N_char x) = true ∧ ascZ (pretty_N_char x) - 48 = Z.of_N x.
Proof.
  intros Hx. assert (∃ n, x = N.of_nat n ∧ (n < 10)%nat) as (n & -> & Hn).
  { exists (N.to_nat x). lia. }
  do 10 (destruct n as [|n]; [done|]). lia.
Qed.

Lemma pretty_N_go_head (x : N) s : (0 < x)%N → ∃ c t, pretty_N_go x s = String c t ∧ is_digit c = true.
Proof.
  revert s. induction (N.lt_wf_0 x) as [x _ IH]. intros s Hx. rewrite pretty_N_go_step by done.
  pose proof (N.mod_lt x 10 ltac:(lia)). destruct (pretty_N_char_digit (x mod 10)) as [Hd _]; [done|].
  destruct (decide (x / 10 = 0)%N) as [Hz|Hz]; [rewrite Hz, pretty_N_go_0; by eexists _, _|].
  apply IH; [apply N.div_lt; lia|by apply N.neq_0_lt_0].
Qed.

(** Decimal digits are read back: what precedes [s] is accumulated. *)
Lemma scan_int_pretty (x : N) s :
  (0 < x)%N → Z.of_N x ≤ maxInt64 →
  scan_int 0 (pretty_N_go x s) = let '(v, _, rest) := scan_int (Z.of_N x) s in (v, true, rest).
Proof.
  revert s. induction (N.lt_wf_0 x) as [x _ IH]. intros s Hx Hm.
  rewrite pretty_N_go_step by done.
  pose proof (N.mod_lt x 10 ltac:(lia)). destruct (pretty_N_char_digit (x mod 10)) as [Hd Hv]; [done|].
  pose proof (N.div_mod x 10 ltac:(lia)).
  assert (Hacc : ∀ acc, acc = Z.of_N (x / 10) →
    scan_int acc (String (pretty_N_char (x mod 10)) s) =
    let '(v, _, rest) := scan_int (Z.of_N x) s in (v, true, rest)).
  { intros acc ->. assert (Z.of_N (x / 10) * 10 + Z.of_N (x mod 10) = Z.of_N x) as Hz by lia.
    rewrite scan_int_digit; [by rewrite Hv, Hz|done|]. rewrite Hv, Hz. by apply s64_small; lia. }
  destruct (decide (x / 10 = 0)%N) as [Hz|Hz].
  - rewrite Hz, pretty_N_go_0. by rewrite Hacc by lia.
  - rewrite IH; [|apply N.div_lt; lia|lia|pose proof (N.Div0.div_le_upper_bound x 10 x); lia].
    rewrite Hacc by done. by destruct (scan_int (Z.of_N x) s) as [[??]?].
Qed.

Definition no_digit (s : string) : Prop :=
  match s with String a _ => is_digit a = false | EmptyString => True end.

Lemma scan_int_stop acc s : no_digit s → scan_int acc s = (acc, false, s).
Proof. destruct s as [|a s]; [done|]. simpl. by intros ->. Qed.

Lemma pretty_N_go_app x s t : pretty_N_go x (s +:+ t) = pretty_N_go x s +:+ t.
Proof.
  revert s. induction (N.lt_wf_0 x) as [x _ IH]. intros s.
  destruct (decide (x = 0)%N) as [->|]; [by rewrite !pretty_N_go_0|].
  rewrite !(pretty_N_go_step x) by lia. rewrite <-IH by (apply N.div_lt; lia). done.
Qed.

Lemma scan_int_itoa z s :
  0 ≤ z ≤ maxInt64 → no_digit s → scan_int 0 (itoa z +:+ s) = (z, true, s).
Proof.
  intros Hz Hs. unfold itoa, pretty, pretty_Z.
  destruct z as [|p|p]; [| |lia].
  - simpl. by rewrite scan_int_stop.
  - change (scan_int 0 (pretty_N_go (N.pos p) "" +:+ s) = (Z.pos p, true, s)).
    rewrite <-pretty_N_go_app. change ("" +:+ s) with s.
    rewrite scan_int_pretty by (done || lia). by rewrite scan_int_stop.
Qed.

Definition no_semicolon_or_digit (s : string) : Prop :=
  match s with String a _ => is_digit a = false ∧ a ≠ ";"%char | EmptyString => True end.

Lemma print_rule_scan fuel r s acc :
  rule_wf r → no_digit s →
  rules_loop (S fuel) (print_rule r +:+ s) acc =
  rules_loop fuel match s with
                  | String c t => if decide (c = ";"%char) then t else s
                  | EmptyString => s
                  end (acc ++ [r]).
Proof.
  intros [Ht Hv] Hs. unfold print_rule.
  assert (Hne : ∃ c t, itoa (threshold r) +:+ print_op (typ r) +:+ itoa (val r) +:+ s = String c t).
  { destruct (itoa (threshold r)) as [|c t] eqn:E; [|by eexists _, _].
    by destruct (typ r); eexists _, _. }
  rewrite !append_assoc.
  cbn [rules_loop]. destruct Hne as (c & t & Hne). rewrite Hne. rewrite <-Hne.
  assert (Hop : no_digit (print_op (typ r) +:+ itoa (val r) +:+ s)) by (by destruct (typ r)).
  rewrite (scan_int_itoa _ _ Ht Hop). cbn [negb].
  destruct r as [a o v]; destruct o; simpl in *; rewrite (scan_int_itoa _ _ Hv Hs); done.
Qed.

Lemma rules_loop_print fuel rs acc :
  Forall rule_wf rs → (length rs ≤ fuel)%nat →
  rules_loop fuel (Join (print_rule <$> rs) ";") acc = Ok (Some (acc ++ rs)).
Proof.
  intros Hrs. revert fuel acc. induction Hrs as [|r rs Hr Hrs IH]; intros fuel acc Hf.
  { rewrite app_nil_r. by destruct fuel. }
  destruct fuel as [|fuel]; [simpl in Hf; lia|]. simpl in Hf.
  destruct rs as [|r2 rs].
  - cbn [fmap list_fmap Join]. rewrite <-(append_nil_r (print_rule r)).
    rewrite print_rule_scan by done. by destruct fuel.
  - change (Join (print_rule <$> r :: r2 :: rs) ";") with
      (print_rule r +:+ ";" +:+ Join (print_rule <$> r2 :: rs) ";").
    rewrite print_rule_scan by done. cbn [String.append]. rewrite decide_True by done.
    rewrite IH by lia. by rewrite <-app_assoc.
Qed.

Definition above (a b : rule) : Prop := threshold b ≤ threshold a.

Lemma insert_rule_perm r l : Permutation (insert_rule r l) (r :: l).
Proof.
  induction l as [|x l IH]; simpl; [done|]. case_decide; [done|].
  rewrite IH. apply perm_swap.
Qed.

Lemma sort_rules_perm_acc l acc :
  Permutation (foldl (λ acc r, insert_rule r acc) acc l) (acc ++ l).
Proof.
  revert acc. induction l as [|r l IH]; intros acc; simpl; [by rewrite app_nil_r|].
  rewrite IH, insert_rule_perm. simpl. by apply Permutation_middle.
Qed.
Lemma sort_rules_perm l : Permutation (sort_rules l) l.
Proof. apply sort_rules_perm_acc. Qed.

Lemma insert_rule_sorted r l : StronglySorted above l → StronglySorted above (insert_rule r l).
Proof.
  induction 1 as [|x l Hl IH Hx]; simpl; [by repeat constructor|]. case_decide.
  - constructor; [by constructor|]. constructor; [unfold above; lia|].
    eapply Forall_impl; [exact Hx|]. unfold above. simpl. lia.
  - constructor; [done|]. rewrite insert_rule_perm. constructor; [unfold above; lia|done].
Qed.

Lemma sort_rules_sorted l : StronglySorted above (sort_rules l).
Proof.
  unfold sort_rules. assert (StronglySorted above []) as H by constructor. revert H.
  generalize (@nil rule) as acc. induction l as [|r l IH]; intros acc H; simpl; [done|].
  by apply IH, insert_rule_sorted.
Qed.

(** The rule that governs [ttl]: the highest threshold it reaches. *)
Definition governs (rs : list rule) (ttl : Z) (r : rule) : Prop :=
  r ∈ rs ∧ threshold r ≤ ttl ∧ ∀ r', r' ∈ rs → threshold r' ≤ ttl → threshold r' ≤ threshold r.

Definition apply_rule (r : rule) (ttl : Z) : Z :=
  match typ r with OpMinus => s64 (ttl - val r) | OpSet => val r end.

Lemma apply_rules_sorted rs ttl :
  StronglySorted above rs →
  match apply_rules rs ttl with
  | Ok v => ∃ r, governs rs ttl r ∧ v = apply_rule r ttl
  | Fail _ => ∀ r, r ∈ rs → ttl < threshold r
  end.
Proof.
  induction 1 as [|x l Hl IH Hx]; simpl; [by intros r ?%not_elem_of_nil|].
  case_decide as Hd.
  - exists x. split; [|done]. split; [by left|]. split; [done|].
    intros r' [->|Hr]%elem_of_cons _; [done|]. rewrite Forall_forall in Hx. by apply Hx in Hr.
  - destruct (apply_rules l ttl) as [v|e].
    + destruct IH as (r & (Hin & Ht & Hmax) & ->). exists r. split; [|done].
      split; [by right|]. split; [done|]. intros r' [->|Hr']%elem_of_cons ?; [lia|by apply Hmax].
    + intros r [->|Hr]%elem_of_cons; [lia|by apply IH].
Qed.

(** C16: writing rules down ([a-b] and [a=b], separated by semicolons) and
    loading them gives a function that, at any hop count, applies the rule
    with the highest threshold the count reaches, and fails when it reaches
    none, whatever the order the rules were written in. *)
Theorem loadTTLRules_governs (rs : list rule) :
  rs ≠ [] → Forall rule_wf rs →
  ∃ calc, loadTTLRules (Join (print_rule <$> rs) ";") = Ok calc ∧
    ∀ ttl, match calc ttl with
           | Ok v => ∃ r, governs rs ttl r ∧ v = apply_rule r ttl
           | Fail _ => ∀ r, r ∈ rs → ttl < threshold r
           end.
Proof.
  intros Hne Hrs. unfold loadTTLRules, parseTTLRules.
  assert (Hlen : (length rs ≤ String.length (Join (print_rule <$> rs) ";"))%nat).
  { clear. induction rs as [|r [|r2 rs] IH]; [simpl; lia| |].
    - simpl. unfold print_rule. rewrite !length_append. destruct (typ r); simpl; lia.
    - change (Join (print_rule <$> r :: r2 :: rs) ";") with
        (print_rule r +:+ ";" +:+ Join (print_rule <$> r2 :: rs) ";").
      rewrite !length_append. simpl in *. lia. }
  rewrite decide_False.
  2: { intros E. rewrite E in Hlen. destruct rs; [done|]. simpl in Hlen. lia. }
  rewrite (rules_loop_print _ rs []) by done. simpl. eexists. split; [done|]. intros ttl.
  pose proof (apply_rules_sorted _ ttl (sort_rules_sorted rs)) as H.
  destruct (apply_rules _ _) as [v|e].
  - destruct H as (r & (Hin & Ht & Hmax) & ->). exists r. split; [|done].
    rewrite (sort_rules_perm rs) in Hin. split; [done|]. split; [done|].
    intros r' Hr'. rewrite <-(sort_rules_perm rs) in Hr'. by apply Hmax.
  - intros r Hr. rewrite <-(sort_rules_perm rs) in Hr. by apply H.
Qed.

Lemma loadTTLRules_governs_witness :
  let rs := [mkRule 3 OpSet 2; mkRule 10 OpMinus 4; mkRule 6 OpMinus 1] in
  rs ≠ [] ∧ Forall rule_wf rs ∧ Join (print_rule <$> rs) ";" = "3=2;10-4;6-1" ∧
  ∃ calc, loadTTLRules "3=2;10-4;6-1" = Ok calc ∧
    ∃ r, governs rs 8 r ∧ calc 8 = Ok (apply_rule r 8).
Proof.
  intros rs. assert (H1 : rs ≠ []) by done.
  assert (H2 : Forall rule_wf rs).
  { repeat constructor; unfold maxInt64; simpl; lia. }
  split; [exact H1|]. split; [exact H2|]. split; [done|].
  destruct (loadTTLRules_governs rs H1 H2) as (calc & Hc & Hs).
  exists calc. split; [exact Hc|]. specialize (Hs 8).
  destruct (calc 8) as [v|e].
  - destruct Hs as (r & Hr & ->). by exists r.
  - specialize (Hs (mkRule 3 OpSet 2) ltac:(by left)). simpl in Hs. lia.
Defined.

(** ** Hop counts and the TTL of the fake packet *)

Section fake_ttl.
Context {C : Type} `{CacheLaws string Z C}.
(** [dial addr ttl k]: attempt [k] to reach [addr] with packets of [ttl] hops. *)
Context (dial : string → Z → Z → option error).
(** [calcTTL], [ttlCacheTTL]. *)
Context (calcTTL : option (Z → result Z)) (ttlCacheTTL : Z).

(** [detectMinimalReachableTTL] with its last step: what it found is cached. *)
Definition detect_and_cache (cache : option C) (addr : string) (maxTTL attempts : Z)
    : result Z * option C :=
  match detectMinimalReachableTTL (dial addr) maxTTL attempts with
  | Fail e => (Fail e, cache)
  | Ok found =>
      (Ok found, if decide (found ≠ unsetInt) then opt_add cache addr found ttlCacheTTL else cache)
  end.

(** [getMinimalReachableTTL]: the hop count, whether it was cached, the cache.
    The singleflight group only shares the result of concurrent searches for
    the same address. *)
Definition getMinimalReachableTTL (cache : option C) (addr : string) (maxTTL attempts : Z)
    : result (Z * bool) * option C :=
  match opt_get cache addr with
  | Some ttl => (Ok (ttl, true), cache)
  | None =>
      match detect_and_cache cache addr maxTTL attempts with
      | (Ok found, cache) => (Ok (found, false), cache)
      | (Fail e, cache) => (Fail e, cache)
      end
  end.

Definition getFakeTTL (cache : option C) (p : Policy) (addr : string) : result Z * option C :=
  if decide (FakeTTL p = 0 ∨ FakeTTL p = unsetInt) then
    match getMinimalReachableTTL cache addr (MaxTTL p) (Attempts p) with
    | (Fail e, cache) => (Fail (ErrOp "detect minimum reachable TTL" e), cache)
    | (Ok (ttl, _), cache) =>
        (if decide (ttl = unsetInt) then Fail (ErrNew "reachable TTL not found") else
         match calcTTL with
         | Some calc =>
             match calc ttl with
             | Ok t => Ok t
             | Fail e => Fail (ErrOp "calculate fake TTL" e)
             end
         | None => Ok (ttl - 1)
         end, cache)
    end
  else (Ok (FakeTTL p), cache).

(** Cached hop counts are those of the addresses. *)
Definition ttl_cache_ok (hops : string → Z) (cache : option C) : Prop :=
  opt_all (λ addr ttl, ttl = hops addr) cache.

Lemma getMinimalReachableTTL_ok hops cache addr maxTTL attempts :
  ttl_cache_ok hops cache → hops_away (dial addr) (hops addr) attempts →
  1 ≤ hops addr ≤ maxTTL →
  ∃ cached cache', getMinimalReachableTTL cache addr maxTTL attempts =
    (Ok (hops addr, cached), cache') ∧ ttl_cache_ok hops cache'.
Proof.
  intros Hc Hh Hm. unfold getMinimalReachableTTL.
  destruct (opt_get cache addr) as [ttl|] eqn:Hg.
  { apply Hc in Hg as ->. by eexists _, _. }
  unfold detect_and_cache, detectMinimalReachableTTL.
  rewrite (detect_loop_minimal (dial addr) (hops addr) maxTTL attempts) by (done || lia || by left).
  rewrite decide_True by lia. eexists _, _. split; [done|].
  case_decide; [|done]. by apply opt_all_add.
Qed.
End fake_ttl.

(** For an address [k] hops away with [k] within the policy's limit, the
    TTL of the fake packet does not depend on what the cache remembers or
    forgets: it is the configured one, or what [calcTTL] makes of [k], or
    [k - 1]; and every answer the cache can give afterwards is again right. *)
Theorem getFakeTTL_cache_transparent {C : Type} `{CacheLaws string Z C}
    (dial : string → Z → Z → option error) (calcTTL : option (Z → result Z)) (life : Z)
    (hops : string → Z) (cache : option C) (p : Policy) (addr : string) :
  ttl_cache_ok hops cache → hops_away (dial addr) (hops addr) (Attempts p) →
  1 ≤ hops addr ≤ MaxTTL p →
  let '(r, cache') := getFakeTTL dial calcTTL life cache p addr in
  ttl_cache_ok hops cache' ∧
  r = (if decide (FakeTTL p = 0 ∨ FakeTTL p = unsetInt) then
         match calcTTL with
         | Some calc => match calc (hops addr) with
                        | Ok t => Ok t
                        | Fail e => Fail (ErrOp "calculate fake TTL" e)
                        end
         | None => Ok (hops addr - 1)
         end
       else Ok (FakeTTL p)).
Proof.
  intros Hc Hh Hm. unfold getFakeTTL. case_decide; [|done].
  destruct (getMinimalReachableTTL_ok dial life hops cache addr (MaxTTL p) (Attempts p) Hc Hh Hm)
    as (cached & cache' & -> & Hc').
  split; [done|]. rewrite decide_False by (unfold unsetInt; lia). done.
Qed.

Lemma getFakeTTL_cache_transparent_witness :
  let dial := λ (addr : string) (ttl a : Z), if decide (7 ≤ ttl) then None else Some ErrTimeout in
  let p := mkPolicy BoolUnset SniffOverrideUnset DNSModeUnknown 0 "" "" 0 0 BoolUnset ModeTTLD
             0 0 BoolUnset BoolUnset BoolUnset BoolUnset 0 (-1) 0 64 2 0 in
  fst (getFakeTTL (C:=gmap string Z) dial None 60 (Some ∅) p "1.2.3.4:443") = Ok 6.
Proof.
  intros dial p.
  pose proof (getFakeTTL_cache_transparent (C:=gmap string Z) dial None 60 (λ _, 7) (Some ∅) p "1.2.3.4:443") as H.
  destruct (getFakeTTL _ _ _ _ _ _) as [r c]. destruct H as [_ ->].
  - intros k v. simpl. by rewrite lookup_empty.
  - intros ttl Ht. unfold dial. split; intros.
    + by rewrite decide_False by lia.
    + exists 0. simpl. split; [lia|]. rewrite decide_True by lia. split; [done|]. intros. lia.
  - simpl. lia.
  - done.
Defined.

(** ** The fake packet *)

Definition minInterval : Z := 100 * Millisecond.

(** What one [splice] call reports. *)
Inductive splice := SpliceN (n : Z) | SpliceEINTR | SpliceEAGAIN | SpliceErr (e : error).

(** The function given to [rawConn.Write], with the repetitions [rawConn.Write]
    makes when it returns false: [toWrite] bytes still have to move.  The value
    is [innerErr] at the end; splices past the list move everything. *)
Fixpoint splice_loop (outs : list splice) (toWrite : Z) : option error :=
  if decide (toWrite ≤ 0) then None else
  match outs with
  | [] => None
  | SpliceN n :: outs =>
      if decide (n = 0) then Some (ErrEnv "input/output error")
      else splice_loop outs (toWrite - n)
  | (SpliceEINTR | SpliceEAGAIN) :: outs => splice_loop outs toWrite
  | SpliceErr e :: _ => Some e
  end.

(** [sendWithNoise]: a page holding [fakeData] is spliced into the socket with
    the hop limit [fakeTTL]; after [fakeSleep] the page is overwritten with
    [realData] and the limit restored, so that retransmissions carry the real
    bytes.  [ENoise] is the splice of the goroutine, placed where it starts. *)
Definition sendWithNoise (c : conn) (outs : list splice) (pageSize : Z)
    (fakeData realData : bytes) (fakeTTL defaultTTL fakeSleep : Z) : St World (result unit) :=
  let* r := call (ESys "pipe2") in
  match r with
  | Fail err => throw (ErrOp "create pipe" err)
  | Ok _ =>
    deferring (let* _ := ignoring (ESys "close pipeW") in ignoring (ESys "close pipeR"))
      (let nPages := Z.quot (len fakeData + pageSize - 1) pageSize in
       let mmapLen := nPages * pageSize in
       let* r := call (ESys "mmap") in
       match r with
       | Fail err => throw (ErrOp "mmap" err)
       | Ok _ =>
         deferring (ignoring (ESys "munmap"))
           (let* r := call (ESetTTL c fakeTTL) in
            match r with
            | Fail err => throw (ErrOp "set fake TTL" err)
            | Ok _ =>
              if decide (mmapLen = 0) then throw (ErrNew "mmap returned empty buffer") else
              let* r := call (ESys "vmsplice") in
              match r with
              | Fail err => throw (ErrOp "vmsplice" err)
              | Ok _ =>
                let* rawWriteErr := call (ENoise c fakeData (take (Z.to_nat mmapLen) realData)) in
                let* _ := sleep fakeSleep in
                let* r := call (ESetTTL c defaultTTL) in
                match r with
                | Fail err => throw (ErrOp "set default TTL" err)
                | Ok _ =>
                  match rawWriteErr with
                  | Fail err => throw (ErrOp "raw write (splice)" err)
                  | Ok _ =>
                    match splice_loop outs (len fakeData) with
                    | Some err => throw (ErrOp "splice" err)
                    | None => ret (Ok tt)
                    end
                  end
                end
              end
            end)
       end)
  end.

Definition desyncSend (c : conn) (outs : list splice) (pageSize : Z) (record : bytes)
    (sniStart sniLen fakeTTL fakeSleep : Z) : St World (result unit) :=
  let*? _ := getTCPRawConn c in
  let* r := call (EControl c) in
  match r with
  | Fail err => throw (ErrOp "raw control" err)
  | Ok _ =>
    let* r := call (EGetTTL c) in
    match r with
    | Fail err => throw (ErrOp "get default TTL" err)
    | Ok _ =>
      let* defaultTTL := next_ttl in
      let fakeSleep := if decide (fakeSleep < minInterval) then minInterval else fakeSleep in
      let* cut := lift (findLastDotOrMidPos record sniStart sniLen) in
      let* name := lift (slice_to record sniStart) in
      let fakeData := copy (make_zero cut) name in
      let* real := lift (slice_to record cut) in
      let*? _ := wrap_op "send data with noise"
        (sendWithNoise c outs pageSize fakeData real fakeTTL defaultTTL fakeSleep) in
      let* rest := lift (slice_from record cut) in
      wrap_op "send remaining data" (write c rest)
    end
  end.

Lemma sendWithNoise_runs c outs page fake real ttl dflt s :
  0 < page → 0 < len fake → len real = len fake →
  Runs (sendWithNoise c outs page fake real ttl dflt s) tt
    [ESetTTL c ttl; ENoise c fake real; ESetTTL c dflt].
Proof.
  intros Hp Hf Hr. unfold sendWithNoise. rewrite Z.quot_div_nonneg by lia.
  set (n := (len fake + page - 1) / page).
  assert (len fake ≤ n * page).
  { pose proof (Z.mul_succ_div_gt (len fake + page - 1) page ltac:(lia)). fold n in H. lia. }
  rewrite (decide_False (P := n * page = 0)) by lia.
  rewrite take_ge by (unfold len in *; lia).
  apply (bind_result_runs _ _ (ErrOp "create pipe") tt tt [] _); [apply call_runs|].
  apply deferring_runs; [apply bind_silent; [by apply ignoring_silent|intros; by apply ignoring_silent]|].
  apply (bind_result_runs _ _ (ErrOp "mmap") tt tt [] _); [apply call_runs|].
  apply deferring_runs; [by apply ignoring_silent|].
  apply (bind_result_runs _ _ (ErrOp "set fake TTL") tt tt [_] _); [apply call_runs|].
  apply (bind_result_runs _ _ (ErrOp "vmsplice") tt tt [] _); [apply call_runs|].
  (* the verdict of the splice is looked at after the limit is restored *)
  split; intros w; unfold bind, call, sleep; simpl.
  - destruct (default None (head (verdicts w))), (default None (head (tail (verdicts w))));
      destruct (splice_loop outs (len fake)); by eexists _, _.
  - intros [] w'.
    destruct (default None (head (verdicts w))), (default None (head (tail (verdicts w))));
      destruct (splice_loop outs (len fake)); try done.
    intros Hw. injection Hw as <-. split; [done|]. unfold sent, events. simpl.
    by rewrite !fmap_app, !filter_app, <-!app_assoc.
Qed.

(** What [desyncSend] does, whatever sends the first part of the record:
    [send fakeData realData defaultTTL fakeSleep]. *)
Definition desync_around (send : bytes → bytes → Z → Z → St World (result unit)) (c : conn)
    (record : bytes) (sniStart sniLen fakeSleep : Z) : St World (result unit) :=
  let*? _ := getTCPRawConn c in
  let* r := call (EControl c) in
  match r with
  | Fail err => throw (ErrOp "raw control" err)
  | Ok _ =>
    let* r := call (EGetTTL c) in
    match r with
    | Fail err => throw (ErrOp "get default TTL" err)
    | Ok _ =>
      let* defaultTTL := next_ttl in
      let fakeSleep := if decide (fakeSleep < minInterval) then minInterval else fakeSleep in
      let* cut := lift (findLastDotOrMidPos record sniStart sniLen) in
      let* name := lift (slice_to record sniStart) in
      let fakeData := copy (make_zero cut) name in
      let* real := lift (slice_to record cut) in
      let*? _ := wrap_op "send data with noise" (send fakeData real defaultTTL fakeSleep) in
      let* rest := lift (slice_from record cut) in
      wrap_op "send remaining data" (write c rest)
    end
  end.

Lemma desync_around_steps (send : bytes → bytes → Z → Z → St World (result unit))
    (noise : bytes → bytes → Z → list event) (c : conn) (record : bytes) (off n s : Z) (w : World) :
  (∀ fake real dflt sl, 0 < len fake → len real = len fake → Runs (send fake real dflt sl) tt (noise fake real dflt)) →
  0 < off → 0 ≤ n → off + n ≤ len record →
  ∃ r w', desync_around send c record off n s w = Some (r, w') ∧
    (r = Ok tt → ∃ cut fake real rest,
       off ≤ cut ≤ off + n ∧
       sent w' = sent w ++ noise fake real (default 64 (head (ttls w))) ++ [EWrite c rest] ∧
       real ++ rest = record ∧ len real = cut ∧
       fake = take (Z.to_nat off) record ++ make_zero (cut - off)).
Proof.
  intros Hsend Ho Hn Hl.
  destruct (findLastDotOrMidPos_Some record off n) as (cut & Hcut & Hc & _); [lia..|].
  set (fake := copy (make_zero cut) (take (Z.to_nat off) record)).
  assert (Hfake : fake = take (Z.to_nat off) record ++ make_zero (cut - off)).
  { unfold fake. rewrite copy_prefix.
    2: { unfold make_zero. rewrite len_replicate, len_take by lia. lia. }
    f_equal. unfold make_zero. rewrite length_take_le by (unfold len in *; lia).
    rewrite drop_replicate. f_equal. lia. }
  assert (Hflen : len fake = cut).
  { unfold fake. rewrite copy_len. unfold make_zero. apply len_replicate. lia. }
  assert (Hrun : ∀ dflt sl, Runs (bindE (wrap_op "send data with noise"
        (send fake (take (Z.to_nat cut) record) dflt sl))
      (λ _, bind (lift (slice_from record cut)) (λ rest, wrap_op "send remaining data" (write c rest)))) tt
    (noise fake (take (Z.to_nat cut) record) dflt ++ [EWrite c (drop (Z.to_nat cut) record)])).
  { intros dflt sl. eapply (bindE_runs _ _ tt).
    - apply wrap_op_runs, Hsend; [lia|]. rewrite len_take by lia. lia.
    - eapply lift_runs; [apply slice_from_Some; lia|]. apply _. }
  unfold desync_around, getTCPRawConn.
  rewrite bindE_unfold. destruct (is_tcp c); [|by eexists _, _].
  unfold bind at 1 2, call at 1. destruct (default None (head (verdicts w))); [by eexists _, _|]. simpl.
  unfold bind at 1, call at 1. simpl. destruct (default None (head (tail (verdicts w)))); [by eexists _, _|].
  simpl. destruct (default None (head (tail (tail (verdicts w))))); [by eexists _, _|].
  simpl.
  unfold bind at 1, next_ttl at 1. unfold bind at 1, lift at 1. rewrite Hcut.
  unfold bind at 1, lift at 1. rewrite slice_to_Some by lia.
  unfold bind at 1, lift at 1. rewrite slice_to_Some by lia. fold fake.
  match goal with |- ∃ r w', bindE (wrap_op _ (send _ _ ?d ?sl)) _ ?w1 = _ ∧ _ =>
    specialize (Hrun d sl); set (w0 := w1) end.
  destruct (runs_total (Runs:=Hrun) w0) as (r & w' & Hw).
  exists r, w'. split; [exact Hw|]. intros ->.
  destruct (runs_ok (Runs:=Hrun) _ _ _ Hw) as [_ Hs].
  exists cut, fake, (take (Z.to_nat cut) record), (drop (Z.to_nat cut) record).
  split; [done|]. split; [|split; [apply take_drop|split; [apply len_take; lia|done]]].
  rewrite Hs. unfold sent, events, w0. simpl. by rewrite !fmap_app, !filter_app, <-!app_assoc.
Qed.

Lemma desyncSend_steps (c : conn) (outs : list splice) (page : Z) (record : bytes)
    (off n ttl s : Z) (w : World) :
  0 < page → 0 < off → 0 ≤ n → off + n ≤ len record →
  ∃ r w', desyncSend c outs page record off n ttl s w = Some (r, w') ∧
    (r = Ok tt → ∃ cut fake real rest,
       off ≤ cut ≤ off + n ∧
       sent w' = sent w ++ [ESetTTL c ttl; ENoise c fake real;
                            ESetTTL c (default 64 (head (ttls w))); EWrite c rest] ∧
       real ++ rest = record ∧ len real = cut ∧
       fake = take (Z.to_nat off) record ++ make_zero (cut - off)).
Proof.
  intros Hp Ho Hn Hl.
  apply (desync_around_steps (λ fake real dflt sl, sendWithNoise c outs page fake real ttl dflt sl)
    (λ fake real dflt, [ESetTTL c ttl; ENoise c fake real; ESetTTL c dflt])); [|done..].
  intros. by apply sendWithNoise_runs.
Qed.


