(* ===== verification/DesyncWindows.v ===== *)
(** [internal/desync_windows.go] and [internal/oob_windows.go]: the fake packet
    and the urgent byte as Windows sends them.  The data of the fake packet is
    that of a temporary file handed to [TransmitFile]; while the packets of the
    fake TTL die on the way, the file is overwritten, and what the system
    retransmits is the file as it is then. *)

From S2P Require Import Prelude GoStd ClientHello Conn Fragment Policy Cache Desync.

(** ** The search for the hop count

    [net.Dialer] calls [Control] on the socket before it connects; its errors
    are no timeouts. *)

Section detect.
Context {C : Type} `{CacheLaws string Z C}.
(** The raw [Control] call, [setsockopt] and the connection of attempt [k] with
    packets of [ttl] hops. *)
Context (control setsockopt connect : Z → Z → option error) (ttlCacheTTL : Z).

Definition dialer_Control (ttl k : Z) : option error :=
  match control ttl k with
  | Some err => Some (ErrOp "raw control" err)
  | None =>
      match setsockopt ttl k with
      | Some innerErr => Some (ErrOp "setsockopt" innerErr)
      | None => None
      end
  end.

Definition dialer_Dial (ttl k : Z) : option error :=
  match dialer_Control ttl k with
  | Some err => Some (ErrOp "dial tcp" err)
  | None => connect ttl k
  end.

Definition windows_detectMinimalReachableTTL (cache : option C) (addr : string) (maxTTL attempts : Z)
    : result Z * option C :=
  match detect_loop dialer_Dial (S (Z.to_nat maxTTL)) attempts 1 maxTTL unsetInt with
  | Fail e => (Fail e, cache)
  | Ok found =>
      (Ok found, if decide (found ≠ unsetInt) then opt_add cache addr found ttlCacheTTL else cache)
  end.
End detect.

(** ** The temporary file *)

Record tempFile := mkFile { content : bytes; offset : Z }.

(** [os.CreateTemp], [File.Seek(0, io.SeekStart)], [File.Write], [File.Sync]. *)
Definition Seek0 (f : tempFile) : St World (result tempFile) :=
  let*? _ := call (ESys "Seek") in ret (Ok (mkFile (content f) 0)).
Definition file_write (f : tempFile) (b : bytes) : tempFile :=
  mkFile (take (Z.to_nat (offset f)) (content f) ++ b ++ drop (Z.to_nat (offset f + len b)) (content f))
         (offset f + len b).
Definition Write_file (f : tempFile) (b : bytes) : St World (result tempFile) :=
  let*? _ := call (EFile (content (file_write f b))) in ret (Ok (file_write f b)).

(** ** The fake packet *)

Definition ERROR_IO_PENDING : error := ErrEnv "overlapped I/O operation is in progress".
Definition WAIT_OBJECT_0 : Z := 0.
Definition WAIT_ABANDONED : Z := 128.
Definition WAIT_TIMEOUT : Z := 258.
Definition WAIT_FAILED : Z := 4294967295.

(** The switch on what [WaitForSingleObject] returned. *)
Definition wait_error (event : Z) : option error :=
  if decide (event = WAIT_OBJECT_0) then None
  else if decide (event = WAIT_TIMEOUT) then Some (ErrNew "wait for TransmitFile: timeout (5s)")
  else if decide (event = WAIT_ABANDONED) then Some (ErrNew "wait for TransmitFile: WAIT_ABANDONED")
  else if decide (event = WAIT_FAILED) then Some (ErrOp "wait for TransmitFile: WAIT_FAILED" (ErrEnv "last error"))
  else Some (ErrNew ("wait for TransmitFile: unexpected event: " +:+ itoa event)).

(** A send or a receive on a channel, which cannot fail. *)
Definition chan_op (e : event) : St World unit := λ w,
  Some (tt, mkWorld (trace w ++ [(e, None)]) (verdicts w) (now w) (lags w) (unacked w) (ttls w) (inbox w)).

(** [if sem != nil { sem <- struct{}{}; defer func() { <-sem }() }]. *)
Definition with_sem {A} (sem : bool) (m : St World A) : St World A :=
  if sem then let* _ := chan_op (ESys "sem <-") in deferring (chan_op (ESys "<-sem")) m else m.

(** The call and the test of its error: that the transmission is still going on
    is none. *)
Definition TransmitFile (c : conn) (toWrite : Z) : St World (result unit) :=
  let* transmitFileErr := call (ETransmit c toWrite) in
  match transmitFileErr with
  | Fail err => if decide (err = ERROR_IO_PENDING) then ret (Ok tt) else throw (ErrOp "call TransmitFile" err)
  | Ok _ => ret (Ok tt)
  end.

(** [sem] is whether the configuration limits concurrent transmissions, [event]
    what the wait returns and [n] the bytes the finished transmission reports. *)
Definition windows_sendWithNoise (c : conn) (sem : bool) (event n : Z)
    (fakeData realData : bytes) (fakeTTL defaultTTL fakeSleep : Z) : St World (result unit) :=
  let realDataLen := len realData in
  if decide (len fakeData ≠ realDataLen) then
    throw (ErrNew "the length of realData must equal to that of fakeData")
  else
  let* r := call (ESys "CreateTemp") in
  match r with
  | Fail err => throw (ErrOp "create temp file" err)
  | Ok _ =>
    deferring (ignoring (ESys "Remove"))
    (deferring (ignoring (ESys "Close file"))
      (let tmpFile := mkFile [] 0 in
       let*? tmpFile := wrap_op "seek start" (Seek0 tmpFile) in
       let*? tmpFile := wrap_op "write fake data" (Write_file tmpFile fakeData) in
       let*? _ := wrap_op "sync fake data" (call (ESys "Sync")) in
       let*? _ := wrap_op "set fake TTL" (call (ESetTTL c fakeTTL)) in
       let*? tmpFile := wrap_op "seek start" (Seek0 tmpFile) in
       let* r := call (ESys "CreateEvent") in
       match r with
       | Fail err => throw (ErrOp "create event" err)
       | Ok _ =>
         deferring (ignoring (ESys "CloseHandle"))
           (with_sem sem
             (let*? _ := wrap_op "get raw conn" (call (ESys "SyscallConn")) in
              let*? _ := wrap_op "raw control" (call (ESys "Control")) in
              let toWrite := u32 realDataLen in
              let*? _ := TransmitFile c toWrite in
              let* _ := sleep fakeSleep in
              let*? tmpFile := wrap_op "seek start" (Seek0 tmpFile) in
              let*? _ := wrap_op "write real data" (Write_file tmpFile realData) in
              let*? _ := wrap_op "sync real data" (call (ESys "Sync")) in
              let*? _ := wrap_op "seek start" (call (ESys "Seek")) in
              let*? _ := wrap_op "set default TTL" (call (ESetTTL c defaultTTL)) in
              let*? _ := wrap_op "wait for TransmitFile" (call (ESys "WaitForSingleObject")) in
              match wait_error event with
              | Some err => throw err
              | None =>
                let*? _ := wrap_op "get TransmitFile result" (call (ESys "WSAGetOverlappedResult")) in
                if decide (n < realDataLen) then
                  throw (ErrNew ("sent only " +:+ itoa n +:+ " of " +:+ itoa realDataLen +:+ " bytes"))
                else ret (Ok tt)
              end))
       end))
  end.

Definition windows_desyncSend (c : conn) (sem : bool) (event n : Z) (record : bytes)
    (sniStart sniLen fakeTTL fakeSleep : Z) : St World (result unit) :=
  let*? _ := getTCPRawConn c in
  let* r := call (EControl c) in
  match r with
  | Fail err => throw (ErrOp "raw control" err)
  | Ok _ =>
    let* r := call (EGetTTL c) in
    match r with
    | Fail err => throw (ErrOp "get default TTL" err)
    | Ok _ =>
      let* defaultTTL := next_ttl in
      let fakeSleep := if decide (fakeSleep < minInterval) then minInterval else fakeSleep in
      let* cut := lift (findLastDotOrMidPos record sniStart sniLen) in
      let* name := lift (slice_to record sniStart) in
      let fakeData := copy (make_zero cut) name in
      let* real := lift (slice_to record cut) in
      let*? _ := wrap_op "send data with noise"
        (windows_sendWithNoise c sem event n fakeData real fakeTTL defaultTTL fakeSleep) in
      let* rest := lift (slice_from record cut) in
      wrap_op "send remaining data" (write c rest)
    end
  end.

(** ** The urgent byte

    [rawConn.Write] runs its function once, since the function returns true; a
    nil slice has no bytes. *)

Definition windows_sendWithOOB (c : conn) (data : bytes) (oob : byte) : St World (result unit) :=
  let*? _ := getTCPRawConn c in
  let toSend := data ++ [oob] in
  let*? _ := wrap_op "raw write (wsasend)" (call (ERawWrite c)) in
  wrap_op "wsasend (MSG_OOB)" (call (ESendOOB c toSend)).

(** [sendWithOOB] of the two systems differs in the text of its errors only. *)
Lemma windows_sendWithOOB_as_unix c data oob w :
  match windows_sendWithOOB c data oob w, sendWithOOB c data oob w with
  | Some (r1, w1), Some (r2, w2) => w1 = w2 ∧ (r1 = Ok tt ↔ r2 = Ok tt)
  | _, _ => False
  end.
Proof.
  unfold windows_sendWithOOB, sendWithOOB, getTCPRawConn. rewrite !bindE_unfold.
  destruct (is_tcp c); [|done]. unfold bind at 1 2, call. cbn.
  destruct (default None (head (verdicts w))); [done|]. cbn.
  destruct (default None (head (tail (verdicts w)))); [done|]. cbn.
  destruct (default None (head (tail (tail (verdicts w))))); [done|]. by cbn.
Qed.

(** ** What arrives

    The bytes [c] reads in order.  A transmission is read as the file is when
    the trace ends: its first packets die, and what is retransmitted comes from
    the file. *)
Fixpoint last_content (file : bytes) (l : list event) : bytes :=
  match l with
  | [] => file
  | EFile b :: l => last_content b l
  | _ :: l => last_content file l
  end.

Fixpoint arrives (c : conn) (file : bytes) (l : list event) : bytes :=
  match l with
  | [] => []
  | EFile b :: l => arrives c b l
  | ETransmit c' n :: l =>
      (if decide (c' = c) then take (Z.to_nat n) (last_content file l) else []) ++ arrives c file l
  | EWrite c' d :: l => (if decide (c' = c) then d else []) ++ arrives c file l
  | _ :: l => arrives c file l
  end.

Definition noise (c : conn) (ttl : Z) (fake real : bytes) (dflt : Z) : list event :=
  [EFile fake; ESetTTL c ttl; ETransmit c (u32 (len real)); EFile real; ESetTTL c dflt].

#[local] Instance Seek0_runs f : Runs (Seek0 f) (mkFile (content f) 0) [].
Proof. apply (bindE_runs _ _ tt _ [] []); apply _. Qed.
#[local] Instance Write_file_runs f b :
  Runs (Write_file f b) (file_write f b) [EFile (content (file_write f b))].
Proof. apply (bindE_runs _ _ tt _ [_] []); apply _. Qed.
#[local] Instance TransmitFile_runs c n : Runs (TransmitFile c n) tt [ETransmit c n].
Proof.
  split; intros w; unfold TransmitFile, bind, call.
  - destruct (default None (head (verdicts w))); [case_decide|]; by eexists _, _.
  - intros [] w'. destruct (default None (head (verdicts w))); [case_decide|]; try done; intros Hw;
      injection Hw as <-; split; [done| |done|]; apply sent_snoc.
Qed.

Lemma chan_silent e : is_data e = false → Silent (chan_op e).
Proof. intros He w. eexists _, _. split; [done|]. rewrite sent_snoc, He. apply app_nil_r. Qed.

Ltac wrapped := eapply bindE_runs; [apply wrap_op_runs; apply _|].

Lemma with_sem_runs {A} sem (m : St World (result A)) a l : Runs m a l → Runs (with_sem sem m) a l.
Proof.
  intros Hm. destruct sem; [|done]. apply bind_silent_runs; [by apply chan_silent|].
  intros _. apply deferring_runs; [by apply chan_silent|done].
Qed.

Lemma file_overwritten (fake real : bytes) :
  len real = len fake → content (file_write (mkFile fake 0) real) = real.
Proof.
  intros H. unfold file_write. cbn. rewrite drop_ge by (unfold len in *; lia). apply app_nil_r.
Qed.

Lemma windows_sendWithNoise_runs c sem event n fake real ttl dflt s :
  len real = len fake →
  Runs (windows_sendWithNoise c sem event n fake real ttl dflt s) tt (noise c ttl fake real dflt).
Proof.
  intros Hr. unfold windows_sendWithNoise. rewrite decide_False by lia.
  apply (bind_result_runs _ _ (ErrOp "create temp file") tt tt [] _); [apply call_runs|].
  do 2 (apply deferring_runs; [by apply ignoring_silent|]).
  assert (content (file_write (mkFile [] 0) fake) = fake) as Hf.
  { unfold file_write. cbn. rewrite drop_nil. apply app_nil_r. }
  assert (content (file_write (mkFile fake 0) real) = real) as Hw by (by apply file_overwritten).
  eapply runs_eq.
  { do 5 wrapped. eapply (bind_result_runs _ _ (ErrOp "create event")); [apply call_runs|].
    apply deferring_runs; [by apply ignoring_silent|]. apply with_sem_runs.
    do 2 wrapped. eapply bindE_runs; [apply _|]. apply bind_silent_runs; [apply _|intros _]. do 6 wrapped.
    instantiate (1 := []). destruct (wait_error event); [apply _|].
    apply (bindE_runs _ _ tt _ [] []); [apply wrap_op_runs, call_runs|]. case_decide; apply _. }
  cbn [content]. rewrite Hf, Hw. done.
Qed.

(** When [desyncSend] succeeds: the fake data, as long as the real data and zero
    from the name on, was in the file while the connection had the fake TTL; the
    file holds the real data before the connection has its own TTL again, and
    the peer reads exactly the record.  It never panics for a record whose name
    lies inside it. *)
Theorem windows_desyncSend_delivers (c : conn) (sem : bool) (event m : Z) (record : bytes)
    (off n ttl s : Z) (w : World) :
  0 < off → 0 ≤ n → off + n ≤ len record → len record < 4294967296 →
  ∃ r w', windows_desyncSend c sem event m record off n ttl s w = Some (r, w') ∧
    (r = Ok tt → ∃ fake real rest,
       let l := noise c ttl fake real (default 64 (head (ttls w))) ++ [EWrite c rest] in
       sent w' = sent w ++ l ∧ arrives c [] l = record ∧
       off ≤ len real ≤ off + n ∧
       fake = take (Z.to_nat off) record ++ make_zero (len real - off)).
Proof.
  intros Ho Hn Hl Hm.
  destruct (desync_around_steps (λ fake real dflt sl, windows_sendWithNoise c sem event m fake real ttl dflt sl)
    (noise c ttl) c record off n s w) as (r & w' & Hw & Hr); [|done..|].
  { intros. by apply windows_sendWithNoise_runs. }
  exists r, w'. split; [exact Hw|]. intros Hok.
  destruct (Hr Hok) as (cut & fake & real & rest & Hc & Hs & Heq & Hlen & Hf).
  exists fake, real, rest. subst cut. split; [exact Hs|]. split; [|done].
  assert (u32 (len real) = len real) as Hu.
  { unfold u32. apply Z.mod_small. split; [apply len_nonneg|]. rewrite <-Heq, len_app in Hm. pose proof (len_nonneg rest). lia. }
  cbn. rewrite !decide_True by done. rewrite Hu, take_ge by (unfold len; lia). by rewrite app_nil_r.
Qed.

Lemma windows_desyncSend_delivers_witness :
  let send := windows_desyncSend hello_conn true WAIT_OBJECT_0 69 hello_bytes 67 3 5 0 in
  ∃ w' l, send quiet = Some (Ok tt, w') ∧ sent w' = sent quiet ++ l ∧ arrives hello_conn [] l = hello_bytes.
Proof.
  intros send.
  destruct (windows_desyncSend_delivers hello_conn true WAIT_OBJECT_0 69 hello_bytes 67 3 5 0 quiet)
    as (r & w' & Hw & Hr); [done|done|vm_compute; discriminate|vm_compute; reflexivity|].
  assert (Hok : r = Ok tt).
  { change (send quiet = Some (r, w')) in Hw. vm_compute in Hw. by injection Hw. }
  destruct (Hr Hok) as (fake & real & rest & Hs & Hin & _). rewrite Hok in Hw.
  eexists _, _. split; [exact Hw|]. split; [exact Hs|exact Hin].
Defined.

(** ** What is acquired is released *)

Lemma chan_paired a b e : other a b e = true → Paired a b (chan_op e).
Proof. intros H w r w' [= <- <-]. eexists. split; [done|by apply other_one]. Qed.

(** The place in the semaphore. *)
Lemma with_sem_paired {A} sem (m : St World A) :
  Paired (ESys "sem <-") (ESys "<-sem") m → Paired (ESys "sem <-") (ESys "<-sem") (with_sem sem m).
Proof.
  intros Hm. destruct sem; [|done]. intros w r w' (x & w1 & E1 & E2)%bind_Some. injection E1 as _ <-.
  apply (deferring_releases (ESys "sem <-") (ESys "<-sem")) in E2 as (l & H & N); [|intros ? ? ? [= <- <-]; eexists; done|done].
  cbn [trace] in H. eexists ([_] ++ l). rewrite app_assoc. split; [exact H|].
  rewrite acquired_app, released_app, N. done.
Qed.

Ltac pairs_step :=
  first [paired_step | match goal with
  | |- Paired _ _ (chan_op _) => apply chan_paired; reflexivity
  | |- Paired (ESys "sem <-") _ (with_sem _ _) => apply with_sem_paired
  | |- Paired _ _ (with_sem ?sem _) => unfold with_sem; destruct sem
  | |- Paired _ _ (Seek0 _) => unfold Seek0
  | |- Paired _ _ (Write_file _ _) => unfold Write_file
  | |- Paired _ _ (TransmitFile _ _) => unfold TransmitFile
  end].

(** Whatever fails, [sendWithNoise] removes the temporary file and closes it
    once if it created it, closes the event if it created it, and gives back its
    place in the semaphore if it took one. *)
Theorem windows_sendWithNoise_tidy (c : conn) (sem : bool) (event n : Z) (fake real : bytes)
    (ttl dflt s : Z) (a b : string) :
  (a, b) ∈ [("CreateTemp", "Remove"); ("CreateTemp", "Close file"); ("CreateEvent", "CloseHandle"); ("sem <-", "<-sem")] →
  ∀ w r w', windows_sendWithNoise c sem event n fake real ttl dflt s w = Some (r, w') →
    ∃ l, trace w' = trace w ++ l ∧ acquired (ESys a) l = released (ESys b) l.
Proof.
  intros Hab. change (Paired (ESys a) (ESys b) (windows_sendWithNoise c sem event n fake real ttl dflt s)).
  unfold windows_sendWithNoise. case_decide; [apply throw_paired|].
  rewrite !elem_of_cons in Hab.
  destruct Hab as [[= -> ->]|[[= -> ->]|[[= -> ->]|[[= -> ->]|[]%not_elem_of_nil]]]]; repeat pairs_step.
Qed.

(** The fifth call that can fail is the second seek. *)
Definition failing (n : nat) : World := mkWorld [] (replicate n None ++ [Some EOF]) 0 [] [] [] ∅.

Lemma windows_sendWithNoise_tidy_witness :
  let send := windows_sendWithNoise hello_conn true WAIT_TIMEOUT 4 [Byte.x00] [Byte.x01] 3 64 0 in
  ("sem <-", "<-sem") ∈ [("CreateTemp", "Remove"); ("CreateTemp", "Close file"); ("CreateEvent", "CloseHandle"); ("sem <-", "<-sem")] ∧
  ∃ e w', send quiet = Some (Fail e, w') ∧
    ∃ l, trace w' = trace quiet ++ l ∧ acquired (ESys "sem <-") l = released (ESys "<-sem") l.
Proof.
  intros send.
  assert (Hin : ("sem <-", "<-sem") ∈ [("CreateTemp", "Remove"); ("CreateTemp", "Close file"); ("CreateEvent", "CloseHandle"); ("sem <-", "<-sem")]).
  { do 3 right. left. }
  split; [exact Hin|]. eexists _, _. split; [vm_compute; reflexivity|].
  eapply (windows_sendWithNoise_tidy hello_conn true WAIT_TIMEOUT 4 [Byte.x00] [Byte.x01] 3 64 0 _ _ Hin quiet).
  vm_compute. reflexivity.
Defined.

(** A failure after the fake TTL is set leaves it on the connection: here the
    event cannot be created. *)
Example fake_ttl_stays :
  ∃ e w', windows_sendWithNoise hello_conn false WAIT_OBJECT_0 1 [Byte.x00] [Byte.x01] 3 64 0 (failing 6) = Some (Fail e, w') ∧
    ESetTTL hello_conn 3 ∈ events w' ∧ ESetTTL hello_conn 64 ∉ events w'.
Proof.
  eexists _, _. split; [vm_compute; reflexivity|]. split.
  - apply (bool_decide_unpack _). vm_compute. exact I.
  - apply (bool_decide_unpack _). vm_compute. exact I.
Qed.

(** ** The search is exact

    When the options of the socket can be set, the search finds how many hops
    away the addressee is, and caches that only. *)
Theorem windows_detect_exact {C : Type} `{CacheLaws string Z C} (connect : Z → Z → option error)
    (life k maxTTL attempts : Z) (hops : string → Z) (cache : option C) (addr : string) :
  hops_away connect k attempts → 1 ≤ k → 0 ≤ maxTTL → hops addr = k → ttl_cache_ok hops cache →
  ∃ cache', windows_detectMinimalReachableTTL (λ _ _, None) (λ _ _, None) connect life cache addr maxTTL attempts =
    (Ok (if decide (k ≤ maxTTL) then k else unsetInt), cache') ∧ ttl_cache_ok hops cache'.
Proof.
  intros Hk H1 Hm Ha Hc. unfold windows_detectMinimalReachableTTL.
  rewrite (detect_loop_minimal _ k maxTTL attempts); [|exact Hk|lia|lia|lia|by left].
  eexists. split; [reflexivity|]. destruct (decide (k ≤ maxTTL)); case_decide; try done. by apply opt_all_add.
Qed.

Lemma windows_detect_exact_witness :
  let connect := λ ttl a, if decide (7 ≤ ttl ∧ a = 1) then None else Some ErrTimeout in
  hops_away connect 7 2 ∧
  ∃ cache', windows_detectMinimalReachableTTL (C:=gmap string Z) (λ _ _, None) (λ _ _, None) connect 60 (Some ∅) "h:443" 64 2 = (Ok 7, cache').
Proof.
  intros connect. assert (H : hops_away connect 7 2).
  { intros ttl _. unfold connect. split.
    - intros. by rewrite decide_False by lia.
    - intros. exists 1. split; [lia|]. split; [by rewrite decide_True by lia|].
      intros. by rewrite decide_False by lia. }
  split; [exact H|].
  destruct (windows_detect_exact (C:=gmap string Z) connect 60 7 64 2 (λ _, 7) (Some ∅) "h:443" H) as (cache' & E & _);
    [done|done|done| |by exists cache'].
  intros k v. simpl. by rewrite lookup_empty.
Defined.
