(* ===== verification/Routing.v ===== *)
(** [internal/utils.go] ([ipRedirect]) and [internal/policy.go] ([getIPPolicy],
    [resolveDoHPolicyHost], [genPolicy]): which host a request is sent to and
    under which policy.

    The tries of the third-party package addrtrie are lookup functions; the
    pools and the DNS resolver, which keep state of their own, are a class. *)

From Stdlib Require Import Strings.Ascii.
From S2P Require Import Prelude GoStd GoNet TransformIP Policy.

Definition noRedirectPrefix : string := "^".
Definition ipPoolTagPrefix : string := "$".
Definition resolvePrefix : string := "?".

(** [strings.Contains(ip, ":")]. *)
Definition isIPv6 (ip : string) : bool := Contains ip ":".

(** What a loaded configuration provides for lookups. *)
Record Rules := mkRules {
  defaultPolicy : Policy;
  domainFind : string → option Policy;
  hostsFind : string → option string;
  ip4Find : string → option Policy;
  ip6Find : string → option Policy
}.

(** The stateful services a lookup uses. *)
Class Resolver (G : Type) := {
  getFromIPPool : string → St G (result string);
  dnsResolve : string → DNSMode → St G (result (string * bool))
}.

Definition getIPPolicy (rules : Rules) (ip : string) : option Policy :=
  if isIPv6 ip then ip6Find rules ip else ip4Find rules ip.

(** [s[1:]] *)
Definition tail1 (s : string) : string := sdrop 1 s.

(** What [genPolicy] returns. *)
Record Generated := mkGenerated {
  dstHost : string;
  gPolicy : option Policy;
  failed : bool;
  blocked : bool;
  domainNotFound : bool
}.
Definition gen_failed : Generated := mkGenerated "" None true false false.
Definition gen_blocked : Generated := mkGenerated "" None false true false.
Definition gen_not_found : Generated := mkGenerated "" None false false true.
Definition gen_ok (host : string) (p : Policy) : Generated := mkGenerated host (Some p) false false false.

Section routing.
Context {G : Type} `{Resolver G}.
Context (rules : Rules).

Definition ipRedirect (ip : string) : St G (result (string * option Policy)) :=
  match getIPPolicy rules ip with
  | None => ret (Ok (ip, None))
  | Some policy =>
      if decide (MapTo policy = "" ∨ MapTo policy = unsetString) then ret (Ok (ip, Some policy)) else
      let*? mapTo :=
        (if HasPrefix (MapTo policy) ipPoolTagPrefix then getFromIPPool (tail1 (MapTo policy))
         else if decide (LastIndexByte (MapTo policy) "/" ≠ -1)
         then lift (transformIP ip (MapTo policy))
         else ret (Ok (MapTo policy))) in
      ret (Ok (mapTo, if decide (ip ≠ mapTo) then getIPPolicy rules mapTo else Some policy))
  end.

(** The host the DoH server is reached at. *)
Definition resolveDoHPolicyHost (host : string) (policy : Policy) : St G (result string) :=
  let policyHost :=
    if HasPrefix (Host policy) noRedirectPrefix then tail1 (Host policy) else Host policy in
  let selectedHost :=
    if decide (policyHost = "" ∨ policyHost = unsetString) then
      match hostsFind rules host with
      | Some h => if HasPrefix h noRedirectPrefix then tail1 h else h
      | None => ""
      end
    else policyHost in
  if decide (selectedHost = "" ∨ selectedHost = unsetString ∨ selectedHost = "self")
  then ret (Ok host)
  else if HasPrefix selectedHost ipPoolTagPrefix then getFromIPPool (tail1 selectedHost)
  else if HasPrefix selectedHost resolvePrefix then ret (Ok host)
  else ret (Ok selectedHost).

(** The IP branch of [genPolicy]. *)
Definition gen_for_ip (originHost : string) : St G Generated :=
  let* r := ipRedirect originHost in
  match r with
  | Fail _ => ret gen_failed
  | Ok (dst, ipPolicy) =>
      let p := match ipPolicy with
               | None => defaultPolicy rules
               | Some q => mergePolicies [q; defaultPolicy rules]
               end in
      if decide (pMode p = ModeBlock) then ret gen_blocked else ret (gen_ok dst p)
  end.

(** Where a domain is sent, before the redirection of addresses: the address
    ([dstHost]) and whether it must not be redirected.  [None] is an early
    return, with its result. *)
Definition gen_host (originHost : string) (p : Policy) (returnWhenDomainNotFound : bool)
    : St G (Generated + string * bool) :=
  let noRedirect := HasPrefix (Host p) noRedirectPrefix in
  let policyHost := if noRedirect then tail1 (Host p) else Host p in
  (* the selected host, what DNS found for the domain itself, and the flag *)
  let* sel :=
    (if decide (policyHost = "" ∨ policyHost = unsetString) then
       let selectedHost := default "" (hostsFind rules originHost) in
       if decide (selectedHost = "" ∨ selectedHost = unsetString) then
         if returnWhenDomainNotFound then ret (inl gen_not_found) else
         let* r := dnsResolve originHost (pDNSMode p) in
         match r with
         | Fail _ => ret (inl gen_failed)
         | Ok (ip, _) => ret (inr (selectedHost, ip, noRedirect))
         end
       else
         let noRedirect := HasPrefix selectedHost noRedirectPrefix in
         ret (inr (if noRedirect then tail1 selectedHost else selectedHost, "", noRedirect))
     else ret (inr (policyHost, "", noRedirect))) in
  match sel with
  | inl g => ret (inl g)
  | inr (selectedHost, dst, noRedirect) =>
      if decide (dst = "") then
        if decide (selectedHost = "self") then ret (inr (originHost, noRedirect))
        else if HasPrefix selectedHost ipPoolTagPrefix then
          let* r := getFromIPPool (tail1 selectedHost) in
          match r with
          | Fail _ => ret (inl gen_failed)
          | Ok ip => ret (inr (ip, noRedirect))
          end
        else if HasPrefix selectedHost resolvePrefix then
          let* r := dnsResolve (tail1 selectedHost) (pDNSMode p) in
          match r with
          | Fail _ => ret (inl gen_failed)
          | Ok (ip, _) => ret (inr (ip, noRedirect))
          end
        else ret (inr (selectedHost, noRedirect))
      else ret (inr (dst, noRedirect))
  end.

Definition gen_for_domain (originHost : string) (returnWhenDomainNotFound : bool) : St G Generated :=
  let domainPolicy := domainFind rules originHost in
  if decide (pMode <$> domainPolicy = Some ModeBlock) then ret gen_blocked else
  let p := match domainPolicy with
           | Some q => mergePolicies [q; defaultPolicy rules]
           | None => defaultPolicy rules
           end in
  let* r := gen_host originHost p returnWhenDomainNotFound in
  match r with
  | inl g => ret g
  | inr (dst, noRedirect) =>
      if noRedirect : bool then ret (gen_ok dst p) else
      let* r := ipRedirect dst in
      match r with
      | Fail _ => ret gen_failed
      | Ok (dst, None) => ret (gen_ok dst p)
      | Ok (dst, Some ipPolicy) =>
          let p := match domainPolicy with
                   | Some q => mergePolicies [q; ipPolicy; defaultPolicy rules]
                   | None => mergePolicies [ipPolicy; defaultPolicy rules]
                   end in
          if decide (pMode p = ModeBlock) then ret gen_blocked else ret (gen_ok dst p)
      end
  end.

Definition genPolicy (originHost : string) (isIP returnWhenDomainNotFound : bool) : St G Generated :=
  if isIP || bool_decide (is_Some (ParseIP originHost))
  then gen_for_ip originHost
  else gen_for_domain originHost returnWhenDomainNotFound.

(** ** Results *)

(** The policy a successful lookup can return. *)
Definition resulting (domain : option Policy) (p : Policy) : Prop :=
  ∃ ip : option Policy,
    p = match domain, ip with
        | None, None => defaultPolicy rules
        | Some d, None => mergePolicies [d; defaultPolicy rules]
        | None, Some i => mergePolicies [i; defaultPolicy rules]
        | Some d, Some i => mergePolicies [d; i; defaultPolicy rules]
        end ∧
    (∀ i, ip = Some i → ∃ h, getIPPolicy rules h = Some i).

(** An outcome is a failure, a refusal, an unknown domain, or a host with its
    policy. *)
Definition gen_shape (g : Generated) (domain : option Policy) : Prop :=
  g = gen_failed ∨ g = gen_blocked ∨ g = gen_not_found ∨
  ∃ host p, g = gen_ok host p ∧ resulting domain p.

Lemma ipRedirect_policy ip s dst q s' :
  ipRedirect ip s = Some (Ok (dst, Some q), s') → ∃ h, getIPPolicy rules h = Some q.
Proof.
  unfold ipRedirect. destruct (getIPPolicy rules ip) as [policy|] eqn:E; [|done].
  case_decide.
  - intros Hr. injection Hr as _ <- _. by exists ip.
  - rewrite bindE_unfold. destruct (_ : option (result string * G)) as [[[m|e] s1]|]; [|done|done].
    intros Hr. injection Hr as <- Hq _. case_decide; [by exists m|]. injection Hq as <-. by exists ip.
Qed.

Lemma gen_host_left originHost p b s g s' :
  gen_host originHost p b s = Some (inl g, s') → g = gen_failed ∨ g = gen_not_found.
Proof.
  unfold gen_host. intros (sel & s1 & Hx & Hy)%bind_Some. revert Hx Hy. destruct sel as [g1|[[sh dst] nr]].
  - intros Hx Hy. injection Hy as <- _. revert Hx.
    case_decide; [|done]. case_decide; [|done]. destruct b; [intros Hx; injection Hx as <- _; by right|].
    intros (r & s2 & _ & Hz)%bind_Some. destruct r as [[ip c]|e]; [done|].
    injection Hz as <- _. by left.
  - intros _. case_decide; [|done]. case_decide; [done|].
    destruct (HasPrefix sh ipPoolTagPrefix).
    { intros (r & s2 & _ & Hz)%bind_Some. destruct r; [done|]. injection Hz as <- _. by left. }
    destruct (HasPrefix sh resolvePrefix); [|done].
    intros (r & s2 & _ & Hz)%bind_Some. destruct r as [[]|]; [done|]. injection Hz as <- _. by left.
Qed.

Lemma genPolicy_shape originHost isIP b s g s' :
  genPolicy originHost isIP b s = Some (g, s') →
  gen_shape g (if isIP || bool_decide (is_Some (ParseIP originHost)) then None
               else domainFind rules originHost).
Proof.
  unfold genPolicy, gen_shape. destruct (isIP || _).
  - intros (r & s1 & Hx & Hy)%bind_Some. destruct r as [[dst q]|e].
    2: { injection Hy as <- _. by left. }
    cbn beta iota zeta in Hy. case_decide; [injection Hy as <- _; auto|]. injection Hy as <- _.
    right. right. right. eexists _, _. split; [done|]. exists q. destruct q as [q|]; [|done].
    split; [done|]. intros i [= <-]. by eapply ipRedirect_policy.
  - unfold gen_for_domain. case_decide; [intros Hx; injection Hx as <- _; auto|].
    intros (r & s1 & Hx & Hy)%bind_Some. destruct r as [g1|[dst nr]].
    { injection Hy as <- _. apply gen_host_left in Hx as [->| ->]; auto. }
    cbn beta iota zeta in Hy. destruct nr.
    { injection Hy as <- _. right. right. right. eexists _, _. split; [done|]. exists None.
      by destruct (domainFind rules originHost). }
    apply bind_Some in Hy as (r & s2 & Hy & Hz). destruct r as [[dst2 [q|]]|e]; cbn beta iota zeta in Hz.
    + case_decide; [injection Hz as <- _; auto|]. injection Hz as <- _.
      right. right. right. eexists _, _. split; [done|]. exists (Some q).
      split; [by destruct (domainFind rules originHost)|].
      intros i [= <-]. by eapply ipRedirect_policy.
    + injection Hz as <- _. right. right. right. eexists _, _. split; [done|]. exists None.
      by destruct (domainFind rules originHost).
    + injection Hz as <- _. by left.
Qed.
End routing.

Lemma gen_host_not_found {G} `{R : Resolver G} rules originHost p b s g s' :
  gen_host rules originHost p b s = Some (inl g, s') → g = gen_not_found → b = true.
Proof.
  unfold gen_host. intros (sel & s1 & Hx & Hy)%bind_Some ->. destruct b; [done|]. exfalso.
  destruct sel as [g1|[[sh dst] nr]]; cbn beta iota zeta in Hy.
  - injection Hy as -> <-. case_decide; [|done]. case_decide; [|done].
    apply bind_Some in Hx as (r & s2 & _ & Hz). by destruct r as [[]|].
  - clear Hx. case_decide; [|done]. case_decide; [done|].
    destruct (HasPrefix sh ipPoolTagPrefix); [|destruct (HasPrefix sh resolvePrefix); [|done]];
      apply bind_Some in Hy as (r & s2 & _ & Hz); by destruct r as [[]|].
Qed.

Lemma genPolicy_not_found {G} `{R : Resolver G} rules originHost isIP b s s' :
  genPolicy rules originHost isIP b s = Some (gen_not_found, s') → b = true.
Proof.
  unfold genPolicy. destruct (isIP || _).
  - intros (r & s1 & _ & Hy)%bind_Some. destruct r as [[dst q]|e]; cbn beta iota zeta in Hy; [|done].
    by case_decide.
  - unfold gen_for_domain. case_decide; [done|].
    intros (r & s1 & Hx & Hy)%bind_Some. destruct r as [g1|[dst nr]]; cbn beta iota zeta in Hy.
    { injection Hy as -> _. by eapply gen_host_not_found. }
    destruct nr; [done|]. apply bind_Some in Hy as (r & s2 & _ & Hz).
    destruct r as [[dst2 [q|]]|e]; cbn beta iota zeta in Hz; try done. by case_decide.
Qed.

(** Rules as [LoadConfig] leaves them. *)
Definition rules_ok (rules : Rules) : Prop :=
  policy_wf (defaultPolicy rules) ∧ policy_ready (defaultPolicy rules) ∧
  (∀ h p, domainFind rules h = Some p → policy_wf p) ∧
  (∀ ip p, getIPPolicy rules ip = Some p → policy_wf p).

Lemma resulting_ready rules host p :
  rules_ok rules → resulting rules (domainFind rules host) p ∨ resulting rules None p → policy_ready p.
Proof.
  intros (Hwf & Hready & Hdom & Hip).
  assert (∀ d ip, (∀ q, d = Some q → policy_wf q) → (∀ q, ip = Some q → policy_wf q) →
    policy_ready match d, ip with
        | None, None => defaultPolicy rules
        | Some d, None => mergePolicies [d; defaultPolicy rules]
        | None, Some i => mergePolicies [i; defaultPolicy rules]
        | Some d, Some i => mergePolicies [d; i; defaultPolicy rules]
        end) as Hall.
  { intros d ip Hd Hi. destruct d as [d|], ip as [i|]; [..|done]; apply merge_ready;
      rewrite !Forall_cons, Forall_nil; auto. }
  intros [(ip & -> & Hi)|(ip & -> & Hi)].
  - apply Hall; [by apply Hdom|]. intros q ->. destruct (Hi q eq_refl) as [h Hh]. by eapply Hip.
  - apply (Hall None); [done|]. intros q ->. destruct (Hi q eq_refl) as [h Hh]. by eapply Hip.
Qed.


(** A default policy of mode [block] does not block a domain that has no
    policy of its own and whose address has none: [genPolicy] reports success
    with a policy of mode [block], which only the HTTP CONNECT handler checks. *)
Theorem genPolicy_default_block_passes {G : Type} `{R : Resolver G} (rules : Rules)
    (originHost target : string) (b : bool) (s : G) :
  ParseIP originHost = None → domainFind rules originHost = None →
  pMode (defaultPolicy rules) = ModeBlock → Host (defaultPolicy rules) = unsetString →
  hostsFind rules originHost = Some target →
  target ≠ "" → target ≠ unsetString → target ≠ "self" →
  HasPrefix target noRedirectPrefix = false → HasPrefix target ipPoolTagPrefix = false →
  HasPrefix target resolvePrefix = false → getIPPolicy rules target = None →
  genPolicy rules originHost false b s = Some (gen_ok target (defaultPolicy rules), s).
Proof.
  intros Hip Hd Hm Hh Hf H1 H2 H3 P1 P2 P3 Hpol.
  assert (Hgh : gen_host rules originHost (defaultPolicy rules) b s = Some (inr (target, false), s)).
  { unfold gen_host. rewrite Hh.
    change (HasPrefix unsetString noRedirectPrefix) with false. cbn iota zeta.
    rewrite decide_True by auto. rewrite Hf. cbn [default from_option].
    rewrite decide_False by (by intros [?|?]). cbn zeta. unfold id. rewrite P1.
    unfold bind, ret. rewrite decide_True by done. rewrite decide_False by done.
    by rewrite P2, P3. }
  unfold genPolicy. rewrite bool_decide_false by (rewrite Hip; by intros [? ?]). cbn [orb].
  unfold gen_for_domain. rewrite Hd. rewrite decide_False by done.
  unfold bind. rewrite Hgh. unfold ipRedirect. by rewrite Hpol.
Qed.

(** ** Witnesses *)

(** A resolver without pools that answers every query alike. *)
Definition fixed_resolver (G : Type) : Resolver G :=
  {| getFromIPPool _ := ret (Fail (ErrNew "no ip pools"));
     dnsResolve _ _ := ret (Ok ("93.184.216.34", false)) |}.

Definition block_default : Policy :=
  normalizePolicyDefaults
    (mkPolicy BoolUnset SniffOverrideUnset DNSModeUnknown 0 "" "" (-1) (-1) BoolUnset ModeBlock
       0 0 BoolUnset BoolUnset BoolUnset BoolUnset 0 (-1) 0 0 0 0).
Definition block_rules : Rules :=
  mkRules block_default (λ _, None) (λ h, if decide (h = "a.example") then Some "1.2.3.4" else None)
    (λ _, None) (λ _, None).

Lemma block_rules_ok : rules_ok block_rules.
Proof.
  split; [|split; [|split; intros ? ? E; [done|unfold getIPPolicy in E; by destruct (isIPv6 _)]]].
  - unfold policy_wf. simpl. unfold defaultConnectTimeout, Conn.Second, Conn.Millisecond. lia.
  - unfold policy_ready. simpl. unfold defaultConnectTimeout, Conn.Second, Conn.Millisecond.
    repeat match goal with |- _ ∧ _ => split end; try lia; done.
Qed.


Lemma genPolicy_default_block_passes_witness :
  genPolicy (H:=fixed_resolver unit) block_rules "a.example" false false tt =
    Some (gen_ok "1.2.3.4" block_default, tt) ∧ pMode block_default = ModeBlock.
Proof.
  split; [|done].
  apply (genPolicy_default_block_passes (R:=fixed_resolver unit) block_rules "a.example" "1.2.3.4" false tt);
    try done; vm_compute; reflexivity.
Defined.
