(* ===== verification/IPPool.v ===== *)
(** [internal/ippool.go]: pools of addresses, probed for latency and loss, and
    handed out in proportion to their weights. *)

From S2P Require Import Prelude GoStd Patterns GoNet GoTime Json Conn.

Definition defaultTimeout : Z := 1 * Second.
Definition defaultUpdateInterval : Z := 30 * 60 * Second.
Definition defaultMaxConcurrency : Z := 100.
Definition defaultTopIPCount : Z := 3.
Definition defaultAttempts : Z := 4.
Definition maxIPPoolSize : Z := 1000.

(** ** More double precision *)

Definition round_me (m e : Z) : f64 :=
  if decide (0 ≤ e) then round64 (m * 2 ^ e) 1 else round64 m (2 ^ (- e)).
Definition f_add (a b : f64) : f64 :=
  let e := Z.min (snd a) (snd b) in
  round_me (fst a * 2 ^ (snd a - e) + fst b * 2 ^ (snd b - e)) e.
(** For [b <= a]. *)
Definition f_sub (a b : f64) : f64 :=
  let e := Z.min (snd a) (snd b) in
  round_me (fst a * 2 ^ (snd a - e) - fst b * 2 ^ (snd b - e)) e.
Definition f_lt (a b : f64) : bool :=
  let e := Z.min (snd a) (snd b) in
  fst a * 2 ^ (snd a - e) <? fst b * 2 ^ (snd b - e).
Definition f_one : f64 := (1, 0).

(** ** State *)

Record IPPool := mkIPPool {
  ips : list string;
  port : Z;
  topIPCount : Z;
  attempts : Z;
  timeout : Z;
  updateInterval : Z;
  concurrency : Z;             (* capacity of [sem] *)
  bestIndexes : list Z;
  bestWeights : list Z;
  totalWeight : Z;
  curValidIPs : Z;
  counter : Z
}.

(** ** Decoding *)

Definition pool_fields : fields :=
  [("ips", λ v, match v with
                | JNull => None
                | JArr l => head (omap check_string l)
                | _ => Some (type_error "value of type []string")
                end);
   ("port", check_int minInt maxInt);
   ("top_ip_count", check_int minInt maxInt);
   ("max_concurrency", check_int minInt maxInt);
   ("timeout", check_string);
   ("update_interval", check_string);
   ("attempts", check_int minInt maxInt)].

(** A slice field: [null] makes it nil, an element [null] is the empty string. *)
Definition get_strings (v : json) : option (list string) :=
  match v with
  | JArr l => Some ((λ v, default "" (get_string v)) <$> l)
  | _ => None
  end.

Section parse.
(** [net.LookupIP]: the addresses of a name, as byte slices. *)
Context (LookupIP : string → result (list (list Z))).

(** The addresses of a prefix, from [addr] on. *)
Fixpoint cidr_loop (fuel : nat) (s : string) (prefix : Prefix) (addr : Addr) (ips : list string)
    : result (list string) :=
  match fuel with
  | O => Ok ips
  | S fuel =>
      if negb (PrefixContains prefix addr) then Ok ips else
      if decide (maxIPPoolSize ≤ len ips)
      then Fail (ErrNew ("CIDR " +:+ s +:+ " exceeds max pool size (" +:+ itoa maxIPPoolSize +:+ ")"))
      else
        let ips := ips ++ [AddrString addr] in
        let next := Next addr in
        if negb (IsValid next) || negb (PrefixContains prefix next) then Ok ips
        else cidr_loop fuel s prefix next ips
  end.

(** Every turn adds an address, up to the maximum: that many turns are enough. *)
Definition cidr_fuel : nat := 1001.

Fixpoint lookup_loop (s : string) (addrs : list (list Z)) (ips : list string) : result (list string) :=
  match addrs with
  | [] => Ok ips
  | ip :: addrs =>
      let '(addr, ok) := AddrFromSlice ip in
      if ok && IsValid addr then
        if decide (maxIPPoolSize ≤ len ips)
        then Fail (ErrNew ("DNS resolution for " +:+ s +:+ " exceeds max pool size"))
        else lookup_loop s addrs (ips ++ [AddrString addr])
      else lookup_loop s addrs ips
  end.

Definition parse_source (s : string) (ips : list string) : result (list string) :=
  if decide (maxIPPoolSize ≤ len ips)
  then Fail (ErrNew ("IP pool exceeds maximum size (" +:+ itoa maxIPPoolSize +:+ ") during parsing")) else
  match ParseAddr s with
  | Ok addr =>
      if IsValid addr then Ok (ips ++ [s]) else Ok ips
  | Fail _ =>
      match ParsePrefix s with
      | Ok prefix => cidr_loop cidr_fuel s prefix (pAddr prefix) ips
      | Fail _ =>
          match LookupIP s with
          | Fail e => Fail (ErrWrap ("DNS lookup failed for " +:+ s +:+ ": ") e)
          | Ok addrs => lookup_loop s addrs ips
          end
      end
  end.

Fixpoint parse_sources (l : list string) (ips : list string) : result (list string) :=
  match l with
  | [] => Ok ips
  | s :: l => let? ips := parse_source s ips in parse_sources l ips
  end.

Definition parseIPList (sources : list string) : result (list string) :=
  parse_sources (concat (expandPattern <$> sources)) [].

(** [UnmarshalJSON] of a pool. *)
Definition IPPool_UnmarshalJSON (v : json) : result IPPool :=
  let? o := unmarshal_struct pool_fields id v in
  let? ips := parseIPList (default [] (pointer_field get_strings pool_fields "ips" o)) in
  let int name := plain_field get_int 0 pool_fields name o in
  let str name := plain_field get_string "" pool_fields name o in
  if decide (ips = []) then Fail (ErrNew "no valid IPs after parsing") else
  if decide (maxIPPoolSize < len ips)
  then Fail (ErrNew ("IP pool exceeds maximum size (" +:+ itoa maxIPPoolSize +:+ "): " +:+ itoa (len ips)))
  else if decide (len ips < int "top_ip_count")
  then Fail (ErrNew ("IP count (" +:+ itoa (len ips) +:+ ") less than top_ip_count (" +:+
                     itoa (int "top_ip_count") +:+ ")"))
  else if decide (int "port" ≤ 0 ∨ 65535 < int "port")
  then Fail (ErrNew ("invalid port: " +:+ itoa (int "port")))
  else
    let? conc :=
      (let c := int "max_concurrency" in
       if decide (c = 0) then Ok defaultMaxConcurrency
       else if decide (c < 1) then Fail (ErrNew ("invalid max_concurrency: " +:+ itoa c)) else Ok c) in
    let? top :=
      (let c := int "top_ip_count" in
       if decide (c = 0) then Ok defaultTopIPCount
       else if decide (c ≤ 0 ∨ 255 < c ∨ len ips < c)
       then Fail (ErrNew ("invalid top_ip_count: " +:+ itoa c)) else Ok c) in
    let? att :=
      (let c := int "attempts" in
       if decide (c = 0) then Ok defaultAttempts
       else if decide (c ≤ 0 ∨ 255 < c) then Fail (ErrNew ("invalid attempts: " +:+ itoa c)) else Ok c) in
    let dur name dflt :=
      if decide (str name = "") then Ok dflt else
      match ParseDuration (str name) with
      | Ok d => if decide (d ≤ 0) then Fail (ErrNew ("invalid " +:+ name +:+ ": " +:+ str name)) else Ok d
      | Fail _ => Fail (ErrNew ("invalid " +:+ name +:+ ": " +:+ str name))
      end in
    let? tmo := dur "timeout" defaultTimeout in
    let? upd := dur "update_interval" defaultUpdateInterval in
    Ok (mkIPPool ips (int "port") (u8 top) (u8 att) tmo upd conc
          (replicate (Z.to_nat top) 0) (replicate (Z.to_nat top) 0) 0 0 0).
End parse.

(** ** Probing *)

Record ipResult := mkResult { ipIndex : Z; latency : Z; loss : f64 }.

(** [testIP]: the outcome of each attempt is the time the dial took, or a
    failure. *)
Definition testIP (attempts : Z) (outcomes : list (option Z)) : Z * f64 :=
  let oks := omap id outcomes in
  let successCount := len oks in
  let totalLatency := foldr Z.add 0 oks in
  let lossRate := f_sub f_one (f_div (f_of_int successCount) (f_of_int attempts)) in
  if decide (successCount = 0) then (maxInt64, lossRate)
  else (Z.quot totalLatency successCount, lossRate).

(** [sort.SliceStable] by loss, then latency. *)
Definition better (a b : ipResult) : bool :=
  if f_lt (loss a) (loss b) then true
  else if f_lt (loss b) (loss a) then false
  else latency a <? latency b.
Fixpoint insert_result (r : ipResult) (l : list ipResult) : list ipResult :=
  match l with
  | [] => [r]
  | x :: l' => if better r x then r :: l else x :: insert_result r l'
  end.
Definition sort_results (l : list ipResult) : list ipResult :=
  foldl (λ acc r, insert_result r acc) [] l.

(** [10000 / (ms * (1 + loss) + 1e-5)], clamped to [1, 10000]. *)
Definition weight_of (r : ipResult) : Z :=
  let latencyMs := f_div (f_of_int (latency r)) (f_of_int 1000000) in
  let d := f_add (f_mul latencyMs (f_add f_one (loss r))) (round64 1 100000) in
  let w := f_div (f_of_int 10000) d in
  let w := if f_lt w (1, 0) then (1, 0) else if f_lt (10000, 0) w then (10000, 0) else w in
  f_trunc w.

(** The loop of [updateBest] over the best results. *)
Fixpoint best_loop (i : Z) (rs : list ipResult) (idxs ws : list Z) (total : Z)
    : go (list Z * list Z * Z) :=
  match rs with
  | [] => Some (idxs, ws, total)
  | r :: rs =>
      let! idxs := set_idx idxs i (ipIndex r) in
      let weight := weight_of r in
      let! ws := set_idx ws i weight in
      best_loop (i + 1) rs idxs ws (total + weight)
  end.

(** [for i := validCount; i < topIPCount; i++ { bestWeights[i] = 0 }] *)
Fixpoint clear_loop (is_ : list Z) (ws : list Z) : go (list Z) :=
  match is_ with
  | [] => Some ws
  | i :: is_ => let! ws := set_idx ws i 0 in clear_loop is_ ws
  end.

Definition updateBest (p : IPPool) (results : list ipResult) : go IPPool :=
  if decide (results = []) then Some p else
  let best := take (Z.to_nat (topIPCount p)) (sort_results results) in
  let validCount := len best in
  let! (idxs, ws, total) := best_loop 0 best (bestIndexes p) (bestWeights p) 0 in
  let! ws := clear_loop (Z.of_nat <$> seq (Z.to_nat validCount)
                           (Z.to_nat (topIPCount p) - Z.to_nat validCount)) ws in
  let! shown := slice_to idxs validCount in
  (* the addresses are printed: each index must be in range *)
  let! _ := mapM (λ i, idx (ips p) i) shown in
  Some (mkIPPool (ips p) (port p) (topIPCount p) (attempts p) (timeout p) (updateInterval p)
          (concurrency p) idxs ws total (u32 validCount) (counter p)).

(** [scan]: every address is probed by a goroutine of its own; [order] is the
    order in which they report and [probe i] the outcomes of its attempts. *)
Definition scan (p : IPPool) (order : list Z) (probe : Z → list (option Z)) : go IPPool :=
  let results := (λ i, let '(lat, ls) := testIP (attempts p) (probe i) in mkResult i lat ls) <$> order in
  updateBest p (filter (λ r, f_lt (loss r) f_one = true) results).

(** ** Handing out *)

Fixpoint pick_loop (acc target : Z) (l : list (Z * Z)) : option Z :=
  match l with
  | [] => None
  | (index, weight) :: l =>
      let acc := acc + weight in
      if decide (target < acc) then Some index else pick_loop acc target l
  end.

(** [Get]: the address and the pool with its counter advanced. *)
Definition Get (p : IPPool) : go (string * IPPool) :=
  let validCount := curValidIPs p in
  if decide (validCount = 0) then Some ("", p) else
  let! indexes := slice_to (bestIndexes p) validCount in
  let! weights := slice_to (bestWeights p) validCount in
  let total := u32 (totalWeight p) in
  let current := counter p in
  let p' := mkIPPool (ips p) (port p) (topIPCount p) (attempts p) (timeout p) (updateInterval p)
              (concurrency p) (bestIndexes p) (bestWeights p) (totalWeight p) (curValidIPs p)
              (u32 (counter p + 1)) in
  if decide (total = 0) then panic else
  let target := current mod total in
  match pick_loop 0 target (zip indexes weights) with
  | Some i => let! ip := idx (ips p) i in Some (ip, p')
  | None => let! i := idx indexes 0 in let! ip := idx (ips p) i in Some (ip, p')
  end.

(** [getFromIPPool] on the table of pools. *)
Definition getFromIPPool_map (tag : string) (pools : gmap string IPPool)
    : go (result string * gmap string IPPool) :=
  if decide (pools = ∅) then Some (Fail (ErrNew "no ip pools"), pools) else
  match pools !! tag with
  | None => Some (Fail (ErrNew ("ip pool " +:+ tag +:+ " does not exist")), pools)
  | Some pool =>
      let! (ip, pool) := Get pool in
      let pools := <[tag := pool]> pools in
      if decide (ip = "") then Some (Fail (ErrNew ("cannot get ip from " +:+ tag)), pools)
      else Some (Ok ip, pools)
  end.

(** [Init]: the first scan must find an address. *)
Definition Init (p : IPPool) (order : list Z) (probe : Z → list (option Z)) : go (result IPPool) :=
  let! p := scan p order probe in
  if decide (0 < curValidIPs p) then Some (Ok p)
  else Some (Fail (ErrNew "no valid IP found after initial scan")).

(** ** Invariant *)

Definition shown_indexes (p : IPPool) : list Z := take (Z.to_nat (curValidIPs p)) (bestIndexes p).
Definition shown_weights (p : IPPool) : list Z := take (Z.to_nat (curValidIPs p)) (bestWeights p).
Definition sumZ (l : list Z) : Z := foldr Z.add 0 l.

Definition in_pool (p : IPPool) (i : Z) : Prop := 0 ≤ i < len (ips p).
Definition weight_ok (w : Z) : Prop := 1 ≤ w ≤ 10000.

Definition pool_ok (p : IPPool) : Prop :=
  (1 ≤ topIPCount p ≤ 255) ∧ ips p ≠ [] ∧
  len (bestIndexes p) = topIPCount p ∧ len (bestWeights p) = topIPCount p ∧
  (0 ≤ curValidIPs p ≤ topIPCount p) ∧ (0 ≤ counter p < 2 ^ 32) ∧
  Forall (in_pool p) (shown_indexes p) ∧ Forall weight_ok (shown_weights p) ∧
  totalWeight p = sumZ (shown_weights p).

(** ** Weights *)

Lemma f_lt_false_one w : f_lt w (1, 0) = false → 1 ≤ f_trunc w.
Proof.
  unfold f_lt, f_trunc. destruct w as [m e]. simpl. intros H%Z.ltb_ge. case_decide.
  - rewrite Z.min_r, !Z.sub_0_r in H by lia. change (2 ^ 0) with 1 in H. lia.
  - rewrite Z.min_l, Z.sub_diag in H by lia. simpl in H. rewrite Z.mul_1_r in H.
    replace (0 - e) with (- e) in H by lia.
    apply Z.div_le_lower_bound; [apply Z.pow_pos_nonneg; lia|]. destruct (2 ^ (- e)); lia.
Qed.

Lemma f_lt_false_max w : f_lt (10000, 0) w = false → f_trunc w ≤ 10000.
Proof.
  unfold f_lt, f_trunc. destruct w as [m e]. simpl. intros H%Z.ltb_ge. case_decide.
  - rewrite Z.min_l, !Z.sub_0_r in H by lia. change (2 ^ 0) with 1 in H. lia.
  - rewrite Z.min_r, Z.sub_diag in H by lia. replace (0 - e) with (- e) in H by lia.
    apply Z.div_le_upper_bound; [apply Z.pow_pos_nonneg; lia|]. lia.
Qed.

Lemma weight_of_ok r : weight_ok (weight_of r).
Proof.
  unfold weight_of, weight_ok. set (w := f_div _ _).
  destruct (f_lt w (1, 0)) eqn:E1; [by vm_compute|].
  destruct (f_lt (10000, 0) w) eqn:E2; [by vm_compute|].
  split; [by apply f_lt_false_one|by apply f_lt_false_max].
Qed.

(** ** The invariant is kept *)

Lemma set_idx_app (l1 l2 : list Z) y x :
  set_idx (l1 ++ y :: l2) (len l1) x = Some (l1 ++ x :: l2).
Proof.
  rewrite set_idx_Some.
  - f_equal. unfold len. rewrite Nat2Z.id, insert_app_r_alt, Nat.sub_diag by lia. done.
  - rewrite len_app, len_cons. pose proof (len_nonneg l1). pose proof (len_nonneg l2). lia.
Qed.

Lemma best_loop_spec rs (d1 d2 i1 i2 : list Z) total :
  len d1 = len i1 → len rs ≤ len i2 → len rs ≤ len d2 →
  best_loop (len i1) rs (i1 ++ i2) (d1 ++ d2) total =
  Some (i1 ++ (ipIndex <$> rs) ++ drop (length rs) i2,
        d1 ++ (weight_of <$> rs) ++ drop (length rs) d2,
        total + sumZ (weight_of <$> rs)).
Proof.
  revert i1 i2 d1 d2 total. induction rs as [|r rs IH]; intros i1 i2 d1 d2 total H1 H2 H3.
  { simpl. by rewrite Z.add_0_r. }
  rewrite len_cons in H2, H3. pose proof (len_nonneg rs).
  destruct i2 as [|y i2]; [change (len []) with 0 in H2; lia|].
  destruct d2 as [|z d2]; [change (len []) with 0 in H3; lia|].
  rewrite len_cons in H2, H3. cbn [best_loop]. rewrite set_idx_app, <-H1, set_idx_app.
  specialize (IH (i1 ++ [ipIndex r]) i2 (d1 ++ [weight_of r]) d2 (total + weight_of r)).
  rewrite <-!app_assoc, !len_app in IH. change (len [_]) with 1 in IH. rewrite <-H1 in IH.
  simpl app in IH. rewrite IH by lia. simpl. by rewrite Z.add_assoc.
Qed.

Lemma clear_loop_spec k n (ws : list Z) :
  Z.of_nat (k + n) ≤ len ws →
  ∃ ws', clear_loop (Z.of_nat <$> seq k n) ws = Some ws' ∧ len ws' = len ws ∧ take k ws' = take k ws.
Proof.
  revert k ws. induction n as [|n IH]; intros k ws H; [by exists ws|].
  cbn [seq fmap list_fmap clear_loop]. rewrite set_idx_Some by lia. rewrite Nat2Z.id.
  destruct (IH (S k) (<[k:=0]> ws)) as (ws' & Hc & Hl & Ht).
  { unfold len in *. rewrite length_insert. lia. }
  exists ws'. split; [exact Hc|]. split; [rewrite Hl; unfold len; by rewrite length_insert|].
  assert (take k (take (S k) ws') = take k (take (S k) (<[k:=0]> ws))) as Hk by (by rewrite Ht).
  rewrite !take_take, !Nat.min_l in Hk by lia. rewrite Hk. apply take_insert_ge. lia.
Qed.

Lemma insert_result_perm r l : insert_result r l ≡ₚ r :: l.
Proof.
  induction l as [|x l IH]; simpl; [done|]. destruct (better r x); [done|].
  rewrite IH. apply Permutation_swap.
Qed.
Lemma sort_results_perm l : sort_results l ≡ₚ l.
Proof.
  unfold sort_results. rewrite <-(app_nil_l l) at 2. generalize (@nil ipResult) as acc.
  induction l as [|r l IH]; intros acc; simpl; [by rewrite app_nil_r|].
  rewrite IH, insert_result_perm. simpl. by rewrite Permutation_middle.
Qed.

Lemma mapM_idx_Some (p : IPPool) l :
  Forall (in_pool p) l → ∃ r, mapM (λ i, idx (ips p) i) l = Some r.
Proof.
  induction 1 as [|i l Hi Hl [r IH]]; [by eexists|]. simpl.
  destruct (idx_Some (ips p) i Hi) as [x ->]. simpl. rewrite IH. by eexists.
Qed.

Lemma updateBest_ok p results :
  pool_ok p → Forall (λ r, in_pool p (ipIndex r)) results →
  ∃ p', updateBest p results = Some p' ∧ pool_ok p' ∧ ips p' = ips p ∧
    (results ≠ [] → 0 < curValidIPs p').
Proof.
  intros Hp Hr. unfold updateBest. case_decide as Hne; [by exists p|].
  destruct Hp as (Htop & Hips & Hi & Hw & Hcur & Hcnt & Hsi & Hsw & Htot).
  set (best := take _ (sort_results results)).
  assert (Hb1 : len best ≤ topIPCount p) by (unfold best, len; rewrite length_take; lia).
  assert (Hb2 : Forall (λ r, in_pool p (ipIndex r)) best).
  { apply Forall_take. by rewrite sort_results_perm. }
  assert (Hb3 : 0 < len best).
  { unfold best, len. rewrite length_take. rewrite (Permutation_length (sort_results_perm results)).
    destruct results; [done|]. simpl. lia. }
  pose proof (best_loop_spec best [] (bestWeights p) [] (bestIndexes p) 0) as Hloop.
  simpl app in Hloop. change (len []) with 0 in Hloop. rewrite Hloop by lia. clear Hloop.
  set (idxs := (ipIndex <$> best) ++ _). set (ws := (weight_of <$> best) ++ _).
  assert (Hli : len idxs = topIPCount p).
  { unfold idxs, len in *. rewrite length_app, length_fmap, length_drop. lia. }
  assert (Hlw : len ws = topIPCount p).
  { unfold ws, len in *. rewrite length_app, length_fmap, length_drop. lia. }
  destruct (clear_loop_spec (Z.to_nat (len best)) (Z.to_nat (topIPCount p) - Z.to_nat (len best)) ws)
    as (ws' & -> & Hlw' & Htw); [lia|].
  rewrite slice_to_Some by lia.
  assert (Hti : take (Z.to_nat (len best)) idxs = ipIndex <$> best).
  { unfold idxs, len. rewrite Nat2Z.id, take_app_length'; [done|by rewrite length_fmap]. }
  assert (Htw2 : take (Z.to_nat (len best)) ws' = weight_of <$> best).
  { rewrite Htw. unfold ws, len. rewrite Nat2Z.id, take_app_length'; [done|by rewrite length_fmap]. }
  rewrite Hti. destruct (mapM_idx_Some p (ipIndex <$> best)) as [r ->]; [by apply Forall_fmap|].
  assert (Hu : u32 (len best) = len best) by (unfold u32; rewrite Z.mod_small; lia).
  eexists. split; [done|]. rewrite Hu. split; [|done].
  unfold pool_ok, shown_indexes, shown_weights. cbn [topIPCount ips bestIndexes bestWeights curValidIPs counter totalWeight].
  rewrite Hti, Htw2. repeat (split; [done || lia|]). split.
  - by apply Forall_fmap.
  - split; [|done]. apply Forall_fmap, Forall_true. intros. apply weight_of_ok.
Qed.

Lemma filter_Forall {A} (P Q : A → Prop) `{∀ x, Decision (Q x)} l :
  Forall P l → Forall P (filter Q l).
Proof. intros Hl. apply Forall_forall. intros x [_ Hx]%list_elem_of_filter. rewrite Forall_forall in Hl. auto. Qed.

(** From a well-formed pool a scan never panics, whatever order the
    probes report in and however they end, and leaves the pool well-formed: the
    shown indexes are addresses of the pool, their weights lie in 1..10000 and
    add up to the total; when some probe succeeds the pool has an address. *)
Theorem scan_ok (p : IPPool) (order : list Z) (probe : Z → list (option Z)) :
  pool_ok p → Forall (in_pool p) order →
  ∃ p', scan p order probe = Some p' ∧ pool_ok p' ∧ ips p' = ips p ∧
    (∀ i, i ∈ order → f_lt (snd (testIP (attempts p) (probe i))) f_one = true → 0 < curValidIPs p').
Proof.
  intros Hp Ho. unfold scan. set (rs := filter _ _).
  destruct (updateBest_ok p rs) as (p' & Hu & Hok & Hips & Hpos); [done| |].
  { apply filter_Forall, Forall_fmap. eapply Forall_impl; [exact Ho|]. intros i Hi. simpl.
    by destruct (testIP _ _). }
  exists p'. split; [done|]. split; [done|]. split; [done|]. intros i Hi Hl. apply Hpos. intros Hnil.
  set (r := let '(lat, ls) := testIP (attempts p) (probe i) in mkResult i lat ls).
  assert (r ∈ rs) as Hin.
  { unfold rs. apply list_elem_of_filter. split.
    - unfold r. by destruct (testIP _ _).
    - apply list_elem_of_fmap. by exists i. }
  rewrite Hnil in Hin. by apply not_elem_of_nil in Hin.
Qed.

(** ** Handing out in proportion *)

(** Every shown index as often as its weight. *)
Definition expand_shares (l : list (Z * Z)) : list Z :=
  concat ((λ '(i, w), replicate (Z.to_nat w) i) <$> l).

Lemma expand_shares_cons i w l :
  expand_shares ((i, w) :: l) = replicate (Z.to_nat w) i ++ expand_shares l.
Proof. done. Qed.

Lemma pick_loop_lookup acc t l :
  Forall (λ iw, 0 ≤ snd iw) l → acc ≤ t →
  pick_loop acc t l = expand_shares l !! Z.to_nat (t - acc).
Proof.
  revert acc. induction l as [|[i w] l IH]; intros acc Hl Ht; [done|].
  apply Forall_cons in Hl as [Hw Hl]. simpl in Hw. rewrite expand_shares_cons. simpl. case_decide.
  - rewrite lookup_app_l by (rewrite length_replicate; lia).
    by rewrite lookup_replicate_2 by lia.
  - rewrite lookup_app_r by (rewrite length_replicate; lia).
    rewrite length_replicate. rewrite IH by (done || lia). f_equal. lia.
Qed.

Lemma expand_shares_length l :
  Forall (λ iw, 0 ≤ snd iw) l → len (expand_shares l) = sumZ (snd <$> l).
Proof.
  induction 1 as [|[i w] l Hw Hl IH]; [done|]. rewrite expand_shares_cons, len_app, IH.
  cbn [snd] in Hw. unfold len at 1. rewrite length_replicate. cbn [fmap list_fmap snd sumZ foldr].
  unfold fmap, sumZ. lia.
Qed.

Lemma expand_shares_in l : Forall (λ i, i ∈ (fst <$> l)) (expand_shares l).
Proof.
  induction l as [|[i w] l IH]; [constructor|]. rewrite expand_shares_cons. simpl.
  apply Forall_app. split.
  - apply Forall_replicate. by left.
  - eapply Forall_impl; [exact IH|]. intros x Hx. by right.
Qed.

Definition shown (p : IPPool) : list (Z * Z) := zip (shown_indexes p) (shown_weights p).
(** The addresses one round hands out. *)
Definition shares (p : IPPool) : list Z := expand_shares (shown p).

Lemma shown_facts p :
  pool_ok p →
  fst <$> shown p = shown_indexes p ∧ snd <$> shown p = shown_weights p ∧
  Forall (λ iw, 0 ≤ snd iw) (shown p) ∧ len (shares p) = totalWeight p ∧
  totalWeight p ≤ 2550000 ∧ (0 < curValidIPs p → 0 < totalWeight p).
Proof.
  intros (Htop & Hips & Hi & Hw & Hcur & Hcnt & Hsi & Hsw & Htot).
  assert (Hlen : length (shown_indexes p) = length (shown_weights p)).
  { unfold shown_indexes, shown_weights. rewrite !length_take. unfold len in *. lia. }
  assert (Hf : fst <$> shown p = shown_indexes p) by (unfold shown; apply fst_zip; lia).
  assert (Hs : snd <$> shown p = shown_weights p) by (unfold shown; apply snd_zip; lia).
  assert (Hnn : Forall (λ iw, 0 ≤ snd iw) (shown p)).
  { cut (Forall (λ w, 0 ≤ w) (snd <$> shown p)); [intros Hx; exact (proj1 (Forall_fmap snd (λ w, 0 ≤ w) (shown p)) Hx)|].
    rewrite Hs. eapply Forall_impl; [exact Hsw|]. unfold weight_ok. lia. }
  split; [done|]. split; [done|]. split; [done|].
  split; [unfold shares; by rewrite expand_shares_length, Hs|].
  assert (Hb : ∀ l, Forall weight_ok l → len l ≤ sumZ l ≤ 10000 * len l).
  { intros l. induction 1 as [|w l Hw1 Hl IH]; [done|]. unfold weight_ok in Hw1.
    rewrite len_cons. simpl. lia. }
  specialize (Hb _ Hsw). rewrite Htot.
  assert (len (shown_weights p) = curValidIPs p).
  { unfold shown_weights. rewrite len_take; lia. }
  lia.
Qed.

(** The pool with its counter at [c]. *)
Definition with_counter (p : IPPool) (c : Z) : IPPool :=
  mkIPPool (ips p) (port p) (topIPCount p) (attempts p) (timeout p) (updateInterval p)
    (concurrency p) (bestIndexes p) (bestWeights p) (totalWeight p) (curValidIPs p) c.

Lemma Get_spec p :
  pool_ok p → 0 < curValidIPs p →
  ∃ i ip, shares p !! Z.to_nat (counter p mod totalWeight p) = Some i ∧
    idx (ips p) i = Some ip ∧ Get p = Some (ip, with_counter p (u32 (counter p + 1))).
Proof.
  intros Hp Hc. destruct (shown_facts p Hp) as (Hf & Hs & Hnn & Hlen & Hmax & Hpos).
  specialize (Hpos Hc). pose proof Hp as (Htop & Hips & Hi & Hw & Hcur & Hcnt & Hsi & Hsw & Htot).
  pose proof (Z.mod_pos_bound (counter p) (totalWeight p) ltac:(lia)).
  destruct (lookup_lt_is_Some_2 (shares p) (Z.to_nat (counter p mod totalWeight p))) as [i Hl].
  { unfold len in Hlen. lia. }
  assert (Hin : in_pool p i).
  { pose proof (expand_shares_in (shown p)) as Hall. rewrite Hf, Forall_forall in Hall.
    apply list_elem_of_lookup_2 in Hl. apply Hall in Hl. rewrite Forall_forall in Hsi. auto. }
  destruct (idx_Some (ips p) i Hin) as [ip Hip]. exists i, ip. split; [done|]. split; [done|].
  unfold Get. rewrite decide_False by lia. rewrite !slice_to_Some by lia.
  fold (shown_indexes p) (shown_weights p) (shown p).
  assert (u32 (totalWeight p) = totalWeight p) as -> by (unfold u32; rewrite Z.mod_small; lia).
  rewrite decide_False by lia. rewrite pick_loop_lookup by (done || lia).
  rewrite Z.sub_0_r. fold (shares p). by rewrite Hl, Hip.
Qed.

Fixpoint gets (n : nat) (p : IPPool) : go (list string * IPPool) :=
  match n with
  | O => Some ([], p)
  | S n =>
      let! (ip, p) := Get p in
      let! (l, p) := gets n p in
      Some (ip :: l, p)
  end.

Definition share_ips (p : IPPool) : list string := (λ i, default "" (idx (ips p) i)) <$> shares p.

Lemma pool_ok_counter p c : pool_ok p → 0 ≤ c < 2 ^ 32 → pool_ok (with_counter p c).
Proof.
  intros (Htop & Hips & Hi & Hw & Hcur & Hcnt & Hsi & Hsw & Htot) Hc.
  by repeat (split; [done|]).
Qed.

Lemma gets_spec n p :
  pool_ok p → 0 < curValidIPs p → counter p + Z.of_nat n < 2 ^ 32 →
  ∃ p', gets n p = Some ((λ k, default "" (share_ips p !! Z.to_nat ((counter p + Z.of_nat k) mod totalWeight p)))
                           <$> seq 0 n, p').
Proof.
  revert p. induction n as [|n IH]; intros p Hp Hc Hn; [by eexists|]. cbn [gets].
  destruct (Get_spec p Hp Hc) as (i & ip & Hl & Hip & ->).
  pose proof Hp as (_ & _ & _ & _ & _ & Hcnt & _).
  assert (u32 (counter p + 1) = counter p + 1) as -> by (unfold u32; rewrite Z.mod_small; lia).
  destruct (IH (with_counter p (counter p + 1))) as (p' & Hg);
    [apply pool_ok_counter; [done|lia]|done|simpl; lia|].
  rewrite Hg. exists p'. do 2 f_equal. cbn [seq fmap list_fmap]. f_equal.
  - unfold share_ips. rewrite list_lookup_fmap, Z.add_0_r, Hl. simpl. by rewrite Hip.
  - rewrite <-fmap_S_seq. change (list_fmap nat nat S) with (fmap (M:=list) S).
    rewrite <-list_fmap_compose. apply list_fmap_ext. intros k x _. simpl.
    unfold share_ips, shares, shown, shown_indexes, shown_weights. simpl. do 4 f_equal. lia.
Qed.

Lemma rotation (T c : Z) :
  0 < T → 0 ≤ c →
  (λ k, Z.to_nat ((c + Z.of_nat k) mod T)) <$> seq 0 (Z.to_nat T) ≡ₚ seq 0 (Z.to_nat T).
Proof.
  intros HT Hc. pose proof (Z.mod_pos_bound c T HT). set (r := Z.to_nat (c mod T)).
  replace (Z.to_nat T) with ((Z.to_nat T - r) + r)%nat at 1 by (unfold r; lia).
  rewrite seq_app, fmap_app. rewrite Nat.add_0_l.
  assert (∀ k, (k < Z.to_nat T)%nat → (c + Z.of_nat k) mod T =
    if decide (k < Z.to_nat T - r)%nat then Z.of_nat (r + k) else Z.of_nat (r + k) - T) as Hk.
  { intros k Hk. rewrite Z.add_mod by lia. rewrite (Z.mod_small (Z.of_nat k)) by lia.
    case_decide; [rewrite Z.mod_small; lia|].
    replace (c mod T + Z.of_nat k) with (c mod T + Z.of_nat k - T + 1 * T) by lia.
    rewrite Z.mod_add, Z.mod_small by lia. lia. }
  assert ((λ k, Z.to_nat ((c + Z.of_nat k) mod T)) <$> seq 0 (Z.to_nat T - r) = seq r (Z.to_nat T - r)) as ->.
  { rewrite <-(Nat.add_0_r r) at 2. rewrite <-fmap_add_seq. apply list_fmap_ext.
    intros i k Hi. apply lookup_seq in Hi as [-> Hi]. rewrite Hk by (unfold r in *; lia).
    rewrite decide_True by lia. lia. }
  assert ((λ k, Z.to_nat ((c + Z.of_nat k) mod T)) <$> seq (Z.to_nat T - r) r = seq 0 r) as ->.
  { rewrite <-(Nat.add_0_r (Z.to_nat T - r)) at 1. rewrite <-fmap_add_seq, <-list_fmap_compose.
    rewrite <-(list_fmap_id (seq 0 r)) at 2. apply list_fmap_ext.
    intros i k Hi. apply lookup_seq in Hi as [-> Hi]. simpl. rewrite Hk by (unfold r in *; lia).
    rewrite decide_False by lia. unfold r in *. lia. }
  rewrite Permutation_app_comm. rewrite <-seq_app. by replace (r + (Z.to_nat T - r))%nat with (Z.to_nat T) by (unfold r; lia).
Qed.

(** C10: in one round of [totalWeight] consecutive calls (the 32-bit counter
    not wrapping), [Get] never panics and hands out every shown address exactly
    as many times as its weight, from whatever count it starts. *)
Theorem Get_proportional (p : IPPool) :
  pool_ok p → 0 < curValidIPs p → counter p + totalWeight p < 2 ^ 32 →
  ∃ addrs p', gets (Z.to_nat (totalWeight p)) p = Some (addrs, p') ∧
    addrs ≡ₚ concat ((λ '(i, w), replicate (Z.to_nat w) (default "" (idx (ips p) i))) <$>
                       zip (shown_indexes p) (shown_weights p)).
Proof.
  intros Hp Hc Hn. destruct (shown_facts p Hp) as (Hf & Hs & Hnn & Hlen & Hmax & Hpos).
  specialize (Hpos Hc).
  destruct (gets_spec (Z.to_nat (totalWeight p)) p Hp Hc ltac:(lia)) as (p' & Hg).
  eexists _, p'. split; [exact Hg|].
  assert (Hshare : share_ips p = concat ((λ '(i, w), replicate (Z.to_nat w) (default "" (idx (ips p) i))) <$>
                       zip (shown_indexes p) (shown_weights p))).
  { unfold share_ips, shares. fold (shown p). generalize (shown p). intros l.
    induction l as [|[i w] l IH]; [done|]. rewrite expand_shares_cons, fmap_app, IH.
    cbn [fmap list_fmap concat]. f_equal. by rewrite fmap_replicate. }
  rewrite <-Hshare.
  assert (Hrot := rotation (totalWeight p) (counter p) Hpos ltac:(destruct Hp; lia)).
  transitivity ((λ j, default "" (share_ips p !! j)) <$> seq 0 (Z.to_nat (totalWeight p))).
  - rewrite <-Hrot at 2. by rewrite <-list_fmap_compose.
  - assert (length (share_ips p) = Z.to_nat (totalWeight p)) as <-.
    { unfold share_ips. rewrite length_fmap. unfold len in Hlen. lia. }
    generalize (share_ips p). clear. intros l. induction l as [|x l IH]; [done|].
    cbn [length seq fmap list_fmap]. rewrite <-fmap_S_seq. simpl. f_equiv.
    change (list_fmap nat nat S) with (fmap (M:=list) S).
    change (list_fmap nat string) with (fmap (M:=list) (A:=nat) (B:=string)).
    rewrite <-list_fmap_compose. exact IH.
Qed.

Lemma pool_decoded_ok LookupIP v p : IPPool_UnmarshalJSON LookupIP v = Ok p → pool_ok p.
Proof.
  unfold IPPool_UnmarshalJSON. destruct (unmarshal_struct _ _ _) as [o|]; [|done].
  destruct (parseIPList _ _) as [l|]; [|done]. cbn zeta.
  set (topv := plain_field get_int 0 pool_fields "top_ip_count" o).
  case_decide as Hl; [done|]. case_decide; [done|]. case_decide; [done|]. case_decide; [done|].
  destruct (if decide (_ = 0) then Ok defaultMaxConcurrency else _) as [conc|]; [|done].
  destruct (if decide (topv = 0) then Ok defaultTopIPCount else _) as [top|] eqn:Etop; [|done].
  destruct (if decide (_ = 0) then Ok defaultAttempts else _) as [att|]; [|done].
  destruct (if decide (_ = "") then Ok defaultTimeout else _) as [tmo|]; [|done].
  destruct (if decide (_ = "") then Ok defaultUpdateInterval else _) as [upd|]; [|done].
  intros [= <-].
  assert (1 ≤ top ≤ 255) as Ht.
  { revert Etop. case_decide; [intros [= <-]; by vm_compute|]. case_decide; [done|].
    intros [= <-]. lia. }
  assert (u8 top = top) as Hu by (unfold u8; rewrite Z.mod_small; lia).
  unfold pool_ok, shown_indexes, shown_weights. simpl. rewrite Hu.
  rewrite !len_replicate by lia.
  do 6 (split; [done || lia|]). split; [constructor|]. split; [constructor|done].
Qed.

(** Every pool that decodes is well-formed: it has addresses, between 1
    and 255 slots for the best ones, and no address to hand out before the first
    scan; whatever the document and the name lookups say. *)
Theorem IPPool_UnmarshalJSON_ok (LookupIP : string → result (list (list Z))) (v : json) (p : IPPool) :
  IPPool_UnmarshalJSON LookupIP v = Ok p → pool_ok p ∧ curValidIPs p = 0 ∧ Get p = Some ("", p).
Proof.
  intros H. split; [by eapply pool_decoded_ok|].
  assert (curValidIPs p = 0) as Hc.
  { revert H. unfold IPPool_UnmarshalJSON. destruct (unmarshal_struct _ _ _) as [o|]; [|done].
    destruct (parseIPList _ _) as [l|]; [|done]. cbn zeta. do 4 (case_decide; [done|]).
    repeat match goal with |- match ?x with _ => _ end = _ → _ => destruct x; [|done] end.
    by intros [= <-]. }
  split; [done|]. unfold Get. by rewrite Hc.
Qed.

(** ** Witnesses *)

Definition pool_document : json :=
  JObj [("ips", JArr [JStr "10.0.0.(1|2)"; JStr "10.1.0.0/30"]); ("port", JNum (Some 443));
        ("top_ip_count", JNum (Some 2)); ("timeout", JStr "300ms")].
Definition no_lookup (s : string) : result (list (list Z)) := Fail (ErrEnv "no such host").

Lemma IPPool_UnmarshalJSON_ok_witness :
  ∃ p, IPPool_UnmarshalJSON no_lookup pool_document = Ok p ∧ pool_ok p ∧ len (ips p) = 6.
Proof.
  destruct (IPPool_UnmarshalJSON no_lookup pool_document) as [p|] eqn:E; [|vm_compute in E; discriminate].
  exists p. split; [done|]. split; [exact (proj1 (IPPool_UnmarshalJSON_ok no_lookup pool_document p E))|].
  vm_compute in E. by injection E as <-.
Defined.

(** Two addresses of weights 3 and 1, the counter in the middle of a round. *)
Definition small_pool : IPPool :=
  mkIPPool ["10.0.0.1"; "10.0.0.2"; "10.0.0.3"] 443 2 4 Second (60 * Second) 100
    [2; 0] [3; 1] 4 2 6.

Lemma small_pool_ok : pool_ok small_pool.
Proof.
  unfold pool_ok, shown_indexes, shown_weights, in_pool, weight_ok. simpl.
  rewrite !Forall_cons, !Forall_nil. unfold len. simpl. by repeat (split; [done || lia|]).
Qed.

Lemma scan_ok_witness :
  pool_ok small_pool ∧
  ∃ p', scan small_pool [1; 0; 2] (λ i, if decide (i = 1) then [Some 20000000; None] else [None]) = Some p' ∧
    0 < curValidIPs p'.
Proof.
  split; [exact small_pool_ok|].
  destruct (scan_ok small_pool [1; 0; 2] (λ i, if decide (i = 1) then [Some 20000000; None] else [None]))
    as (p' & Hs & _ & _ & Hc); [exact small_pool_ok| |].
  - unfold in_pool. rewrite !Forall_cons, Forall_nil. unfold len. simpl. lia.
  - exists p'. split; [exact Hs|]. apply (Hc 1); [by left|by vm_compute].
Defined.

Lemma Get_proportional_witness :
  pool_ok small_pool ∧
  ∃ addrs p', gets 4 small_pool = Some (addrs, p') ∧
    addrs ≡ₚ ["10.0.0.3"; "10.0.0.3"; "10.0.0.3"; "10.0.0.1"].
Proof.
  split; [exact small_pool_ok|].
  exact (Get_proportional small_pool small_pool_ok eq_refl eq_refl).
Defined.
