(* ===== verification/PoolRun.v ===== *)
(** [internal/ippool.go] at work: the goroutines of a scan behind their
    semaphore, the monitor that scans on every tick until it is stopped, and the
    calls of [Get] that read the pool meanwhile, interleaved freely.  [p.mu] makes
    [updateBest] and the first half of [Get] one step each. *)

From S2P Require Import Prelude GoStd Conn IPPool.

(** ** State *)

(** The goroutine of one address: before [p.sem <- struct{}{}], with a place,
    with the outcomes of its attempts, without its place again, and after
    [results <-] and [wg.Done]. *)
Inductive worker :=
| Queued | Holding | Tested (outcomes : list (option Z))
| Released (outcomes : list (option Z)) | Reported.

#[export] Instance worker_eq_dec : EqDecision worker.
Proof. solve_decision. Defined.

(** [Initial] is the scan of [Init]; [Select] and [Rescan] are the monitor's. *)
Inductive scanner := Initial | Failed | Select | Rescan | Returned | Crashed.
#[export] Instance scanner_eq_dec : EqDecision scanner.
Proof. solve_decision. Defined.

(** What a call of [Get] has copied under the lock. *)
Record snapshot := mkSnapshot { indexes : list Z; weights : list Z; total : Z }.

(** A call of [Get]; [late] says whether it began after [Init] had succeeded. *)
Inductive call := Reading (late : bool) (sn : snapshot) | Got (late : bool) (ip : string).

Record State := mkState {
  pool : IPPool;
  workers : list worker;
  results : list (Z * list (option Z));     (* the channel, oldest first *)
  phase : scanner;
  ticked : bool;                            (* the ticker's channel has one place *)
  cancelled : bool;
  calls : list call
}.

Definition monitored (s : State) : bool :=
  match phase s with Select | Rescan | Returned => true | _ => false end.
Definition scanning (s : State) : Prop := phase s = Initial ∨ phase s = Rescan.

Definition with_worker (i : nat) (w : worker) (s : State) : State :=
  mkState (pool s) (<[i := w]> (workers s)) (results s) (phase s) (ticked s) (cancelled s) (calls s).

(** ** A scan *)

Definition tally (f : worker → Z) (ws : list worker) : Z := sumZ (f <$> ws).
Definition holds (w : worker) : Z := match w with Holding | Tested _ => 1 | _ => 0 end.
(** The places of [p.sem] that are taken. *)
Definition holders (s : State) : Z := tally holds (workers s).

(** The start of [scan]: a goroutine for every address. *)
Definition start_scan (ph : scanner) (s : State) : State :=
  mkState (pool s) (replicate (length (ips (pool s))) Queued) [] ph false (cancelled s) (calls s).

Definition result_of (att : Z) (r : Z * list (option Z)) : ipResult :=
  let '(lat, ls) := testIP att (snd r) in mkResult (fst r) lat ls.

(** The end of [scan], after [wg.Wait()]: [updateBest] on what answered, and for
    the first scan the rest of [Init]. *)
Definition finish_scan (s : State) : State :=
  match updateBest (pool s) (filter (λ r, f_lt (loss r) f_one = true) (result_of (attempts (pool s)) <$> results s)) with
  | None => mkState (pool s) [] [] Crashed (ticked s) (cancelled s) (calls s)
  | Some p =>
      let ph := match phase s with
                | Initial => if decide (0 < curValidIPs p) then Select else Failed
                | _ => Select
                end in
      mkState p [] [] ph (ticked s) (cancelled s) (calls s)
  end.

Inductive scan_step : State → State → Prop :=
| scan_acquire s i : workers s !! i = Some Queued → holders s < concurrency (pool s) →
    scan_step s (with_worker i Holding s)
| scan_test s i outcomes : workers s !! i = Some Holding →
    scan_step s (with_worker i (Tested outcomes) s)
| scan_release s i outcomes : workers s !! i = Some (Tested outcomes) →
    scan_step s (with_worker i (Released outcomes) s)
| scan_report s i outcomes : workers s !! i = Some (Released outcomes) →
    scan_step s (mkState (pool s) (<[i := Reported]> (workers s)) (results s ++ [(Z.of_nat i, outcomes)])
      (phase s) (ticked s) (cancelled s) (calls s))
| scan_finish s : scanning s → Forall (eq Reported) (workers s) → scan_step s (finish_scan s).

(** ** The monitor *)

(** [Stop]: [p.cancel] is set when [Init] has succeeded. *)
Definition Stop (s : State) : State :=
  if monitored s then mkState (pool s) (workers s) (results s) (phase s) (ticked s) true (calls s) else s.

(** The two branches of the [select]; where both are ready Go picks either. *)
Definition monitor (s : State) : list State :=
  (if ticked s then [start_scan Rescan s] else []) ++
  (if cancelled s then
     [mkState (pool s) (workers s) (results s) Returned (ticked s) (cancelled s) (calls s)] else []).

Definition tick (s : State) : State :=
  mkState (pool s) (workers s) (results s) (phase s) true (cancelled s) (calls s).

(** ** [Get] in its two halves *)

(** Under [p.mu.RLock()]: the copy, or nothing when no address is valid. *)
Definition get_read (p : IPPool) : go (option snapshot) :=
  if decide (curValidIPs p = 0) then Some None else
  let! idxs := slice_to (bestIndexes p) (curValidIPs p) in
  let! ws := slice_to (bestWeights p) (curValidIPs p) in
  Some (Some (mkSnapshot idxs ws (totalWeight p))).

(** After it, with the number [atomic.AddUint32] has given the call. *)
Definition get_pick (ips : list string) (current : Z) (sn : snapshot) : go string :=
  if decide (u32 (total sn) = 0) then panic else
  match pick_loop 0 (current mod u32 (total sn)) (zip (indexes sn) (weights sn)) with
  | Some i => idx ips i
  | None => let! i := idx (indexes sn) 0 in idx ips i
  end.

Definition crash (s : State) : State :=
  mkState (pool s) (workers s) (results s) Crashed (ticked s) (cancelled s) (calls s).

Definition begin_get (s : State) : State :=
  match get_read (pool s) with
  | None => crash s
  | Some o =>
      let c := match o with None => Got (monitored s) "" | Some sn => Reading (monitored s) sn end in
      mkState (pool s) (workers s) (results s) (phase s) (ticked s) (cancelled s) (calls s ++ [c])
  end.

Definition end_get (i : nat) (late : bool) (sn : snapshot) (s : State) : State :=
  match get_pick (ips (pool s)) (counter (pool s)) sn with
  | None => crash s
  | Some ip =>
      mkState (with_counter (pool s) (u32 (counter (pool s) + 1))) (workers s) (results s) (phase s)
        (ticked s) (cancelled s) (<[i := Got late ip]> (calls s))
  end.

Inductive other_step : State → State → Prop :=
| step_tick s : phase s = Select ∨ phase s = Rescan → other_step s (tick s)
| step_stop s : other_step s (Stop s)
| step_monitor s s' : phase s = Select → s' ∈ monitor s → other_step s s'
| step_begin_get s : other_step s (begin_get s)
| step_end_get s i late sn : calls s !! i = Some (Reading late sn) → other_step s (end_get i late sn s).

Definition step (s s' : State) : Prop := scan_step s s' ∨ other_step s s'.

(** [Init] has been called on the decoded pool. *)
Definition begin (p : IPPool) : State :=
  start_scan Initial (mkState p [] [] Initial false false []).

(** ** Counting goroutines *)

Lemma tally_insert f ws i w w' :
  ws !! i = Some w → tally f (<[i := w']> ws) = tally f ws - f w + f w'.
Proof.
  unfold tally, sumZ. revert i. induction ws as [|x ws IH]; intros [|i] H; [done..| |].
  - injection H as ->. cbn. lia.
  - cbn in H. specialize (IH i H). change (f x + foldr Z.add 0 (f <$> <[i := w']> ws) = f x + foldr Z.add 0 (f <$> ws) - f w + f w'). lia.
Qed.

Lemma tally_replicate f n w : tally f (replicate n w) = Z.of_nat n * f w.
Proof. unfold tally, sumZ. induction n as [|n IH]; [done|]. cbn in *. lia. Qed.

Lemma tally_bounds f ws : (∀ w, 0 ≤ f w) → 0 ≤ tally f ws.
Proof. intros Hf. unfold tally, sumZ. induction ws as [|w ws IH]; [done|]. cbn. specialize (Hf w). lia. Qed.

(** ** Invariant of the goroutines *)

(** The channel holds one result of every goroutine that has reported. *)
Definition channel_ok (s : State) : Prop :=
  NoDup (fst <$> results s) ∧
  (∀ k, k ∈ (fst <$> results s) ↔ ∃ i : nat, k = Z.of_nat i ∧ workers s !! i = Some Reported).

Definition workers_ok (p : IPPool) (s : State) : Prop :=
  channel_ok s ∧ holders s ≤ concurrency p ∧
  (scanning s → length (workers s) = length (ips p)) ∧ (¬ scanning s → workers s = []).

(** The pool is what [p] has become. *)
Definition same_pool (p q : IPPool) : Prop :=
  pool_ok q ∧ ips q = ips p ∧ concurrency q = concurrency p.

Lemma channel_insert s i w w' :
  workers s !! i = Some w → w ≠ Reported → w' ≠ Reported → channel_ok s → channel_ok (with_worker i w' s).
Proof.
  intros Hw Hn Hn' [Hd Hc]. split; [done|]. intros k. cbn. rewrite Hc.
  split; intros (j & -> & Hj); exists j; (split; [done|]); destruct (decide (i = j)) as [<-|Hne].
  - congruence.
  - by rewrite list_lookup_insert_ne.
  - rewrite list_lookup_insert_eq in Hj by (by eapply lookup_lt_Some). congruence.
  - by rewrite list_lookup_insert_ne in Hj.
Qed.

Lemma channel_report s i o w :
  workers s !! i = Some w → w ≠ Reported → channel_ok s →
  channel_ok (mkState (pool s) (<[i := Reported]> (workers s)) (results s ++ [(Z.of_nat i, o)])
      (phase s) (ticked s) (cancelled s) (calls s)).
Proof.
  intros Hw Hn [Hd Hc]. unfold channel_ok. cbn [results workers]. rewrite fmap_app. cbn [fmap list_fmap fst].
  assert (Z.of_nat i ∉ (fst <$> results s)) as Hi.
  { rewrite Hc. intros (j & Hj & Hr). assert (i = j) as <- by lia. congruence. }
  split.
  - apply NoDup_app. split; [done|]. split; [|by apply NoDup_singleton].
    intros x Hx Hx'%list_elem_of_singleton. by subst.
  - intros k. rewrite elem_of_app, list_elem_of_singleton, Hc. split.
    + intros [(j & -> & Hj)| ->].
      * exists j. split; [done|]. rewrite list_lookup_insert_ne; [done|]. intros <-. congruence.
      * exists i. split; [done|]. by apply list_lookup_insert_eq, (lookup_lt_Some _ _ _ Hw).
    + intros (j & -> & Hj). destruct (decide (i = j)) as [<-|Hne]; [by right|left].
      exists j. by rewrite list_lookup_insert_ne in Hj.
Qed.

Lemma channel_start ph s : channel_ok (start_scan ph s).
Proof.
  split; [constructor|]. intros k. cbn. split; [by intros ?%not_elem_of_nil|].
  intros (j & _ & [? _]%lookup_replicate). done.
Qed.

Lemma channel_empty s : results s = [] → workers s = [] → channel_ok s.
Proof.
  intros E1 E2. unfold channel_ok. rewrite E1, E2. split; [constructor|].
  intros k. split; [by intros ?%not_elem_of_nil|]. by intros (j & _ & ?).
Qed.

(** When every goroutine has reported, the channel has every address once. *)
Lemma results_complete p s :
  workers_ok p s → scanning s → Forall (eq Reported) (workers s) →
  fst <$> results s ≡ₚ seqZ 0 (len (ips p)).
Proof.
  intros ([Hd Hc] & _ & Hl & _) Hs Hall. apply NoDup_Permutation; [done|apply NoDup_seqZ|].
  intros k. rewrite Hc, elem_of_seqZ. specialize (Hl Hs). unfold len. split.
  - intros (i & -> & Hi). apply lookup_lt_Some in Hi. lia.
  - intros Hk. exists (Z.to_nat k). split; [lia|].
    destruct (lookup_lt_is_Some_2 (workers s) (Z.to_nat k)) as [w Hw]; [lia|].
    rewrite Hw. f_equal. rewrite Forall_forall in Hall. symmetry. apply Hall. by eapply list_elem_of_lookup_2.
Qed.

(** ** [Get] is its two halves *)

Lemma Get_halves p :
  Get p =
    (let! o := get_read p in
     match o with
     | None => Some ("", p)
     | Some sn => let! ip := get_pick (ips p) (counter p) sn in Some (ip, with_counter p (u32 (counter p + 1)))
     end).
Proof.
  unfold Get, get_read. case_decide; [done|].
  destruct (slice_to (bestIndexes p) _) as [is0|]; [|done]. destruct (slice_to (bestWeights p) _) as [ws|]; [|done].
  cbn [mbind option_bind]. unfold get_pick. cbn [total indexes weights]. case_decide; [done|].
  destruct (pick_loop _ _ _) as [i|]; [by destruct (idx (ips p) i)|].
  destruct (idx is0 0) as [i|]; [|done]. cbn [mbind option_bind]. by destruct (idx (ips p) i).
Qed.

(** A snapshot of a well-formed pool that shows an address. *)
Definition snapshot_ok (addrs : list string) (sn : snapshot) : Prop :=
  ∃ q, pool_ok q ∧ ips q = addrs ∧ 0 < curValidIPs q ∧ get_read q = Some (Some sn).

Lemma get_read_None p : get_read p = Some None → curValidIPs p = 0.
Proof.
  unfold get_read. case_decide; [done|]. destruct (slice_to (bestIndexes p) _); [|done].
  by destruct (slice_to (bestWeights p) _).
Qed.

Lemma get_read_ok p :
  pool_ok p → if decide (0 < curValidIPs p) then ∃ sn, get_read p = Some (Some sn) ∧ snapshot_ok (ips p) sn
              else get_read p = Some None.
Proof.
  intros Hp. destruct (decide (0 < curValidIPs p)) as [Hc|Hc].
  - destruct (Get_spec p Hp Hc) as (i & ip & _ & _ & HG). rewrite Get_halves in HG.
    destruct (get_read p) as [[sn|]|] eqn:E; [|apply get_read_None in E; lia|done].
    exists sn. split; [done|]. by exists p.
  - unfold get_read. destruct Hp as (_ & _ & _ & _ & Hcur & _). by rewrite decide_True by lia.
Qed.

Lemma get_pick_ok addrs c sn :
  snapshot_ok addrs sn → 0 ≤ c < 2 ^ 32 → ∃ ip, get_pick addrs c sn = Some ip ∧ ip ∈ addrs.
Proof.
  intros (q & Hq & <- & Hc & Hr) Hb.
  destruct (Get_spec (with_counter q c)) as (i & ip & _ & Hip & HG); [by apply pool_ok_counter|done|].
  rewrite Get_halves in HG. change (get_read (with_counter q c)) with (get_read q) in HG. rewrite Hr in HG.
  cbn [mbind option_bind] in HG. change (ips (with_counter q c)) with (ips q) in *.
  change (counter (with_counter q c)) with c in HG.
  destruct (get_pick (ips q) c sn) as [ip'|]; [|done]. injection HG as ->. exists ip. split; [done|].
  unfold idx in Hip. case_decide; [|done]. by eapply list_elem_of_lookup_2.
Qed.

(** ** A scan of the goroutines is [scan] *)

(** What [finish_scan] does is [scan], for the order in which the goroutines
    have reported and the outcomes they have seen. *)
Definition probe_of (s : State) (i : Z) : list (option Z) :=
  default [] ((list_to_map (results s) : gmap Z (list (option Z))) !! i).

Lemma finish_is_scan s :
  NoDup (fst <$> results s) →
  updateBest (pool s) (filter (λ r, f_lt (loss r) f_one = true) (result_of (attempts (pool s)) <$> results s)) =
  scan (pool s) (fst <$> results s) (probe_of s).
Proof.
  intros Hd. unfold scan. do 2 f_equal. rewrite <-list_fmap_compose. apply list_fmap_ext. intros k [i o] Hk.
  unfold result_of, compose, probe_of. cbn [fst snd].
  rewrite (elem_of_list_to_map_1 (results s) i o); [done|done|by eapply list_elem_of_lookup_2].
Qed.

(** ** The invariant *)

(** A call that has returned gave an address, or nothing if it began before
    [Init] had succeeded. *)
Definition call_ok (p : IPPool) (c : call) : Prop :=
  match c with
  | Reading _ sn => snapshot_ok (ips p) sn
  | Got late ip => ip ∈ ips p ∨ (late = false ∧ ip = "")
  end.

Record inv (p : IPPool) (s : State) : Prop := mkInv {
  inv_pool : same_pool p (pool s);
  inv_workers : workers_ok p s;
  inv_phase : phase s ≠ Crashed;
  inv_shown : monitored s = true → 0 < curValidIPs (pool s);
  inv_calls : Forall (call_ok p) (calls s)
}.

Lemma with_worker_inv p s i w w' :
  inv p s → workers s !! i = Some w → w ≠ Reported → w' ≠ Reported →
  holders s - holds w + holds w' ≤ concurrency p → inv p (with_worker i w' s).
Proof.
  intros [Hp (Hc & Hh & Hl & Hl') Hph Hs Hcs] Hw Hn Hn' Hle. constructor; try done.
  split; [by eapply channel_insert|]. split; [unfold holders; cbn [workers with_worker]; by rewrite (tally_insert _ _ _ _ _ Hw)|].
  cbn [workers with_worker]. split; [by rewrite length_insert|]. intros Hns. rewrite (Hl' Hns) in Hw. done.
Qed.

Lemma updateBest_keeps p rs q : updateBest p rs = Some q → concurrency q = concurrency p.
Proof.
  unfold updateBest. case_decide; [by intros [= <-]|].
  destruct (best_loop _ _ _ _ _) as [[[]]|]; [|done]. cbn [mbind option_bind].
  destruct (clear_loop _ _); [|done]. cbn [mbind option_bind]. destruct (slice_to _ _); [|done].
  cbn [mbind option_bind]. destruct (mapM _ _); [|done]. by intros [= <-].
Qed.

(** The end of a scan updates the pool without a panic. *)
Lemma finish_update p s :
  inv p s → scanning s → Forall (eq Reported) (workers s) →
  ∃ q, updateBest (pool s) (filter (λ r, f_lt (loss r) f_one = true)
         (result_of (attempts (pool s)) <$> results s)) = Some q ∧
    same_pool p q ∧ (0 < curValidIPs (pool s) → 0 < curValidIPs q).
Proof.
  intros [(Hok & Hips & Hconc) Hw Hph Hs Hcs] Hsc Hall.
  pose proof (results_complete p s Hw Hsc Hall) as Hperm. set (rs := filter _ _).
  destruct (updateBest_ok (pool s) rs Hok) as (q & E & Hq & Hi & Hc).
  { unfold rs. apply filter_Forall, Forall_fmap, Forall_forall. intros [i o] Hin. unfold compose, result_of.
    destruct (testIP _ _). cbn [fst ipIndex]. unfold in_pool. rewrite Hips.
    assert (i ∈ (fst <$> results s)) as Hi'
      by (apply list_elem_of_fmap; by exists (i, o)).
    rewrite Hperm, elem_of_seqZ in Hi'. lia. }
  exists q. split; [done|]. split; [split; [done|]; split; [congruence|]; rewrite (updateBest_keeps _ _ _ E); done|].
  intros Hpos. destruct (decide (rs = [])) as [Hnil|Hne]; [|by apply Hc].
  unfold updateBest in E. rewrite decide_True in E by done. by injection E as <-.
Qed.

Lemma finish_inv p s :
  inv p s → scanning s → Forall (eq Reported) (workers s) → 0 ≤ concurrency p → inv p (finish_scan s).
Proof.
  intros Hi Hsc Hall Hnn. destruct (finish_update p s Hi Hsc Hall) as (q & E & Hq & Hpos).
  unfold finish_scan. rewrite E. destruct Hi as [Hp Hw Hph Hs Hcs].
  constructor; cbn [pool workers results phase calls]; try done.
  - split; [by apply channel_empty|]. split; [done|]. unfold scanning. cbn [phase workers]. split; [|done].
    destruct Hsc as [-> | ->]; [case_decide|]; intros [?|?]; done.
  - destruct Hsc as [-> | ->]; [case_decide|]; done.
  - unfold monitored. cbn [phase]. destruct Hsc as [Hi|Hr]; [rewrite Hi; case_decide; done|].
    rewrite Hr. intros _. apply Hpos, Hs. unfold monitored. by rewrite Hr.
Qed.

Lemma scan_step_inv p s s' : 0 ≤ concurrency p → inv p s → scan_step s s' → inv p s'.
Proof.
  intros Hnn Hi Hst. pose proof Hi as [(_ & _ & Hconc) (Hc & Hh & Hl & Hl') _ _ _].
  destruct Hst as [s i Hw Hlt|s i o Hw|s i o Hw|s i o Hw|s Hsc Hall].
  1-3: (eapply with_worker_inv; [done|exact Hw|done|done|]; cbn [holds]; lia).
  - destruct Hi as [Hp _ Hph Hs Hcs]. constructor; try done. split; [by eapply channel_report|].
    split; [unfold holders; cbn [workers]; rewrite (tally_insert _ _ _ _ _ Hw); cbn [holds]; unfold holders in Hh; lia|].
    cbn [workers]. split; [by rewrite length_insert|]. intros Hns. rewrite (Hl' Hns) in Hw. done.
  - by apply finish_inv.
Qed.

(** Steps that leave the scan, the pool and the calls alone. *)
Lemma inv_flags p s t c : inv p s →
  inv p (mkState (pool s) (workers s) (results s) (phase s) t c (calls s)).
Proof. by intros [Hp Hw Hph Hs Hcs]. Qed.

Lemma begin_get_inv p s : inv p s → inv p (begin_get s).
Proof.
  intros [Hp Hw Hph Hs Hcs]. unfold begin_get. pose proof Hp as (Hok & Hips & _).
  pose proof (get_read_ok (pool s) Hok) as Hr. destruct (decide (0 < curValidIPs (pool s))) as [Hc|Hc].
  - destruct Hr as (sn & -> & Hsn). constructor; try done. cbn [calls]. apply Forall_app. split; [done|].
    apply Forall_singleton. cbn. by rewrite <-Hips.
  - rewrite Hr. constructor; try done. cbn [calls]. apply Forall_app. split; [done|].
    apply Forall_singleton. cbn. right. split; [|done]. destruct (monitored s) eqn:E; [|done]. by destruct (Hc (Hs eq_refl)).
Qed.

Lemma end_get_inv p s i late sn : inv p s → calls s !! i = Some (Reading late sn) → inv p (end_get i late sn s).
Proof.
  intros [(Hok & Hips & Hconc) Hw Hph Hs Hcs] Hi. unfold end_get.
  pose proof (proj1 (Forall_lookup _ _) Hcs i _ Hi) as Hsn. cbn in Hsn.
  assert (0 ≤ counter (pool s) < 2 ^ 32) as Hc by (destruct Hok as (_ & _ & _ & _ & _ & Hc & _); exact Hc).
  destruct (get_pick_ok (ips p) (counter (pool s)) sn Hsn Hc) as (ip & Hg & Hin). rewrite Hips, Hg.
  constructor; try done; cbn [pool calls].
  - split; [apply pool_ok_counter; [done|]; apply Z.mod_pos_bound; lia|done].
  - apply Forall_insert; [done|]. by left.
Qed.

Lemma monitor_inv p s s' : inv p s → 0 ≤ concurrency p → phase s = Select → s' ∈ monitor s → inv p s'.
Proof.
  intros [Hp Hw Hph Hs Hcs] Hnn Hsel Hin. pose proof Hp as (_ & Hips & _).
  assert (0 < curValidIPs (pool s)) as Hpos by (apply Hs; unfold monitored; by rewrite Hsel).
  unfold monitor in Hin. apply elem_of_app in Hin as [Hin|Hin].
  - destruct (ticked s); [|by apply not_elem_of_nil in Hin]. apply list_elem_of_singleton in Hin as ->.
    constructor; try done. split; [apply channel_start|]. split; [|split].
    + unfold holders. cbn [workers start_scan]. rewrite tally_replicate. cbn [holds]. lia.
    + intros _. cbn [workers start_scan]. by rewrite length_replicate, Hips.
    + intros Hns. destruct Hns. by right.
  - destruct (cancelled s); [|by apply not_elem_of_nil in Hin]. apply list_elem_of_singleton in Hin as ->.
    constructor; try done. destruct Hw as (Hc & Hh & _ & Hl'). split; [done|]. split; [done|]. cbn [workers].
    split; [by intros [?|?]|]. intros _. apply Hl'. unfold scanning. rewrite Hsel. by intros [?|?].
Qed.

Lemma pool_step_inv p s s' : 0 ≤ concurrency p → inv p s → step s s' → inv p s'.
Proof.
  intros Hnn Hi [Hst|Hst]; [by eapply scan_step_inv|].
  destruct Hst as [s|s|s s' Hsel Hin|s|s i late sn Hc].
  - by apply inv_flags.
  - unfold Stop. destruct (monitored s); [by apply inv_flags|done].
  - by eapply monitor_inv.
  - by apply begin_get_inv.
  - by apply end_get_inv.
Qed.

Lemma begin_inv p : pool_ok p → 0 ≤ concurrency p → inv p (begin p).
Proof.
  intros Hok Hnn. constructor; try done. split; [apply channel_start|]. split; [|split].
  - unfold holders. cbn [workers begin start_scan]. rewrite tally_replicate. cbn [holds]. lia.
  - intros _. cbn [workers begin start_scan]. by rewrite length_replicate.
  - intros Hns. destruct Hns. by left.
Qed.

Lemma pool_reachable_inv p s : pool_ok p → 0 ≤ concurrency p → rtc step (begin p) s → inv p s.
Proof.
  intros Hok Hnn Hr. pose proof (begin_inv p Hok Hnn) as Hi. induction Hr as [|s s1 s2 Hst _ IH]; [done|].
  apply IH. by eapply pool_step_inv.
Qed.

(** ** The work of a scan *)

Definition effort (w : worker) : Z :=
  match w with Queued => 4 | Holding => 3 | Tested _ => 2 | Released _ => 1 | Reported => 0 end.
(** The steps that are left of a scan that runs. *)
Definition work (s : State) : Z :=
  match phase s with Initial | Rescan => tally effort (workers s) + 1 | _ => 0 end.

Lemma effort_nonneg w : 0 ≤ effort w.
Proof. destruct w; cbn; lia. Qed.

(** Every step of a scan takes one off, and the others leave it alone. *)
Lemma scan_step_work p s s' : inv p s → scan_step s s' → scanning s → work s' = work s - 1.
Proof.
  intros Hi Hst Hsc. assert (∀ t, phase t = phase s → work t = tally effort (workers t) + 1) as Hw.
  { intros t Ht. unfold work. rewrite Ht. by destruct Hsc as [-> | ->]. }
  destruct Hst as [s i Hl _|s i o Hl|s i o Hl|s i o Hl|s _ Hall].
  1-4: (rewrite !Hw by done; cbn [workers with_worker]; rewrite (tally_insert _ _ _ _ _ Hl); cbn [effort]; lia).
  rewrite (Hw s) by done. assert (tally effort (workers s) = 0) as ->.
  { clear -Hall. unfold tally, sumZ. induction Hall as [|w ws <- _ IH]; [done|]. exact IH. }
  destruct (finish_update p s Hi Hsc Hall) as (q & E & _). unfold finish_scan. rewrite E. unfold work. cbn [phase].
  destruct Hsc as [-> | ->]; [case_decide|]; done.
Qed.

Lemma holders_free (c : Z) ws :
  1 ≤ c → (∀ i w, ws !! i = Some w → holds w = 0) → tally holds ws < c.
Proof.
  intros Hc Hw. assert (tally holds ws = 0) as ->; [|lia]. unfold tally, sumZ.
  induction ws as [|w ws IH]; [done|]. change (holds w + foldr Z.add 0 (holds <$> ws) = 0).
  rewrite IH by (intros i v Hv; exact (Hw (S i) v Hv)). by rewrite (Hw 0%nat w).
Qed.

(** A scan never gets stuck: when nobody has a place, the semaphore has one. *)
Lemma scan_can p s : inv p s → 1 ≤ concurrency p → scanning s → ∃ s', scan_step s s'.
Proof.
  intros [(_ & _ & Hconc) _ _ _ _] Hc Hsc.
  destruct (decide (Exists (λ w, w ≠ Queued ∧ w ≠ Reported) (workers s))) as [He|Hne].
  - apply Exists_exists in He as (w & Hin & Hq & Hr). apply list_elem_of_lookup_1 in Hin as [i Hi].
    destruct w as [| |o|o|]; [done| | | |done]; eexists.
    + by apply (scan_test s i []).
    + by apply (scan_release s i o).
    + by apply (scan_report s i o).
  - assert (∀ i w, workers s !! i = Some w → w = Queued ∨ w = Reported) as Hw.
    { intros i w Hi. destruct (decide (w = Queued)); [by left|]. destruct (decide (w = Reported)); [by right|].
      destruct Hne. apply Exists_exists. exists w. split; [by eapply list_elem_of_lookup_2|done]. }
    destruct (decide (Forall (eq Reported) (workers s))) as [Hall|Hn]; [by exists (finish_scan s); constructor|].
    apply not_Forall_Exists, Exists_exists in Hn as (w & Hin & Hw'); [|apply _].
    apply list_elem_of_lookup_1 in Hin as [i Hi]. destruct (Hw i w Hi) as [-> | ->]; [|by destruct Hw'].
    eexists. apply (scan_acquire s i Hi). rewrite Hconc. apply holders_free; [done|].
    intros j v Hj. by destruct (Hw j v Hj) as [-> | ->].
Qed.

Lemma scan_ends p s :
  inv p s → 1 ≤ concurrency p → scanning s → ∃ s', nsteps scan_step (Z.to_nat (work s)) s s' ∧ ¬ scanning s'.
Proof.
  remember (Z.to_nat (work s)) as n eqn:En. revert s En. induction n as [|n IH]; intros s En Hi Hc Hsc.
  - exfalso. assert (0 < work s); [|lia]. pose proof (tally_bounds effort (workers s) effort_nonneg).
    unfold work. destruct Hsc as [-> | ->]; lia.
  - destruct (scan_can p s Hi Hc Hsc) as [s1 Hst]. pose proof (scan_step_work p s s1 Hi Hst Hsc) as Hw.
    assert (inv p s1) as Hi1 by (eapply scan_step_inv; [lia|done|done]).
    destruct (decide (phase s1 = Initial ∨ phase s1 = Rescan)) as [Hsc1|Hn].
    + destruct (IH s1) as (s' & Hs & He); [lia|done..|]. exists s'. split; [by eapply nsteps_l|done].
    + exists s1. assert (n = 0%nat) as ->; [|split; [by eapply nsteps_once|done]].
      unfold work in Hw at 1. destruct (phase s1); try lia; destruct Hn; auto.
Qed.

(** The other goroutines neither delay nor disturb a scan. *)
Lemma other_step_work s s' : other_step s s' → scanning s → phase s' ≠ Crashed → work s' = work s ∧ scanning s'.
Proof.
  intros Hst Hsc Hn. destruct Hst as [s|s|s s' Hsel _|s|s i late sn _].
  - done.
  - unfold Stop. by destruct (monitored s).
  - destruct Hsc; congruence.
  - unfold begin_get in *. by destruct (get_read (pool s)) as [o|].
  - unfold end_get in *. by destruct (get_pick _ _ sn) as [ip|].
Qed.

Lemma work_bound p s : inv p s → work s ≤ 4 * len (ips p) + 1.
Proof.
  intros [_ (_ & _ & Hl & _) _ _ _]. pose proof (len_nonneg (ips p)).
  assert (∀ ws, tally effort ws ≤ 4 * Z.of_nat (length ws)) as Ht.
  { unfold tally, sumZ. induction ws as [|w ws IH]; [done|]. cbn [length].
    change (effort w + foldr Z.add 0 (effort <$> ws) ≤ 4 * Z.of_nat (S (length ws))).
    assert (effort w ≤ 4) by (destruct w; cbn; lia). lia. }
  specialize (Ht (workers s)). unfold work, scanning, len in *.
  destruct (phase s); try lia; rewrite Hl in Ht by auto; lia.
Qed.

(** ** Stopping *)

(** A monitor that has returned scans no more, and one that was stopped returns
    unless a tick is pending. *)
Theorem monitor_stops s s' :
  (phase s = Returned → step s s' → workers s = [] → phase s' = Returned ∨ phase s' = Crashed) ∧
  (cancelled s = true → ticked s = false → monitor s =
     [mkState (pool s) (workers s) (results s) Returned (ticked s) (cancelled s) (calls s)]) ∧
  (cancelled s = true → monitor s ≠ []).
Proof.
  split; [|split].
  - intros Hr Hst Hw. destruct Hst as [Hst|Hst].
    + destruct Hst as [s i Hl _|s i o Hl|s i o Hl|s i o Hl|s [?|?] _]; try congruence; by rewrite Hw in Hl.
    + destruct Hst as [s|s|s s' Hsel _|s|s i late sn _]; [by left| |congruence| |].
      * unfold Stop. destruct (monitored s); by left.
      * unfold begin_get. destruct (get_read _); [by left|by right].
      * unfold end_get. destruct (get_pick _ _ _); [by left|by right].
  - intros Hc Ht. unfold monitor. by rewrite Hc, Ht.
  - intros Hc. unfold monitor. rewrite Hc. by destruct (ticked s).
Qed.

(** ** The pool at work *)


(** A pool of one address: scanned once, asked, and stopped. *)
Definition lone_pool : IPPool := mkIPPool ["10.0.0.1"] 443 1 1 Second Second 1 [0] [0] 0 0 0.
Definition lone_probed : State :=
  mkState lone_pool [Reported] [(0, [Some 20000000])] Initial false false [].
Definition lone_served : State := begin_get (finish_scan lone_probed).
Definition lone_asked : State :=
  Stop (end_get 0 true (mkSnapshot [0] [499] 499) lone_served).

Lemma lone_run : rtc step (begin lone_pool) lone_asked.
Proof.
  eapply rtc_l; [left; by apply (scan_acquire _ 0)|].
  eapply rtc_l; [left; by apply (scan_test _ 0 [Some 20000000])|].
  eapply rtc_l; [left; by apply (scan_release _ 0 [Some 20000000])|].
  eapply rtc_l; [left; by apply (scan_report _ 0 [Some 20000000])|].
  eapply rtc_l; [left; apply scan_finish; [by left|by repeat constructor]|].
  eapply rtc_l; [right; apply step_begin_get|].
  eapply rtc_l; [right; apply (step_end_get _ 0 true (mkSnapshot [0] [499] 499)); by vm_compute|].
  eapply rtc_l; [right; apply step_stop|]. apply rtc_refl.
Qed.

