(* ===== verification/Session.v ===== *)
(** What the handlers of connections share: a state that contains a World, the
    calls on it lifted to that state, dialling, TLS alerts, and the service
    that computes fake TTLs. *)

From S2P Require Import Prelude GoStd GoNet Conn TransformIP Policy Cache Desync ClientHello Fragment Routing.

(** ** A state with a World in it *)

Class HasWorld (G : Type) := { wget : G → World; wset : World → G → G }.
Class HasWorldLaws (G : Type) `{HasWorld G} := {
  wget_wset w g : wget (wset w g) = w;
  wset_wset w w' g : wset w (wset w' g) = wset w g;
  wset_wget g : wset (wget g) g = g
}.

Definition onW {G} `{HasWorld G} {A} (m : St World A) : St G A := λ g,
  match m (wget g) with Some (a, w) => Some (a, wset w g) | None => None end.

#[export] Instance World_world : HasWorld World := {| wget := id; wset w _ := w |}.
#[export] Instance World_world_laws : HasWorldLaws World.
Proof. by split. Qed.

(** ** Dialling

    A dialled connection gets a number no other has: negative, and smaller
    with every call made so far; accepted connections have numbers from 0. *)

Definition dial (target : string) (timeout : Z) : St World (result conn) := λ w,
  match call (EDial target timeout) w with
  | Some (Ok _, w') => Some (Ok (mkConn (- len (trace w')) true), w')
  | Some (Fail e, w') => Some (Fail e, w')
  | None => None
  end.

(** ** TLS alerts *)

Definition tlsAlertLevelFatal : Z := 2.
Definition tlsAlertAccessDenied : Z := 70.
Definition tlsAlertProtocolVersion : Z := 49.

Definition tls_alert (v0 v1 : byte) (desc level : Z) : bytes :=
  [Byte.x15; v0; v1; Byte.x00; Byte.x02; Zb level; Zb desc].

Definition sendTLSAlert (c : conn) (prtVer : bytes) (desc level : Z) : St World unit :=
  let* v0 := lift (idx prtVer 0) in
  let* v1 := lift (idx prtVer 1) in
  ignoring (EWrite c (tls_alert v0 v1 desc level)).

(** ** Fake TTLs

    [getFakeTTL], with the cache and the probes it makes on connections of its
    own.  It leaves the World of the handlers as it is. *)

Class TTLService (G : Type) := {
  fakeTTL : Policy → string → St G (result Z)
}.
Class TTLServiceLaws (G : Type) `{HasWorld G} `{TTLService G} := {
  fakeTTL_frame p addr g : ∃ r g', fakeTTL p addr g = Some (r, g') ∧ wget g' = wget g
}.

Section cached.
Context {C : Type} `{Cache string Z C}.
Context (probe : string → Z → Z → option error).
Context (calcTTL : option (Z → result Z)) (ttlCacheTTL : Z).

(** The implementation: [Desync.getFakeTTL] over a cache kept beside the World. *)
#[export] Instance cached_world : HasWorld (World * option C) :=
  {| wget := fst; wset w g := (w, snd g) |}.
#[export] Instance cached_world_laws : HasWorldLaws (World * option C).
Proof. split; [done|done|by intros []]. Qed.

Definition cached_ttl : TTLService (World * option C) :=
  {| fakeTTL p addr := λ g,
       let '(r, c) := getFakeTTL probe calcTTL ttlCacheTTL (snd g) p addr in
       Some (r, (fst g, c)) |}.
#[export] Instance cached_ttl_laws : TTLServiceLaws (World * option C) (H0:=cached_ttl).
Proof.
  split. intros p addr [w c]. simpl.
  destruct (getFakeTTL _ _ _ c p addr) as [r c']. by eexists _, _.
Qed.
End cached.

(** ** Lifting what is known of a World *)

Section lifted.
Context {G : Type} `{L : HasWorldLaws G}.

Lemma onW_eq {A} (m : St World A) g a w :
  m (wget g) = Some (a, w) → onW m g = Some (a, wset w g).
Proof. unfold onW. by intros ->. Qed.

Lemma onW_inv {A} (m : St World A) g a g' :
  onW m g = Some (a, g') → ∃ w, m (wget g) = Some (a, w) ∧ g' = wset w g ∧ wget g' = w.
Proof.
  unfold onW. destruct (m (wget g)) as [[x w]|]; [|done]. intros H'. injection H' as -> <-.
  exists w. by rewrite wget_wset.
Qed.

Lemma onW_runs {A} (m : St World (result A)) a l g :
  Runs m a l →
  ∃ r g', onW m g = Some (r, g') ∧
    ∀ a', r = Ok a' → a' = a ∧ sent (wget g') = sent (wget g) ++ l.
Proof.
  intros Hr. destruct (runs_total (m:=m) (wget g)) as (r & w & E).
  exists r, (wset w g). split; [by apply onW_eq|]. rewrite wget_wset.
  intros a' ->. by apply (runs_ok (m:=m)).
Qed.
End lifted.

(** ** Resolving

    Name resolution and the address pools always return, and leave the World of
    the handlers as it is; so does [genPolicy]. *)

Class ResolverLaws (G : Type) `{HasWorld G} `{Resolver G} := {
  getFromIPPool_frame tag g : ∃ r g', getFromIPPool tag g = Some (r, g') ∧ wget g' = wget g;
  dnsResolve_frame d m g : ∃ r g', dnsResolve d m g = Some (r, g') ∧ wget g' = wget g
}.
#[export] Instance fixed_resolver_laws (G : Type) `{HasWorld G} :
  ResolverLaws G (H0:=fixed_resolver G).
Proof. by split; intros; eexists _, _. Qed.

Section quiet.
Context {G : Type} `{HasWorld G}.

(** Always returns, and the World stays the same. *)
Definition still {A} (m : St G A) : Prop := ∀ g, ∃ a g', m g = Some (a, g') ∧ wget g' = wget g.

Lemma ret_still {A} (a : A) : still (ret a).
Proof. intros g. by eexists _, _. Qed.
Lemma bind_still {A B} (m : St G A) (f : A → St G B) :
  still m → (∀ a, still (f a)) → still (bind m f).
Proof.
  intros Hm Hf g. unfold bind. destruct (Hm g) as (a & g1 & -> & E1).
  destruct (Hf a g1) as (b & g2 & -> & E2). exists b, g2. split; [done|]. congruence.
Qed.
Lemma bindE_still {A B} (m : St G (result A)) (f : A → St G (result B)) :
  still m → (∀ a, still (f a)) → still (bindE m f).
Proof. intros Hm Hf. apply bind_still; [done|]. intros [a|e]; [apply Hf|apply ret_still]. Qed.

Context `{R : !Resolver G} `{RL : !ResolverLaws G}.

Lemma ipRedirect_still rules ip : still (ipRedirect rules ip).
Proof.
  unfold ipRedirect. destruct (getIPPolicy rules ip) as [p|]; [|apply ret_still].
  case_decide; [apply ret_still|].
  apply bindE_still; [|intros; apply ret_still].
  destruct (HasPrefix _ _); [intros g; apply getFromIPPool_frame|].
  case_decide; [|apply ret_still]. destruct (transformIP_total ip (MapTo p)) as [r ->].
  intros g. by eexists _, _.
Qed.

Lemma gen_host_still rules host p b : still (gen_host rules host p b).
Proof.
  unfold gen_host. apply bind_still.
  - case_decide; [|apply ret_still]. case_decide; [|apply ret_still].
    destruct b; [apply ret_still|]. apply bind_still; [intros g; apply dnsResolve_frame|].
    intros [[? ?]|?]; apply ret_still.
  - intros [?|[[sel dst] nr]]; [apply ret_still|]. case_decide; [|apply ret_still].
    case_decide; [apply ret_still|]. destruct (HasPrefix sel ipPoolTagPrefix).
    + apply bind_still; [intros g; apply getFromIPPool_frame|]. intros [?|?]; apply ret_still.
    + destruct (HasPrefix sel resolvePrefix); [|apply ret_still].
      apply bind_still; [intros g; apply dnsResolve_frame|]. intros [[? ?]|?]; apply ret_still.
Qed.

Lemma genPolicy_still rules host isIP b : still (genPolicy rules host isIP b).
Proof.
  unfold genPolicy. destruct (isIP || _).
  - unfold gen_for_ip. apply bind_still; [apply ipRedirect_still|].
    intros [[? ?]|?]; [case_decide|]; apply ret_still.
  - unfold gen_for_domain. case_decide; [apply ret_still|].
    apply bind_still; [apply gen_host_still|]. intros [?|[dst nr]]; [apply ret_still|].
    destruct nr; [apply ret_still|]. apply bind_still; [apply ipRedirect_still|].
    intros [[? [?|]]|?]; [case_decide|..]; apply ret_still.
Qed.
End quiet.

(** ** Observations *)

Lemma inband_app c l1 l2 :
  existsb (is_oob c) l2 = false → inband c (l1 ++ l2) = inband c l1 ++ inband c l2.
Proof.
  intros H. induction l1 as [|e l1 IH]; [done|].
  destruct e; simpl; rewrite ?IH, ?app_assoc; try done.
  by rewrite existsb_app, H, orb_false_r.
Qed.
