(* ===== verification/Dns.v ===== *)
(** [internal/dns.go]: name resolution over the configured upstream, with its
    cache.  Messages and their transport belong to the package miekg/dns and to
    [net/http]: an exchange takes a question to a response code and the answer
    records. *)

From Stdlib Require Import Strings.Ascii.
From S2P Require Import Prelude GoStd GoNet Policy Cache.

Inductive qtype := TypeA | TypeAAAA | TypeHTTPS | TypeSVCB | TypeOther (n : Z).
#[export] Instance qtype_eq_dec : EqDecision qtype.
Proof. solve_decision. Defined.

(** The data of a record; [None] when its address is missing. *)
Inductive rr := RR_A (ip : option IP) | RR_AAAA (ip : option IP) | RR_Other.
Record response := mkResponse { Rcode : Z; Answer : list rr }.
Definition RcodeSuccess : Z := 0.

(** The question of a message, if one was set. *)
Definition question : Type := option (string * qtype).

Fixpoint pickFirstARecord (answer : list rr) : option IP :=
  match answer with
  | [] => None
  | RR_A ip :: _ => ip
  | _ :: answer => pickFirstARecord answer
  end.
Fixpoint pickFirstAAAARecord (answer : list rr) : option IP :=
  match answer with
  | [] => None
  | RR_AAAA ip :: _ => ip
  | _ :: answer => pickFirstAAAARecord answer
  end.

(** [ip.String()] of a possibly nil address. *)
Definition ip_string (ip : option IP) : string :=
  match ip with Some ip => IPString ip | None => "<nil>" end.

Definition dnsCacheKey (domain : string) (m : DNSMode) : string :=
  DNSMode_String m +:+ String "000" domain.

Section dns.
Context {X C : Type} `{Cache string string C}.
(** [dnsExchange], and [dns.RcodeToString]. *)
Context (dnsExchange : question → St X (result response)) (RcodeToString : Z → string).
Context (dnsCacheTTL : Z).

(** The state: whatever the transport has, and [dnsCache]. *)
Definition DnsState : Type := X * option C.

Definition exchange (q : question) : St DnsState (result response) := λ '(x, c),
  match dnsExchange q x with
  | Some (r, x') => Some (r, (x', c))
  | None => None
  end.

Definition bad_rcode (resp : response) : error :=
  ErrNew ("bad rcode: " +:+ RcodeToString (Rcode resp)).

(** The second question of the modes that prefer a family; the error of the
    first exchange is nil by then. *)
Definition second_query (domain : string) (t : qtype) (pick : list rr → option IP)
    : St DnsState (result (option IP)) :=
  let* r := exchange (Some (domain +:+ ".", t)) in
  match r with
  | Fail err2 => throw (ErrOp "dns exchange" (ErrJoin1 err2))
  | Ok resp =>
      if decide (Rcode resp ≠ RcodeSuccess) then throw (bad_rcode resp) else
      match pick (Answer resp) with
      | None => throw (ErrNew "record not found")
      | Some ip => ret (Ok (Some ip))
      end
  end.

Definition doDNSResolve (domain : string) (dnsMode : DNSMode) : St DnsState (result string) :=
  let q : question :=
    match dnsMode with
    | DNSModePreferIPv4 | DNSModeIPv4Only => Some (domain +:+ ".", TypeA)
    | DNSModePreferIPv6 | DNSModeIPv6Only => Some (domain +:+ ".", TypeAAAA)
    | DNSModeUnknown => None
    end in
  let*? resp := wrap_op "dns exchange" (exchange q) in
  if decide (Rcode resp ≠ RcodeSuccess) then throw (bad_rcode resp) else
  let*? ip :=
    match dnsMode with
    | DNSModeIPv4Only =>
        match pickFirstARecord (Answer resp) with
        | None => throw (ErrNew "A record not found")
        | Some ip => ret (Ok (Some ip))
        end
    | DNSModeIPv6Only =>
        match pickFirstAAAARecord (Answer resp) with
        | None => throw (ErrNew "AAAA record not found")
        | Some ip => ret (Ok (Some ip))
        end
    | DNSModePreferIPv4 =>
        match pickFirstARecord (Answer resp) with
        | None => second_query domain TypeAAAA pickFirstAAAARecord
        | Some ip => ret (Ok (Some ip))
        end
    | DNSModePreferIPv6 =>
        match pickFirstAAAARecord (Answer resp) with
        | None => second_query domain TypeA pickFirstARecord
        | Some ip => ret (Ok (Some ip))
        end
    | DNSModeUnknown => ret (Ok None)
    end in
  let ipStr := ip_string ip in
  let* _ := modify (λ '(x, c), (x, opt_add c (dnsCacheKey domain dnsMode) ipStr dnsCacheTTL)) in
  ret (Ok ipStr).

(** [dnsResolve]: the address and whether it was cached.  The singleflight
    group only shares the result of concurrent lookups of one key. *)
Definition dnsResolve_cached (domain : string) (dnsMode : DNSMode)
    : St DnsState (result (string * bool)) :=
  let key := dnsCacheKey domain dnsMode in
  let* st := get in
  match opt_get (snd st) key with
  | Some ip => ret (Ok (ip, true))
  | None =>
      let*? ip := doDNSResolve domain dnsMode in
      ret (Ok (ip, false))
  end.
End dns.

(** ** Keys *)

Fixpoint no_nul (s : string) : bool :=
  match s with EmptyString => true | String a s => negb (bool_decide (a = "000"%char)) && no_nul s end.

Lemma nul_split a b c d :
  no_nul a = true → no_nul b = true → a +:+ String "000" c = b +:+ String "000" d → a = b ∧ c = d.
Proof.
  revert b. induction a as [|x a IH]; intros [|y b]; cbn [String.append no_nul].
  - intros _ _ H. by injection H as ->.
  - intros _ H1 H. injection H as <- _. by rewrite bool_decide_true in H1.
  - intros H1 _ H. injection H as -> _. by rewrite bool_decide_true in H1.
  - intros [_ H1]%andb_true_iff [_ H2]%andb_true_iff H. injection H as -> H.
    destruct (IH b H1 H2 H) as [-> ->]. done.
Qed.

Lemma dnsCacheKey_inj d1 m1 d2 m2 : dnsCacheKey d1 m1 = dnsCacheKey d2 m2 → d1 = d2 ∧ m1 = m2.
Proof.
  intros H. apply nul_split in H as [Hm ->]; [|by destruct m1|by destruct m2].
  split; [done|]. by destruct m1, m2.
Qed.

(** ** The abstract resolver *)

Section spec.
Context (answers : question → result response) (RcodeToString : Z → string).

(** The address a mode selects from two answers. *)
Definition ask (domain : string) (t : qtype) (pick : list rr → option IP) : result (option IP) :=
  match answers (Some (domain +:+ ".", t)) with
  | Fail e => Fail (ErrOp "dns exchange" e)
  | Ok resp => if decide (Rcode resp ≠ RcodeSuccess) then Fail (bad_rcode RcodeToString resp)
               else Ok (pick (Answer resp))
  end.

(** First question, then the other family if it has no record and the mode
    allows it. *)
Definition resolved (domain : string) (m : DNSMode) : result string :=
  let prefer t1 pick1 t2 pick2 :=
    match ask domain t1 pick1 with
    | Fail e => Fail e
    | Ok (Some ip) => Ok (IPString ip)
    | Ok None =>
        match answers (Some (domain +:+ ".", t2)) with
        | Fail e => Fail (ErrOp "dns exchange" (ErrJoin1 e))
        | Ok resp =>
            if decide (Rcode resp ≠ RcodeSuccess) then Fail (bad_rcode RcodeToString resp) else
            match pick2 (Answer resp) with
            | Some ip => Ok (IPString ip)
            | None => Fail (ErrNew "record not found")
            end
        end
    end in
  let only t pick msg :=
    match ask domain t pick with
    | Fail e => Fail e
    | Ok (Some ip) => Ok (IPString ip)
    | Ok None => Fail (ErrNew msg)
    end in
  match m with
  | DNSModeIPv4Only => only TypeA pickFirstARecord "A record not found"
  | DNSModeIPv6Only => only TypeAAAA pickFirstAAAARecord "AAAA record not found"
  | DNSModePreferIPv4 => prefer TypeA pickFirstARecord TypeAAAA pickFirstAAAARecord
  | DNSModePreferIPv6 => prefer TypeAAAA pickFirstAAAARecord TypeA pickFirstARecord
  | DNSModeUnknown =>
      match answers None with
      | Fail e => Fail (ErrOp "dns exchange" e)
      | Ok resp => if decide (Rcode resp ≠ RcodeSuccess) then Fail (bad_rcode RcodeToString resp)
                   else Ok "<nil>"
      end
  end.

Definition dns_cache_ok {C} `{Cache string string C} (c : option C) : Prop :=
  ∀ d m ip, opt_get c (dnsCacheKey d m) = Some ip → resolved d m = Ok ip.
End spec.

Lemma doDNSResolve_spec {X C} `{CacheLaws string string C}
    (dnsExchange : question → St X (result response)) RcodeToString ttl answers :
  (∀ q x, ∃ x', dnsExchange q x = Some (answers q, x')) →
  ∀ d m x (c : option C), dns_cache_ok answers RcodeToString c →
  ∃ x' c', doDNSResolve dnsExchange RcodeToString ttl d m (x, c) = Some (resolved answers RcodeToString d m, (x', c')) ∧
    dns_cache_ok answers RcodeToString c'.
Proof.
  intros Hex d m x c Hc.
  assert (Hadd : ∀ ip, resolved answers RcodeToString d m = Ok ip →
    dns_cache_ok answers RcodeToString (opt_add c (dnsCacheKey d m) ip ttl)).
  { intros ip Hr d' m' ip'. destruct c as [c|]; simpl; [|done].
    intros [[Hk ->]|Hg]%cget_cadd; [by apply dnsCacheKey_inj in Hk as [-> ->]|]. by apply Hc. }
  revert Hadd. unfold doDNSResolve, wrap_op, exchange.
  rewrite bindE_unfold. unfold bind at 1.
  match goal with |- context [dnsExchange ?q x] => destruct (Hex q x) as [x1 Hx1]; rewrite Hx1 end.
  unfold resolved, ask.
  destruct m; cbn [ret];
    match goal with |- context [answers ?q] => destruct (answers q) as [resp|e] eqn:Ea end;
    try (intros _; by eexists _, _); simpl;
    (destruct (decide (Rcode resp ≠ RcodeSuccess)); [intros _; by eexists _, _|]).
  - (* unknown *) intros Hadd. eexists _, _. split; [done|]. by apply Hadd.
  - destruct (pickFirstARecord (Answer resp)) as [ip|].
    + intros Hadd. eexists _, _. split; [done|]. by apply Hadd.
    + unfold second_query, bindE, bind, exchange.
      match goal with |- context [dnsExchange ?q x1] => destruct (Hex q x1) as [x2 Hx2]; rewrite Hx2 end.
      match goal with |- context [match answers ?q with _ => _ end] => destruct (answers q) as [resp2|e2] end; [|intros _; by eexists _, _]. simpl.
      destruct (decide (Rcode resp2 ≠ RcodeSuccess)); [intros _; eexists _, _; by split|].
      destruct (pickFirstAAAARecord (Answer resp2)); [|intros _; by eexists _, _].
      intros Hadd. eexists _, _. split; [done|]. by apply Hadd.
  - destruct (pickFirstAAAARecord (Answer resp)) as [ip|].
    + intros Hadd. eexists _, _. split; [done|]. by apply Hadd.
    + unfold second_query, bindE, bind, exchange.
      match goal with |- context [dnsExchange ?q x1] => destruct (Hex q x1) as [x2 Hx2]; rewrite Hx2 end.
      match goal with |- context [match answers ?q with _ => _ end] => destruct (answers q) as [resp2|e2] end; [|intros _; by eexists _, _]. simpl.
      destruct (decide (Rcode resp2 ≠ RcodeSuccess)); [intros _; eexists _, _; by split|].
      destruct (pickFirstARecord (Answer resp2)); [|intros _; by eexists _, _].
      intros Hadd. eexists _, _. split; [done|]. by apply Hadd.
  - destruct (pickFirstARecord (Answer resp)) as [ip|]; [|intros _; by eexists _, _].
    intros Hadd. eexists _, _. split; [done|]. by apply Hadd.
  - destruct (pickFirstAAAARecord (Answer resp)) as [ip|]; [|intros _; by eexists _, _].
    intros Hadd. eexists _, _. split; [done|]. by apply Hadd.
Qed.

(** C12: with an upstream whose answers do not change, name resolution is what
    the modes specify (first record of the wanted family, then of the other one
    for the [prefer] modes) whatever the cache remembers or forgets, and a
    resolution never spoils the cache: keys of different names or modes never
    collide. *)
Theorem dnsResolve_cache_transparent {X C : Type} `{CacheLaws string string C}
    (dnsExchange : question → St X (result response)) (RcodeToString : Z → string) (ttl : Z)
    (answers : question → result response) (d : string) (m : DNSMode) (x : X) (c : option C) :
  (∀ q x, ∃ x', dnsExchange q x = Some (answers q, x')) →
  dns_cache_ok answers RcodeToString c →
  ∃ r x' c', dnsResolve_cached dnsExchange RcodeToString ttl d m (x, c) = Some (r, (x', c')) ∧
    dns_cache_ok answers RcodeToString c' ∧
    match resolved answers RcodeToString d m with
    | Ok ip => ∃ cached, r = Ok (ip, cached)
    | Fail e => r = Fail e
    end.
Proof.
  intros Hex Hc. unfold dnsResolve_cached, bind, get. cbn [snd].
  destruct (opt_get c (dnsCacheKey d m)) as [ip|] eqn:Hg.
  - eexists _, _, _. split; [done|]. split; [done|]. rewrite (Hc d m ip Hg). by eexists.
  - rewrite bindE_unfold.
    destruct (doDNSResolve_spec dnsExchange RcodeToString ttl answers Hex d m x c Hc) as (x' & c' & -> & Hc').
    destruct (resolved answers RcodeToString d m) as [ip|e]; eexists _, _, _; (split; [done|]);
      (split; [done|]); [by eexists|done].
Qed.

Definition two_records (q : question) : result response :=
  match q with
  | Some (n, TypeAAAA) => Ok (mkResponse 0 [RR_Other; RR_AAAA (Some (bytes_of 16 1))])
  | _ => Ok (mkResponse 0 [RR_Other])
  end.

Lemma dnsResolve_cache_transparent_witness :
  ∃ r x' c',
    dnsResolve_cached (C:=gmap string string) (λ q, ret (two_records q)) (λ _, "") 60 "a.b" DNSModePreferIPv4 (tt, Some ∅) =
    Some (r, (x', c')) ∧ ∃ cached, r = Ok ("::1", cached).
Proof.
  destruct (dnsResolve_cache_transparent (C:=gmap string string) (λ q, ret (two_records q)) (λ _, "") 60
    two_records "a.b" DNSModePreferIPv4 tt (Some ∅)) as (r & x' & c' & Hr & _ & Hs).
  - intros q x. by exists x.
  - intros d m ip. simpl. by rewrite lookup_empty.
  - exists r, x', c'. split; [exact Hr|]. vm_compute in Hs. exact Hs.
Defined.
