(* ===== verification/DnsExchange.v ===== *)
(** [internal/dns.go]: the two transports of [Dns], an exchange over port 53 and
    one over HTTPS, and the base64 that carries a question in a URL.  The format
    of DNS messages is the dns package's; [net/http] is a sequence of calls with
    the outcome the environment chooses. *)

From Stdlib Require Import Strings.Ascii.
From S2P Require Import Prelude GoStd GoNet Policy Cache Conn Dns.

(** ** [base64.RawURLEncoding] *)

Definition enc6 (z : Z) : ascii :=
  let chr (k : Z) := ascii_of_N (Z.to_N k) in
  if decide (z < 26) then chr (65 + z)
  else if decide (z < 52) then chr (97 + (z - 26))
  else if decide (z < 62) then chr (48 + (z - 52))
  else if decide (z = 62) then "-"%char else "_"%char.
Definition dec6 (a : ascii) : option Z :=
  let k := ascZ a in
  if in_range a 65 90 then Some (k - 65)
  else if in_range a 97 122 then Some (k - 97 + 26)
  else if in_range a 48 57 then Some (k - 48 + 52)
  else if decide (a = "-"%char) then Some 62
  else if decide (a = "_"%char) then Some 63
  else None.

(** Three bytes are four characters; one byte left over is two, two are three. *)
Fixpoint EncodeToString (b : bytes) : string :=
  match b with
  | x :: y :: z :: b =>
      let n := bZ x * 65536 + bZ y * 256 + bZ z in
      String (enc6 (n / 262144)) (String (enc6 (n / 4096 mod 64)) (String (enc6 (n / 64 mod 64)) (String (enc6 (n mod 64)) (EncodeToString b))))
  | [x; y] =>
      let n := bZ x * 65536 + bZ y * 256 in
      String (enc6 (n / 262144)) (String (enc6 (n / 4096 mod 64)) (String (enc6 (n / 64 mod 64)) ""))
  | [x] =>
      let n := bZ x * 65536 in
      String (enc6 (n / 262144)) (String (enc6 (n / 4096 mod 64)) "")
  | [] => ""
  end.

(** The decoder of the other side. *)
Fixpoint DecodeString (s : string) : option bytes :=
  match s with
  | String a (String b (String c (String d s))) =>
      w ← dec6 a; x ← dec6 b; y ← dec6 c; z ← dec6 d; l ← DecodeString s;
      let n := w * 262144 + x * 4096 + y * 64 + z in
      Some (Zb (n / 65536) :: Zb (n / 256 mod 256) :: Zb (n mod 256) :: l)
  | String a (String b (String c EmptyString)) =>
      w ← dec6 a; x ← dec6 b; y ← dec6 c;
      let n := w * 262144 + x * 4096 + y * 64 in
      Some [Zb (n / 65536); Zb (n / 256 mod 256)]
  | String a (String b EmptyString) =>
      w ← dec6 a; x ← dec6 b;
      Some [Zb ((w * 262144 + x * 4096) / 65536)]
  | EmptyString => Some []
  | _ => None
  end.

(** ** The transports *)

Section exchange.
(** The dns package: [Msg.Pack] and [Msg.Unpack]; what the server answers to a
    packet, and what [http.Client.Do] brings for a URL: a status, its text and
    the body with the error of reading it. *)
Record httpResponse := mkHTTPResponse { StatusCode : Z; Status : string; Body : bytes; bodyErr : option error }.
Context (Pack : question → result bytes) (Unpack : bytes → result response)
  (client_Exchange : string → question → result response) (client_Do : string → httpResponse).
Context (dnsAddr : string).

Definition StatusOK : Z := 200.

Definition do53Exchange (req : question) : St World (result response) :=
  let* r := call (ESys ("dns exchange " +:+ dnsAddr)) in
  ret match r with Fail e => Fail e | Ok _ => client_Exchange dnsAddr req end.

(** [call] decides whether building the request and [Do] succeed. *)
Definition dohExchange (req : question) : St World (result response) :=
  match Pack req with
  | Fail err => throw (ErrOp "pack dns request" err)
  | Ok wire =>
      let b64 := EncodeToString wire in
      let u := dnsAddr +:+ "?dns=" +:+ b64 in
      let* r := call (ESys "http.NewRequest") in
      match r with
      | Fail err => throw (ErrOp "build http request" err)
      | Ok _ =>
          let* r := call (EDial u 0) in
          match r with
          | Fail err => throw (ErrOp "http request" err)
          | Ok _ =>
              let httpResp := client_Do u in
              deferring (ignoring (ESys "Body.Close"))
                (if decide (StatusCode httpResp ≠ StatusOK) then throw (ErrNew ("bad http status: " +:+ Status httpResp))
                 else match bodyErr httpResp with
                      | Some err => throw (ErrOp "read http body" err)
                      | None =>
                          match Unpack (Body httpResp) with
                          | Fail err => throw (ErrOp "unpack dns response" err)
                          | Ok resp => ret (Ok resp)
                          end
                      end)
          end
      end
  end.
End exchange.

(** ** The encoding is read back *)

Lemma dec6_enc6 z : 0 ≤ z < 64 → dec6 (enc6 z) = Some z.
Proof.
  intros Hz. assert (∃ n, z = Z.of_nat n ∧ (n < 64)%nat) as (n & -> & Hn) by (exists (Z.to_nat z); lia).
  do 64 (destruct n as [|n]; [reflexivity|]). lia.
Qed.

(** The sextets of one, two and three bytes give the bytes back. *)
Lemma sextets1 x : 0 ≤ x < 256 →
  let n := x * 65536 in
  (0 ≤ n / 262144 < 64) ∧ (0 ≤ n / 4096 mod 64 < 64) ∧ (n / 262144 * 262144 + n / 4096 mod 64 * 4096) / 65536 = x.
Proof. intros Hx n. unfold n. repeat split; Z.div_mod_to_equations; lia. Qed.

Lemma sextets2 x y : 0 ≤ x < 256 → 0 ≤ y < 256 →
  let n := x * 65536 + y * 256 in
  let m := n / 262144 * 262144 + n / 4096 mod 64 * 4096 + n / 64 mod 64 * 64 in
  (0 ≤ n / 262144 < 64) ∧ (0 ≤ n / 4096 mod 64 < 64) ∧ (0 ≤ n / 64 mod 64 < 64) ∧ m / 65536 = x ∧ m / 256 mod 256 = y.
Proof.
  intros Hx Hy n m. assert (m = n) as -> by (unfold m, n; Z.div_mod_to_equations; lia).
  unfold n. repeat split; Z.div_mod_to_equations; lia.
Qed.

Lemma sextets3 x y z : 0 ≤ x < 256 → 0 ≤ y < 256 → 0 ≤ z < 256 →
  let n := x * 65536 + y * 256 + z in
  let m := n / 262144 * 262144 + n / 4096 mod 64 * 4096 + n / 64 mod 64 * 64 + n mod 64 in
  (0 ≤ n / 262144 < 64) ∧ (0 ≤ n / 4096 mod 64 < 64) ∧ (0 ≤ n / 64 mod 64 < 64) ∧ (0 ≤ n mod 64 < 64) ∧
  m / 65536 = x ∧ m / 256 mod 256 = y ∧ m mod 256 = z.
Proof.
  intros Hx Hy Hz n m. assert (m = n) as -> by (unfold m, n; Z.div_mod_to_equations; lia).
  unfold n. repeat split; Z.div_mod_to_equations; lia.
Qed.

Lemma decode_encode k b : (length b ≤ k)%nat → DecodeString (EncodeToString b) = Some b.
Proof.
  revert b. induction k as [|k IH]; intros [|x [|y [|z b]]] Hk; try done; cbn in Hk; try lia;
    pose proof (bZ_range x) as Hx; try pose proof (bZ_range y) as Hy; try pose proof (bZ_range z) as Hz;
    cbn [EncodeToString DecodeString].
  - destruct (sextets1 (bZ x) Hx) as (H1 & H2 & He). rewrite !dec6_enc6 by done. cbn [mbind option_bind].
    by rewrite He, Zb_bZ.
  - destruct (sextets2 (bZ x) (bZ y) Hx Hy) as (H1 & H2 & H3 & E1 & E2). rewrite !dec6_enc6 by done. cbn [mbind option_bind].
    by rewrite E1, E2, !Zb_bZ.
  - destruct (sextets3 (bZ x) (bZ y) (bZ z) Hx Hy Hz) as (H1 & H2 & H3 & H4 & E1 & E2 & E3).
    rewrite !dec6_enc6 by done. cbn [mbind option_bind]. rewrite IH by lia. cbn [mbind option_bind].
    by rewrite E1, E2, E3, !Zb_bZ.
Qed.

(** [RawURLEncoding] loses nothing. *)
Theorem DecodeString_EncodeToString (b : bytes) : DecodeString (EncodeToString b) = Some b.
Proof. by apply (decode_encode (length b)). Qed.

(** Its characters need no escape in a URL. *)
Fixpoint url_safe (s : string) : Prop :=
  match s with
  | EmptyString => True
  | String a s => (is_digit a = true ∨ in_range a 65 90 = true ∨ in_range a 97 122 = true ∨ a = "-"%char ∨ a = "_"%char) ∧ url_safe s
  end.

Lemma enc6_safe z : 0 ≤ z < 64 → url_safe (String (enc6 z) "").
Proof.
  intros Hz. assert (∃ n, z = Z.of_nat n ∧ (n < 64)%nat) as (n & -> & Hn) by (exists (Z.to_nat z); lia).
  do 64 (destruct n as [|n]; [vm_compute; auto 10|]). lia.
Qed.

Lemma url_safe_cons z s : 0 ≤ z < 64 → url_safe s → url_safe (String (enc6 z) s).
Proof. intros [H _]%enc6_safe Hs. done. Qed.

Lemma encoded_safe k b : (length b ≤ k)%nat → url_safe (EncodeToString b).
Proof.
  revert b. induction k as [|k IH]; intros [|x [|y [|z b]]] Hk; try done; cbn in Hk; try lia;
    pose proof (bZ_range x) as Hx; try pose proof (bZ_range y) as Hy; try pose proof (bZ_range z) as Hz;
    cbn [EncodeToString].
  - destruct (sextets1 (bZ x) Hx) as (H1 & H2 & _). by repeat apply url_safe_cons.
  - destruct (sextets2 (bZ x) (bZ y) Hx Hy) as (H1 & H2 & H3 & _). by repeat apply url_safe_cons.
  - destruct (sextets3 (bZ x) (bZ y) (bZ z) Hx Hy Hz) as (H1 & H2 & H3 & H4 & _).
    repeat (apply url_safe_cons; [done|]). apply IH. lia.
Qed.

(** ** An exchange over HTTPS *)

Definition doh_url (dnsAddr : string) (wire : bytes) : string := dnsAddr +:+ "?dns=" +:+ EncodeToString wire.

Section doh.
Context (Pack : question → result bytes) (Unpack : bytes → result response)
  (client_Do : string → httpResponse) (dnsAddr : string).

Lemma doh_paired req wire : Pack req = Ok wire →
  Paired (EDial (doh_url dnsAddr wire) 0) (ESys "Body.Close") (dohExchange Pack Unpack client_Do dnsAddr req).
Proof. intros Hp. unfold dohExchange. rewrite Hp. fold (doh_url dnsAddr wire). repeat paired_step. Qed.

(** What is made of a response. *)
Lemma doh_body u (w : World) :
  ∃ r, (if decide (StatusCode (client_Do u) ≠ StatusOK) then throw (ErrNew ("bad http status: " +:+ Status (client_Do u)))
        else match bodyErr (client_Do u) with
             | Some err => throw (ErrOp "read http body" err)
             | None => match Unpack (Body (client_Do u)) with
                       | Fail err => throw (ErrOp "unpack dns response" err)
                       | Ok resp => ret (Ok resp)
                       end
             end) w = Some (r, w) ∧
    (∀ resp, r = Ok resp → StatusCode (client_Do u) = StatusOK ∧ bodyErr (client_Do u) = None ∧ Unpack (Body (client_Do u)) = Ok resp).
Proof.
  case_decide as Hs; [by eexists|]. destruct (bodyErr (client_Do u)); [by eexists|].
  destruct (Unpack (Body (client_Do u))) as [resp|]; [|by eexists]. eexists. split; [reflexivity|].
  intros resp' [= ->]. done.
Qed.

Lemma doh_trace req wire (w : World) : Pack req = Ok wire →
  let u := doh_url dnsAddr wire in
  ∃ r w' l, dohExchange Pack Unpack client_Do dnsAddr req w = Some (r, w') ∧ trace w' = trace w ++ l ∧
    (l.*1 `prefix_of` [ESys "http.NewRequest"; EDial u 0; ESys "Body.Close"]) ∧
    (∀ resp, r = Ok resp → StatusCode (client_Do u) = StatusOK ∧ bodyErr (client_Do u) = None ∧
       Unpack (Body (client_Do u)) = Ok resp ∧ l.*1 = [ESys "http.NewRequest"; EDial u 0; ESys "Body.Close"]).
Proof.
  intros Hp u. unfold dohExchange. rewrite Hp. fold (doh_url dnsAddr wire). fold u.
  unfold bind at 1, call at 1. destruct (default None (head (verdicts w))) as [e|].
  { eexists _, _, [_]. split; [reflexivity|]. split; [reflexivity|]. split; [by eexists|done]. }
  unfold bind at 1, call at 1. cbn [verdicts trace]. destruct (default None (head (tail (verdicts w)))) as [e|].
  { eexists _, _, [_; _]. split; [reflexivity|]. cbn [trace]. rewrite <-app_assoc. split; [reflexivity|]. split; [by eexists|done]. }
  unfold deferring. match goal with |- ∃ r w' l, bind _ _ ?w1 = _ ∧ _ => destruct (doh_body u w1) as (r & E & Hok) end.
  unfold bind at 1. rewrite E. exists r. unfold bind, ignoring, call. cbn [verdicts trace].
  eexists _, [_; _; _]. split; [unfold bind; by destruct (default None (head (tail (tail (verdicts w)))))|].
  split; [by destruct (default None (head (tail (tail (verdicts w))))); cbn [trace]; rewrite <-!app_assoc|].
  split; [done|]. intros resp Hr. destruct (Hok resp Hr) as (H1 & H2 & H3). done.
Qed.
End doh.

(** Whatever happens, the question reaches the server whole (the parameter of
    the URL is safe and decodes to the packed message) or is not asked; a
    response that arrives is closed exactly once; and the answer is the unpacked
    body of a response with status 200. *)
Theorem dohExchange_asks (Pack : question → result bytes) (Unpack : bytes → result response)
    (client_Do : string → httpResponse) (dnsAddr : string) (req : question) (wire : bytes) (w : World) :
  Pack req = Ok wire →
  let u := doh_url dnsAddr wire in
  DecodeString (EncodeToString wire) = Some wire ∧ url_safe (EncodeToString wire) ∧
  ∃ r w' l, dohExchange Pack Unpack client_Do dnsAddr req w = Some (r, w') ∧ trace w' = trace w ++ l ∧
    acquired (EDial u 0) l = released (ESys "Body.Close") l ∧
    (l.*1 `prefix_of` [ESys "http.NewRequest"; EDial u 0; ESys "Body.Close"]) ∧
    (∀ resp, r = Ok resp → StatusCode (client_Do u) = StatusOK ∧ bodyErr (client_Do u) = None ∧
       Unpack (Body (client_Do u)) = Ok resp ∧ l.*1 = [ESys "http.NewRequest"; EDial u 0; ESys "Body.Close"]).
Proof.
  intros Hp u. split; [by apply (decode_encode (length wire))|]. split; [by apply (encoded_safe (length wire))|].
  destruct (doh_trace Pack Unpack client_Do dnsAddr req wire w Hp) as (r & w' & l & E & Ht & Hl & Hok).
  exists r, w', l. split; [done|]. split; [done|]. split; [|done].
  destruct (doh_paired Pack Unpack client_Do dnsAddr req wire Hp w r w' E) as (l' & Ht' & Hc).
  rewrite Ht in Ht'. by apply app_inv_head in Ht' as ->.
Qed.

Lemma dohExchange_asks_witness :
  let pack : question → result bytes := λ _, Ok [Byte.x00; Byte.x01] in
  let answer := mkResponse 0 [RR_A (Some [1; 2; 3; 4])] in
  let unpack : bytes → result response := λ _, Ok answer in
  let server := λ _ : string, mkHTTPResponse 200 "200 OK" [] None in
  ∃ w', dohExchange pack unpack server "https://dns.example/dns-query" None (mkWorld [] [] 0 [] [] [] ∅) = Some (Ok answer, w') ∧
    events w' = [ESys "http.NewRequest"; EDial "https://dns.example/dns-query?dns=AAE" 0; ESys "Body.Close"].
Proof.
  intros pack answer unpack server.
  destruct (dohExchange_asks pack unpack server "https://dns.example/dns-query" None [Byte.x00; Byte.x01]
    (mkWorld [] [] 0 [] [] [] ∅) eq_refl) as (_ & _ & r & w' & l & E & Ht & _ & _ & Hok).
  exists w'. assert (r = Ok answer) as ->.
  { vm_compute in E. injection E as <- _. reflexivity. }
  split; [exact E|]. destruct (Hok answer eq_refl) as (_ & _ & _ & Hl). unfold events. rewrite Ht. exact Hl.
Defined.
