(* ===== verification/DnsMobile.v ===== *)
(** [internal/dns_mobile.go]: DNS queries of the VPN answered from the
    configured rules, and the table that remembers which domain an answered
    address stands for. *)

From Stdlib Require Import Strings.Ascii.
From S2P Require Import Prelude GoStd GoNet Policy Conn Routing Dns.

Definition vpnDNSIPv4Addr : string := "172.19.0.2".
Definition mobileDNSAnswerTTL : Z := 60.

Definition VPNDNSIPv4 : string := vpnDNSIPv4Addr.
Definition IsVPNDNSAddress (host : string) (port : Z) : bool :=
  bool_decide (host = vpnDNSIPv4Addr) && (port =? 53).

(** ** The table *)

Record mobileDNSRecord := mkRecord { rDomain : string; rExpires : Z }.
Abbreviation MobileDNS := (gmap string mobileDNSRecord).

Definition clamp_ttl (ttl : Z) : Z :=
  let ttl := if decide (ttl = 0) then mobileDNSAnswerTTL else ttl in
  if decide (3600 < ttl) then 3600 else ttl.

Definition rememberMobileDNSMapping (now : Z) (ip domain : string) (ttl : Z) (m : MobileDNS)
    : MobileDNS :=
  match ParseIP ip with
  | None => m
  | Some parsed =>
      if decide (domain = "") then m
      else <[IPString parsed := mkRecord domain (now + clamp_ttl ttl * Second)]> m
  end.

(** The domain, if there is one that has not expired; an expired record is
    deleted. *)
Definition lookupMobileDNSMapping (now : Z) (ip : string) (m : MobileDNS)
    : option string * MobileDNS :=
  match ParseIP ip with
  | None => (None, m)
  | Some parsed =>
      match m !! IPString parsed with
      | None => (None, m)
      | Some record =>
          if decide (rExpires record < now) then (None, delete (IPString parsed) m)
          else (Some (rDomain record), m)
      end
  end.

(** What was remembered for an address is found again under every text of
    that address, exactly until its lifetime (60 seconds when unset, at most an
    hour) is over; and records of other addresses are untouched. *)
Theorem lookup_remember (t t' ttl : Z) (ip ip' domain : string) (p : IP) (m : MobileDNS) :
  ParseIP ip = Some p → domain ≠ "" → 0 ≤ ttl →
  (ParseIP ip' = Some p →
    fst (lookupMobileDNSMapping t' ip' (rememberMobileDNSMapping t ip domain ttl m)) =
      (if decide (t' ≤ t + clamp_ttl ttl * Second) then Some domain else None)) ∧
  0 < clamp_ttl ttl ≤ 3600 ∧
  (∀ p', ParseIP ip' = Some p' → IPString p' ≠ IPString p →
    fst (lookupMobileDNSMapping t' ip' (rememberMobileDNSMapping t ip domain ttl m)) =
    fst (lookupMobileDNSMapping t' ip' m)).
Proof.
  intros Hp Hd Ht. unfold rememberMobileDNSMapping, lookupMobileDNSMapping. rewrite Hp.
  rewrite decide_False by done. split; [|split].
  - intros ->. rewrite lookup_insert_eq. simpl. repeat case_decide; (done || lia).
  - unfold clamp_ttl, mobileDNSAnswerTTL. repeat case_decide; lia.
  - intros p' -> Hne. rewrite lookup_insert_ne by done.
    destruct (m !! IPString p'); [|done]. by case_decide.
Qed.

Lemma lookup_remember_witness :
  ParseIP "::ffff:10.0.0.1" = ParseIP "10.0.0.1" ∧
  fst (lookupMobileDNSMapping (61 * Second) "::ffff:10.0.0.1"
        (rememberMobileDNSMapping (2 * Second) "10.0.0.1" "a.example" 0 ∅)) = Some "a.example".
Proof.
  destruct (ParseIP "10.0.0.1") as [p|] eqn:E; [|vm_compute in E; discriminate].
  split; [rewrite <-E; by vm_compute|].
  destruct (lookup_remember (2 * Second) (61 * Second) 0 "10.0.0.1" "::ffff:10.0.0.1" "a.example" p ∅ E)
    as [H _]; [done|done|].
  rewrite H; [done|]. rewrite <-E. by vm_compute.
Defined.

(** ** The state a query runs in *)

Class HasMobile (G : Type) := {
  mget : G → MobileDNS;
  mset : MobileDNS → G → G;
  mnow : St G Z                      (* time.Now() *)
}.

Class HasMobileLaws (G : Type) `{HasMobile G} := {
  mget_mset m g : mget (mset m g) = m;
  mnow_same g t g' : mnow g = Some (t, g') → mget g' = mget g;
  mnow_total g : is_Some (mnow g)
}.

(** ** Answering *)

Record Question := mkQuestion { qName : string; qType : qtype; qClass : Z }.

Record AddressRR := mkAddressRR {
  rrName : string; rrType : qtype; rrClass : Z; rrTtl : Z; rrIP : IP
}.

(** A reply to a message, with the question of the message. *)
Record Reply := mkReply { replyRcode : Z; replyAnswer : list AddressRR }.
Definition RcodeServerFailure : Z := 2.
Definition RcodeRefused : Z := 5.

Definition appendAddressAnswer (resp : Reply) (q : Question) (ip : IP) : Reply :=
  (* [ip.To4()] of an A answer is not nil: see [resolveMobileDNSAnswerIP] *)
  let data := if decide (qType q = TypeA) then default [] (To4 ip) else ip in
  mkReply (replyRcode resp)
    (replyAnswer resp ++ [mkAddressRR (qName q) (qType q) (qClass q) mobileDNSAnswerTTL data]).

Section handler.
Context {G : Type} `{Resolver G} `{HasMobile G}.
Context (rules : Rules).

(** The address of the answer: [None] when the family has none. *)
Definition resolveMobileDNSAnswerIP (host : string) (t : qtype) (policy : option Policy)
    : St G (result (option IP)) :=
  let pick (ip : option IP) : option IP :=
    match ip with
    | None => None
    | Some ip =>
        if decide (t = TypeA) then To4 ip
        else match To4 ip with None => Some ip | Some _ => None end
    end in
  match ParseIP host with
  | Some ip => ret (Ok (pick (Some ip)))
  | None =>
      let dnsMode := if decide (t = TypeAAAA) then DNSModeIPv6Only else DNSModeIPv4Only in
      let skip := match policy with
                  | Some p => bool_decide (t = TypeA ∧ pDNSMode p = DNSModeIPv6Only ∨
                                           t = TypeAAAA ∧ pDNSMode p = DNSModeIPv4Only)
                  | None => false
                  end in
      if skip then ret (Ok None) else
      let*? resolved := dnsResolve host dnsMode in
      ret (Ok (pick (ParseIP (fst resolved))))
  end.

(** [handleConfiguredMobileDNS]: the reply, if the query is handled here. *)
Definition handleConfiguredMobileDNS (qs : list Question) : St G (option Reply) :=
  match qs with
  | [question] =>
      let domain := TrimDotSuffix (qName question) in
      if decide (domain = "") then ret None else
      let* g := genPolicy rules domain false true in
      if domainNotFound g then ret None else
      if failed g then ret (Some (mkReply RcodeServerFailure [])) else
      if blocked g || bool_decide (pMode <$> gPolicy g = Some ModeBlock)
      then ret (Some (mkReply RcodeRefused [])) else
      match qType question with
      | TypeA | TypeAAAA =>
          let* r := resolveMobileDNSAnswerIP (dstHost g) (qType question) (gPolicy g) in
          match r with
          | Fail _ => ret (Some (mkReply RcodeServerFailure []))
          | Ok None => ret (Some (mkReply RcodeSuccess []))
          | Ok (Some answerIP) =>
              let resp := appendAddressAnswer (mkReply RcodeSuccess []) question answerIP in
              let* now := mnow in
              let* _ := modify (λ g, mset (rememberMobileDNSMapping now (IPString answerIP) domain
                                             mobileDNSAnswerTTL (mget g)) g) in
              ret (Some resp)
          end
      | TypeHTTPS | TypeSVCB => ret (Some (mkReply RcodeSuccess []))
      | TypeOther _ => ret None
      end
  | _ => ret None
  end.

(** [HandleDNSQueryPacket] on the unpacked message: a reply of its own, or what
    the upstream says. *)
Definition HandleDNSQueryPacket (dnsExchange : St G (result response)) (qs : list Question)
    : St G (result (Reply + response)) :=
  let* handled := handleConfiguredMobileDNS qs in
  match handled with
  | Some resp => ret (Ok (inl resp))
  | None => let*? resp := dnsExchange in ret (Ok (inr resp))
  end.

(** ** Answers *)

Lemma resolve_family host t policy s ip s' :
  t = TypeA ∨ t = TypeAAAA →
  resolveMobileDNSAnswerIP host t policy s = Some (Ok (Some ip), s') →
  (t = TypeA → ∃ ip16, To4 ip16 = Some ip) ∧ (t = TypeAAAA → To4 ip = None).
Proof.
  intros Ht. unfold resolveMobileDNSAnswerIP.
  assert (∀ o, match o with
    | None => None
    | Some ip => if decide (t = TypeA) then To4 ip
        else match To4 ip with None => Some ip | Some _ => None end
    end = Some ip → (t = TypeA → ∃ ip16, To4 ip16 = Some ip) ∧ (t = TypeAAAA → To4 ip = None)) as Hpick.
  { intros [o|]; [|done]. destruct Ht as [->| ->]; simpl; intros Ho.
    - split; [by exists o|done].
    - split; [done|]. intros _. destruct (To4 o) eqn:E; [done|]. by injection Ho as ->. }
  destruct (ParseIP host) as [p|].
  - intros Hr. injection Hr as Hr _. by apply (Hpick (Some p)).
  - destruct (match policy with Some _ => _ | None => _ end); [done|].
    rewrite bindE_unfold. destruct (dnsResolve _ _ s) as [[[r|e] s1]|]; [|done|done].
    intros Hr. injection Hr as Hr _. by apply (Hpick (ParseIP (fst r))).
Qed.
End handler.

(** [To4] gives a short address. *)
Lemma To4_short ip16 ip : To4 ip16 = Some ip → length ip = 4%nat ∧ To4 ip = Some ip.
Proof.
  intros Hip. assert (length ip = 4%nat) as Hl.
  { unfold To4 in Hip. case_decide as Hc; [by injection Hip as <-|]. case_decide as Hc2; [|done].
    injection Hip as <-. rewrite length_drop. lia. }
  split; [done|]. unfold To4. by rewrite decide_True.
Qed.

Section address.
Context {G : Type} `{R : Resolver G} `{L : HasMobileLaws G}.

(** The end of the handler, for a question that asks for an address. *)
Lemma address_reply (host : string) (policy : option Policy) (q : Question) (s s' : G) (resp : Reply) (a : AddressRR) :
  qType q = TypeA ∨ qType q = TypeAAAA →
  bind (resolveMobileDNSAnswerIP host (qType q) policy)
    (λ r, match r with
          | Fail _ => ret (Some (mkReply RcodeServerFailure []))
          | Ok None => ret (Some (mkReply RcodeSuccess []))
          | Ok (Some answerIP) =>
            let resp := appendAddressAnswer (mkReply RcodeSuccess []) q answerIP in
            let* now := mnow in
            let* _ := modify (λ g, mset (rememberMobileDNSMapping now (IPString answerIP)
               (TrimDotSuffix (qName q)) mobileDNSAnswerTTL (mget g)) g) in
            ret (Some resp)
          end) s = Some (Some resp, s') → a ∈ replyAnswer resp →
  rrName a = qName q ∧ rrType a = qType q ∧ rrClass a = qClass q ∧ rrTtl a = mobileDNSAnswerTTL ∧
  (qType q = TypeA ∧ length (rrIP a) = 4%nat ∨ qType q = TypeAAAA ∧ To4 (rrIP a) = None) ∧
  ∃ now m, mget s' = rememberMobileDNSMapping now (IPString (rrIP a)) (TrimDotSuffix (qName q)) mobileDNSAnswerTTL m.
Proof.
  intros Ht (r & s2 & Hr & Hx)%bind_Some Ha. destruct r as [[ip|]|e].
  2: { injection Hx as <- _. by apply not_elem_of_nil in Ha. }
  2: { injection Hx as <- _. by apply not_elem_of_nil in Ha. }
  apply resolve_family in Hr as [H4 H6]; [|done].
  apply bind_Some in Hx as (now & s3 & _ & Hx). injection Hx as <- <-.
  cbn [appendAddressAnswer replyAnswer] in Ha. apply list_elem_of_singleton in Ha as ->.
  cbn [rrName rrType rrClass rrTtl rrIP]. do 4 (split; [done|]).
  rewrite mget_mset. destruct Ht as [Hq|Hq].
  - destruct (H4 Hq) as (ip16 & [Hl H4']%To4_short). rewrite decide_True, H4' by done. simpl.
    split; [by left|]. by eexists _, _.
  - rewrite decide_False by (by rewrite Hq). split; [right; auto|]. by eexists _, _.
Qed.
End address.

Lemma configured_answer {G : Type} `{R : Resolver G} `{L : HasMobileLaws G}
    (rules : Rules) (q : Question) (s s' : G) (resp : Reply) (a : AddressRR) :
  handleConfiguredMobileDNS rules [q] s = Some (Some resp, s') → a ∈ replyAnswer resp →
  rrName a = qName q ∧ rrType a = qType q ∧ rrClass a = qClass q ∧ rrTtl a = mobileDNSAnswerTTL ∧
  (qType q = TypeA ∧ length (rrIP a) = 4%nat ∨ qType q = TypeAAAA ∧ To4 (rrIP a) = None) ∧
  ∃ now m, mget s' = rememberMobileDNSMapping now (IPString (rrIP a)) (TrimDotSuffix (qName q))
                       mobileDNSAnswerTTL m.
Proof.
  unfold handleConfiguredMobileDNS. cbn zeta. case_decide as Hd; [done|].
  intros (g & s1 & _ & Hx)%bind_Some Ha. revert Hx.
  destruct (domainNotFound g); [done|].
  destruct (failed g). { intros Hx. injection Hx as <- _. by apply not_elem_of_nil in Ha. }
  destruct (_ || _). { intros Hx. injection Hx as <- _. by apply not_elem_of_nil in Ha. }
  destruct (qType q) eqn:Hq; [| | | |done].
  1, 2: intros Hx; pose proof (address_reply (dstHost g) (gPolicy g) q s1 s' resp a) as Hr; rewrite Hq in Hr;
    apply Hr; [auto|exact Hx|done].
  all: intros Hx; injection Hx as <- _; by apply not_elem_of_nil in Ha.
Qed.

(** C13: every address record of a reply repeats the name, type and class of
    the question with the fixed lifetime, holds an IPv4 address for an A question
    and an address that is no IPv4 address for an AAAA question, and its address
    was recorded for the domain asked for. *)
Theorem handleConfiguredMobileDNS_answer {G : Type} `{R : Resolver G} `{L : HasMobileLaws G}
    (rules : Rules) (q : Question) (s s' : G) (resp : Reply) (a : AddressRR) :
  handleConfiguredMobileDNS rules [q] s = Some (Some resp, s') → a ∈ replyAnswer resp →
  rrName a = qName q ∧ rrType a = qType q ∧ rrClass a = qClass q ∧ rrTtl a = mobileDNSAnswerTTL ∧
  (qType q = TypeA ∧ length (rrIP a) = 4%nat ∨ qType q = TypeAAAA ∧ To4 (rrIP a) = None) ∧
  ∃ now m, mget s' = rememberMobileDNSMapping now (IPString (rrIP a)) (TrimDotSuffix (qName q))
                       mobileDNSAnswerTTL m.
Proof. apply configured_answer. Qed.

(** ** Witness *)

(** The table and a clock that does not move. *)
Definition Table : Type := MobileDNS * Z.
#[export] Instance Table_mobile : HasMobile Table :=
  {| mget := fst; mset m g := (m, snd g); mnow g := Some (snd g, g) |}.
#[export] Instance Table_mobile_laws : HasMobileLaws Table.
Proof.
  split; [done| |by eexists].
  intros g t g' H. by injection H as _ <-.
Qed.

Definition a_question : Question := mkQuestion "b.example." TypeA 1.

Lemma handleConfiguredMobileDNS_answer_witness :
  let rules := mkRules Policy_zero (λ _, None) (λ _, Some "10.9.8.7") (λ _, None) (λ _, None) in
  ∃ resp a s', handleConfiguredMobileDNS (H:=fixed_resolver Table) rules [a_question] (∅, 5) = Some (Some resp, s') ∧
    a ∈ replyAnswer resp ∧ rrName a = "b.example." ∧ rrType a = TypeA.
Proof.
  intros rules.
  destruct (handleConfiguredMobileDNS (H:=fixed_resolver Table) rules [a_question] (∅, 5)) as [[[resp|] s']|] eqn:E;
    [|vm_compute in E; discriminate..].
  exists resp. destruct (replyAnswer resp) as [|a l] eqn:Ea.
  { exfalso. vm_compute in E. injection E as <- _. discriminate. }
  exists a, s'. split; [done|]. split; [by left|].
  destruct (handleConfiguredMobileDNS_answer (R:=fixed_resolver Table) rules a_question (∅, 5) s' resp a E) as (Hn & Ht & _).
  - rewrite Ea. by left.
  - by rewrite Hn, Ht.
Defined.
