(* ===== verification/DialPlan.v ===== *)
(** [internal/dial_plan.go]: a request turned into the address to dial and the
    policy to apply; and the round trip of host and port through the text of
    that address. *)

From Stdlib Require Import Strings.Ascii.
From S2P Require Import Prelude GoStd Patterns GoNet Policy Desync Routing Dns DnsMobile.

(** ** Host and port survive [JoinHostPort] and [SplitHostPort] *)

Lemma contains_false_head a s c : contains_byte (String a s) c = false → a ≠ c ∧ contains_byte s c = false.
Proof.
  simpl. intros [H ?]%orb_false_iff. split; [|done]. by apply bool_decide_eq_false in H.
Qed.

Lemma LastIndexByte_absent s c : contains_byte s c = false → LastIndexByte s c = -1.
Proof.
  induction s as [|a s IH]; [done|]. intros [Ha Hs]%contains_false_head. simpl.
  rewrite IH by done. by rewrite decide_False, decide_False by (done || lia).
Qed.

Lemma LastIndexByte_app a b c :
  contains_byte b c = false → LastIndexByte (a +:+ String c b) c = slen a.
Proof.
  intros Hb. induction a as [|x a IH]; simpl.
  - rewrite LastIndexByte_absent by done. by rewrite decide_False, decide_True by (done || lia).
  - rewrite IH. unfold slen. simpl. rewrite decide_True by lia. lia.
Qed.

Lemma IndexByte_app a b c : contains_byte a c = false → IndexByte (a +:+ String c b) c = slen a.
Proof.
  induction a as [|x a IH]; simpl.
  - intros _. by rewrite decide_True.
  - intros [Hx Ha]%(contains_false_head x a c). rewrite decide_False by done. rewrite IH by done.
    unfold slen. rewrite decide_False by lia. simpl. lia.
Qed.

Lemma stake_app a b : stake (String.length a) (a +:+ b) = a.
Proof. induction a as [|x a IH]; simpl; [by destruct b|]. by rewrite IH. Qed.
Lemma sdrop_app a b : sdrop (String.length a) (a +:+ b) = b.
Proof. by induction a. Qed.
Lemma slen_app a b : slen (a +:+ b) = slen a + slen b.
Proof. unfold slen. rewrite length_append. lia. Qed.

Definition plain_host (s : string) : Prop :=
  contains_byte s "[" = false ∧ contains_byte s "]" = false.
Definition plain_port (s : string) : Prop := plain_host s ∧ contains_byte s ":" = false.

Lemma SplitHostPort_bracketed host port :
  plain_host host → plain_port port → SplitHostPort ("[" +:+ host +:+ "]:" +:+ port) = Ok (host, port).
Proof.
  intros [H1 H2] [[P1 P2] P3].
  set (hp := "[" +:+ host +:+ "]:" +:+ port).
  assert (Hi : LastIndexByte hp ":" = slen host + 2).
  { unfold hp. replace ("[" +:+ host +:+ "]:" +:+ port) with (("[" +:+ host +:+ "]") +:+ String ":" port).
    - rewrite LastIndexByte_app, !slen_app by done. change (slen "[") with 1. change (slen "]") with 1. lia.
    - rewrite !append_assoc. done. }
  assert (He : IndexByte hp "]" = slen host + 1).
  { unfold hp. change ("[" +:+ host +:+ "]:" +:+ port) with ((("[" +:+ host) +:+ String "]" (String ":" port))).
    rewrite IndexByte_app, slen_app by done. change (slen "[") with 1. lia. }
  unfold SplitHostPort. rewrite Hi. unfold slen in *. rewrite decide_False by lia.
  change hp with (String "[" (host +:+ "]:" +:+ port)) at 2. cbv beta zeta iota.
  rewrite He. rewrite decide_False by lia.
  assert (Z.of_nat (String.length hp) = Z.of_nat (String.length host) + 3 + Z.of_nat (String.length port)) as Hl.
  { unfold hp. rewrite !length_append. simpl. lia. }
  rewrite decide_False by lia. rewrite decide_False by lia.
  assert (Hs1 : sdrop 1 hp = host +:+ "]:" +:+ port) by done.
  rewrite Hs1. rewrite contains_append, H1. cbn [orb].
  change (contains_byte ("]:" +:+ port) "[") with (contains_byte port "["). rewrite P1.
  assert (Hs2 : sdrop (Z.to_nat (Z.of_nat (String.length host) + 1 + 1)) hp = String ":" port).
  { replace (Z.to_nat (Z.of_nat (String.length host) + 1 + 1)) with (S (S (String.length host))) by lia.
    unfold hp. cbn [String.append].
    change (sdrop (S (String.length host)) (host +:+ String "]" (String ":" port)) = String ":" port).
    replace (host +:+ String "]" (String ":" port)) with
      ((host +:+ "]") +:+ String ":" port) by (by rewrite append_assoc).
    replace (S (String.length host)) with (String.length (host +:+ "]")) by (rewrite length_append; simpl; lia).
    apply sdrop_app. }
  rewrite Hs2. change (contains_byte (String ":" port) "]") with (contains_byte port "]"). rewrite P2.
  f_equal. f_equal.
  + replace (Z.to_nat (Z.of_nat (String.length host) + 1 - 1)) with (String.length host) by lia.
    apply stake_app.
  + replace (S (Z.to_nat (Z.of_nat (String.length host) + 2))) with
      (S (Z.to_nat (Z.of_nat (String.length host) + 1 + 1))) by lia.
    assert (∀ n s, sdrop (S n) s = sdrop 1 (sdrop n s)) as Hsd.
    { clear. induction n as [|n IH]; intros [|a s]; [done..|].
      change (sdrop (S n) s = sdrop 1 (sdrop n s)). apply IH. }
    by rewrite Hsd, Hs2.
Qed.

Lemma SplitHostPort_bare host port :
  plain_host host → plain_port port → contains_byte host ":" = false →
  SplitHostPort (host +:+ ":" +:+ port) = Ok (host, port).
Proof.
  intros [H1 H2] [[P1 P2] P3] Hc.
  change (host +:+ ":" +:+ port) with (host +:+ String ":" port).
  unfold SplitHostPort. rewrite LastIndexByte_app by done. unfold slen. rewrite decide_False by lia.
  rewrite Nat2Z.id. cbv zeta.
  assert (Hb : ∀ (x : result (string * string)), match host +:+ String ":" port with
                 | String "[" _ => x | _ => (if contains_byte (stake (String.length host) (host +:+ String ":" port)) ":"
       then Fail (addr_err (host +:+ String ":" port) "too many colons in address")
       else if contains_byte (host +:+ String ":" port) "["
       then Fail (addr_err (host +:+ String ":" port) "unexpected '[' in address")
       else if contains_byte (host +:+ String ":" port) "]"
       then Fail (addr_err (host +:+ String ":" port) "unexpected ']' in address")
       else Ok (stake (String.length host) (host +:+ String ":" port), sdrop (S (String.length host)) (host +:+ String ":" port))) end =
     Ok (host, port)).
  { intros x. rewrite stake_app, Hc, !contains_append, H1, H2.
    change (contains_byte (String ":" port) "[") with (contains_byte port "[").
    change (contains_byte (String ":" port) "]") with (contains_byte port "]"). rewrite P1, P2. cbn [orb].
    assert (sdrop (S (String.length host)) (host +:+ String ":" port) = port) as ->.
    { clear. induction host as [|a s IH]; [done|]. exact IH. }
    destruct host as [|a host]; [done|]. apply contains_false_head in H1 as [Ha _].
    cbn [String.append]. destruct a as [[] [] [] [] [] [] [] []]; done. }
  apply Hb.
Qed.

Lemma SplitHostPort_JoinHostPort host port :
  plain_host host → plain_port port → SplitHostPort (JoinHostPort host port) = Ok (host, port).
Proof.
  intros Hh Hp. unfold JoinHostPort. destruct (contains_byte host ":") eqn:Hc.
  - by apply SplitHostPort_bracketed.
  - by apply SplitHostPort_bare.
Qed.

(** ** Plans *)

Inductive RequestSource :=
| RequestSourceUnknown | RequestSourceMobile | RequestSourceSOCKS5 | RequestSourceHTTP.
#[export] Instance RequestSource_eq_dec : EqDecision RequestSource.
Proof. solve_decision. Defined.

Inductive DomainTargetMode := ResolveDomainTarget | PreserveDomainTarget.

Record RequestContext := mkRequest {
  reqSource : RequestSource;
  reqHost : string;
  reqPort : Z;
  reqDomainTargetMode : DomainTargetMode
}.

Record DialPlan := mkPlan {
  Source : RequestSource;
  OriginHost : string;
  OriginPort : Z;
  RecoveredDomain : string;
  MatchedDomain : bool;
  MatchedIP : bool;
  TargetHost : string;
  TargetPort : Z;
  planPolicy : Policy;
  Blocked : bool
}.

Definition TargetAddress (p : DialPlan) : string :=
  if decide (TargetPort p ≤ 0) then TargetHost p
  else JoinHostPort (TargetHost p) (itoa (TargetPort p)).
Definition OriginAddress (p : DialPlan) : string :=
  if decide (OriginPort p ≤ 0) then OriginHost p
  else JoinHostPort (OriginHost p) (itoa (OriginPort p)).

Section plan.
Context {G : Type} `{Resolver G} `{HasMobile G}.
Context (rules : Rules).

(** [lookupMobileDNSMapping] on the state. *)
Definition lookupMobile (ip : string) : St G (option string) :=
  let* now := mnow in
  let* g := get in
  let '(d, m) := lookupMobileDNSMapping now ip (mget g) in
  let* _ := modify (mset m) in
  ret d.

Definition PlanRequest (req : RequestContext) : St G (result DialPlan) :=
  if decide (reqHost req = "") then throw (ErrNew "request host is empty") else
  let isIP := bool_decide (is_Some (ParseIP (reqHost req))) in
  let* domain :=
    (if decide (reqSource req = RequestSourceMobile ∧ isIP = true) then lookupMobile (reqHost req)
     else ret None) in
  let policyHost := default (reqHost req) domain in
  let policyIsIP := match domain with Some _ => false | None => isIP end in
  let recoveredDomain := default "" domain in
  let* g := genPolicy rules policyHost policyIsIP false in
  if failed g then throw (ErrNew "failed to resolve dial plan") else
  let policy := default (defaultPolicy rules) (gPolicy g) in
  let targetPort := if decide (0 < Port policy) then Port policy else reqPort req in
  ret (Ok (mkPlan (reqSource req) (reqHost req) (reqPort req) recoveredDomain (negb policyIsIP) isIP
             (dstHost g) targetPort policy (blocked g))).
End plan.

(** ** The text of the target *)

Lemma itoa_digits n : 0 ≤ n → ∀ c, is_digit c = false → contains_byte (itoa n) c = false.
Proof.
  intros Hn c Hc. unfold itoa, pretty, pretty_Z. destruct n as [|p|p]; [|clear Hn|lia].
  { simpl. rewrite orb_false_r. apply bool_decide_eq_false. intros <-. done. }
  change (contains_byte (pretty_N_go (N.pos p) "") c = false).
  assert (Hs : contains_byte "" c = false) by done. revert Hs. generalize "" as s. revert p.
  enough (∀ x s, contains_byte s c = false → contains_byte (pretty_N_go x s) c = false) as Hx
    by (intros; by apply Hx).
  intros x. induction (N.lt_wf_0 x) as [x _ IH]. intros s Hs.
  destruct (decide (x = 0)%N) as [->|]; [by rewrite pretty_N_go_0|].
  rewrite pretty_N_go_step by lia. apply IH; [apply N.div_lt; lia|]. simpl. apply orb_false_iff.
  split; [|done]. apply bool_decide_eq_false. intros <-.
  destruct (pretty_N_char_digit (x mod 10)) as [Hd _]; [apply N.mod_lt; lia|congruence].
Qed.

(** The address of a plan with a port names exactly the plan's host and
    port: splitting it gives them back, for every host without brackets, IPv6
    literals included. *)
Theorem TargetAddress_splits (p : DialPlan) :
  0 < TargetPort p → plain_host (TargetHost p) →
  SplitHostPort (TargetAddress p) = Ok (TargetHost p, itoa (TargetPort p)).
Proof.
  intros Hp Hh. unfold TargetAddress. rewrite decide_False by lia.
  apply SplitHostPort_JoinHostPort; [done|]. unfold plain_port, plain_host.
  by rewrite !(itoa_digits (TargetPort p)) by (lia || done).
Qed.

Lemma TargetAddress_splits_witness :
  let p := mkPlan RequestSourceMobile "10.0.0.1" 443 "" false true "2001:db8::1" 8443 Policy_zero false in
  0 < TargetPort p ∧ plain_host (TargetHost p) ∧ TargetAddress p = "[2001:db8::1]:8443" ∧
  SplitHostPort "[2001:db8::1]:8443" = Ok ("2001:db8::1", "8443").
Proof.
  intros p. split; [done|]. split; [by vm_compute|]. split; [by vm_compute|].
  exact (TargetAddress_splits p eq_refl (conj eq_refl eq_refl)).
Defined.

(** ** Plans of recovered domains *)

(** An address in the table whose record has not expired stands for the domain. *)
Lemma PlanRequest_entry {G : Type} `{R : Resolver G} `{L : HasMobileLaws G}
    (rules : Rules) (ip domain : string) (prt t expires : Z) (p : IP) (mode : DomainTargetMode) (g g1 : G) :
  ParseIP ip = Some p → ParseIP domain = None → domain ≠ "" →
  mget g !! IPString p = Some (mkRecord domain expires) →
  mnow g = Some (t, g1) → t ≤ expires → (∀ s, mset (mget s) s = s) →
  PlanRequest rules (mkRequest RequestSourceMobile ip prt mode) g =
  match PlanRequest rules (mkRequest RequestSourceMobile domain prt mode) g1 with
  | Some (Ok plan, g') =>
      Some (Ok (mkPlan RequestSourceMobile ip prt domain true true (TargetHost plan) (TargetPort plan)
                  (planPolicy plan) (Blocked plan)), g')
  | r => r
  end.
Proof.
  intros Hip Hdom Hne Hm Hnow Hle Hset. unfold PlanRequest. cbn [reqHost reqSource reqPort].
  assert (ip ≠ "") as Hipne by (intros ->; vm_compute in Hip; discriminate).
  rewrite (decide_False (P := ip = "")), (decide_False (P := domain = "")) by done.
  rewrite (bool_decide_true (is_Some (ParseIP ip))) by (by rewrite Hip).
  rewrite (bool_decide_false (is_Some (ParseIP domain))) by (rewrite Hdom; by intros [? ?]).
  rewrite decide_True by done. rewrite decide_False by (by intros [_ ?]).
  unfold lookupMobile, bind at 1 2, get. rewrite Hnow. unfold bind at 1 2.
  unfold lookupMobileDNSMapping. rewrite (mnow_same _ _ _ Hnow), Hip, Hm. cbn [rExpires rDomain].
  rewrite decide_False by lia. rewrite <-(mnow_same _ _ _ Hnow).
  unfold bind at 1, modify. rewrite Hset. unfold ret at 1 2. cbn [default from_option].
  unfold bind, ret. cbn beta iota zeta delta [default from_option id].
  destruct (genPolicy rules domain false false g1) as [[gen g']|]; [|done].
  by destruct (failed gen).
Qed.

(** C5: a connection of the VPN to an address that was answered for a domain,
    made before that answer expires, is planned exactly like a request for the
    domain itself: same target, port, policy and refusal; only the origin keeps
    the address. *)
Theorem PlanRequest_recovers_domain {G : Type} `{R : Resolver G} `{L : HasMobileLaws G}
    (rules : Rules) (ip domain : string) (prt now t ttl : Z) (p : IP) (mode : DomainTargetMode)
    (m : MobileDNS) (g g1 : G) :
  ParseIP ip = Some p → ParseIP domain = None → domain ≠ "" → 0 ≤ ttl →
  mget g = rememberMobileDNSMapping now ip domain ttl m →
  mnow g = Some (t, g1) → t ≤ now + clamp_ttl ttl * Conn.Second →
  (∀ s, mset (mget s) s = s) →
  PlanRequest rules (mkRequest RequestSourceMobile ip prt mode) g =
  match PlanRequest rules (mkRequest RequestSourceMobile domain prt mode) g1 with
  | Some (Ok plan, g') =>
      Some (Ok (mkPlan RequestSourceMobile ip prt domain true true (TargetHost plan) (TargetPort plan)
                  (planPolicy plan) (Blocked plan)), g')
  | r => r
  end.
Proof.
  intros Hip Hdom Hne Ht Hm Hnow Hle Hset.
  apply (PlanRequest_entry _ _ _ _ t (now + clamp_ttl ttl * Conn.Second) p); try done.
  rewrite Hm. unfold rememberMobileDNSMapping. by rewrite Hip, decide_False, lookup_insert_eq by done.
Qed.

Lemma PlanRequest_recovers_domain_witness :
  let rules := mkRules block_default (λ d, if decide (d = "b.example") then Some Policy_zero else None)
                 (λ _, Some "9.9.9.9") (λ _, None) (λ _, None) in
  let g : Table := (rememberMobileDNSMapping 0 "10.0.0.1" "b.example" 60 ∅, 7) in
  ∃ plan, PlanRequest (H:=fixed_resolver Table) rules (mkRequest RequestSourceMobile "10.0.0.1" 443 ResolveDomainTarget) g =
    Some (Ok plan, g) ∧ TargetHost plan = "9.9.9.9" ∧ RecoveredDomain plan = "b.example".
Proof.
  intros rules g.
  destruct (ParseIP "10.0.0.1") as [p|] eqn:E; [|vm_compute in E; discriminate].
  rewrite (PlanRequest_recovers_domain (R:=fixed_resolver Table) rules "10.0.0.1" "b.example" 443 0 7 60 p
    ResolveDomainTarget ∅ g g E); try done; try (by intros [? ?]).
  eexists. split; [vm_compute; reflexivity|]. by vm_compute.
Defined.
