(* ===== verification/TunBridge.v ===== *)
(** [internal/tun_bridge.go]: the connection the VPN writes a flow's bytes to.
    It holds them back until the first TLS record is complete, applies the
    policy of the dial plan (refined by the server name) to that record, and
    from then on passes bytes through.

    The theorems: how the client's bytes were split into writes does not matter
    to the peer; a flow that a policy refuses never reaches it; and the two
    inputs on which the code misbehaves. *)

From S2P Require Import Prelude GoStd Conn Policy Cache Desync ClientHello Fragment Routing Session.
From S2P Require Import DialPlan.

Record tunPolicyConn := mkTun {
  tConn : conn;
  tPlan : DialPlan;
  tHandled : bool;
  tClosed : bool;
  tPending : bytes
}.

Definition WrapTCPConn (c : conn) (plan : DialPlan) : tunPolicyConn :=
  mkTun c plan false false [].

Definition DefaultDialTimeout (p : Policy) : Z :=
  if decide (0 < ConnectTimeout p) then ConnectTimeout p else defaultConnectTimeout.

Section bridge.
Context {G : Type} `{HasWorld G} `{TTLService G}.
Context (rules : Rules).
(** What splices report, and the page size, see [Desync]. *)
Context (outs : list splice) (pageSize : Z).

Definition set_handled (t : tunPolicyConn) : tunPolicyConn :=
  mkTun (tConn t) (tPlan t) true (tClosed t) (tPending t).
Definition set_closed (b : bool) (t : tunPolicyConn) : tunPolicyConn :=
  mkTun (tConn t) (tPlan t) (tHandled t) b (tPending t).
Definition set_pending (p : bytes) (t : tunPolicyConn) : tunPolicyConn :=
  mkTun (tConn t) (tPlan t) (tHandled t) (tClosed t) p.

Definition flushPendingLocked (t : tunPolicyConn) : St G (result unit * tunPolicyConn) :=
  if decide (tPending t = []) then ret (Ok tt, t) else
  let* err := onW (write (tConn t) (tPending t)) in
  ret (err, set_pending [] t).

(** Refuse: an alert if there is one to send, and close. *)
Definition refuse (c : conn) (alert : option Z) (ver : bytes) : St G (result unit) :=
  let* _ := match alert with
            | Some desc => onW (sendTLSAlert c ver desc tlsAlertLevelFatal)
            | None => ret tt
            end in
  let* _ := onW (ignoring (EClose c)) in
  throw EOF.

(** The policy for the record: the plan's, under that of the server name. *)
Definition sni_policy (p : Policy) (record : bytes) (h : hello) : go Policy :=
  if decide (0 < sniStart h ∧ 0 < sniLen h) then
    let! sni := slice record (sniStart h) (sniStart h + sniLen h) in
    match domainFind rules (string_of_bytes sni) with
    | Some domainPolicy => Some (mergePolicies [domainPolicy; p])
    | None => Some p
    end
  else Some p.

(** The second switch on the mode: send the record the way the policy says. *)
Definition forward_record (c : conn) (plan : DialPlan) (p : Policy) (record : bytes) (h : hello)
    : St G (result unit) :=
  match pMode p with
  | ModeTLSRF =>
      onW (sendRecords c record (sniStart h) (sniLen h) (NumRecords p) (NumSegments p)
             (IsTrue (OOB p)) (IsTrue (OOBEx p)) (IsTrue (ModMinorVer p)) (IsTrue (WaitForAck p))
             (SendInterval p))
  | ModeTTLD =>
      let*? ttl :=
        (if decide (FakeTTL p = 0 ∨ FakeTTL p = unsetInt)
         then fakeTTL p (TargetAddress plan)
         else ret (Ok (FakeTTL p))) in
      onW (desyncSend c outs pageSize record (sniStart h) (sniLen h) ttl (FakeSleep p))
  | _ => onW (write c record)
  end.

Definition handleTLSRecordLocked (t : tunPolicyConn) (record : bytes)
    : St G (result unit * tunPolicyConn) :=
  let c := tConn t in
  let* h := lift (parseClientHello record) in
  match helloErr h with
  | Some _ => flushPendingLocked t
  | None =>
    let p := planPolicy (tPlan t) in
    let* err :=
      (if decide (pMode p = ModeTLSAlert) then refuse c (Some tlsAlertAccessDenied) (prtVer h)
       else if IsTrue (TLS13Only p) && negb (hasKeyShare h)
       then refuse c (Some tlsAlertProtocolVersion) (prtVer h)
       else
         let* p := lift (sni_policy p record h) in
         if decide (pMode p = ModeBlock) then refuse c None (prtVer h)
         else if decide (pMode p = ModeTLSAlert) then refuse c (Some tlsAlertAccessDenied) (prtVer h)
         else forward_record c (tPlan t) p record h) in
    ret (err, t)
  end.

(** [tryHandlePendingLocked]: [None] while the first record is not complete. *)
Definition tryHandlePendingLocked (t : tunPolicyConn)
    : St G (option (result unit) * tunPolicyConn) :=
  if decide (len (tPending t) < 5) then ret (None, t) else
  let* b0 := lift (idx (tPending t) 0) in
  let* b1 := lift (idx (tPending t) 1) in
  if decide (bZ b0 ≠ tlsRecordTypeHandshake ∨ bZ b1 ≠ tlsMajorVersion) then
    let* (err, t) := flushPendingLocked (set_handled t) in
    ret (Some err, set_closed (negb (is_ok err)) t)
  else
    let* hdr := lift (slice (tPending t) 3 5) in
    let* n := lift (be16 hdr) in
    let recordLen := tlsRecordHeaderLen + n in
    if decide (recordLen < tlsRecordHeaderLen ∨ len (tPending t) < recordLen) then ret (None, t) else
    let* record := lift (slice_to (tPending t) recordLen) in
    let* tail := lift (slice_from (tPending t) recordLen) in
    let* (err, t) := handleTLSRecordLocked t record in
    let t := set_pending [] (set_handled t) in
    match err with
    | Fail e => ret (Some (Fail e), set_closed true t)
    | Ok _ =>
        if decide (0 < len tail) then
          let* err := onW (write (tConn t) tail) in
          ret (Some err, if is_ok err then t else set_closed true t)
        else ret (Some (Ok tt), t)
    end.

(** [Write], with the number of bytes on success. *)
Definition Write (t : tunPolicyConn) (b : bytes) : St G (result Z * tunPolicyConn) :=
  if tClosed t then ret (Fail EOF, t) else
  if tHandled t then
    let* err := onW (write (tConn t) b) in
    ret (match err with Ok _ => Ok (len b) | Fail e => Fail e end, t)
  else
    let* (handled, t) := tryHandlePendingLocked (set_pending (tPending t ++ b) t) in
    ret (match handled with
         | Some (Fail e) => Fail e
         | _ => Ok (len b)
         end, t).

(** A client that writes [chunks] one after the other: what each write returned. *)
Fixpoint writes_of (t : tunPolicyConn) (chunks : list bytes) : St G (list (result Z) * tunPolicyConn) :=
  match chunks with
  | [] => ret ([], t)
  | b :: chunks =>
      let* (r, t) := Write t b in
      let* (rs, t) := writes_of t chunks in
      ret (r :: rs, t)
  end.
End bridge.

(** ** What the first bytes of a flow say *)

Inductive route_t :=
| Wait                                  (* not enough bytes yet *)
| Foreign                               (* not TLS: passed through *)
| TLSRecord (record rest : bytes).      (* a complete first record *)

Definition route (s : bytes) : route_t :=
  match s with
  | b0 :: b1 :: _ :: b3 :: b4 :: _ =>
      if decide (bZ b0 ≠ tlsRecordTypeHandshake ∨ bZ b1 ≠ tlsMajorVersion) then Foreign else
      let n := Z.to_nat (5 + (bZ b3 * 256 + bZ b4)) in
      if decide ((length s < n)%nat) then Wait else TLSRecord (take n s) (drop n s)
  | _ => Wait
  end.

Lemma route_Foreign_app s b : route s = Foreign → route (s ++ b) = Foreign.
Proof.
  destruct s as [|b0 [|b1 [|b2 [|b3 [|b4 s]]]]]; try done. simpl.
  case_decide; [done|]. by case_decide.
Qed.

Lemma route_TLS_app s b record rest :
  route s = TLSRecord record rest → route (s ++ b) = TLSRecord record (rest ++ b).
Proof.
  destruct s as [|b0 [|b1 [|b2 [|b3 [|b4 s]]]]]; try done. unfold route. cbn [app].
  case_decide; [done|]. set (n := Z.to_nat _).
  change (b0 :: b1 :: b2 :: b3 :: b4 :: s ++ b) with ((b0 :: b1 :: b2 :: b3 :: b4 :: s) ++ b).
  set (l := b0 :: b1 :: b2 :: b3 :: b4 :: s).
  destruct (decide (length l < n)%nat); [done|]. intros H'. injection H' as <- <-.
  rewrite decide_False by (rewrite length_app; lia).
  by rewrite take_app_le, drop_app_le by lia.
Qed.

Lemma route_TLS_split s record rest : route s = TLSRecord record rest → s = record ++ rest.
Proof.
  destruct s as [|b0 [|b1 [|b2 [|b3 [|b4 s]]]]]; try done. unfold route.
  case_decide; [done|]. case_decide; [done|]. intros H'. injection H' as <- <-.
  by rewrite take_drop.
Qed.

Lemma route_TLS_len s record rest :
  route s = TLSRecord record rest → 5 ≤ len record ≤ 65540.
Proof.
  destruct s as [|b0 [|b1 [|b2 [|b3 [|b4 s]]]]]; try done. unfold route.
  case_decide; [done|]. case_decide as Hn; [done|]. intros H'. injection H' as <- <-.
  pose proof (bZ_range b3). pose proof (bZ_range b4).
  unfold len. rewrite length_take_le by lia. lia.
Qed.

Section bridge_route.
Context {G : Type} `{L : HasWorldLaws G} `{TTLService G}.
Context (rules : Rules) (outs : list splice) (pageSize : Z).

(** [tryHandlePendingLocked] by cases on the first bytes. *)
Lemma tryHandle_route (t : tunPolicyConn) :
  tryHandlePendingLocked rules outs pageSize t =
  match route (tPending t) with
  | Wait => ret (None, t)
  | Foreign =>
      let* (err, t) := flushPendingLocked (set_handled t) in
      ret (Some err, set_closed (negb (is_ok err)) t)
  | TLSRecord record tail =>
      let* (err, t) := handleTLSRecordLocked rules outs pageSize t record in
      let t := set_pending [] (set_handled t) in
      match err with
      | Fail e => ret (Some (Fail e), set_closed true t)
      | Ok _ =>
          if decide (0 < len tail) then
            let* err := onW (write (tConn t) tail) in
            ret (Some err, if is_ok err then t else set_closed true t)
          else ret (Some (Ok tt), t)
      end
  end.
Proof.
  unfold tryHandlePendingLocked. destruct (tPending t) as [|b0 [|b1 [|b2 [|b3 [|b4 s]]]]] eqn:E; try done.
  unfold route. set (l := b0 :: b1 :: b2 :: b3 :: b4 :: s).
  assert (5 ≤ len l) by (unfold len, l; simpl; lia).
  rewrite decide_False by lia.
  change (idx l 0) with (Some b0). change (idx l 1) with (Some b1).
  rewrite !bind_lift_Some. pose proof (bZ_range b3). pose proof (bZ_range b4).
  case_decide; [done|]. rewrite (slice_Some l 3 5) by lia.
  change (take _ (drop _ l)) with [b3; b4]. rewrite bind_lift_Some, be16_cons, bind_lift_Some.
  unfold tlsRecordHeaderLen. set (n := bZ b3 * 256 + bZ b4) in *.
  destruct (decide (length l < Z.to_nat (5 + n))%nat).
  - by rewrite decide_True by (unfold len in *; lia).
  - rewrite decide_False by (unfold len in *; lia).
    rewrite slice_to_Some, slice_from_Some by (unfold len in *; lia). done.
Qed.
End bridge_route.

(** ** Chunks do not matter *)

(** A step from [g] that always returns, and on success has sent something the
    peer [c] reads as [x]. *)
Definition emits {G} `{HasWorld G} {A} (c : conn) (x : bytes) (m : St G (result A)) (g : G) : Prop :=
  ∃ r g', m g = Some (r, g') ∧
    (is_ok r = true → ∃ l, sent (wget g') = sent (wget g) ++ l ∧ inband c l = x).

Section chunks.
Context {G : Type} `{L : HasWorldLaws G} `{TTLService G}.
Context (rules : Rules) (outs : list splice) (pageSize : Z).
Context (c : conn) (plan : DialPlan).

(** What the peer has read once the client has written [s], when it reads [x]
    for the first record. *)
Definition outflow (x : bytes) (s : bytes) : bytes :=
  match route s with Wait => [] | Foreign => s | TLSRecord _ rest => x ++ rest end.
Definition held (s : bytes) : bytes := match route s with Wait => s | _ => [] end.

(** The state of the connection after [s] without an error. *)
Definition after (s : bytes) (t : tunPolicyConn) : Prop :=
  tConn t = c ∧ tPlan t = plan ∧ tClosed t = false ∧ tPending t = held s ∧
  (tHandled t = true ↔ route s ≠ Wait).

Lemma write_emits b g : ∃ r g', onW (write c b) g = Some (r, g') ∧
  (r = Ok tt → sent (wget g') = sent (wget g) ++ [EWrite c b]).
Proof.
  destruct (onW_runs (write c b) tt [EWrite c b] g (write_runs c b)) as (r & g' & Hg & Hr).
  exists r, g'. split; [done|]. intros ->. by destruct (Hr tt eq_refl).
Qed.

Lemma inband_write_app l b : inband c (l ++ [EWrite c b]) = inband c l ++ b.
Proof. rewrite inband_app by done. simpl. by rewrite decide_True, app_nil_r. Qed.

(** What one write does: it returns, and if it succeeds [after] goes on and the
    peer has read [outflow] more. *)
Definition step_ok (x : bytes) (s b : bytes) (t : tunPolicyConn) (g : G) : Prop :=
  ∃ r t' g', Write rules outs pageSize t b g = Some ((r, t'), g') ∧
    (is_ok r = true → after (s ++ b) t' ∧
       ∃ l y, sent (wget g') = sent (wget g) ++ l ∧ outflow x (s ++ b) = outflow x s ++ y ∧
         inband c l = y ∧ (route s ≠ Wait → existsb (is_oob c) l = false) ∧
         (route (s ++ b) = Wait → l = [])) ∧
    (is_ok r = false → tHandled t' = true).

Lemma step_handled x s b t g :
  after s t → route s ≠ Wait → step_ok x s b t g.
Proof.
  intros (Hc & Hp & Hcl & Hpe & Hh) Hr. unfold step_ok, Write.
  rewrite Hcl, (proj2 Hh) by done. unfold bind. rewrite Hc.
  destruct (write_emits b g) as (r & g' & -> & Hs). eexists _, _, _. split; [done|].
  destruct r as [[]|e]; [split; [intros _|done]|by split; [|rewrite Hh]].
  assert (route (s ++ b) ≠ Wait ∧ outflow x (s ++ b) = outflow x s ++ b ∧ held (s ++ b) = []) as (H1 & H2 & H3).
  { unfold outflow, held. destruct (route s) eqn:E; [done| |].
    - by rewrite (route_Foreign_app _ b E).
    - by rewrite (route_TLS_app _ b _ _ E), app_assoc. }
  split.
  - split; [done|]. split; [done|]. split; [done|]. split; [|by rewrite Hh].
    rewrite Hpe, H3. unfold held. by destruct (route s).
  - exists [EWrite c b], b. split; [by apply Hs|]. split; [done|].
    split; [simpl; by rewrite decide_True, app_nil_r|by split].
Qed.

(** The promise of [handleTLSRecordLocked] for the first record: it leaves the
    buffer alone and the peer reads [x]. *)
Definition carries_record (x record : bytes) : Prop := ∀ t g,
  tConn t = c → tPlan t = plan →
  ∃ r g', handleTLSRecordLocked rules outs pageSize t record g = Some ((r, t), g') ∧
    (is_ok r = true → ∃ l, sent (wget g') = sent (wget g) ++ l ∧ inband c l = x).

Lemma step_first x s b t g :
  after s t → route s = Wait →
  (∀ record rest, route (s ++ b) = TLSRecord record rest → carries_record x record) →
  step_ok x s b t g.
Proof.
  intros (Hc & Hp & Hcl & Hpe & Hh) Hr Hx. unfold step_ok, Write.
  assert (tHandled t = false) as Hht by (destruct (tHandled t); [by destruct Hh as [[] _]|done]).
  rewrite Hcl, Hht, tryHandle_route. cbn [tPending set_pending].
  assert (held s = s) as Hs by (unfold held; by rewrite Hr). rewrite Hpe, Hs.
  assert (outflow x s = []) as Ho by (unfold outflow; by rewrite Hr). rewrite Ho.
  destruct (route (s ++ b)) as [| |record rest] eqn:E; unfold bind at 1.
  - eexists _, _, _. split; [done|]. split; [intros _|done]. split.
    + unfold after, held, set_pending. simpl. rewrite E, Hht. done.
    + exists [], []. rewrite app_nil_r. unfold outflow. by rewrite E.
  - unfold bind at 1, flushPendingLocked. cbn [tPending set_handled set_pending tConn].
    case_decide as Hn; [by rewrite Hn in E|].
    unfold bind at 1. rewrite Hc. destruct (write_emits (s ++ b) g) as (r & g' & -> & Hw).
    eexists _, _, _. split; [done|]. destruct r as [[]|e]; (split; [|done]); [intros _|done]. split.
    + unfold after, held. simpl. rewrite E. done.
    + exists [EWrite c (s ++ b)], (s ++ b). rewrite (Hw eq_refl). unfold outflow. rewrite E.
      simpl. by rewrite decide_True, app_nil_r.
  - destruct (Hx record rest eq_refl (set_pending (s ++ b) t) g) as (r & g' & Hrun & Hok); [done..|].
    unfold bind at 1. rewrite Hrun.
    destruct r as [[]|e]; [|eexists _, _, _; split; [done|by split; [intros [=]|]]].
    destruct (Hok eq_refl) as (l & Hl & Hin). cbn [tConn set_pending set_handled].
    assert (∀ t', t' = set_pending [] (set_handled (set_pending (s ++ b) t)) → after (s ++ b) t') as Haf.
    { intros ? ->. unfold after, held. simpl. rewrite E. done. }
    unfold outflow. rewrite E. case_decide as Hn.
    + unfold bind at 1. rewrite Hc. destruct (write_emits rest g') as (r & g2 & -> & Hw).
      eexists _, _, _. split; [done|]. destruct r as [[]|e]; (split; [|done]); [intros _|done].
      split; [by apply Haf|]. exists (l ++ [EWrite c rest]), (x ++ rest).
      rewrite (Hw eq_refl), Hl, app_assoc, inband_write_app, Hin. done.
    + eexists _, _, _. split; [done|]. split; [intros _|done]. split; [by apply Haf|].
      assert (rest = []) as -> by (apply len_0_nil; pose proof (len_nonneg rest); lia).
      exists l, (x ++ []). by rewrite app_nil_r.
Qed.

Lemma writes_after_failure chunks t g :
  tHandled t = true →
  ∃ rs t' g', writes_of rules outs pageSize t chunks g = Some ((rs, t'), g').
Proof.
  intros Ht. revert g. induction chunks as [|b chunks IH]; intros g; [by eexists _, _, _|].
  cbn [writes_of]. unfold bind at 1, Write.
  destruct (tClosed t) eqn:Hc; unfold ret at 1.
  - unfold bind at 1. destruct (IH g) as (rs & t' & g' & ->). by eexists _, _, _.
  - rewrite Ht. unfold bind at 1. unfold onW, write, call. unfold ret at 1.
    unfold bind at 1.
    match goal with |- context [writes_of _ _ _ t chunks ?g'] => destruct (IH g') as (rs & t' & g2 & ->) end.
    by eexists _, _, _.
Qed.

Lemma writes_of_spec x chunks s t g :
  after s t →
  (∀ record rest, route (s ++ concat chunks) = TLSRecord record rest → carries_record x record) →
  ∃ rs t' g', writes_of rules outs pageSize t chunks g = Some ((rs, t'), g') ∧
    (Forall (λ r, is_ok r = true) rs → after (s ++ concat chunks) t' ∧
       ∃ l y, sent (wget g') = sent (wget g) ++ l ∧
         outflow x (s ++ concat chunks) = outflow x s ++ y ∧ inband c l = y ∧
         (route s ≠ Wait → existsb (is_oob c) l = false)).
Proof.
  revert s t g. induction chunks as [|b chunks IH]; intros s t g Ha Hx.
  { eexists _, _, _. split; [done|]. intros _. simpl. rewrite app_nil_r.
    split; [done|]. exists [], []. by rewrite !app_nil_r. }
  cbn [concat] in *. rewrite app_assoc in Hx |- *. cbn [writes_of].
  assert (Hstep : step_ok x s b t g).
  { destruct (route s) eqn:E.
    - apply step_first; [done|done|]. intros record rest Hr.
      by eapply Hx, route_TLS_app.
    - apply step_handled; [done|by rewrite E].
    - apply step_handled; [done|by rewrite E]. }
  destruct Hstep as (r & t1 & g1 & Hw & Hok & Hfail). unfold bind at 1. rewrite Hw.
  destruct (is_ok r) eqn:Hr.
  - destruct (Hok eq_refl) as (Ha1 & l1 & y1 & Hs1 & Ho1 & Hi1 & Hoob1 & Hnil).
    destruct (IH (s ++ b) t1 g1 Ha1 Hx) as (rs & t2 & g2 & Hw2 & Hrest).
    unfold bind at 1. rewrite Hw2. eexists _, _, _. split; [done|].
    rewrite Forall_cons. intros [_ Hall]. destruct (Hrest Hall) as (Ha2 & l2 & y2 & Hs2 & Ho2 & Hi2 & Hoob2).
    split; [done|]. exists (l1 ++ l2), (y1 ++ y2).
    rewrite Hs2, Hs1, Ho2, Ho1, !app_assoc. split; [done|]. split; [done|]. split.
    + assert (route (s ++ b) = Wait ∨ route (s ++ b) ≠ Wait) as [Hwait|Hn]
        by (destruct (route (s ++ b)); auto).
      * rewrite (Hnil Hwait) in *. by rewrite <-Hi1, <-Hi2.
      * rewrite inband_app by auto. by rewrite Hi1, Hi2.
    + intros Hn. rewrite existsb_app, Hoob1, Hoob2; [done| |done].
      intros Hw3. apply Hn. destruct (route s) eqn:E; [done| |].
      * by rewrite (route_Foreign_app _ _ E) in Hw3.
      * by rewrite (route_TLS_app _ _ _ _ E) in Hw3.
  - destruct (writes_after_failure chunks t1 g1 (Hfail eq_refl)) as (rs & t2 & g2 & Hw2).
    unfold bind at 1. rewrite Hw2. eexists _, _, _. split; [done|].
    rewrite Forall_cons. intros [Hbad _]. congruence.
Qed.
End chunks.

(** ** What becomes of the first record *)

(** The record is refused whatever its bytes carry. *)
Definition refused (rules : Rules) (plan : DialPlan) (record : bytes) (h : hello) : Prop :=
  pMode (planPolicy plan) = ModeTLSAlert ∨
  (IsTrue (TLS13Only (planPolicy plan)) = true ∧ hasKeyShare h = false) ∨
  ∃ p, sni_policy rules (planPolicy plan) record h = Some p ∧
    (pMode p = ModeBlock ∨ pMode p = ModeTLSAlert).

(** A policy whose way of sending is defined for the record. *)
Definition forwardable (p : Policy) (record : bytes) (h : hello) : Prop :=
  match pMode p with
  | ModeTLSRF => send_ok record (sniStart h) (sniLen h) (NumRecords p) (NumSegments p)
                   (IsTrue (OOB p)) (IsTrue (OOBEx p))
  | ModeTTLD => 0 < sniStart h
  | _ => True
  end.

Definition usable (rules : Rules) (plan : DialPlan) (record : bytes) : Prop :=
  ∀ h, parseClientHello record = Some h → helloErr h = None ∧
    ∀ p, sni_policy rules (planPolicy plan) record h = Some p → forwardable p record h.

(** How the peer reads a record sent under [p]. *)
Definition read_as (c : conn) (p : Policy) (record : bytes) (h : hello) (x : bytes) : Prop :=
  match pMode p with
  | ModeTLSRF => ∃ l, x = inband c l ∧
      delivers c (bump_version (IsTrue (ModMinorVer p)) record) (sniStart h) (sniLen h) (NumRecords p) l
  | _ => x = record
  end.

Section record.
Context {G : Type} `{L : HasWorldLaws G} `{T : !TTLService G} `{TL : !TTLServiceLaws G}.
Context (rules : Rules) (outs : list splice) (pageSize : Z).
Context (c : conn) (plan : DialPlan).

Lemma onW_emits x (m : St World (result unit)) l g :
  Runs m tt l → inband c l = x → emits c x (onW m) g.
Proof.
  intros Hr Hx. destruct (onW_runs m tt l g Hr) as (r & g' & Hg & Hok).
  exists r, g'. split; [done|]. destruct r as [[]|]; [intros _|done].
  exists l. by destruct (Hok tt eq_refl).
Qed.

Lemma desync_emits record off n ttl s g :
  0 < pageSize → 0 < off → 0 ≤ n → off + n ≤ len record →
  emits c record (onW (desyncSend c outs pageSize record off n ttl s)) g.
Proof.
  intros. destruct (desyncSend_steps c outs pageSize record off n ttl s (wget g))
    as (r & w & Hw & Hr); [done..|].
  exists r, (wset w g). split; [by apply onW_eq|]. rewrite wget_wset.
  destruct r as [[]|]; [intros _|done].
  destruct (Hr eq_refl) as (cut & fake & real & rest & _ & Hs & Heq & _).
  eexists. split; [exact Hs|]. simpl. by rewrite !decide_True, app_nil_r.
Qed.

Lemma forward_record_emits p record h :
  0 < pageSize → sni_in_bounds record 58 h → forwardable p record h →
  ∃ x, read_as c p record h x ∧ ∀ g, emits c x (forward_record outs pageSize c plan p record h) g.
Proof.
  intros Hp Hb. unfold forwardable, read_as, forward_record.
  assert (∀ g, emits c record (onW (write c record)) g) as Hw.
  { intros g. apply (onW_emits _ _ [EWrite c record]); [apply _|].
    simpl. by rewrite decide_True, app_nil_r. }
  destruct (pMode p); intros Hf; try by exists record.
  - destruct (sendRecords_runs c record (sniStart h) (sniLen h) (NumRecords p) (NumSegments p)
      (IsTrue (OOB p)) (IsTrue (OOBEx p)) (IsTrue (ModMinorVer p)) (IsTrue (WaitForAck p))
      (SendInterval p) Hf) as (l & Hrun & Hd).
    exists (inband c l). split; [by exists l|]. intros g. by apply (onW_emits _ _ l).
  - exists record. split; [done|]. intros g.
    assert (0 ≤ sniLen h ∧ sniStart h + sniLen h ≤ len record) as [H1 H2]
      by (destruct Hb as [[? ?]|(? & ? & ?)]; lia).
    unfold emits. rewrite bindE_unfold. case_decide.
    + destruct (fakeTTL_frame p (TargetAddress plan) g) as ([ttl|e] & g1 & -> & Hg1).
      * destruct (desync_emits record _ _ ttl (FakeSleep p) g1 Hp Hf H1 H2) as (r & g' & Hr & Hok).
        exists r, g'. by rewrite <-Hg1.
      * by eexists _, _.
    + apply (desync_emits record _ _ _ (FakeSleep p) g Hp Hf H1 H2).
Qed.

Lemma refuse_spec alert ver g :
  len ver = 2 →
  ∃ g', refuse c alert ver g = Some (Fail EOF, g') ∧
    EClose c ∈ events (wget g') ∧
    ∃ l, sent (wget g') = sent (wget g) ++ l ∧
      match alert with
      | None => l = []
      | Some d => ∃ v0 v1, ver = [v0; v1] ∧ l = [EWrite c (tls_alert v0 v1 d tlsAlertLevelFatal)]
      end.
Proof.
  intros Hv. destruct ver as [|v0 [|v1 [|? ?]]]; try (unfold len in Hv; simpl in Hv; lia).
  destruct alert as [d|]; (eexists; split; [reflexivity|]; rewrite !wget_wset; split;
    [rewrite events_snoc; apply elem_of_app; right; by left|]);
    eexists; (split; [rewrite !sent_snoc, <-?app_assoc; reflexivity|]); [by exists v0, v1|done].
Qed.

(** The choice [handleTLSRecordLocked] makes, in two cases. *)
Lemma handle_record_cases record h t g :
  tConn t = c → tPlan t = plan → 5 ≤ len record →
  parseClientHello record = Some h → helloErr h = None →
  (refused rules plan record h ∧ ∃ alert,
     handleTLSRecordLocked rules outs pageSize t record g =
     bind (refuse c alert (prtVer h)) (λ err, ret (err, t)) g) ∨
  (¬ refused rules plan record h ∧ ∃ p, sni_policy rules (planPolicy plan) record h = Some p ∧
     handleTLSRecordLocked rules outs pageSize t record g =
     bind (forward_record outs pageSize c plan p record h) (λ err, ret (err, t)) g).
Proof.
  intros Hc Hpl Hlen Hh He. unfold handleTLSRecordLocked, refused.
  rewrite Hh, bind_lift_Some, He, Hc, Hpl.
  case_decide as H1; [left; split; [auto|by eexists]|].
  destruct (IsTrue _ && negb _) eqn:H2.
  { apply andb_true_iff in H2 as [? ?%negb_true_iff]. left. split; [auto|by eexists]. }
  destruct (parseClientHello_total record Hlen) as (h' & Hh' & Hb). rewrite Hh in Hh'. injection Hh' as <-.
  destruct (Hb He) as [_ Hsni].
  assert (∃ p, sni_policy rules (planPolicy plan) record h = Some p) as [p Hp].
  { unfold sni_policy. case_decide; [|by eexists]. destruct Hsni as [[? ?]|(? & ? & ?)]; [lia|].
    rewrite slice_Some by lia. destruct (domainFind _ _); by eexists. }
  rewrite Hp, bind_lift_Some.
  destruct (decide (pMode p = ModeBlock)) as [H3|H3]; [left; split; [eauto 6|by eexists]|].
  destruct (decide (pMode p = ModeTLSAlert)) as [H4|H4]; [left; split; [eauto 6|by eexists]|].
  right. split; [|by exists p].
  intros [?|[[H5 H6]|(q & Hq & Hm)]]; [done|by rewrite H5, H6 in H2|]. 
  injection Hq as <-. by destruct Hm.
Qed.

Lemma usable_carries record :
  0 < pageSize → 5 ≤ len record → usable rules plan record →
  ∃ x, carries_record rules outs pageSize c plan x record ∧
    ∀ h p, parseClientHello record = Some h → sni_policy rules (planPolicy plan) record h = Some p →
      ¬ refused rules plan record h → read_as c p record h x.
Proof.
  intros Hp Hlen Hu. destruct (parseClientHello_total record Hlen) as (h & Hh & Hb).
  destruct (Hu h Hh) as [He Hf]. destruct (Hb He) as [Hv Hsni].
  assert (Hforw : ∃ x, (∀ q, sni_policy rules (planPolicy plan) record h = Some q →
      read_as c q record h x ∧ ∀ g, emits c x (forward_record outs pageSize c plan q record h) g)).
  { destruct (sni_policy rules (planPolicy plan) record h) as [q|]; [|by exists []].
    destruct (forward_record_emits q record h Hp Hsni (Hf q eq_refl)) as (x & Hx & Hem).
    exists x. intros ? H'. by injection H' as <-. }
  destruct Hforw as (x & Hx). exists x. split.
  - intros t g Hc Hpl.
    destruct (handle_record_cases record h t g Hc Hpl Hlen Hh He)
      as [(_ & alert & ->)|(_ & q & Hq & ->)]; unfold bind.
    + destruct (refuse_spec alert (prtVer h) g Hv) as (g' & -> & _). eexists _, _. by split.
    + destruct (proj2 (Hx q Hq) g) as (r & g' & -> & Hok). eexists _, _. by split.
  - intros h' q Hh' Hq _. rewrite Hh in Hh'. injection Hh' as <-. by apply Hx.
Qed.
End record.

(** ** The theorems *)

Lemma writes_delivered {G : Type} `{HasWorldLaws G} `{T : !TTLService G} `{TL : !TTLServiceLaws G}
    (rules : Rules) (outs : list splice) (pageSize : Z) (c : conn) (plan : DialPlan) (stream : bytes) :
  0 < pageSize →
  (∀ record rest, route stream = TLSRecord record rest → usable rules plan record) →
  ∃ x,
    (∀ record rest h p, route stream = TLSRecord record rest → parseClientHello record = Some h →
       sni_policy rules (planPolicy plan) record h = Some p → ¬ refused rules plan record h →
       read_as c p record h x) ∧
    ∀ chunks g, concat chunks = stream →
      ∃ rs t g', writes_of rules outs pageSize (WrapTCPConn c plan) chunks g = Some ((rs, t), g') ∧
        (Forall (λ r, is_ok r = true) rs →
           tPending t = held stream ∧
           ∃ l, sent (wget g') = sent (wget g) ++ l ∧ inband c l = outflow x stream).
Proof.
  intros Hp Hu.
  assert (Hx : ∃ x,
    (∀ record rest h p, route stream = TLSRecord record rest → parseClientHello record = Some h →
       sni_policy rules (planPolicy plan) record h = Some p → ¬ refused rules plan record h →
       read_as c p record h x) ∧
    ∀ record rest, route stream = TLSRecord record rest →
      carries_record rules outs pageSize c plan x record).
  { destruct (route stream) as [| |record rest] eqn:E; [by exists []|by exists []|].
    destruct (usable_carries rules outs pageSize c plan record Hp) as (x & Hx & Hr);
      [by eapply route_TLS_len|by eapply Hu|].
    exists x. split; intros ?? ; [intros ?? H'|intros H']; injection H' as <- <-; auto. }
  destruct Hx as (x & Hr & Hx). exists x. split; [done|]. intros chunks g Hs.
  destruct (writes_of_spec rules outs pageSize c plan x chunks [] (WrapTCPConn c plan) g)
    as (rs & t & g' & Hw & Hok); [by repeat split|by rewrite Hs|].
  exists rs, t, g'. split; [exact Hw|]. intros Hall. destruct (Hok Hall) as (Ha & l & y & Hl & Ho & Hi & _).
  simpl in Ha, Ho. rewrite Hs in Ha, Ho. split; [by apply Ha|]. exists l. split; [done|].
  by rewrite Hi, Ho.
Qed.

(** C18: how the bytes of a flow are split into writes is irrelevant to the peer.
    For a stream whose first TLS record, if it has one, is a ClientHello the
    policy has a way of sending for, every sequence of writes with that stream
    returns, and when none fails: bytes of an unfinished record are held back; a
    stream that is not TLS reaches the peer as it is; and otherwise the peer reads
    the first record the way the policy in force sends it, then the rest. *)
Theorem Write_any_chunks {G : Type} `{HasWorldLaws G} `{T : !TTLService G} `{TL : !TTLServiceLaws G}
    (rules : Rules) (outs : list splice) (pageSize : Z) (c : conn) (plan : DialPlan) (stream : bytes) :
  0 < pageSize →
  (∀ record rest, route stream = TLSRecord record rest → usable rules plan record) →
  ∃ x,
    (∀ record rest h p, route stream = TLSRecord record rest → parseClientHello record = Some h →
       sni_policy rules (planPolicy plan) record h = Some p → ¬ refused rules plan record h →
       read_as c p record h x) ∧
    ∀ chunks g, concat chunks = stream →
      ∃ rs t g', writes_of rules outs pageSize (WrapTCPConn c plan) chunks g = Some ((rs, t), g') ∧
        (Forall (λ r, is_ok r = true) rs →
           tPending t = held stream ∧
           ∃ l, sent (wget g') = sent (wget g) ++ l ∧ inband c l = outflow x stream).
Proof. apply writes_delivered. Qed.

Section refusal.
Context {G : Type} `{L : HasWorldLaws G} `{T : !TTLService G} `{TL : !TTLServiceLaws G}.
Context (rules : Rules) (outs : list splice) (pageSize : Z).
Context (c : conn) (plan : DialPlan).

Lemma writes_closed chunks t (g : G) :
  tClosed t = true →
  writes_of rules outs pageSize t chunks g = Some (((λ _, Fail EOF) <$> chunks, t), g).
Proof.
  intros Ht. induction chunks as [|b chunks IH]; [done|]. cbn [writes_of].
  unfold bind at 1, Write. rewrite Ht. unfold ret at 1. unfold bind at 1. by rewrite IH.
Qed.

(** A refused record: at most an alert is written, and the connection closed. *)
Lemma Write_refuses record rest h s b t (g : G) :
  after c plan s t → route s = Wait → route (s ++ b) = TLSRecord record rest →
  parseClientHello record = Some h → helloErr h = None → refused rules plan record h →
  ∃ t' g', Write rules outs pageSize t b g = Some ((Fail EOF, t'), g') ∧
    tClosed t' = true ∧ EClose c ∈ events (wget g') ∧
    ∃ alert, sent (wget g') = sent (wget g) ++ alert ∧
      (alert = [] ∨ ∃ v0 v1 d, alert = [EWrite c (tls_alert v0 v1 d tlsAlertLevelFatal)]).
Proof.
  intros (Hc & Hp & Hcl & Hpe & Hh) Hr E Hparse He Href. unfold Write.
  assert (tHandled t = false) as Hht by (destruct (tHandled t); [by destruct Hh as [[] _]|done]).
  rewrite Hcl, Hht, tryHandle_route. cbn [tPending set_pending].
  assert (held s = s) as Hs by (unfold held; by rewrite Hr). rewrite Hpe, Hs, E.
  pose proof (route_TLS_len _ _ _ E) as Hlen.
  destruct (parseClientHello_total record) as (h' & Hh' & Hb); [lia|]. rewrite Hparse in Hh'.
  injection Hh' as <-. destruct (Hb He) as [Hv _].
  destruct (handle_record_cases rules outs pageSize c plan record h (set_pending (s ++ b) t) g)
    as [(_ & alert & Hrun)|(Hn & _)]; [done|done|lia|done|done| |done].
  unfold bind at 1 2. rewrite Hrun. unfold bind at 1.
  destruct (refuse_spec c alert (prtVer h) g Hv) as (g' & -> & Hcl' & l & Hl & Ha).
  eexists _, g'. split; [done|]. split; [done|]. split; [done|]. exists l. split; [done|].
  destruct alert; [right|by left]. destruct Ha as (v0 & v1 & _ & ->). by eexists _, _, _.
Qed.

Lemma writes_refused record rest h chunks s t (g : G) :
  after c plan s t → route s = Wait → route (s ++ concat chunks) = TLSRecord record rest →
  parseClientHello record = Some h → helloErr h = None → refused rules plan record h →
  ∃ rs t' g', writes_of rules outs pageSize t chunks g = Some ((rs, t'), g') ∧
    tClosed t' = true ∧ EClose c ∈ events (wget g') ∧ last rs = Some (Fail EOF) ∧
    ∃ alert, sent (wget g') = sent (wget g) ++ alert ∧
      (alert = [] ∨ ∃ v0 v1 d, alert = [EWrite c (tls_alert v0 v1 d tlsAlertLevelFatal)]).
Proof.
  intros Ha Hw Hroute Hparse He Href. revert s t g Ha Hw Hroute.
  induction chunks as [|b chunks IH]; intros s t g Ha Hw Hroute.
  { simpl in Hroute. rewrite app_nil_r in Hroute. congruence. }
  cbn [concat] in Hroute. rewrite app_assoc in Hroute. cbn [writes_of]. unfold bind at 1.
  destruct (route (s ++ b)) as [| |record' rest'] eqn:E.
  - destruct (step_first rules outs pageSize c plan [] s b t g Ha Hw) as (r & t1 & g1 & Hr & Hok & Hfail);
      [by rewrite E|].
    assert (is_ok r = true) as Hr1.
    { unfold Write in Hr. destruct Ha as (_ & _ & Hcl & Hpe & Hh).
      destruct (tHandled t); [by destruct Hh as [[] _]|]. rewrite Hcl, tryHandle_route in Hr.
      cbn [tPending set_pending] in Hr. rewrite Hpe in Hr. unfold held in Hr. rewrite Hw, E in Hr.
      by injection Hr as <- _ _. }
    rewrite Hr. destruct (Hok Hr1) as (Ha1 & l & y & Hl & _ & _ & _ & Hnil).
    destruct (IH (s ++ b) t1 g1 Ha1 E Hroute) as (rs & t2 & g2 & Hw2 & ? & ? & Hlast & Halert).
    unfold bind at 1. rewrite Hw2. eexists _, _, _. split; [done|]. split; [done|]. split; [done|].
    rewrite (Hnil E), app_nil_r in Hl. rewrite <-Hl. split; [|done]. destruct rs; [done|exact Hlast].
  - by rewrite (route_Foreign_app _ _ E) in Hroute.
  - rewrite (route_TLS_app _ _ _ _ E) in Hroute. injection Hroute as -> _.
    destruct (Write_refuses record rest' h s b t g Ha Hw E Hparse He Href)
      as (t1 & g1 & -> & Hcl & Hev & Halert).
    unfold bind at 1. rewrite writes_closed by done. eexists _, _, _. split; [done|].
    split; [done|]. split; [done|]. split; [|done]. clear. change (last (Fail (A:=Z) EOF :: ((λ _, Fail EOF) <$> chunks)) = Some (Fail EOF)).
    induction chunks as [|b' chunks IH]; [done|]. exact IH.
Qed.
End refusal.

(** A flow a policy refuses (mode [tls-alert] of the plan, no key_share
    where TLS 1.3 is required, or a server name whose policy blocks or alerts):
    however it is written, no byte of it reaches the peer.  What does reach the
    peer is at most one TLS alert; then the connection is closed and every
    further write fails. *)
Theorem Write_refused_flow {G : Type} `{HasWorldLaws G} `{T : !TTLService G} `{TL : !TTLServiceLaws G}
    (rules : Rules) (outs : list splice) (pageSize : Z) (c : conn) (plan : DialPlan)
    (chunks : list bytes) (record rest : bytes) (h : hello) (g : G) :
  route (concat chunks) = TLSRecord record rest →
  parseClientHello record = Some h → helloErr h = None → refused rules plan record h →
  ∃ rs t g', writes_of rules outs pageSize (WrapTCPConn c plan) chunks g = Some ((rs, t), g') ∧
    last rs = Some (Fail EOF) ∧ EClose c ∈ events (wget g') ∧
    (∀ b, Write rules outs pageSize t b g' = Some ((Fail EOF, t), g')) ∧
    ∃ alert, sent (wget g') = sent (wget g) ++ alert ∧
      (alert = [] ∨ ∃ v0 v1 d, alert = [EWrite c (tls_alert v0 v1 d tlsAlertLevelFatal)]).
Proof.
  intros Hr Hp He Href.
  destruct (writes_refused rules outs pageSize c plan record rest h chunks [] (WrapTCPConn c plan) g)
    as (rs & t & g' & Hw & Hcl & Hev & Hlast & Halert); [by repeat split|done..|].
  exists rs, t, g'. do 3 (split; [done|]). split; [|done].
  intros b. unfold Write. by rewrite Hcl.
Qed.

(** A first record that is not a ClientHello is forwarded, but bytes that
    arrived in the same write after it are forwarded twice: the peer reads the
    record, the rest and the rest again. *)
Theorem Write_duplicates_tail {G : Type} `{HasWorldLaws G} `{T : !TTLService G}
    (rules : Rules) (outs : list splice) (pageSize : Z) (c : conn) (plan : DialPlan)
    (b record rest : bytes) (h : hello) (g : G) :
  route b = TLSRecord record rest → rest ≠ [] →
  parseClientHello record = Some h → helloErr h ≠ None → verdicts (wget g) = [] →
  ∃ t g', Write rules outs pageSize (WrapTCPConn c plan) b g = Some ((Ok (len b), t), g') ∧
    sent (wget g') = sent (wget g) ++ [EWrite c b; EWrite c rest].
Proof.
  intros Hr Hrest Hp He Hv. unfold Write. cbn [tClosed tHandled WrapTCPConn].
  rewrite tryHandle_route. cbn [tPending set_pending WrapTCPConn app]. rewrite Hr.
  unfold bind at 1 2, handleTLSRecordLocked. rewrite Hp, bind_lift_Some.
  destruct (helloErr h); [|done]. unfold flushPendingLocked. cbn [tPending set_pending].
  assert (b ≠ []) by (intros ->; done). rewrite decide_False by done.
  unfold bind at 1, onW at 1, write at 1, call at 1. rewrite Hv. unfold ret at 1. simpl.
  assert (0 < len rest) by (destruct rest; [done|rewrite len_cons; pose proof (len_nonneg rest); lia]).
  rewrite decide_True by done. unfold bind at 1, onW at 1, write at 1, call at 1.
  rewrite wget_wset. simpl. eexists _, _. split; [done|].
  rewrite wget_wset. unfold sent, events. simpl. by rewrite !fmap_app, !filter_app, <-!app_assoc.
Qed.

(** Under a fragmenting policy of two records or more, a ClientHello without
    a server name makes [Write] panic: the offset -1 that stands for "no name"
    is used to cut the record. *)
Theorem Write_panics_without_name {G : Type} `{HasWorldLaws G} `{T : !TTLService G}
    (rules : Rules) (outs : list splice) (pageSize : Z) (c : conn) (plan : DialPlan)
    (record : bytes) (h : hello) (g : G) :
  let p := planPolicy plan in
  pMode p = ModeTLSRF → 2 ≤ NumRecords p → IsTrue (TLS13Only p) = false → IsTrue (ModMinorVer p) = false →
  route record = TLSRecord record [] →
  parseClientHello record = Some h → helloErr h = None → sniStart h = -1 → sniLen h = 0 →
  Write rules outs pageSize (WrapTCPConn c plan) record g = None.
Proof.
  intros p Hm Hn Ht Hmm Hr Hp He Hs Hl. subst p. unfold Write. cbn [tClosed tHandled WrapTCPConn].
  rewrite tryHandle_route. cbn [tPending set_pending WrapTCPConn app]. rewrite Hr.
  unfold bind at 1 2, handleTLSRecordLocked. rewrite Hp, bind_lift_Some, He.
  cbn [tPlan tConn set_pending WrapTCPConn]. rewrite decide_False by (by rewrite Hm). rewrite Ht.
  unfold sni_policy. rewrite decide_False by lia. cbn [andb]. rewrite bind_lift_Some, Hm.
  rewrite !decide_False by done. unfold bind at 1, forward_record. rewrite Hm, Hmm.
  unfold onW, sendRecords. rewrite bind_lift_Some. rewrite (decide_False (P := NumRecords (planPolicy plan) = 0)) by lia.
  rewrite decide_False by lia. unfold cut_records, findLastDotOrMidPos. by rewrite Hs, Hl.
Qed.

(** ** Witnesses *)

Abbreviation plain_state := (World * option (gmap string Z))%type.
Definition probe5 (addr : string) (ttl k : Z) : option error :=
  if decide (5 ≤ ttl) then None else Some ErrTimeout.
#[local] Instance plain_ttl : TTLService plain_state := cached_ttl probe5 None 60.
#[local] Instance plain_ttl_laws : TTLServiceLaws plain_state := cached_ttl_laws probe5 None 60.

Definition with_mode (m : Mode) (records segs : Z) : Policy :=
  normalizePolicyDefaults
    (mkPolicy BoolUnset SniffOverrideUnset DNSModeUnknown 0 "" "" (-1) (-1) BoolUnset m
       records segs BoolUnset BoolUnset BoolUnset BoolUnset 0 (-1) 0 0 0 0).
Definition plan_of (p : Policy) : DialPlan :=
  mkPlan RequestSourceMobile "1.2.3.4" 443 "" false true "1.2.3.4" 443 p false.
(** The name "a.b" is blocked. *)
Definition name_rules : Rules :=
  mkRules (with_mode ModeDirect 0 0)
    (λ d, if decide (d = "a.b") then Some (with_mode ModeBlock 0 0) else None)
    (λ _, None) (λ _, None) (λ _, None).
Definition start_state : plain_state := (quiet, Some ∅).
Definition two_chunks : list bytes := [take 20 hello_bytes; drop 20 hello_bytes ++ [Byte.x17]].

Lemma hello_route : route (concat two_chunks) = TLSRecord hello_bytes [Byte.x17].
Proof. by vm_compute. Qed.

Lemma Write_any_chunks_witness :
  let plan := plan_of (with_mode ModeTLSRF 3 (-1)) in
  ∃ x rs t g', writes_of block_rules [] 4096 (WrapTCPConn hello_conn plan) two_chunks start_state
      = Some ((rs, t), g') ∧
    tPending t = [] ∧ inband hello_conn (sent (wget g')) = x ++ [Byte.x17].
Proof.
  intros plan.
  destruct (Write_any_chunks block_rules [] 4096 hello_conn plan (concat two_chunks))
    as (x & _ & Hw).
  - done.
  - intros record rest Hr. rewrite hello_route in Hr. injection Hr as <- <-.
    intros h Hh. vm_compute in Hh. injection Hh as <-. split; [done|].
    intros p Hp. vm_compute in Hp. injection Hp as <-.
    unfold forwardable. cbn [pMode]. change 67%Z with 67.
    apply (hello_send_ok 3 (-1) false false); [lia|lia|lia|by left].
  - destruct (Hw two_chunks start_state eq_refl) as (rs & t & g' & Hrun & Hok).
    assert (Forall (λ r, is_ok r = true) rs) as Hall.
    { vm_compute in Hrun. injection Hrun as <- _ _. by repeat constructor. }
    destruct (Hok Hall) as (Hp & l & Hl & Hi). exists x, rs, t, g'. split; [exact Hrun|].
    split; [rewrite Hp; by vm_compute|]. rewrite Hl. change (sent (wget start_state)) with (@nil event).
    simpl app. rewrite Hi. unfold outflow. by rewrite hello_route.
Defined.

Lemma Write_refused_flow_witness :
  let plan := plan_of (with_mode ModeTLSRF 3 (-1)) in
  ∃ rs t g', writes_of name_rules [] 4096 (WrapTCPConn hello_conn plan) two_chunks start_state
      = Some ((rs, t), g') ∧ EClose hello_conn ∈ events (wget g').
Proof.
  intros plan. destruct (parseClientHello hello_bytes) as [h|] eqn:Hh; [|vm_compute in Hh; discriminate].
  destruct (Write_refused_flow name_rules [] 4096 hello_conn plan two_chunks hello_bytes [Byte.x17] h start_state
    hello_route Hh) as (rs & t & g' & Hrun & _ & Hev & _).
  - vm_compute in Hh. by injection Hh as <-.
  - right. right. vm_compute in Hh. injection Hh as <-.
    eexists. split; [vm_compute; reflexivity|]. by left.
  - by exists rs, t, g'.
Defined.

(** A handshake record with nothing in it, and one more byte. *)
Definition empty_record : bytes := [Byte.x16; Byte.x03; Byte.x01; Byte.x00; Byte.x01; Byte.x02].

Lemma Write_duplicates_tail_witness :
  let plan := plan_of (with_mode ModeDirect 0 0) in
  ∃ t g', Write block_rules [] 4096 (WrapTCPConn hello_conn plan) (empty_record ++ [Byte.x17]) start_state
      = Some ((Ok 7, t), g') ∧
    inband hello_conn (sent (wget g')) = empty_record ++ [Byte.x17; Byte.x17].
Proof.
  intros plan. destruct (parseClientHello empty_record) as [h|] eqn:Hh; [|vm_compute in Hh; discriminate].
  destruct (Write_duplicates_tail block_rules [] 4096 hello_conn plan (empty_record ++ [Byte.x17])
    empty_record [Byte.x17] h start_state) as (t & g' & Hw & Hs); try done.
  - vm_compute in Hh. by injection Hh as <-.
  - exists t, g'. split; [exact Hw|]. rewrite Hs. by vm_compute.
Defined.

Definition nameless_hello : bytes :=
  encode_hello (mkClientHello Byte.x01 Byte.x03 Byte.x03 (make_zero 32) [] [Byte.x13; Byte.x01] [Byte.x00] []).

Lemma Write_panics_without_name_witness :
  let plan := plan_of (with_mode ModeTLSRF 3 1) in
  Write block_rules [] 4096 (WrapTCPConn hello_conn plan) nameless_hello start_state = None.
Proof.
  intros plan. destruct (parseClientHello nameless_hello) as [h|] eqn:Hh; [|vm_compute in Hh; discriminate].
  apply (Write_panics_without_name block_rules [] 4096 hello_conn plan nameless_hello h start_state);
    try (vm_compute; reflexivity); try exact Hh;
    vm_compute in Hh; injection Hh as <-; try done.
Defined.
