(* ===== verification/Tunnel.v ===== *)
(** [internal/tunnel.go]: what happens to an accepted connection once its target
    is known.  The first bytes decide: a TLS record is taken through
    [handleTLS], an HTTP request through [handleHTTP], anything else is
    forwarded; then both directions are copied (see [Relay]).

    HTTP requests are parsed and printed by [net/http]: a request is a record,
    and the section's variables read and print it. *)

From Stdlib Require Import Strings.Ascii.
From S2P Require Import Prelude GoStd GoNet Conn Policy Cache Desync ClientHello Fragment Routing.
From S2P Require Import Session TunBridge.

(** ** HTTP messages *)

Record Request := mkReq {
  rqMethod : string;
  rqHost : string;
  rqURLHost : string;
  rqScheme : string;
  rqRequestURI : string;
  rqProto : string;
  rqHeader : gmap string string;
  rqBody : bytes
}.

Record Response := mkResp {
  Status : string;
  StatusCode : Z;
  Proto : string;
  ContentLength : Z;
  Location : option string;
  rsClose : bool
}.

(** ** Helpers *)

(** [dial.DialTCPTimeout] unless there is a connection already. *)
Definition ensure (dst : option conn) (target : string) (timeout : Z) : St World (option conn) :=
  match dst with
  | Some d => ret (Some d)
  | None =>
      let* r := dial target timeout in
      ret match r with Ok d => Some d | Fail _ => None end
  end.

(** [br.Peek(n)]: the bytes stay in the reader. *)
Definition peek (c : conn) (n : Z) : St World (result bytes) := λ w,
  let b := default [] (inbox w !! cid c) in
  Some (if decide (n ≤ len b) then Ok (take (Z.to_nat n) b) else Fail EOF, w).

Fixpoint bytes_prefix (p l : bytes) : bool :=
  match p, l with
  | [], _ => true
  | x :: p, y :: l => bool_decide (x = y) && bytes_prefix p l
  | _ :: _, [] => false
  end.
Definition bytesHasPrefix (b : bytes) (prefixes : list string) : bool :=
  existsb (λ p, bytes_prefix (bytes_of_string p) b) prefixes.

Definition httpMethods : list string :=
  ["GET "; "POST "; "HEAD "; "PUT "; "DELETE "; "OPTIONS "; "TRACE "; "PATCH "].

(** [closeBoth] of [handleTunnel]. *)
Definition closeBoth (cliConn : conn) (dstConn : option conn) : St World unit :=
  let* _ := ignoring (EClose cliConn) in
  match dstConn with Some d => ignoring (EClose d) | None => ret tt end.

(** How the setup ends: everything is closed, or two connections are relayed. *)
Inductive tunnel_end := Ended | Forwarding (cliConn dstConn : conn).

Section tunnel.
Context {G : Type} `{HasWorld G} `{TTLService G} `{Resolver G}.
Context (rules : Rules).
Context (outs : list splice) (pageSize : Z).
(** [http.ReadRequest] on the bytes of a connection (the request or an error,
    and the bytes left), [Request.Write], [Response.Write], [http.StatusText]. *)
Context (ReadRequest : bytes → result Request * bytes) (Request_Write : Request → bytes)
  (Response_Write : Response → bytes) (StatusText : Z → string).

Definition read_request (c : conn) : St World (result Request) := λ w,
  let b := default [] (inbox w !! cid c) in
  let '(r, rest) := ReadRequest b in
  Some (r, mkWorld (trace w) (verdicts w) (now w) (lags w) (unacked w) (ttls w)
             (<[cid c := rest]> (inbox w))).

(** *** [handleHTTP] *)

Definition bad_gateway (proto : string) : Response :=
  mkResp "502 Bad Gateway" 502 proto 0 None true.
Definition status_response (req : Request) (status : Z) (host : string) : Response :=
  mkResp (itoa status +:+ " " +:+ StatusText status) status (rqProto req) 0
    (if decide (status = 301 ∨ status = 302)
     then Some ("https://" +:+ host +:+ rqRequestURI req) else None) true.

Definition handleHTTP (req : Request) (p : Policy) (originHost target : string)
    (cliConn : conn) (dstConn : option conn) : St World (option conn * bool) :=
  deferring (ignoring (ESys "close request body"))
    (let host := if decide (rqHost req = "")
                 then if decide (rqURLHost req = "") then originHost else rqURLHost req
                 else rqHost req in
     if decide (HttpStatus p = 0 ∨ HttpStatus p = -1) then
       let* d := ensure dstConn target (ConnectTimeout p) in
       match d with
       | None =>
           let* _ := ignoring (EWrite cliConn (Response_Write (bad_gateway (rqProto req)))) in
           ret (None, false)
       | Some d =>
           let* r := write d (Request_Write req) in
           ret match r with Ok _ => (Some d, true) | Fail _ => (None, false) end
       end
     else
       let* _ := ignoring (EWrite cliConn (Response_Write (status_response req (HttpStatus p) host))) in
       ret (None, false)).

(** *** [handleTLS] *)

(** The override by the server name: the connection, the policy and the target
    to go on with, or [None] when the tunnel ends here. *)
Definition sniff_override (p : Policy) (h : hello) (sni target originPort : string)
    (cliConn : conn) (dstConn : option conn)
    : St G (option (option conn * Policy * string)) :=
  let keep := ret (Some (dstConn, p, target)) in
  let returnWhenDomainNotFound := bool_decide (pSniff p = SniffOverridePolicyExists) in
  if negb (bool_decide (pSniff p = SniffOverrideAlways) || returnWhenDomainNotFound) then keep else
  if hasECH h then keep else
  let* g := genPolicy rules sni false returnWhenDomainNotFound in
  if failed g then keep else
  if domainNotFound g then keep else
  if blocked g || bool_decide (pMode <$> gPolicy g = Some ModeBlock) then ret None else
  let* sniPolicy := lift (gPolicy g) in   (* a nil policy would be dereferenced *)
  if decide (pMode sniPolicy = ModeTLSAlert) then
    let* _ := onW (sendTLSAlert cliConn (prtVer h) tlsAlertAccessDenied tlsAlertLevelFatal) in
    ret None
  else
    let originPort := if decide (Port sniPolicy ≠ 0 ∧ Port sniPolicy ≠ -1)
                      then itoa (Port sniPolicy) else originPort in
    let newTarget := JoinHostPort (dstHost g) originPort in
    let* r := onW (dial newTarget (ConnectTimeout sniPolicy)) in
    match r with
    | Ok newConn =>
        let* _ := match dstConn with
                  | Some d => onW (ignoring (EClose d))
                  | None => ret tt
                  end in
        ret (Some (Some newConn, sniPolicy, newTarget))
    | Fail _ => keep
    end.

(** The switch on the mode at the end. *)
Definition send_hello (d : conn) (p : Policy) (target : string) (record : bytes) (h : hello)
    : St G (result unit) :=
  match pMode p with
  | ModeDirect | ModeRaw => onW (write d record)
  | ModeTLSRF =>
      onW (sendRecords d record (sniStart h) (sniLen h) (NumRecords p) (NumSegments p)
             (IsTrue (OOB p)) (IsTrue (OOBEx p)) (IsTrue (ModMinorVer p)) (IsTrue (WaitForAck p))
             (SendInterval p))
  | ModeTTLD =>
      let* _ := lift (String.get 0 target) in   (* target[0] *)
      let*? ttl := fakeTTL p target in
      onW (desyncSend d outs pageSize record (sniStart h) (sniLen h) ttl (FakeSleep p))
  | ModeUnknown | ModeBlock | ModeTLSAlert => ret (Ok tt)
  end.

Definition handleTLS (recordLen : Z) (p : Policy) (originHost target originPort : string)
    (cliConn : conn) (dstConn : option conn) : St G (option conn * bool) :=
  let* r := onW (readN cliConn recordLen) in
  match r with
  | Fail _ => ret (None, false)
  | Ok record =>
    let* h := lift (parseClientHello record) in
    match helloErr h with
    | Some _ => ret (None, false)
    | None =>
      if decide (pMode p = ModeTLSAlert) then
        let* _ := onW (sendTLSAlert cliConn (prtVer h) tlsAlertAccessDenied tlsAlertLevelFatal) in
        ret (None, false)
      else if IsTrue (TLS13Only p) && negb (hasKeyShare h) then
        let* _ := onW (sendTLSAlert cliConn (prtVer h) tlsAlertProtocolVersion tlsAlertLevelFatal) in
        ret (None, false)
      else if decide (sniStart h ≤ 0 ∨ sniLen h ≤ 0) then
        let* d := onW (ensure dstConn target (ConnectTimeout p)) in
        match d with
        | None => ret (None, false)
        | Some d =>
            let* r := onW (write d record) in
            ret match r with Ok _ => (Some d, true) | Fail _ => (None, false) end
        end
      else
        let* sni := lift (slice record (sniStart h) (sniStart h + sniLen h)) in
        let sniStr := string_of_bytes sni in
        let* sw := (if decide (originHost ≠ sniStr)
                    then sniff_override p h sniStr target originPort cliConn dstConn
                    else ret (Some (dstConn, p, target))) in
        match sw with
        | None => ret (None, false)
        | Some (dstConn, p, target) =>
            let* d := onW (ensure dstConn target (ConnectTimeout p)) in
            match d with
            | None => ret (None, false)
            | Some d =>
                let* r := send_hello d p target record h in
                ret match r with Ok _ => (Some d, true) | Fail _ => (None, false) end
            end
        end
    end
  end.

(** *** [handleTunnel], up to the two copies *)

Definition handleTunnel (p : Policy) (dstConn : option conn) (cliConn : conn)
    (target originHost originPort : string) : St G tunnel_end :=
  let finish (dst : option conn) : St G tunnel_end :=
    let* _ := onW (closeBoth cliConn dst) in ret Ended in
  (* the type assertions *)
  let start (dst : option conn) : St G tunnel_end :=
    match dst with
    | Some d => if is_tcp cliConn && is_tcp d then ret (Forwarding cliConn d) else finish dst
    | None => finish None
    end in
  if decide (pMode p = ModeRaw) then
    let* d := onW (ensure dstConn target (ConnectTimeout p)) in
    match d with Some d => start (Some d) | None => finish None end
  else
    let* pk := onW (peek cliConn 10) in
    match pk with
    | Fail _ => finish dstConn
    | Ok pk =>
        let* b0 := lift (idx pk 0) in
        let* b1 := lift (idx pk 1) in
        if decide (bZ b0 = tlsRecordTypeHandshake ∧ bZ b1 = tlsMajorVersion) then
          let* hdr := lift (slice pk 3 5) in
          let* n := lift (be16 hdr) in
          let* (dst, ok) := handleTLS (5 + n) p originHost target originPort cliConn dstConn in
          if ok : bool then start dst else finish dst
        else if bytesHasPrefix pk httpMethods then
          let* r := onW (read_request cliConn) in
          match r with
          | Ok req =>
              let* (dst, ok) := onW (handleHTTP req p originHost target cliConn dstConn) in
              if ok : bool then start dst else finish dst
          | Fail _ => start dstConn
          end
        else start dstConn
    end.
End tunnel.

(** ** Sending the ClientHello *)

(** A policy the last switch of [handleTLS] has a way of sending for. *)
Definition servable (p : Policy) (record : bytes) (h : hello) : Prop :=
  pMode p ≠ ModeBlock ∧ pMode p ≠ ModeUnknown ∧
  (pMode p ≠ ModeTLSAlert → forwardable p record h).

Lemma JoinHostPort_nonempty host port : JoinHostPort host port ≠ "".
Proof. unfold JoinHostPort. destruct (contains_byte host ":"); [done|]. by destruct host. Qed.

Lemma get_first (s : string) : s ≠ "" → ∃ c, String.get 0 s = Some c.
Proof. destruct s; [done|]. by eexists. Qed.

Section hello_sending.
Context {G : Type} `{L : HasWorldLaws G} `{T : !TTLService G} `{TL : !TTLServiceLaws G}
  `{R : !Resolver G} `{RL : !ResolverLaws G}.
Context (rules : Rules) (outs : list splice) (pageSize : Z).

Lemma onW_quiet {A} (m : St World A) g :
  Silent m → ∃ a g', onW m g = Some (a, g') ∧ sent (wget g') = sent (wget g).
Proof.
  intros Hm. destruct (Hm (wget g)) as (a & w & Hw & Hs).
  exists a, (wset w g). split; [by apply onW_eq|]. by rewrite wget_wset.
Qed.

#[local] Instance ensure_silent dst target timeout : Silent (ensure dst target timeout).
Proof.
  destruct dst as [d|]; [apply ret_silent|]. apply bind_silent; [|intros; apply ret_silent].
  intros w. unfold dial, call. destruct (default None (head (verdicts w)));
    (eexists _, _; split; [reflexivity|]; rewrite sent_snoc; apply app_nil_r).
Qed.

Lemma alert_total c ver d g :
  len ver = 2 → ∃ g', onW (sendTLSAlert c ver d tlsAlertLevelFatal) g = Some (tt, g').
Proof.
  destruct ver as [|v0 [|v1 [|? ?]]]; intros Hv; try (unfold len in Hv; simpl in Hv; lia).
  by eexists.
Qed.

(** The policies that can be in force at the end: the tunnel's, or, when it asks
    for an override and the name is another, one made for the name. *)
Definition in_force (p : Policy) (originHost sni : string) (q : Policy) : Prop :=
  q = p ∨
  originHost ≠ sni ∧ (pSniff p = SniffOverrideAlways ∨ pSniff p = SniffOverridePolicyExists) ∧
  ∃ b gen g0 g1, genPolicy rules sni false b g0 = Some (gen, g1) ∧ gPolicy gen = Some q ∧
    pMode q ≠ ModeTLSAlert.

Lemma sniff_override_spec p h originHost sni target originPort cliConn dstConn g :
  len (prtVer h) = 2 → target ≠ "" → originHost ≠ sni →
  ∃ sw g', sniff_override rules p h sni target originPort cliConn dstConn g = Some (sw, g') ∧
    ∀ d q t, sw = Some (d, q, t) →
      sent (wget g') = sent (wget g) ∧ t ≠ "" ∧ in_force p originHost sni q.
Proof.
  intros Hv Ht Hne. unfold sniff_override.
  set (keep := ret (Some (dstConn, p, target))).
  assert (Hkeep : ∀ g2, wget g2 = wget g ∨ sent (wget g2) = sent (wget g) → ∃ sw g', keep g2 = Some (sw, g') ∧ ∀ d q t, sw = Some (d, q, t) →
      sent (wget g') = sent (wget g) ∧ t ≠ "" ∧ in_force p originHost sni q).
  { intros g2 Hg2. eexists _, _. split; [done|]. intros ??? H'. injection H' as <- <- <-.
    split; [destruct Hg2 as [-> | ->]; done|]. split; [done|]. by left. }
  destruct (negb _) eqn:Hmode; [apply Hkeep; by left|].
  apply negb_false_iff, orb_true_iff in Hmode. rewrite !bool_decide_eq_true in Hmode.
  destruct (hasECH h); [apply Hkeep; by left|].
  set (b := bool_decide (pSniff p = SniffOverridePolicyExists)).
  destruct (genPolicy_still rules sni false b g) as (gen & g1 & Hg & Hw).
  unfold bind at 1. rewrite Hg.
  destruct (failed gen) eqn:Hf; [apply Hkeep; by left|].
  destruct (domainNotFound gen) eqn:Hn; [apply Hkeep; by left|].
  destruct (blocked gen || _) eqn:Hb; [by eexists _, _|].
  destruct (genPolicy_shape _ _ _ _ _ _ _ Hg) as [->|[->|[->|(host & q & -> & _)]]]; try done.
  cbn [gPolicy gen_ok]. rewrite bind_lift_Some. destruct (decide (pMode q = ModeTLSAlert)) as [Ha|Ha].
  { unfold bind. destruct (alert_total cliConn (prtVer h) tlsAlertAccessDenied g1 Hv) as (g2 & ->).
    by eexists _, _. }
  set (newTarget := JoinHostPort _ _).
  unfold bind at 1, onW at 1, dial, call at 1.
  destruct (default None (head (verdicts (wget g1)))).
  { apply Hkeep. right. by rewrite wget_wset, sent_snoc, app_nil_r, Hw. }
  set (g2 := wset _ g1).
  assert (sent (wget g2) = sent (wget g)) as Hs2
    by (unfold g2; by rewrite wget_wset, sent_snoc, app_nil_r, Hw).
  assert (Hif : in_force p originHost sni q) by (right; split; [done|]; split; [done|]; by exists b, (gen_ok host q), g, g1).
  destruct dstConn as [d|].
  - destruct (onW_quiet (ignoring (EClose d)) g2) as (u & g3 & Hg3 & Hs3); [by apply ignoring_silent|].
    unfold bind at 1. rewrite Hg3. eexists _, _. split; [done|]. intros ??? H'. injection H' as <- <- <-.
    split; [by rewrite Hs3|]. split; [apply JoinHostPort_nonempty|done].
  - eexists _, _. split; [done|]. intros ??? H'. injection H' as <- <- <-.
    split; [done|]. split; [apply JoinHostPort_nonempty|done].
Qed.

Lemma send_hello_emits d p target record h :
  0 < pageSize → target ≠ "" → sni_in_bounds record 58 h → servable p record h → pMode p ≠ ModeTLSAlert →
  ∃ x, read_as d p record h x ∧ ∀ g, emits d x (send_hello outs pageSize d p target record h) g.
Proof.
  intros Hp Ht Hb (Hnb & Hnu & Hf) Ha. specialize (Hf Ha). revert Hf.
  unfold forwardable, read_as, send_hello.
  assert (∀ g, emits d record (onW (write d record)) g) as Hw.
  { intros g. apply (onW_emits _ _ _ [EWrite d record]); [apply _|].
    simpl. by rewrite decide_True, app_nil_r. }
  destruct (pMode p); intros Hf; try done; try by exists record.
  - destruct (sendRecords_runs d record (sniStart h) (sniLen h) (NumRecords p) (NumSegments p)
      (IsTrue (OOB p)) (IsTrue (OOBEx p)) (IsTrue (ModMinorVer p)) (IsTrue (WaitForAck p))
      (SendInterval p) Hf) as (l & Hrun & Hd).
    exists (inband d l). split; [by exists l|]. intros g. by apply (onW_emits _ _ _ l).
  - exists record. split; [done|]. intros g.
    assert (0 ≤ sniLen h ∧ sniStart h + sniLen h ≤ len record) as [H1 H2]
      by (destruct Hb as [[? ?]|(? & ? & ?)]; lia).
    destruct (get_first target Ht) as [ch ->]. rewrite bind_lift_Some.
    unfold emits. rewrite bindE_unfold.
    destruct (fakeTTL_frame p target g) as ([ttl|e] & g1 & -> & Hg1); [|by eexists _, _].
    destruct (desync_emits outs pageSize d record _ _ ttl (FakeSleep p) g1 Hp Hf H1 H2) as (r & g' & Hr & Hok).
    exists r, g'. by rewrite <-Hg1.
Qed.
(** The end of [handleTLS]: connect, then send; what arrives is of the kind [P]. *)
Lemma connect_and_send (X : conn → St G (result unit)) (P : conn → bytes → Prop) dst target timeout g :
  (∀ d, ∃ x, P d x ∧ ∀ g, emits d x (X d) g) →
  ∃ r ok g', bind (onW (ensure dst target timeout)) (λ d,
      match d with
      | None => ret (None, false)
      | Some d => let* r := X d in ret match r with Ok _ => (Some d, true) | Fail _ => (None, false) end
      end) g = Some ((r, ok), g') ∧
    (ok = false → r = None) ∧
    (ok = true → ∃ d l, r = Some d ∧ sent (wget g') = sent (wget g) ++ l ∧ P d (inband d l)).
Proof.
  intros HX. destruct (onW_quiet (ensure dst target timeout) g) as (d & g2 & Hg2 & Hs2); [apply ensure_silent|].
  unfold bind at 1. rewrite Hg2. destruct d as [d|]; [|by eexists _, _, _].
  destruct (HX d) as (x & Hx & Hem). destruct (Hem g2) as (r & g3 & Hg3 & Hok).
  unfold bind. rewrite Hg3. destruct r as [[]|e]; eexists _, _, _; (split; [done|]); [|done].
  split; [done|]. intros _. destruct (Hok eq_refl) as (l & Hl & Hi).
  exists d, l. split; [done|]. split; [by rewrite Hl, Hs2|by rewrite Hi].
Qed.

(** The policy, the connection and the target after a possible override. *)
Lemma switch_spec p h originHost sni target originPort cliConn dstConn g :
  len (prtVer h) = 2 → target ≠ "" → pMode p ≠ ModeTLSAlert →
  ∃ sw g', (if decide (originHost ≠ sni)
      then sniff_override rules p h sni target originPort cliConn dstConn
      else ret (Some (dstConn, p, target))) g = Some (sw, g') ∧
    ∀ d q t, sw = Some (d, q, t) →
      sent (wget g') = sent (wget g) ∧ t ≠ "" ∧ in_force p originHost sni q ∧ pMode q ≠ ModeTLSAlert.
Proof.
  intros Hv Ht Ha. case_decide as Hne.
  - destruct (sniff_override_spec p h originHost sni target originPort cliConn dstConn g Hv Ht Hne)
      as (sw & g2 & Hsw & Hspec).
    exists sw, g2. split; [done|]. intros d q t Heq. destruct (Hspec d q t Heq) as (? & ? & Hif).
    split; [done|]. split; [done|]. split; [done|].
    destruct Hif as [->|(_&_&?&?&?&?&?&?&?)]; done.
  - eexists _, _. split; [done|]. intros ??? H'. injection H' as <- <- <-.
    do 2 (split; [done|]). split; [by left|done].
Qed.
End hello_sending.

Lemma readN_ok c n w record rest :
  inbox w !! cid c = Some (record ++ rest) → len record = n →
  ∃ w', readN c n w = Some (Ok record, w') ∧ trace w' = trace w ∧ verdicts w' = verdicts w.
Proof.
  intros Hi Hn. unfold readN. rewrite Hi. cbn [default from_option id].
  assert (take (Z.to_nat n) (record ++ rest) = record) as Htk.
  { rewrite <-Hn. unfold len. rewrite Nat2Z.id. apply take_app_length. }
  rewrite Htk, decide_True by done. by eexists.
Qed.


(** A client whose ClientHello is refused gets exactly one TLS alert, and
    nothing of it is forwarded: mode [tls-alert] answers "access denied", and a
    ClientHello without key_share where TLS 1.3 is required "protocol version". *)
Theorem handleTLS_refuses {G : Type} `{L : HasWorldLaws G} `{T : !TTLService G} `{R : !Resolver G}
    (rules : Rules) (outs : list splice) (pageSize : Z) (p : Policy) (originHost target originPort : string)
    (cliConn : conn) (dstConn : option conn) (record rest : bytes) (h : hello) (g : G) :
  5 ≤ len record → inbox (wget g) !! cid cliConn = Some (record ++ rest) →
  parseClientHello record = Some h → helloErr h = None →
  pMode p = ModeTLSAlert ∨ (IsTrue (TLS13Only p) = true ∧ hasKeyShare h = false) →
  ∃ g' v0 v1, handleTLS rules outs pageSize (len record) p originHost target originPort cliConn dstConn g
      = Some ((None, false), g') ∧ prtVer h = [v0; v1] ∧
    events (wget g') = events (wget g) ++
      [EWrite cliConn (tls_alert v0 v1
         (if decide (pMode p = ModeTLSAlert) then tlsAlertAccessDenied else tlsAlertProtocolVersion)
         tlsAlertLevelFatal)].
Proof.
  intros Hlen Hin Hh He Href. unfold handleTLS.
  destruct (parseClientHello_total record Hlen) as (h' & Hh' & Hb). rewrite Hh in Hh'. injection Hh' as <-.
  destruct (Hb He) as [Hv _]. destruct (prtVer h) as [|v0 [|v1 [|? ?]]] eqn:Ev;
    try (unfold len in Hv; simpl in Hv; lia).
  destruct (readN_ok cliConn (len record) (wget g) record rest Hin eq_refl) as (w1 & Hrd & Htr & Hvd).
  unfold bind at 1, onW at 1. rewrite Hrd, Hh, bind_lift_Some, He, Ev.
  destruct (decide (pMode p = ModeTLSAlert)) as [|Hna].
  - eexists _, v0, v1. split; [reflexivity|]. split; [done|].
    rewrite wget_wset, wget_wset, events_snoc. unfold events. by rewrite Htr.
  - destruct Href as [|[-> ->]]; [done|]. eexists _, v0, v1. split; [reflexivity|]. split; [done|].
    rewrite wget_wset, wget_wset, events_snoc. unfold events. by rewrite Htr.
Qed.

Section from_hello.
Context {G : Type} `{L : HasWorldLaws G} `{T : !TTLService G} `{R : !Resolver G}.
Context (rules : Rules) (outs : list splice) (pageSize : Z).
Context (ReadRequest : bytes → result Request * bytes) (Request_Write : Request → bytes)
  (Response_Write : Response → bytes) (StatusText : Z → string).

(** A tunnel whose first bytes are a TLS record goes through [handleTLS]. *)
Lemma handleTunnel_TLS p dstConn cliConn target originHost originPort (g : G) record rest :
  pMode p ≠ ModeRaw → inbox (wget g) !! cid cliConn = Some (record ++ rest) →
  route (record ++ rest) = TLSRecord record rest → 10 ≤ len (record ++ rest) →
  handleTunnel rules outs pageSize ReadRequest Request_Write Response_Write StatusText
    p dstConn cliConn target originHost originPort g =
  bind (handleTLS rules outs pageSize (len record) p originHost target originPort cliConn dstConn)
    (λ '(dst, ok), if ok : bool then
       match dst with
       | Some d => if is_tcp cliConn && is_tcp d then ret (Forwarding cliConn d)
                   else bind (onW (closeBoth cliConn dst)) (λ _, ret Ended)
       | None => bind (onW (closeBoth cliConn None)) (λ _, ret Ended)
       end
     else bind (onW (closeBoth cliConn dst)) (λ _, ret Ended)) g.
Proof.
  intros Hm Hin Hroute H10. unfold handleTunnel. rewrite decide_False by done.
  unfold bind at 1, onW at 1, peek. rewrite Hin. cbn [default from_option id].
  rewrite decide_True, wset_wget by done.
  destruct (record ++ rest) as [|b0 [|b1 [|b2 [|b3 [|b4 s]]]]] eqn:Es; try done.
  set (pk := take (Z.to_nat 10) _).
  assert (∃ s', pk = b0 :: b1 :: b2 :: b3 :: b4 :: s') as [s' ->] by (by exists (take 5 s)).
  unfold route in Hroute. destruct (decide (bZ b0 ≠ _ ∨ _)) as [|Htls]; [done|].
  change (idx (b0 :: b1 :: b2 :: b3 :: b4 :: s') 0) with (Some b0).
  change (idx (b0 :: b1 :: b2 :: b3 :: b4 :: s') 1) with (Some b1). rewrite !bind_lift_Some.
  rewrite decide_True.
  2: { split; [destruct (decide (bZ b0 = tlsRecordTypeHandshake))|
               destruct (decide (bZ b1 = tlsMajorVersion))]; [done|exfalso; auto|done|exfalso; auto]. }
  change (slice (b0 :: b1 :: b2 :: b3 :: b4 :: s') 3 5) with
    (if decide (0 ≤ 3 ≤ 5 ∧ 5 ≤ len (b0 :: b1 :: b2 :: b3 :: b4 :: s')) then Some [b3; b4] else None).
  rewrite decide_True by (unfold len; simpl; lia).
  rewrite bind_lift_Some, be16_cons, bind_lift_Some.
  pose proof (bZ_range b3). pose proof (bZ_range b4).
  destruct (decide _) as [|Hle] in Hroute; [done|]. injection Hroute as Hrec _.
  assert (len record = 5 + (bZ b3 * 256 + bZ b4)) as <-; [|done].
  rewrite <-Hrec. unfold len. rewrite length_take_le by lia. lia.
Qed.
End from_hello.

(** Whenever [handleTLS] gives up, [handleTunnel] closes the client and
    nothing else: a destination that was already connected, or that [handleTLS]
    has dialled itself, stays open. *)
Theorem handleTunnel_leaks_destination {G : Type} `{L : HasWorldLaws G} `{T : !TTLService G} `{R : !Resolver G}
    (rules : Rules) (outs : list splice) (pageSize : Z)
    (ReadRequest : bytes → result Request * bytes) (Request_Write : Request → bytes)
    (Response_Write : Response → bytes) (StatusText : Z → string)
    (p : Policy) (dstConn newConn : option conn) (cliConn : conn) (target originHost originPort : string)
    (record rest : bytes) (g g1 : G) :
  pMode p ≠ ModeRaw → inbox (wget g) !! cid cliConn = Some (record ++ rest) →
  route (record ++ rest) = TLSRecord record rest → 10 ≤ len (record ++ rest) →
  handleTLS rules outs pageSize (len record) p originHost target originPort cliConn dstConn g
    = Some ((newConn, false), g1) →
  newConn = None →
  ∃ g', handleTunnel rules outs pageSize ReadRequest Request_Write Response_Write StatusText
      p dstConn cliConn target originHost originPort g = Some (Ended, g') ∧
    events (wget g') = events (wget g1) ++ [EClose cliConn].
Proof.
  intros Hm Hin Hr H10 Hh ->. rewrite (handleTunnel_TLS _ _ _ _ _ _ _ _ _ _ _ _ _ _ record rest) by done.
  unfold bind at 1. rewrite Hh. eexists. split; [reflexivity|].
  by rewrite wget_wset, events_snoc.
Qed.

Lemma handleHTTP_status Request_Write Response_Write StatusText req p originHost target cliConn dstConn w :
  HttpStatus p ≠ 0 → HttpStatus p ≠ -1 →
  let host := if decide (rqHost req = "") then
                if decide (rqURLHost req = "") then originHost else rqURLHost req
              else rqHost req in
  ∃ w', handleHTTP Request_Write Response_Write StatusText req p originHost target cliConn dstConn w
          = Some ((None, false), w') ∧
    events w' = events w ++
      [EWrite cliConn (Response_Write (status_response StatusText req (HttpStatus p) host));
       ESys "close request body"].
Proof.
  intros H0 H1 host. unfold handleHTTP. rewrite decide_False by (intros [|]; done).
  eexists. split; [reflexivity|]. unfold events. simpl. by rewrite !fmap_app, <-app_assoc.
Qed.

(** An HTTP request through a tunnel whose policy sets a status is answered
    with that status and the connection is closed: nothing is dialled, nothing
    forwarded.  A 301 or 302 points to the same resource under https, on the
    host the request names, else the one of its URL, else the tunnel's. *)
Theorem handleTunnel_http_status {G : Type} `{L : HasWorldLaws G} `{T : !TTLService G} `{R : !Resolver G}
    (rules : Rules) (outs : list splice) (pageSize : Z)
    (ReadRequest : bytes → result Request * bytes) (Request_Write : Request → bytes)
    (Response_Write : Response → bytes) (StatusText : Z → string)
    (p : Policy) (cliConn : conn) (target originHost originPort host : string)
    (b rest : bytes) (req : Request) (g : G) :
  pMode p ≠ ModeRaw → HttpStatus p ≠ 0 → HttpStatus p ≠ -1 →
  inbox (wget g) !! cid cliConn = Some b → 10 ≤ len b →
  bytesHasPrefix (take 10 b) httpMethods = true →
  ReadRequest b = (Ok req, rest) →
  host = (if decide (rqHost req = "") then
            if decide (rqURLHost req = "") then originHost else rqURLHost req
          else rqHost req) →
  ∃ g' resp, handleTunnel rules outs pageSize ReadRequest Request_Write Response_Write StatusText
      p None cliConn target originHost originPort g = Some (Ended, g') ∧
    StatusCode resp = HttpStatus p ∧ rsClose resp = true ∧ ContentLength resp = 0 ∧
    Location resp = (if decide (HttpStatus p = 301 ∨ HttpStatus p = 302)
                     then Some ("https://" +:+ host +:+ rqRequestURI req) else None) ∧
    events (wget g') = events (wget g) ++
      [EWrite cliConn (Response_Write resp); ESys "close request body"; EClose cliConn].
Proof.
  intros Hm H0 H1 Hin H10 Hpre Hreq Hhost. unfold handleTunnel. rewrite decide_False by done.
  unfold bind at 1, onW at 1, peek. rewrite Hin. cbn [default from_option id].
  rewrite decide_True, wset_wget by done. change (Z.to_nat 10) with 10%nat.
  assert (Hl : len (take 10 b) = 10) by (apply (len_take 10); lia).
  destruct (take 10 b) as [|b0 [|b1 pk]]; [unfold len in Hl; simpl in Hl; lia..|].
  change (idx (b0 :: b1 :: pk) 0) with (Some b0). change (idx (b0 :: b1 :: pk) 1) with (Some b1).
  rewrite !bind_lift_Some. rewrite decide_False.
  2: { intros [Hb0 _]. revert Hpre. clear -Hb0. assert (b0 = Byte.x16) as -> by (by apply bZ_inj).
       done. }
  rewrite Hpre. unfold bind at 1, onW at 1, read_request. rewrite Hin. cbn [default from_option id].
  rewrite Hreq. set (g1 := wset _ g).
  assert (events (wget g1) = events (wget g)) as Hev by (unfold g1; by rewrite wget_wset).
  destruct (handleHTTP_status Request_Write Response_Write StatusText req p originHost target cliConn
    None (wget g1) H0 H1) as (w' & Hw & Hevs). rewrite <-Hhost in Hevs.
  unfold bind at 1, onW at 1. rewrite Hw.
  eexists _, (status_response StatusText req (HttpStatus p) host). split; [reflexivity|].
  do 4 (split; [done|]). by rewrite wget_wset, wget_wset, events_snoc, Hevs, Hev, <-app_assoc.
Qed.

(** ** Witnesses *)

#[local] Instance tunnel_ttl : TTLService plain_state := cached_ttl probe5 None 60.
#[local] Instance tunnel_ttl_laws : TTLServiceLaws plain_state := cached_ttl_laws probe5 None 60.
#[local] Instance tunnel_resolver : Resolver plain_state := fixed_resolver plain_state.

Definition client : conn := mkConn 0 true.
Definition client_sends (b : bytes) : plain_state :=
  (mkWorld [] [] 0 [] [] [] {[ 0 := b ]}, Some ∅).
Definition hello_state : plain_state := client_sends (hello_bytes ++ [Byte.x17]).


Lemma handleTLS_refuses_witness :
  let p := with_mode ModeTLSAlert 0 0 in
  ∃ g' v0 v1, handleTLS block_rules [] 4096 (len hello_bytes) p "a.b" "1.2.3.4:443" "443" client
      (Some hello_conn) hello_state = Some ((None, false), g') ∧
    events (wget g') = [EWrite client (tls_alert v0 v1 tlsAlertAccessDenied tlsAlertLevelFatal)].
Proof.
  intros p. destruct (parseClientHello hello_bytes) as [h|] eqn:Hh; [|vm_compute in Hh; discriminate].
  destruct (handleTLS_refuses block_rules [] 4096 p "a.b" "1.2.3.4:443" "443" client (Some hello_conn)
    hello_bytes [Byte.x17] h hello_state) as (g' & v0 & v1 & Hrun & _ & Hev); try done.
  - vm_compute in Hh. by injection Hh as <-.
  - by left.
  - exists g', v0, v1. split; [exact Hrun|exact Hev].
Defined.

Definition get_request : bytes := bytes_of_string "GET / HTTP/1.1".
Definition no_parser (b : bytes) : result Request * bytes :=
  (Ok (mkReq "GET" "a.example" "" "" "/x" "HTTP/1.1" ∅ []), []).
Definition print_request (r : Request) : bytes := bytes_of_string (rqMethod r).
Definition print_response (r : Response) : bytes := bytes_of_string (Status r).

Lemma handleTunnel_leaks_destination_witness :
  let p := with_mode ModeTLSAlert 0 0 in
  ∃ g', handleTunnel block_rules [] 4096 no_parser print_request print_response (λ _, "")
      p (Some hello_conn) client "1.2.3.4:443" "a.b" "443" hello_state = Some (Ended, g') ∧
    EClose hello_conn ∉ events (wget g').
Proof.
  intros p.
  destruct (handleTLS block_rules [] 4096 (len hello_bytes) p "a.b" "1.2.3.4:443" "443" client
      (Some hello_conn) hello_state) as [[[nc ok] g1]|] eqn:Hh; [|vm_compute in Hh; discriminate].
  assert (ok = false ∧ nc = None) as [-> Hnc] by (vm_compute in Hh; by injection Hh).
  destruct (handleTunnel_leaks_destination block_rules [] 4096 no_parser print_request print_response
    (λ _, "") p (Some hello_conn) nc client "1.2.3.4:443" "a.b" "443" hello_bytes [Byte.x17]
    hello_state g1) as (g' & Hrun & Hev); try done.
  exists g'. split; [exact Hrun|]. rewrite Hev.
  vm_compute in Hh. injection Hh as _ <-. vm_compute.
  intros H. repeat (apply elem_of_cons in H as [H|H]; [discriminate|]). by apply not_elem_of_nil in H.
Defined.

Definition redirect_policy : Policy :=
  normalizePolicyDefaults
    (mkPolicy BoolUnset SniffOverrideUnset DNSModeUnknown 0 "" "" (-1) 301 BoolUnset ModeDirect
       0 0 BoolUnset BoolUnset BoolUnset BoolUnset 0 (-1) 0 0 0 0).

Lemma handleTunnel_http_status_witness :
  ∃ g' resp, handleTunnel block_rules [] 4096 no_parser print_request print_response (λ _, "Moved Permanently")
      redirect_policy None client "1.2.3.4:80" "1.2.3.4" "80" (client_sends get_request) = Some (Ended, g') ∧
    Location resp = Some "https://a.example/x".
Proof.
  destruct (handleTunnel_http_status block_rules [] 4096 no_parser print_request print_response
    (λ _, "Moved Permanently") redirect_policy client "1.2.3.4:80" "1.2.3.4" "80" "a.example" get_request []
    (mkReq "GET" "a.example" "" "" "/x" "HTTP/1.1" ∅ []) (client_sends get_request))
    as (g' & resp & Hrun & _ & _ & _ & Hloc & _); try done.
  exists g', resp. split; [exact Hrun|]. rewrite Hloc. by vm_compute.
Defined.
