(* ===== verification/Relay.v ===== *)
(** The end of [handleTunnel] ([internal/tunnel.go]): two copies run at the same
    time, one in a goroutine, and share one [sync.Once] for closing both
    connections.  The steps of the two and of the deferred call may interleave
    in any order: the program is a step relation, and the theorems hold of every
    run: the connections are closed exactly once, at the end of one direction
    the other goes on, and the handler always returns. *)

From S2P Require Import Prelude Conn.

(** [Up] is the goroutine (client to destination), [Down] the handler. *)
Inductive side := Up | Down.
#[export] Instance side_eq_dec : EqDecision side.
Proof. solve_decision. Defined.

(** Where a side is. *)
Inductive pc :=
| Copying                              (* in [io.Copy] *)
| Copied (err : option error)          (* [io.Copy] has returned *)
| Closing                              (* about to call [once.Do(closeBoth)] *)
| Finished.

Record relay := mkRelay {
  at_up : pc;
  at_down : pc;
  once : bool;                         (* [once] has run [closeBoth] *)
  returned : bool;                     (* the deferred call is over *)
  log : list (event * option error)
}.

Definition at_side (i : side) (s : relay) : pc :=
  match i with Up => at_up s | Down => at_down s end.
Definition move (i : side) (p : pc) (s : relay) : relay :=
  match i with
  | Up => mkRelay p (at_down s) (once s) (returned s) (log s)
  | Down => mkRelay (at_up s) p (once s) (returned s) (log s)
  end.
Definition record_call (e : event) (r : option error) (s : relay) : relay :=
  mkRelay (at_up s) (at_down s) (once s) (returned s) (log s ++ [(e, r)]).

Definition relay_start : relay := mkRelay Copying Copying false false [].

Section relay.
Context (cliConn dstConn : conn).

(** Where a side reads from and writes to. *)
Definition source (i : side) : conn := match i with Up => cliConn | Down => dstConn end.
Definition target (i : side) : conn := match i with Up => dstConn | Down => cliConn end.

(** [once.Do(closeBoth)]; the errors of [Close] are only logged. *)
Definition once_close (s : relay) : relay :=
  if once s then s
  else mkRelay (at_up s) (at_down s) true (returned s)
         (log s ++ [(EClose cliConn, None); (EClose dstConn, None)]).

(** One step of one side, or of the deferred call once both are done.  A copy
    ends when its source does or with an error; calls report [net.ErrClosed] only
    on a connection that this program has closed. *)
Inductive relay_step : relay → relay → Prop :=
| copy_ends i err s :
    at_side i s = Copying → (err = Some ErrClosed → once s = true) →
    relay_step s (move i (Copied err) (record_call (ECopy (target i) (source i)) err s))
| half_close i s :
    at_side i s = Copied None →
    relay_step s (move i Finished (record_call (ECloseWrite (target i)) None s))
| half_close_fails i e s :
    at_side i s = Copied None → (e = ErrClosed → once s = true) →
    relay_step s (move i Closing (record_call (ECloseWrite (target i)) (Some e) s))
| copy_closed i s :
    at_side i s = Copied (Some ErrClosed) → relay_step s (move i Finished s)
| copy_failed i e s :
    at_side i s = Copied (Some e) → e ≠ ErrClosed → relay_step s (move i Closing s)
| close_both i s :
    at_side i s = Closing → relay_step s (move i Finished (once_close s))
| handler_returns s :
    at_up s = Finished → at_down s = Finished → returned s = false →
    relay_step s (let s := once_close s in mkRelay (at_up s) (at_down s) (once s) true (log s)).

Definition reachable (s : relay) : Prop := rtc relay_step relay_start s.

Definition closes (c : conn) (l : list (event * option error)) : nat :=
  length (filter (λ x, x.1 = EClose c) l).

(** Something other than an orderly end has happened. *)
Definition trouble (l : list (event * option error)) : Prop :=
  ∃ x e, x ∈ l ∧ x.2 = Some e ∧ e ≠ ErrClosed.
(** Direction [i] has ended. *)
Definition copied (i : side) (l : list (event * option error)) : Prop :=
  ∃ err, (ECopy (target i) (source i), err) ∈ l.

(** *** The invariant *)

Definition relay_inv (s : relay) : Prop :=
  (∀ c, c = cliConn ∨ c = dstConn →
     cliConn ≠ dstConn → closes c (log s) = if once s then 1%nat else 0%nat) ∧
  (returned s = true → once s = true ∧ at_up s = Finished ∧ at_down s = Finished) ∧
  (∀ i, at_side i s ≠ Copying → copied i (log s)) ∧
  (∀ i, at_side i s = Closing → trouble (log s) ∨ once s = true) ∧
  (∀ i e, at_side i s = Copied (Some e) → e ≠ ErrClosed → trouble (log s)) ∧
  (once s = true → trouble (log s) ∨ returned s = true).

Lemma closes_snoc c l e r :
  closes c (l ++ [(e, r)]) = (closes c l + if decide (e = EClose c) then 1 else 0)%nat.
Proof.
  unfold closes. rewrite filter_app, length_app. f_equal.
  case_decide as H; [by rewrite filter_cons_True|by rewrite filter_cons_False].
Qed.

Lemma trouble_app l l' : trouble l → trouble (l ++ l').
Proof. intros (x & e & Hx & H). exists x, e. split; [apply elem_of_app; by left|done]. Qed.
Lemma trouble_new l e e' : e' ≠ ErrClosed → trouble (l ++ [(e, Some e')]).
Proof. intros H. exists (e, Some e'), e'. split; [apply elem_of_app; right; by left|done]. Qed.
Lemma copied_app i l l' : copied i l → copied i (l ++ l').
Proof. intros (err & H). exists err. apply elem_of_app. by left. Qed.

Lemma at_side_move i j p s : at_side j (move i p s) = if decide (j = i) then p else at_side j s.
Proof. by destruct i, j. Qed.
Lemma once_close_sides i s : at_side i (once_close s) = at_side i s.
Proof. unfold once_close. by destruct (once s), i. Qed.

Lemma relay_inv_start : relay_inv relay_start.
Proof.
  split; [done|]. split; [done|]. split; [by intros []|]. split; [by intros []|].
  by split; [intros []|].
Qed.

Lemma closes_once_close c s :
  c = cliConn ∨ c = dstConn → cliConn ≠ dstConn →
  closes c (log s) = (if once s then 1%nat else 0%nat) → closes c (log (once_close s)) = 1%nat.
Proof.
  intros Hc Hne H1. unfold once_close. destruct (once s); [done|]. cbn [log].
  change [(EClose cliConn, None); (EClose dstConn, None)] with
    ([(EClose cliConn, @None error)] ++ [(EClose dstConn, @None error)]).
  rewrite app_assoc, !closes_snoc, H1.
  destruct Hc as [-> | ->]; repeat case_decide; congruence || done.
Qed.

Lemma once_close_inv s :
  (trouble (log s) ∨ once s = true) → returned s = false → relay_inv s → relay_inv (once_close s).
Proof.
  intros Ht Hr Hinv. destruct (once s) eqn:Ho.
  { unfold once_close. by rewrite Ho. }
  destruct Hinv as (H1 & H2 & H3 & H4 & H5 & H6). unfold relay_inv.
  setoid_rewrite once_close_sides. unfold once_close. rewrite Ho in *.
  cbn [once log returned at_up at_down]. destruct Ht as [Ht|]; [|done].
  split.
  { intros c Hc Hne. pose proof (closes_once_close c s Hc Hne) as Hx. rewrite Ho in Hx.
    specialize (Hx (H1 c Hc Hne)). unfold once_close in Hx. by rewrite Ho in Hx. }
  split; [congruence|]. split; [intros i Hi; by apply copied_app, H3|].
  split; [by right|]. split; [intros i e Hi He; by eapply trouble_app, H5|].
  left. by apply trouble_app.
Qed.

(** A side that is not [Finished] shows that the handler has not returned. *)
Lemma not_returned i s : relay_inv s → at_side i s ≠ Finished → returned s = false.
Proof.
  intros (_ & H2 & _) Hn. destruct (returned s); [|done].
  destruct (H2 eq_refl) as (_ & Hu & Hd). by destruct i.
Qed.

(** Moving a side, with or without a call. *)
Lemma move_inv i p s :
  relay_inv s → copied i (log s) → at_side i s ≠ Finished →
  (p = Closing → trouble (log s) ∨ once s = true) →
  (∀ e, p = Copied (Some e) → e ≠ ErrClosed → trouble (log s)) →
  relay_inv (move i p s).
Proof.
  intros Hinv Hi Hf Hc He. pose proof (not_returned i s Hinv Hf) as Hr.
  destruct Hinv as (H1 & H2 & H3 & H4 & H5 & H6). unfold relay_inv.
  setoid_rewrite at_side_move.
  assert (log (move i p s) = log s ∧ once (move i p s) = once s ∧ returned (move i p s) = returned s)
    as (-> & -> & ->) by (by destruct i).
  split; [done|]. split; [congruence|].
  split; [intros j; case_decide; [by intros _; subst|apply H3]|].
  split; [intros j; case_decide; [done|apply H4]|].
  split; [intros j e; case_decide; [apply He|apply H5]|done].
Qed.

Lemma record_side i e r s : at_side i (record_call e r s) = at_side i s.
Proof. by destruct i. Qed.

Lemma record_inv e r s :
  relay_inv s → (∀ c, e ≠ EClose c) → relay_inv (record_call e r s).
Proof.
  intros (H1 & H2 & H3 & H4 & H5 & H6) He. unfold relay_inv.
  setoid_rewrite record_side. cbn [log once returned at_up at_down record_call].
  split; [intros c Hc Hne; rewrite closes_snoc, H1, decide_False by done; lia|].
  split; [done|]. split; [intros j Hj; by apply copied_app, H3|].
  split; [intros j Hj; destruct (H4 j Hj); [left; by apply trouble_app|by right]|].
  split; [intros j e' Hj Hne; by eapply trouble_app, H5|].
  intros Ho. destruct (H6 Ho); [left; by apply trouble_app|by right].
Qed.

Lemma relay_inv_step s s' : relay_inv s → relay_step s s' → relay_inv s'.
Proof.
  intros Hinv Hstep. pose proof Hinv as (H1 & H2 & H3 & H4 & H5 & H6).
  destruct Hstep as [i err s Hi He|i s Hi|i e s Hi He|i s Hi|i e s Hi He|i s Hi|s Hu Hd Hr].
  - apply move_inv; [by apply record_inv| |by rewrite record_side, Hi|done|].
    + exists err. apply elem_of_app. right. by left.
    + intros e H' Hne. injection H' as ->. by apply trouble_new.
  - apply move_inv; [by apply record_inv| |by rewrite record_side, Hi|done|done].
    apply copied_app, H3. by rewrite Hi.
  - apply move_inv; [by apply record_inv| |by rewrite record_side, Hi| |done].
    + apply copied_app, H3. by rewrite Hi.
    + intros _. destruct (decide (e = ErrClosed)); [right; by apply He|left; by apply trouble_new].
  - apply move_inv; [done|apply H3; by rewrite Hi|by rewrite Hi|done|done].
  - apply move_inv; [done|apply H3; by rewrite Hi|by rewrite Hi| |done].
    intros _. left. by eapply H5.
  - apply move_inv; [apply once_close_inv; [by eapply H4|by eapply not_returned; [|rewrite Hi]|done]| |
      by rewrite once_close_sides, Hi|done|done].
    unfold once_close. destruct (once s); [apply H3; by rewrite Hi|].
    apply copied_app, H3. by rewrite Hi.
  - pose proof (once_close_sides Up s) as Eu. pose proof (once_close_sides Down s) as Ed. simpl in Eu, Ed.
    split; [|split; [|split; [|split; [|split]]]]; cbn [once log returned at_up at_down].
    + intros c Hc Hne. rewrite (closes_once_close c s Hc Hne (H1 c Hc Hne)).
      unfold once_close. by destruct (once s) eqn:Ho; rewrite ?Ho.
    + intros _. rewrite Eu, Ed. split; [|done]. unfold once_close. by destruct (once s) eqn:Ho.
    + intros i Hi. assert (copied i (log s)) as Hcp by (apply H3; destruct i; simpl; congruence).
      unfold once_close. destruct (once s); [done|]. by apply copied_app.
    + intros [] Hi; simpl in Hi; congruence.
    + intros [] e Hi; simpl in Hi; congruence.
    + by right.
Qed.

Lemma reachable_inv s : reachable s → relay_inv s.
Proof.
  intros H. pose proof relay_inv_start as H0. revert H H0. unfold reachable.
  induction 1 as [|s s1 s2 Hstep _ IH]; [done|]. intros H0. by eapply IH, relay_inv_step.
Qed.

(** What is left to do. *)
Definition pc_left (p : pc) : nat :=
  match p with Copying => 3 | Copied _ => 2 | Closing => 1 | Finished => 0 end.
Definition left_to_do (s : relay) : nat :=
  pc_left (at_up s) + pc_left (at_down s) + if returned s then 0 else 1.

Lemma step_decreases s s' : relay_step s s' → (left_to_do s' < left_to_do s)%nat.
Proof.
  unfold left_to_do.
  destruct 1 as [[] err s Hi He|[] s Hi|[] e s Hi He|[] s Hi|[] e s Hi He|[] s Hi|s Hu Hd Hr];
    simpl in *; unfold once_close; try destruct (once s); simpl; try rewrite Hi; simpl; try lia;
    rewrite Hu, Hd, Hr; simpl; lia.
Qed.

Lemma nsteps_bound n s s' : nsteps relay_step n s s' → (n + left_to_do s' ≤ left_to_do s)%nat.
Proof.
  induction 1 as [|n s s1 s2 Hstep _ IH]; [lia|]. apply step_decreases in Hstep. lia.
Qed.

Lemma can_step s : returned s = false → ∃ s', relay_step s s'.
Proof.
  intros Hr.
  assert (∀ i, at_side i s ≠ Finished → ∃ s', relay_step s s') as Hside.
  { intros i Hi. destruct (at_side i s) as [|[e|]| |] eqn:E; [..|done].
    - eexists. by apply (copy_ends i None).
    - destruct (decide (e = ErrClosed)) as [->|]; eexists; [by eapply copy_closed|by eapply copy_failed].
    - eexists. by eapply half_close.
    - eexists. by eapply close_both. }
  destruct (at_up s) as [| | |] eqn:Eu; try (apply (Hside Up); simpl; congruence).
  destruct (at_down s) as [| | |] eqn:Ed; try (apply (Hside Down); simpl; congruence).
  eexists. by apply handler_returns.
Qed.
End relay.

(** ** The theorems *)

(** C20: however the two directions of a tunnel interleave, the two connections
    are closed at most once each, and exactly once by the time the handler has
    returned, when both copies are over. *)
Theorem relay_closes_once (cliConn dstConn c : conn) (s : relay) :
  reachable cliConn dstConn s → cliConn ≠ dstConn → c = cliConn ∨ c = dstConn →
  (closes c (log s) ≤ 1)%nat ∧
  (returned s = true → closes c (log s) = 1%nat ∧
     copied cliConn dstConn Up (log s) ∧ copied cliConn dstConn Down (log s)).
Proof.
  intros Hr Hne Hc. destruct (reachable_inv _ _ _ Hr) as (H1 & H2 & H3 & _).
  rewrite (H1 c Hc Hne). split; [destruct (once s); lia|].
  intros Hret. destruct (H2 Hret) as (-> & Hu & Hd). split; [done|].
  split; apply H3; simpl; congruence.
Qed.

(** One direction ending does not cut the other: as long as no copy and no
    half-close has failed, the connections are closed only when both directions
    have ended and the handler returns. *)
Theorem relay_half_closes (cliConn dstConn c : conn) (s : relay) :
  reachable cliConn dstConn s → cliConn ≠ dstConn → c = cliConn ∨ c = dstConn →
  ¬ trouble (log s) → closes c (log s) ≠ 0%nat →
  returned s = true ∧ copied cliConn dstConn Up (log s) ∧ copied cliConn dstConn Down (log s).
Proof.
  intros Hr Hne Hc Ht Hcl. destruct (reachable_inv _ _ _ Hr) as (H1 & H2 & H3 & _ & _ & H6).
  rewrite (H1 c Hc Hne) in Hcl. destruct (once s) eqn:Ho; [|done].
  destruct (H6 eq_refl) as [|Hret]; [done|]. destruct (H2 Hret) as (_ & Hu & Hd).
  split; [done|]. split; apply H3; simpl; congruence.
Qed.

(** When copies end, the relay does: no run has more than seven steps, and a
    run that has not returned can go on. *)
Theorem relay_terminates (cliConn dstConn : conn) (n : nat) (s : relay) :
  nsteps (relay_step cliConn dstConn) n relay_start s →
  (n ≤ 7)%nat ∧ (returned s = false → ∃ s', relay_step cliConn dstConn s s').
Proof.
  intros H. apply nsteps_bound in H. split; [change (left_to_do relay_start) with 7%nat in H; lia|]. apply can_step.
Qed.

(** ** Witnesses *)

Lemma relay_run (c d : conn) :
  ∃ s, nsteps (relay_step c d) 5 relay_start s ∧ returned s = true ∧
    log s = [(ECopy d c, None); (ECloseWrite d, None); (ECopy c d, None); (ECloseWrite c, None);
             (EClose c, None); (EClose d, None)].
Proof.
  eexists. split.
  - eapply nsteps_l; [by apply (copy_ends c d Up None)|].
    eapply nsteps_l; [by apply (half_close c d Up)|].
    eapply nsteps_l; [by apply (copy_ends c d Down None)|].
    eapply nsteps_l; [by apply (half_close c d Down)|].
    eapply nsteps_l; [by apply handler_returns|]. apply nsteps_O.
  - done.
Qed.

Definition end_a : conn := mkConn 0 true.
Definition end_b : conn := mkConn (-1) true.

Lemma relay_closes_once_witness :
  ∃ s, reachable end_a end_b s ∧ returned s = true ∧ closes end_a (log s) = 1%nat.
Proof.
  destruct (relay_run end_a end_b) as (s & Hrun & Hret & _). exists s.
  assert (Hr : reachable end_a end_b s) by (apply rtc_nsteps_2 in Hrun; exact Hrun).
  split; [exact Hr|]. split; [exact Hret|].
  exact (proj1 (proj2 (relay_closes_once end_a end_b end_a s Hr ltac:(discriminate) ltac:(by left)) Hret)).
Defined.

Lemma relay_half_closes_witness :
  ∃ s, reachable end_a end_b s ∧ ¬ trouble (log s) ∧ copied end_a end_b Down (log s).
Proof.
  destruct (relay_run end_a end_b) as (s & Hrun & Hret & Hlog). exists s.
  assert (Hr : reachable end_a end_b s) by (apply rtc_nsteps_2 in Hrun; exact Hrun).
  assert (Ht : ¬ trouble (log s)).
  { rewrite Hlog. intros (x & e & Hx & He & _).
    repeat (apply elem_of_cons in Hx as [->|Hx]; [discriminate|]). by apply not_elem_of_nil in Hx. }
  split; [exact Hr|]. split; [exact Ht|].
  refine (proj2 (proj2 (relay_half_closes end_a end_b end_b s Hr _ _ Ht _)));
    [discriminate|by right|rewrite Hlog; by vm_compute].
Defined.

Lemma relay_terminates_witness :
  ∃ s, nsteps (relay_step end_a end_b) 5 relay_start s ∧ (5 ≤ 7)%nat.
Proof.
  destruct (relay_run end_a end_b) as (s & Hrun & _). exists s. split; [exact Hrun|].
  exact (proj1 (relay_terminates end_a end_b 5 s Hrun)).
Defined.
