(* ===== verification/Socks5Server.v ===== *)
(** [internal/socks5.go]: the SOCKS5 server.  [socks5_request] is the handler up
    to its success reply, as a computation that fails where the handler returns
    and closes the client; [socks5Handler] goes on to [handleTunnel]. *)

From Stdlib Require Import Strings.Ascii.
From S2P Require Import Prelude GoStd GoNet Conn Policy Cache Desync ClientHello Fragment Routing.
From S2P Require Import Session TunBridge Tunnel.

Definition noAuthReply : bytes := [Byte.x05; Byte.x00].
(** The ten-byte replies, which differ in their second byte. *)
Definition socks5Reply (code : byte) : bytes :=
  [Byte.x05; code; Byte.x00; Byte.x01; Byte.x00; Byte.x00; Byte.x00; Byte.x00; Byte.x00; Byte.x00].
Definition socks5ReplySuccess : bytes := socks5Reply Byte.x00.
Definition socks5ReplyServerFailure : bytes := socks5Reply Byte.x01.
Definition socks5ReplyConnNotAllowed : bytes := socks5Reply Byte.x02.
Definition socks5ReplyCmdNotSupported : bytes := socks5Reply Byte.x07.
Definition socks5ReplyAtypNotSupported : bytes := socks5Reply Byte.x08.

(** The address [SOCKS5Accept] (and [HTTPAccept]) listens on: the flag, else the
    configured one; the error is printed, ["none"] turns the server off. *)
Definition listen_address (flag serverAddr : string) : result (option string) :=
  let listenAddr := if decide (flag = "") then serverAddr else flag in
  if decide (listenAddr = "") then Fail (ErrNew "bind address is not specified")
  else if decide (listenAddr = "none") then Ok None
  else Ok (Some listenAddr).

(** The number of the next connection. *)
Definition next_conn_id (connID : Z) : Z :=
  let connID := u32 (connID + 1) in if decide (1048575 < connID) then 1 else connID.

(** [sendReply]: whether the reply was sent. *)
Definition sendReply (c : conn) (reply : bytes) : St World bool :=
  let* r := write c reply in ret (is_ok r).

Section server.
Context {G : Type} `{HasWorld G} `{TTLService G} `{Resolver G}.
Context (rules : Rules).

(** The handler replies and returns. *)
Definition refuse_with {A} (c : conn) (reply : bytes) (e : error) : St G (result A) :=
  let* _ := onW (sendReply c reply) in throw e.

(** The switch on the address type: the host and whether it is an address. *)
Definition read_address (cliConn : conn) (atyp : Z) : St G (result (string * bool)) :=
  if decide (atyp = 1) then
    let*? ipBytes := onW (readN cliConn 4) in ret (Ok (IPString (bZ <$> ipBytes), true))
  else if decide (atyp = 4) then
    let*? ipBytes := onW (readN cliConn 16) in ret (Ok (IPString (bZ <$> ipBytes), true))
  else if decide (atyp = 3) then
    let*? lenByte := onW (readN cliConn 1) in
    let* n := lift (idx lenByte 0) in
    if decide (253 < bZ n) then throw (ErrNew "Domain length too long") else
    let*? domainBytes := onW (readN cliConn (bZ n)) in
    ret (Ok (string_of_bytes domainBytes, false))
  else refuse_with cliConn socks5ReplyAtypNotSupported (ErrNew "Invalid atyp").

(** What [handleTunnel] is called with. *)
Record tunnel_args := mkArgs {
  argPolicy : Policy;
  argDst : option conn;
  argTarget : string;
  argOriginHost : string;
  argOriginPort : string
}.

(** From the policy to the success reply. *)
Definition connect (cliConn : conn) (originHost : string) (isIP : bool) : St G (result tunnel_args) :=
  let* gen := genPolicy rules originHost isIP false in
  if failed gen then refuse_with cliConn socks5ReplyServerFailure (ErrNew "failed") else
  if blocked gen then refuse_with cliConn socks5ReplyConnNotAllowed (ErrNew "Connection blocked") else
  let*? portBytes := onW (readN cliConn 2) in
  let* dstPort := lift (be16 portBytes) in
  let originPort := itoa dstPort in
  let* policy := lift (gPolicy gen) in      (* a nil policy would be dereferenced *)
  let dstPort := if decide (Port policy ≠ 0 ∧ Port policy ≠ unsetInt)
                 then u16 (Port policy) else dstPort in
  let target := JoinHostPort (dstHost gen) (itoa dstPort) in
  let*? dstConn :=
    (if decide (ReplyFirst policy ≠ BoolTrue) then
       let* r := onW (dial target (ConnectTimeout policy)) in
       match r with
       | Ok d => ret (Ok (Some d))
       | Fail e => refuse_with cliConn socks5ReplyServerFailure e
       end
     else ret (Ok None)) in
  let* sent := onW (sendReply cliConn socks5ReplySuccess) in
  if negb sent then throw (ErrNew "Send SOCKS5 reply") else
  ret (Ok (mkArgs policy dstConn target originHost originPort)).

Definition socks5_request (cliConn : conn) : St G (result tunnel_args) :=
  let*? header := onW (readN cliConn 2) in
  let* ver := lift (idx header 0) in
  let* nmethods := lift (idx header 1) in
  if decide (bZ ver ≠ 5) then throw (ErrNew "Expected socks version 5") else
  let*? methods := onW (readN cliConn (bZ nmethods)) in
  if negb (existsb (λ b, bool_decide (b = Byte.x00)) methods)
  then throw (ErrNew "`no auth` method not found") else
  let*? _ := onW (write cliConn noAuthReply) in
  let*? header := onW (readN cliConn 4) in
  let* ver := lift (idx header 0) in
  let* cmd := lift (idx header 1) in
  let* atyp := lift (idx header 3) in
  if decide (bZ ver ≠ 5) then throw (ErrNew "Expected socks version 5") else
  if decide (bZ cmd ≠ 1)
  then refuse_with cliConn socks5ReplyCmdNotSupported (ErrNew "Expected cmd CONNECT") else
  let*? (originHost, isIP) := read_address cliConn (bZ atyp) in
  connect cliConn originHost isIP.

Context (outs : list splice) (pageSize : Z)
  (ReadRequest : bytes → result Request * bytes) (Request_Write : Request → bytes)
  (Response_Write : Response → bytes) (StatusText : Z → string).

Definition socks5Handler (cliConn : conn) : St G tunnel_end :=
  let* r := socks5_request cliConn in
  match r with
  | Fail _ => let* _ := onW (ignoring (EClose cliConn)) in ret Ended
  | Ok a => handleTunnel rules outs pageSize ReadRequest Request_Write Response_Write StatusText
              (argPolicy a) (argDst a) cliConn (argTarget a) (argOriginHost a) (argOriginPort a)
  end.
End server.

(** ** What the client is told

    [Talks c m o fs]: [m] always returns, on success it has written to [c]
    exactly [o], and on failure one of [fs]; nothing else is sent. *)

Lemma readN_cases d n w :
  ∃ r w', readN d n w = Some (r, w') ∧ trace w' = trace w ∧ ∀ b, r = Ok b → len b = n.
Proof.
  unfold readN. set (b := take (Z.to_nat n) _). destruct (decide (len b = n)).
  - eexists (Ok b), _. split; [done|]. split; [done|]. intros b' H'. by injection H' as <-.
  - destruct (decide (b = [])); eexists (Fail _), _; (split; [reflexivity|by split]).
Qed.

Section talks.
Context {G : Type} `{L : HasWorldLaws G}.
Context (c : conn).

Definition Talks {A} (m : St G (result A)) (o : list bytes) (fs : list (list bytes)) : Prop :=
  ∀ g, ∃ r g' l, m g = Some (r, g') ∧ sent (wget g') = sent (wget g) ++ (EWrite c <$> l) ∧
    match r with Ok _ => l = o | Fail _ => l ∈ fs end.

Lemma Talks_bindE {A B} (m : St G (result A)) (k : A → St G (result B)) o1 f1 o2 f2 :
  Talks m o1 f1 → (∀ a, Talks (k a) o2 f2) →
  Talks (bindE m k) (o1 ++ o2) (f1 ++ ((λ l, o1 ++ l) <$> f2)).
Proof.
  intros Hm Hk g. rewrite bindE_unfold. destruct (Hm g) as (r & g1 & l1 & -> & Hs1 & Hr1).
  destruct r as [a|e].
  - destruct (Hk a g1) as (r & g2 & l2 & -> & Hs2 & Hr2). exists r, g2, (o1 ++ l2). subst l1.
    split; [done|]. split; [by rewrite Hs2, Hs1, fmap_app, app_assoc|].
    destruct r; [by subst|]. apply elem_of_app. right. by apply list_elem_of_fmap_2.
  - exists (Fail e), g1, l1. split; [done|]. split; [done|]. apply elem_of_app. by left.
Qed.

Lemma Talks_weaken {A} (m : St G (result A)) o fs fs' : Talks m o fs → fs ⊆ fs' → Talks m o fs'.
Proof.
  intros Hm Hf g. destruct (Hm g) as (r & g' & l & ? & ? & Hr). exists r, g', l.
  split; [done|]. split; [done|]. destruct r; [done|]. by apply Hf.
Qed.

Lemma Talks_throw {A} e o : Talks (throw (A:=A) e) o [[]].
Proof. intros g. exists (Fail e), g, []. split; [done|]. rewrite app_nil_r. split; [done|]. by left. Qed.
Lemma Talks_ret {A} (a : A) : Talks (ret (Ok a)) [] [].
Proof. intros g. exists (Ok a), g, []. split; [done|]. by rewrite app_nil_r. Qed.

Lemma Talks_read {B} n (k : bytes → St G (result B)) d o fs :
  (∀ b, len b = n → Talks (k b) o fs) → [] ∈ fs → Talks (bindE (onW (readN d n)) k) o fs.
Proof.
  intros Hk Hn g. rewrite bindE_unfold. unfold onW.
  destruct (readN_cases d n (wget g)) as (r & w & -> & Ht & Hr).
  assert (sent (wget (wset w g)) = sent (wget g)) as Hs
    by (rewrite wget_wset; unfold sent, events; by rewrite Ht).
  destruct r as [b|e].
  - destruct (Hk b (Hr b eq_refl) (wset w g)) as (r & g2 & l & -> & Hs2 & Hres).
    exists r, g2, l. by rewrite Hs2, Hs.
  - exists (Fail e), (wset w g), []. split; [done|]. rewrite Hs, app_nil_r. by split.
Qed.

Lemma Talks_write b : Talks (onW (write c b)) [b] [[b]].
Proof.
  intros g. unfold onW, write, call. eexists _, _, [b]. split; [reflexivity|].
  rewrite wget_wset, sent_snoc. split; [done|].
  destruct (default None _); [by left|done].
Qed.

Lemma Talks_still {A B} (m : St G A) (k : A → St G (result B)) o fs :
  still m → (∀ a, (∃ g g', m g = Some (a, g')) → Talks (k a) o fs) → Talks (bind m k) o fs.
Proof.
  intros Hm Hk g. unfold bind. destruct (Hm g) as (a & g1 & Ha & Hw). rewrite Ha, <-Hw.
  apply Hk. by exists g, g1.
Qed.

Lemma Talks_refuse {A} reply e o : Talks (refuse_with (A:=A) c reply e) o [[reply]].
Proof.
  intros g. unfold refuse_with, sendReply. eexists (Fail e), _, [reply]. split; [reflexivity|].
  rewrite wget_wset, sent_snoc. split; [done|]. by left.
Qed.

Lemma lift_idx {B} (b : bytes) i (k : byte → St G (result B)) o fs :
  0 ≤ i < len b → (∀ x, Talks (k x) o fs) → Talks (bind (lift (idx b i)) k) o fs.
Proof. intros Hi Hk. destruct (idx_Some b i Hi) as [x ->]. rewrite bind_lift_Some. apply Hk. Qed.
End talks.

Section replies.
Context {G : Type} `{L : HasWorldLaws G} `{T : !TTLService G}
  `{R : !Resolver G} `{RL : !ResolverLaws G}.
Context (rules : Rules) (c : conn).

Lemma Talks_le {A} (m : St G (result A)) o o' fs fs' :
  Talks c m o fs → o = o' → fs ⊆ fs' → Talks c m o' fs'.
Proof. intros ? <-. by apply Talks_weaken. Qed.

Lemma dial_Talks target timeout :
  Talks c (bind (onW (dial target timeout)) (λ r, match r with
       | Ok d => ret (Ok (Some d))
       | Fail e => refuse_with c socks5ReplyServerFailure e
       end)) [] [[socks5ReplyServerFailure]].
Proof.
  intros g. unfold bind at 1, onW at 1, dial, call. destruct (default None (head (verdicts (wget g)))) as [e|].
  - edestruct (Talks_refuse (A:=option conn) c socks5ReplyServerFailure e []) as (r & g' & l & Hr & Hs & Hl).
    exists r, g', l. split; [exact Hr|]. split; [|exact Hl].
    by rewrite Hs, wget_wset, sent_snoc, app_nil_r.
  - eexists (Ok _), _, []. split; [reflexivity|]. split; [|done].
    by rewrite wget_wset, sent_snoc.
Qed.

Definition connect_refusals : list (list bytes) :=
  [[]; [socks5ReplyServerFailure]; [socks5ReplyConnNotAllowed]; [socks5ReplySuccess]].

Ltac sub := try intros ?; unfold connect_refusals; cbn; rewrite ?elem_of_cons, ?elem_of_nil; intuition (subst; auto 10).

Lemma reply_talks {A} (a : A) :
  Talks c (bind (onW (sendReply c socks5ReplySuccess))
    (λ sent, if negb sent then throw (ErrNew "Send SOCKS5 reply") else ret (Ok a)))
    [socks5ReplySuccess] [[socks5ReplySuccess]].
Proof.
  intros g. unfold bind at 1, onW, sendReply, write, bind, call, ret.
  destruct (default None (head (verdicts (wget g)))); (eexists _, _, [socks5ReplySuccess]; split; [reflexivity|]);
    rewrite wget_wset, sent_snoc; (split; [done|]); [by left|done].
Qed.

Lemma connect_talks host isIP : Talks c (connect rules c host isIP) [socks5ReplySuccess] connect_refusals.
Proof.
  unfold connect. apply Talks_still; [apply genPolicy_still|].
  intros gen (g0 & g1 & Hg). destruct (genPolicy_shape _ _ _ _ _ _ _ Hg) as [->|[->|[->|(dst & q & -> & _)]]].
  - eapply Talks_weaken; [apply Talks_refuse|unfold connect_refusals; sub].
  - eapply Talks_weaken; [apply Talks_refuse|unfold connect_refusals; sub].
  - by apply genPolicy_not_found in Hg.
  - cbn [failed blocked gen_ok gPolicy dstHost]. apply Talks_read; [|by left].
    intros b Hb. destruct b as [|b0 [|b1 [|]]]; try (unfold len in Hb; simpl in Hb; lia).
    rewrite be16_cons, !bind_lift_Some.
    eapply Talks_le; [eapply (Talks_bindE c _ _ [] [[socks5ReplyServerFailure]])| |].
    + case_decide; [apply dial_Talks|]. eapply Talks_weaken; [apply Talks_ret|sub].
    + intros d. apply reply_talks.
    + reflexivity.
    + sub.
Qed.

Lemma read_address_talks atyp :
  Talks c (read_address c atyp) [] [[]; [socks5ReplyAtypNotSupported]].
Proof.
  unfold read_address.
  assert (∀ a : string * bool, Talks c (ret (Ok a)) [] [[]; [socks5ReplyAtypNotSupported]]) as Hret
    by (intros a; eapply Talks_weaken; [apply Talks_ret|sub]).
  repeat case_decide.
  - apply Talks_read; [intros; apply Hret|sub].
  - apply Talks_read; [intros; apply Hret|sub].
  - apply Talks_read; [|sub]. intros b Hb. apply lift_idx; [lia|]. intros x. case_decide.
    + eapply Talks_weaken; [apply Talks_throw|sub].
    + apply Talks_read; [intros; apply Hret|sub].
  - eapply Talks_weaken; [apply Talks_refuse|sub].
Qed.

(** What the client has read when the handler gives up. *)
Definition request_refusals : list (list bytes) :=
  [[]; [noAuthReply]; [noAuthReply; socks5ReplyCmdNotSupported];
   [noAuthReply; socks5ReplyAtypNotSupported]; [noAuthReply; socks5ReplyServerFailure];
   [noAuthReply; socks5ReplyConnNotAllowed]; [noAuthReply; socks5ReplySuccess]].

Definition after_auth : list (list bytes) :=
  [[]; [socks5ReplyCmdNotSupported]; [socks5ReplyAtypNotSupported]] ++ connect_refusals.

Lemma socks5_request_talks :
  Talks c (socks5_request rules c) [noAuthReply; socks5ReplySuccess] request_refusals.
Proof.
  unfold socks5_request. apply Talks_read; [|unfold request_refusals; sub].
  intros hd Hhd. apply lift_idx; [lia|]. intros ver. apply lift_idx; [lia|]. intros nm.
  case_decide; [eapply Talks_weaken; [apply Talks_throw|unfold request_refusals; sub]|].
  apply Talks_read; [|unfold request_refusals; sub]. intros ms _.
  destruct (negb _); [eapply Talks_weaken; [apply Talks_throw|unfold request_refusals; sub]|].
  eapply Talks_le; [apply (Talks_bindE c _ _ [noAuthReply] [[noAuthReply]] [socks5ReplySuccess] after_auth)| |].
  - apply Talks_write.
  - intros _. apply Talks_read; [|unfold after_auth; sub].
    intros hd2 Hhd2. apply lift_idx; [lia|]. intros v2. apply lift_idx; [lia|]. intros cmd.
    apply lift_idx; [lia|]. intros atyp.
    case_decide; [eapply Talks_weaken; [apply Talks_throw|unfold after_auth; sub]|].
    case_decide; [eapply Talks_weaken; [apply Talks_refuse|unfold after_auth; sub]|].
    eapply Talks_le; [eapply Talks_bindE; [apply read_address_talks|]| |].
    + intros [host isIP]. apply connect_talks.
    + reflexivity.
    + unfold after_auth. sub.
  - reflexivity.
  - unfold after_auth, request_refusals. sub.
Qed.
End replies.


(** ** Accepted requests *)

(** What a client asks to be connected to. *)
Inductive dest := DestIP4 (a : bytes) | DestDomain (name : bytes) | DestIP6 (a : bytes).
Definition dest_wf (d : dest) : Prop :=
  match d with
  | DestIP4 a => len a = 4 | DestIP6 a => len a = 16 | DestDomain name => len name ≤ 253
  end.
Definition encode_dest (d : dest) : bytes :=
  match d with
  | DestIP4 a => Byte.x01 :: a
  | DestIP6 a => Byte.x04 :: a
  | DestDomain name => Byte.x03 :: Zb (len name) :: name
  end.
Definition dest_host (d : dest) : string :=
  match d with
  | DestIP4 a | DestIP6 a => IPString (bZ <$> a)
  | DestDomain name => string_of_bytes name
  end.
Definition dest_is_ip (d : dest) : bool := match d with DestDomain _ => false | _ => true end.

(** The bytes of a client that talks the protocol (RFC 1928). *)
Definition encode_greeting (methods : bytes) : bytes := Byte.x05 :: Zb (len methods) :: methods.
Definition encode_connect (d : dest) (port : Z) : bytes :=
  [Byte.x05; Byte.x01; Byte.x00] ++ encode_dest d ++ put16 port.

(** The World after [readN] took [a]. *)
Definition after_read (c : conn) (rest : bytes) (w : World) : World :=
  mkWorld (trace w) (verdicts w) (now w) (lags w) (unacked w) (ttls w) (<[cid c := rest]> (inbox w)).

Section accepting.
Context {G : Type} `{L : HasWorldLaws G} `{T : !TTLService G}
  `{R : !Resolver G} `{RL : !ResolverLaws G}.
Context (rules : Rules) (c : conn).

(** Nothing has failed, [l] has been written to [c] since [g0], and [rest] is
    what [c] still has to say. *)
Definition talked (g0 : G) (l : list bytes) (rest : bytes) (g : G) : Prop :=
  verdicts (wget g) = [] ∧ inbox (wget g) !! cid c = Some rest ∧
  sent (wget g) = sent (wget g0) ++ (EWrite c <$> l).

Lemma talked_read {B} g0 l (a rest : bytes) n g (k : bytes → St G (result B)) :
  talked g0 l (a ++ rest) g → len a = n →
  ∃ g', bindE (onW (readN c n)) k g = k a g' ∧ talked g0 l rest g'.
Proof.
  intros (Hv & Hi & Hs) <-. rewrite bindE_unfold. unfold onW, readN. rewrite Hi.
  cbn [default from_option id]. unfold len. rewrite Nat2Z.id, take_app_length, drop_app_length.
  rewrite decide_True by done. eexists. split; [reflexivity|].
  unfold talked. rewrite wget_wset. split; [done|]. split; [apply lookup_insert_eq|].
  rewrite <-Hs. done.
Qed.

Lemma talked_write {B} g0 l rest b g (k : unit → St G (result B)) :
  talked g0 l rest g →
  ∃ g', bindE (onW (write c b)) k g = k tt g' ∧ talked g0 (l ++ [b]) rest g'.
Proof.
  intros (Hv & Hi & Hs). rewrite bindE_unfold. unfold onW, write, call. rewrite Hv. cbn [head default].
  eexists. split; [reflexivity|]. unfold talked. rewrite wget_wset, sent_snoc.
  split; [done|]. split; [done|]. by rewrite Hs, fmap_app, app_assoc.
Qed.

(** [genPolicy] answers [gen] for [host]. *)
Definition answers (host : string) (isIP : bool) (gen : Generated) : Prop :=
  ∀ g, ∃ g', genPolicy rules host isIP false g = Some (gen, g') ∧ wget g' = wget g.

Lemma read_address_ok {B} g0 l d rest g (k : string * bool → St G (result B)) :
  dest_wf d → talked g0 l (tail (encode_dest d) ++ rest) g →
  ∃ g', bindE (read_address c (bZ (default Byte.x00 (head (encode_dest d))))) k g =
          k (dest_host d, dest_is_ip d) g' ∧ talked g0 l rest g'.
Proof.
  intros Hd Ht.
  destruct d as [a|name|a]; cbn [encode_dest head default tail] in *; unfold read_address.
  - rewrite decide_True by done. rewrite bindE_assoc.
    destruct (talked_read (B:=B) g0 l a rest 4 g (λ b, bindE (ret (Ok (IPString (bZ <$> b), true))) k) Ht Hd)
      as (g1 & -> & Ht1). by exists g1.
  - rewrite decide_False, decide_False, decide_True by done. rewrite bindE_assoc.
    change (Zb (len name) :: name) with ([Zb (len name)] ++ name) in Ht. rewrite <-app_assoc in Ht.
    match goal with |- context [bindE (onW (readN c 1)) ?m] =>
      destruct (talked_read (B:=B) g0 l [Zb (len name)] (name ++ rest) 1 g m Ht eq_refl) as (g1 & -> & Ht1) end.
    simpl in Hd. pose proof (len_nonneg name). change (idx [Zb (len name)] 0) with (Some (Zb (len name))).
    rewrite bind_lift_Some, bZ_Zb_small by lia. rewrite decide_False by lia. rewrite bindE_assoc.
    match goal with |- context [bindE (onW (readN c (len name))) ?m] =>
      destruct (talked_read (B:=B) g0 l name rest (len name) g1 m Ht1 eq_refl) as (g2 & -> & Ht2) end.
    by exists g2.
  - rewrite decide_False, decide_True by done. rewrite bindE_assoc.
    destruct (talked_read (B:=B) g0 l a rest 16 g (λ b, bindE (ret (Ok (IPString (bZ <$> b), true))) k) Ht Hd)
      as (g1 & -> & Ht1). by exists g1.
Qed.

(** The arguments of the tunnel for a request. *)
Definition args_for (d : dest) (port : Z) (host : string) (p : Policy) (dst : option conn) : tunnel_args :=
  mkArgs p dst
    (JoinHostPort host (itoa (if decide (Port p ≠ 0 ∧ Port p ≠ unsetInt) then u16 (Port p) else port)))
    (dest_host d) (itoa port).

Lemma connect_ok d port host p rest l g0 g :
  0 ≤ port < 65536 → answers (dest_host d) (dest_is_ip d) (gen_ok host p) →
  talked g0 l (put16 port ++ rest) g →
  ∃ dst g', connect rules c (dest_host d) (dest_is_ip d) g = Some (Ok (args_for d port host p dst), g') ∧
    talked g0 (l ++ [socks5ReplySuccess]) rest g' ∧ (ReplyFirst p = BoolTrue ↔ dst = None).
Proof.
  intros Hport Hans Ht. unfold connect. destruct (Hans g) as (g1 & Hg & Hw).
  unfold bind at 1. rewrite Hg. cbn [failed blocked gen_ok gPolicy dstHost].
  assert (talked g0 l (put16 port ++ rest) g1) as Ht1 by (unfold talked; by rewrite Hw).
  match goal with |- context [bindE (onW (readN c 2)) ?m g1] =>
    destruct (talked_read g0 l (put16 port) rest 2 g1 m Ht1 eq_refl) as (g2 & -> & Ht2) end.
  rewrite be16_put16_small by done. rewrite !bind_lift_Some.
  assert (∀ (dst : option conn) g3, talked g0 l rest g3 →
    ∃ g', bind (onW (sendReply c socks5ReplySuccess)) (λ sent, if negb sent
        then throw (ErrNew "Send SOCKS5 reply") else ret (Ok (args_for d port host p dst))) g3 =
      Some (Ok (args_for d port host p dst), g') ∧ talked g0 (l ++ [socks5ReplySuccess]) rest g') as Hreply.
  { intros dst g3 (Hv & Hi & Hs). unfold bind, onW, sendReply, write, bind, call, ret. rewrite Hv.
    cbn [head default from_option is_ok negb]. eexists. split; [reflexivity|].
    unfold talked. rewrite wget_wset, sent_snoc. split; [done|]. split; [done|].
    by rewrite Hs, fmap_app, app_assoc. }
  rewrite bindE_unfold. destruct (decide (ReplyFirst p ≠ BoolTrue)) as [Hrf|Hrf].
  - destruct Ht2 as (Hv & Hi & Hs). unfold bind at 1, onW at 1, dial, call. rewrite Hv.
    cbn [head default from_option]. unfold ret at 1.
    match goal with |- context [mkConn ?n true] =>
      destruct (Hreply (Some (mkConn n true)) (wset (mkWorld (trace (wget g2) ++
        [(EDial (JoinHostPort host (itoa (if decide (Port p ≠ 0 ∧ Port p ≠ unsetInt) then u16 (Port p) else port)))
            (ConnectTimeout p), None)]) [] (now (wget g2)) (lags (wget g2)) (unacked (wget g2))
          (ttls (wget g2)) (inbox (wget g2))) g2)) as (g' & Hr & Htalk) end.
    { unfold talked. rewrite wget_wset, sent_snoc, app_nil_r. by split. }
    eexists _, g'. split; [exact Hr|]. split; [done|]. by split.
  - destruct (Hreply None g2 Ht2) as (g' & Hr & Htalk). exists None, g'.
    split; [exact Hr|]. split; [done|]. split; [done|]. intros _. by destruct (ReplyFirst p); try (exfalso; by apply Hrf).
Qed.
End accepting.

(** The run of a client that talks the protocol. *)
Lemma socks5_request_ok {G : Type} `{L : HasWorldLaws G} `{T : !TTLService G}
    `{R : !Resolver G} `{RL : !ResolverLaws G} (rules : Rules) (c : conn)
    (methods rest : bytes) (d : dest) (port : Z) (host : string) (p : Policy) (g : G) :
  len methods < 256 → Byte.x00 ∈ methods → dest_wf d → 0 ≤ port < 65536 →
  inbox (wget g) !! cid c = Some (encode_greeting methods ++ encode_connect d port ++ rest) →
  verdicts (wget g) = [] →
  answers rules (dest_host d) (dest_is_ip d) (gen_ok host p) →
  ∃ dst g', socks5_request rules c g = Some (Ok (args_for d port host p dst), g') ∧
    (ReplyFirst p = BoolTrue ↔ dst = None) ∧
    sent (wget g') = sent (wget g) ++ [EWrite c noAuthReply; EWrite c socks5ReplySuccess] ∧
    inbox (wget g') !! cid c = Some rest.
Proof.
  intros Hm H0 Hd Hport Hin Hv Hans.
  assert (talked c g [] ([Byte.x05; Zb (len methods)] ++ methods ++ encode_connect d port ++ rest) g) as Ht
    by (split; [done|]; split; [exact Hin|by rewrite app_nil_r]).
  unfold socks5_request.
  match goal with |- context [bindE (onW (readN c 2)) ?m g] =>
    destruct (talked_read c g [] [Byte.x05; Zb (len methods)] _ 2 g m Ht eq_refl) as (g1 & -> & Ht1) end.
  change (idx [Byte.x05; Zb (len methods)] 0) with (Some Byte.x05).
  change (idx [Byte.x05; Zb (len methods)] 1) with (Some (Zb (len methods))).
  rewrite !bind_lift_Some. rewrite decide_False by (intros []; done).
  pose proof (len_nonneg methods). rewrite bZ_Zb_small by lia.
  match goal with |- context [bindE (onW (readN c (len methods))) ?m g1] =>
    destruct (talked_read c g [] methods _ (len methods) g1 m Ht1 eq_refl) as (g2 & -> & Ht2) end.
  replace (existsb (λ b, bool_decide (b = Byte.x00)) methods) with true.
  2: { symmetry. apply existsb_exists. exists Byte.x00. split; [by apply list_elem_of_In|done]. }
  cbn [negb].
  match goal with |- context [bindE (onW (write c noAuthReply)) ?m g2] =>
    destruct (talked_write c g [] _ noAuthReply g2 m Ht2) as (g3 & -> & Ht3) end.
  unfold encode_connect in Ht3.
  assert (∃ t a, encode_dest d = t :: a ∧ (head (encode_dest d)) = Some t) as (t & a & Ed & _)
    by (destruct d; by eexists _, _).
  rewrite <-!app_assoc, Ed in Ht3.
  match goal with |- context [bindE (onW (readN c 4)) ?m g3] =>
    destruct (talked_read c g [noAuthReply] [Byte.x05; Byte.x01; Byte.x00; t] (a ++ put16 port ++ rest) 4 g3 m
      Ht3 eq_refl) as (g4 & -> & Ht4) end.
  change (idx [Byte.x05; Byte.x01; Byte.x00; t] 0) with (Some Byte.x05).
  change (idx [Byte.x05; Byte.x01; Byte.x00; t] 1) with (Some Byte.x01).
  change (idx [Byte.x05; Byte.x01; Byte.x00; t] 3) with (Some t).
  rewrite !bind_lift_Some. do 2 rewrite decide_False by (intros []; done).
  assert (talked c g [noAuthReply] (tail (encode_dest d) ++ put16 port ++ rest) g4) as Ht5 by (by rewrite Ed).
  match goal with |- context [bindE (read_address c (bZ t)) ?m g4] =>
    destruct (read_address_ok c g [noAuthReply] d _ g4 m Hd Ht5) as (g5 & Hr5 & Ht6) end.
  rewrite Ed in Hr5. cbn [head default] in Hr5. setoid_rewrite Hr5.
  destruct (connect_ok rules c d port host p rest [noAuthReply] g g5 Hport Hans Ht6)
    as (dst & g' & Hc & (_ & Hi & Hs) & Hdst).
  exists dst, g'. split; [exact Hc|]. split; [done|]. by split.
Qed.

(** A client that talks the protocol gets what it asks for: for a greeting
    that offers "no authentication" and a CONNECT to any IPv4 or IPv6 address or
    any name of at most 253 bytes and any port, the handler tells it so, starts the
    tunnel for exactly that host and port with the target, policy and port the
    rules give it, connected unless the policy wants the reply first, and leaves the
    bytes after the request unread. *)
Theorem socks5_request_accepts {G : Type} `{L : HasWorldLaws G} `{T : !TTLService G}
    `{R : !Resolver G} `{RL : !ResolverLaws G} (rules : Rules) (c : conn)
    (methods rest : bytes) (d : dest) (port : Z) (host : string) (p : Policy) (g : G) :
  len methods < 256 → Byte.x00 ∈ methods → dest_wf d → 0 ≤ port < 65536 →
  inbox (wget g) !! cid c = Some (encode_greeting methods ++ encode_connect d port ++ rest) →
  verdicts (wget g) = [] →
  answers rules (dest_host d) (dest_is_ip d) (gen_ok host p) →
  ∃ dst g', socks5_request rules c g = Some (Ok (args_for d port host p dst), g') ∧
    (ReplyFirst p = BoolTrue ↔ dst = None) ∧
    sent (wget g') = sent (wget g) ++ [EWrite c noAuthReply; EWrite c socks5ReplySuccess] ∧
    inbox (wget g') !! cid c = Some rest.
Proof. apply socks5_request_ok. Qed.

(** ** Witness *)

#[local] Instance socks_ttl : TTLService plain_state := cached_ttl probe5 None 60.
#[local] Instance socks_resolver : Resolver plain_state := fixed_resolver plain_state.

Lemma socks5_request_accepts_witness :
  let rules := name_rules in
  let d := DestDomain (bytes_of_string "b.example") in
  let g := client_sends (encode_greeting [Byte.x02; Byte.x00] ++ encode_connect d 443 ++ [Byte.x16]) in
  ∃ dst g', socks5_request rules client g =
      Some (Ok (args_for d 443 "93.184.216.34" (with_mode ModeDirect 0 0) dst), g') ∧
    argTarget (args_for d 443 "93.184.216.34" (with_mode ModeDirect 0 0) dst) = "93.184.216.34:443" ∧
    inbox (wget g') !! 0 = Some [Byte.x16].
Proof.
  intros rules d g.
  destruct (socks5_request_accepts rules client [Byte.x02; Byte.x00] [Byte.x16] d 443 "93.184.216.34"
    (with_mode ModeDirect 0 0) g) as (dst & g' & Hr & _ & _ & Hi).
  - vm_compute. reflexivity.
  - right. by left.
  - vm_compute. discriminate.
  - lia.
  - vm_compute. reflexivity.
  - reflexivity.
  - intros g0. eexists. split; [vm_compute; reflexivity|reflexivity].
  - exists dst, g'. split; [exact Hr|]. split; [vm_compute; reflexivity|exact Hi].
Defined.

