(* ===== verification/Socks5Client.v ===== *)
(** The SOCKS5 client of the embedded tun2socks
    ([transport/socks5/socks5.go], [proxy/socks5.go]): the wire form of addresses,
    the handshake, and datagrams.

    The theorems: an address and a datagram are read back as they were written;
    the handshake returns on every server and says exactly what RFC 1928 and 1929
    ask for; and what it says is what the SOCKS5 server of the program
    ([Socks5Server]) accepts. *)

From Stdlib Require Import Strings.Ascii.
From S2P Require Import Prelude GoStd GoNet Conn Policy Cache Desync ClientHello Fragment Routing.
From S2P Require Import TransformIP DialPlan Session TunBridge Tunnel Socks5Server.

Definition MethodNoAuth : Z := 0.
Definition MethodUserPass : Z := 2.
Definition Version : Z := 5.
Definition CmdConnect : Z := 1.
Definition CmdBind : Z := 2.
Definition CmdUDPAssociate : Z := 3.
Definition AtypIPv4 : Z := 1.
Definition AtypDomainName : Z := 3.
Definition AtypIPv6 : Z := 4.
Definition IPv4len : Z := 4.
Definition IPv6len : Z := 16.

Definition Command_String (c : Z) : string :=
  if decide (c = CmdConnect) then "CONNECT"
  else if decide (c = CmdBind) then "BIND"
  else if decide (c = CmdUDPAssociate) then "UDP ASSOCIATE"
  else "UNDEFINED".

(** ["%#02x"] of a byte. *)
Definition hex02 (z : Z) : string :=
  "0x" +:+ String (hex_digit (z / 16)) (String (hex_digit (z mod 16)) "").

Definition Reply_String (r : Z) : string :=
  match r with
  | 0 => "succeeded"
  | 1 => "general SOCKS server failure"
  | 2 => "connection not allowed by ruleset"
  | 3 => "network unreachable"
  | 4 => "host unreachable"
  | 5 => "connection refused"
  | 6 => "TTL expired"
  | 7 => "command not supported"
  | 8 => "address type not supported"
  | _ => "unassigned <" +:+ hex02 r +:+ ">"
  end.

Definition MaxAddrLen : Z := 1 + 1 + 255 + 2.
Definition MaxAuthLen : Z := 255.

(** ** Addresses

    A [socks5.Addr] is its bytes; nil, where it is told apart, is [None]. *)

Definition Valid (a : bytes) : go bool :=
  if decide (len a < 1 + 1 + 2) then Some false else
  let! atyp := idx a 0 in
  if decide (bZ atyp = AtypDomainName) then
    let! n := idx a 1 in Some (bool_decide (1 + 1 + bZ n + 2 ≤ len a))
  else if decide (bZ atyp = AtypIPv4) then Some (bool_decide (1 + IPv4len + 2 ≤ len a))
  else if decide (bZ atyp = AtypIPv6) then Some (bool_decide (1 + IPv6len + 2 ≤ len a))
  else Some true.

(** The sixteen bits from index [i] on. *)
Definition port_at (a : bytes) (i : Z) : go Z := let! p := slice_from a i in be16 p.

(** [Addr.String].  An unknown address type leaves host and port empty. *)
Definition socksAddr_String (a : bytes) : go string :=
  let! v := Valid a in
  if negb v then Some "" else
  let! atyp := idx a 0 in
  let! hp :=
    (if decide (bZ atyp = AtypDomainName) then
       let! n := idx a 1 in
       let! host := slice a 2 (2 + bZ n) in
       let! port := port_at a (2 + bZ n) in
       Some (string_of_bytes host, itoa port)
     else if decide (bZ atyp = AtypIPv4) then
       let! host := slice a 1 (1 + IPv4len) in
       let! port := port_at a (1 + IPv4len) in
       Some (IPString (bZ <$> host), itoa port)
     else if decide (bZ atyp = AtypIPv6) then
       let! host := slice a 1 (1 + IPv6len) in
       let! port := port_at a (1 + IPv6len) in
       Some (IPString (bZ <$> host), itoa port)
     else Some ("", "")) in
  Some (JoinHostPort (fst hp) (snd hp)).

(** [Addr.UDPAddr]: nil is [None]; a nil [IP] is the empty list. *)
Definition UDPAddr (a : bytes) : go (option (IP * Z)) :=
  let! v := Valid a in
  if negb v then Some None else
  let! atyp := idx a 0 in
  if decide (bZ atyp = AtypDomainName) then Some None
  else if decide (bZ atyp = AtypIPv4) then
    let! ip := slice a 1 (1 + IPv4len) in
    let! port := port_at a (1 + IPv4len) in
    Some (Some (bZ <$> ip, port))
  else if decide (bZ atyp = AtypIPv6) then
    let! ip := slice a 1 (1 + IPv6len) in
    let! port := port_at a (1 + IPv6len) in
    Some (Some (bZ <$> ip, port))
  else Some (Some ([], 0)).

Definition SplitAddr (b : bytes) : go (option bytes) :=
  if decide (len b < 1) then Some None else
  let! atyp := idx b 0 in
  let! addrLen :=
    (if decide (bZ atyp = AtypDomainName) then
       if decide (len b < 2) then Some None else
       let! n := idx b 1 in Some (Some (1 + 1 + bZ n + 2))
     else if decide (bZ atyp = AtypIPv4) then Some (Some (1 + IPv4len + 2))
     else if decide (bZ atyp = AtypIPv6) then Some (Some (1 + IPv6len + 2))
     else Some None) in
  match addrLen with
  | None => Some None
  | Some addrLen =>
      if decide (len b < addrLen) then Some None else
      let! a := slice_to b addrLen in Some (Some a)
  end.

Definition SerializeAddr (domainName : string) (dstIP : Addr) (dstPort : Z) : bytes :=
  let port := put16 dstPort in
  if decide (domainName ≠ "") then
    Zb AtypDomainName :: Zb (slen domainName) :: bytes_of_string domainName ++ port
  else if Is4 dstIP then Zb AtypIPv4 :: (Zb <$> AsSlice dstIP) ++ port
  else Zb AtypIPv6 :: (Zb <$> AsSlice dstIP) ++ port.

Definition ParseAddrString (s : string) : option bytes :=
  match SplitHostPort s with
  | Fail _ => None
  | Ok (host, port) =>
      match ParseUint port 16 with
      | Fail _ => None
      | Ok dstPort =>
          match ParseAddr host with
          | Ok ip => Some (SerializeAddr "" ip dstPort)
          | Fail _ => Some (SerializeAddr host AddrInvalid dstPort)
          end
      end
  end.

(** What [ParseAddr] looks at in a [net.Addr]: its [AddrPort] method, if it has
    one, and its text. *)
Record netAddr := mkNetAddr { naAddrPort : option (Addr * Z); naString : string }.

Definition ParseAddr_ (addr : netAddr) : option bytes :=
  match naAddrPort addr with
  | Some (ip, port) => Some (SerializeAddr "" ip port)
  | None => ParseAddrString (naString addr)
  end.

(** ** Datagrams *)

(** The address, the payload and the error. *)
Definition DecodeUDPPacket (packet : bytes) : go (option bytes * bytes * option error) :=
  if decide (len packet < 5) then Some (None, [], Some (ErrNew "insufficient length of packet")) else
  let! rsv := slice_to packet 2 in
  if decide (rsv ≠ [Byte.x00; Byte.x00])
  then Some (None, [], Some (ErrNew "reserved fields should be zero")) else
  let! frag := idx packet 2 in
  if decide (bZ frag ≠ 0) then Some (None, [], Some (ErrNew "discarding fragmented payload")) else
  let! rest := slice_from packet 3 in
  let! addr := SplitAddr rest in
  let err := match addr with None => Some (ErrNew "socks5 UDP addr is nil") | Some _ => None end in
  let! payload := slice_from packet (3 + len (default [] addr)) in
  Some (addr, payload, err).

Definition EncodeUDPPacket (addr : option bytes) (payload : bytes) : result bytes :=
  match addr with
  | None => Fail (ErrNew "address is invalid")
  | Some addr => Ok ([Byte.x00; Byte.x00; Byte.x00] ++ addr ++ payload)
  end.

(** ** The handshake *)

Record User := mkUser { Username : string; Password : string }.

(** [ReadAddr] into a buffer of [buflen] bytes. *)
Definition ReadAddr (r : conn) (buflen : Z) : St World (result bytes) :=
  if decide (buflen < MaxAddrLen) then throw ErrShortBuffer else
  let*? b := readN r 1 in
  let* atyp := lift (idx b 0) in
  if decide (bZ atyp = AtypDomainName) then
    let*? l := readN r 1 in
    let* n := lift (idx l 0) in
    let*? a := readN r (bZ n + 2) in
    ret (Ok (atyp :: n :: a))
  else if decide (bZ atyp = AtypIPv4) then
    let*? a := readN r (IPv4len + 2) in ret (Ok (atyp :: a))
  else if decide (bZ atyp = AtypIPv6) then
    let*? a := readN r (IPv6len + 2) in ret (Ok (atyp :: a))
  else throw (ErrNew "invalid address type").

(** The username and password message (RFC 1929). *)
Definition auth_message (u : User) : bytes :=
  [Byte.x01; Zb (slen (Username u))] ++ bytes_of_string (Username u) ++
  [Zb (slen (Password u))] ++ bytes_of_string (Password u).

(** The branch for [MethodUserPass]. *)
Definition authenticate (rw : conn) (user : option User) : St World (result unit) :=
  match user with
  | None => throw (ErrNew "auth required")
  | Some u =>
      let uLen := slen (Username u) in
      let pLen := slen (Password u) in
      if decide (uLen = 0 ∨ pLen = 0) then throw (ErrNew "auth username/password empty")
      else if decide (MaxAuthLen < uLen ∨ MaxAuthLen < pLen)
      then throw (ErrNew "auth username/password too long") else
      let*? _ := write rw (auth_message u) in
      let*? buf := readN rw 2 in
      let* status := lift (idx buf 1) in
      if decide (bZ status ≠ 0) then throw (ErrNew "rejected username/password")
      else ret (Ok tt)
  end.

Definition ClientHandshake (rw : conn) (addr : bytes) (command : Z) (user : option User)
    : St World (result bytes) :=
  let method := match user with Some _ => MethodUserPass | None => MethodNoAuth end in
  let*? _ := write rw [Zb Version; Byte.x01; Zb method] in
  let*? buf := readN rw 2 in
  let* ver := lift (idx buf 0) in
  if decide (bZ ver ≠ Version) then throw (ErrNew "socks version mismatched") else
  let* chosen := lift (idx buf 1) in
  let*? _ :=
    (if decide (bZ chosen = MethodUserPass) then authenticate rw user
     else if decide (bZ chosen ≠ MethodNoAuth) then throw (ErrNew "unsupported method")
     else ret (Ok tt)) in
  let*? _ := write rw ([Zb Version; Zb command; Byte.x00] ++ addr) in
  let*? buf := readN rw 3 in
  let* rep := lift (idx buf 1) in
  if decide (bZ rep ≠ 0)
  then throw (ErrNew (Command_String command +:+ ": " +:+ Reply_String (bZ rep)))
  else ReadAddr rw MaxAddrLen.

(** ** The proxy ([proxy/socks5.go]) *)

Record Socks5 := mkSocks5 { s5Addr : string; s5User : string; s5Pass : string; s5Unix : bool }.

(** [&&] binds tighter than [||]: the second byte is read of any address that is
    not an abstract socket. *)
Definition NewSocks5 (addr user pass : string) : go Socks5 :=
  let unix := match addr with String "/" _ => true | _ => false end in
  let! abstract :=
    (if decide (2 < slen addr ∧ String.get 1 addr = Some "@"%char) then Some true
     else let! c := String.get 1 addr in Some (bool_decide (c = Ascii.zero))) in
  Some (mkSocks5 (if abstract : bool then sdrop 1 addr else addr) user pass unix).

(** The credentials of the handshake. *)
Definition socks_user (ss : Socks5) : option User :=
  if decide (s5User ss ≠ "") then Some (mkUser (s5User ss) (s5Pass ss)) else None.

(** The package [dialer]: the address is dialled on the network ("tcp!host:port"). *)
Definition dialer_DialContext (network address : string) : St World (result conn) :=
  let* r := dial (network +:+ "!" +:+ address) 0 in
  match r with
  | Ok c => ret (Ok (mkConn (cid c) (bool_decide (network = "tcp"))))
  | Fail e => throw e
  end.

(** [setKeepAlive] and [safeConnClose] (util.go). *)
Definition tcpKeepAlivePeriod : Z := 30 * Second.
Definition setKeepAlive (c : conn) : St World unit :=
  if is_tcp c then
    let* _ := ignoring (ESys "SetKeepAlive true") in
    ignoring (ESys ("SetKeepAlivePeriod " +:+ itoa tcpKeepAlivePeriod))
  else ret tt.
Definition safeConnClose (c : conn) (err : option error) : St World unit :=
  match err with Some _ => ignoring (EClose c) | None => ret tt end.

(** [DialContext] for the destination [dstIP], [dstPort]. *)
Definition Socks5_DialContext (ss : Socks5) (dstIP : Addr) (dstPort : Z) : St World (result conn) :=
  let network := if s5Unix ss then "unix" else "tcp" in
  let* r := dialer_DialContext network (s5Addr ss) in
  match r with
  | Fail e => throw (ErrWrap ("connect to " +:+ s5Addr ss +:+ ": ") e)
  | Ok c =>
      let* _ := setKeepAlive c in
      let* r := ClientHandshake c (SerializeAddr "" dstIP dstPort) CmdConnect (socks_user ss) in
      match r with
      | Fail e => let* _ := safeConnClose c (Some e) in throw e       (* deferred *)
      | Ok _ => let* _ := safeConnClose c None in ret (Ok c)
      end
  end.

(** [socksPacketConn]: the socket, where datagrams are sent, the control connection. *)
Record socksPacketConn := mkPacketConn { pcSocket : conn; pcRAddr : IP * Z; pcControl : conn }.

Definition IsUnspecified (ip : IP) : bool :=
  bool_decide (len ip = 4 ∨ len ip = 16) && forallb (Z.eqb 0) (default ip (To4 ip)).

Section dial_udp.
(** [net.ResolveUDPAddr("udp", address)]. *)
Context (ResolveUDPAddr : string → result (IP * Z)).

(** [DialUDP] without the goroutine that waits for the end of the control
    connection. *)
Definition Socks5_DialUDP (ss : Socks5) : St World (result socksPacketConn) :=
  if s5Unix ss then
    throw (ErrNew "unsupported operation when unix domain socket is enabled") else
  let* r := dialer_DialContext "tcp" (s5Addr ss) in
  match r with
  | Fail e => throw (ErrWrap ("connect to " +:+ s5Addr ss +:+ ": ") e)
  | Ok c =>
      let body : St World (result socksPacketConn) :=
        let targetAddr := Zb AtypIPv4 :: make_zero 6 in
        let* r := ClientHandshake c targetAddr CmdUDPAssociate (socks_user ss) in
        match r with
        | Fail e => throw (ErrWrap "client handshake: " e)
        | Ok addr =>
            let* r := dialer_DialContext "udp" "" in
            match r with
            | Fail e => throw (ErrWrap "listen packet: " e)
            | Ok pc =>
                let* bindAddr := lift (UDPAddr addr) in
                match bindAddr with
                | None => throw (ErrNew "invalid UDP binding address")
                | Some (ip, port) =>
                    if IsUnspecified ip then
                      match ResolveUDPAddr (s5Addr ss) with
                      | Fail e => throw (ErrWrap ("resolve udp address " +:+ s5Addr ss +:+ ": ") e)
                      | Ok (ip, _) => ret (Ok (mkPacketConn pc (ip, port) c))
                      end
                    else ret (Ok (mkPacketConn pc (ip, port) c))
                end
            end
        end in
      let* _ := setKeepAlive c in
      let* r := body in
      match r with
      | Fail e => let* _ := ignoring (EClose c) in throw e
      | Ok p => ret (Ok p)
      end
  end.
End dial_udp.

(** [WriteTo]: the destination is a [metadata.Addr] or any other address. *)
Definition packetConn_WriteTo (pc : socksPacketConn) (b : bytes) (addr : Addr * Z + netAddr)
    : St World (result unit) :=
  match EncodeUDPPacket (match addr with
                         | inl (dstIP, dstPort) => Some (SerializeAddr "" dstIP dstPort)
                         | inr addr => ParseAddr_ addr
                         end) b with
  | Fail e => throw e
  | Ok packet => write (pcSocket pc) packet
  end.

(** [ReadFrom] into the buffer [b] when the socket delivers [dgram]: the count,
    the buffer and the sender. *)
Definition packetConn_ReadFrom (b : bytes) (dgram : result bytes)
    : go (result (Z * bytes * (IP * Z))) :=
  match dgram with
  | Fail e => Some (Fail e)
  | Ok dgram =>
      let n := Z.min (len b) (len dgram) in
      let b := copy b dgram in
      let! d := DecodeUDPPacket b in
      match d with
      | (_, _, Some err) => Some (Fail err)
      | (addr, payload, None) =>
          let addr := default [] addr in
          let! udpAddr := UDPAddr addr in
          match udpAddr with
          | None => Some (Fail (ErrNew "convert addr to UDPAddr is nil"))
          | Some udpAddr => Some (Ok (n - len addr - 3, copy b payload, udpAddr))
          end
      end
  end.

(** ** Addresses and datagrams are read back *)

(** The destination of [SerializeAddr]. *)
Definition dest_of (domainName : string) (dstIP : Addr) : dest :=
  if decide (domainName ≠ "") then DestDomain (bytes_of_string domainName)
  else if Is4 dstIP then DestIP4 (Zb <$> AsSlice dstIP) else DestIP6 (Zb <$> AsSlice dstIP).

(** Destinations that have a wire form. *)
Definition serializable (domainName : string) (dstIP : Addr) : Prop :=
  if decide (domainName ≠ "") then slen domainName ≤ 255 else IsValid dstIP = true.

Lemma slen_bytes s : len (bytes_of_string s) = slen s.
Proof.
  unfold len, slen, bytes_of_string, String.list_byte_of_string. rewrite length_map. f_equal.
  induction s as [|a s IH]; [done|]. simpl. by rewrite IH.
Qed.

Lemma AsSlice_len a : len (AsSlice a) = match a with AddrInvalid => 0 | Addr4 _ => 4 | Addr6 _ _ => 16 end.
Proof. destruct a; [done|..]; unfold AsSlice, bytes_of, len; by rewrite length_fmap, length_seq. Qed.

Lemma len_fmap {A B} (f : A → B) (l : list A) : len (f <$> l) = len l.
Proof. unfold len. by rewrite length_fmap. Qed.

Lemma SerializeAddr_dest domain ip port :
  SerializeAddr domain ip port = encode_dest (dest_of domain ip) ++ put16 port.
Proof.
  unfold SerializeAddr, dest_of. case_decide; [cbn; by rewrite slen_bytes|]. by destruct (Is4 ip).
Qed.

(** The wire form of a destination, whatever follows it. *)
Definition dest_sized (d : dest) : Prop :=
  match d with DestIP4 a => len a = 4 | DestIP6 a => len a = 16 | DestDomain name => len name ≤ 255 end.

Lemma dest_of_sized domain ip : serializable domain ip → dest_sized (dest_of domain ip).
Proof.
  unfold serializable, dest_of. case_decide; intros Hs; [cbn; by rewrite slen_bytes|].
  destruct ip; [done|..]; cbn [Is4 dest_sized]; by rewrite len_fmap, AsSlice_len.
Qed.

(** The first bytes of a destination decide how many there are. *)
Lemma SplitAddr_dest d port rest :
  dest_sized d → SplitAddr (encode_dest d ++ put16 port ++ rest) = Some (Some (encode_dest d ++ put16 port)).
Proof.
  intros Hd. rewrite app_assoc.
  assert (∀ a b : bytes, slice_to (a ++ b) (len a) = Some a) as Hto.
  { intros a b. rewrite slice_to_Some by len_lia. unfold len. by rewrite Nat2Z.id, take_app_length. }
  assert (len (put16 port) = 2) as Hp by done.
  assert (∀ x (y : bytes), len (x ++ y) < len x → False) as Hlt by (intros; len_lia).
  assert (len (encode_dest d ++ put16 port) = match d with
      DestIP4 _ => 1 + IPv4len + 2 | DestIP6 _ => 1 + IPv6len + 2 | DestDomain name => 1 + 1 + len name + 2 end) as Hlen.
  { destruct d; cbn [encode_dest dest_sized] in *; rewrite len_app, Hp, !len_cons; unfold IPv4len, IPv6len; lia. }
  set (w := encode_dest d ++ put16 port) in *. pose proof (len_nonneg rest).
  assert (1 ≤ len w) as H1 by (rewrite Hlen; destruct d; unfold IPv4len, IPv6len; len_lia).
  unfold SplitAddr. rewrite decide_False by len_lia.
  destruct d as [a|name|a]; cbn [encode_dest app dest_sized] in *.
  - change (idx (w ++ rest) 0) with (Some Byte.x01). cbn beta iota. rewrite decide_False by discriminate. rewrite decide_True by done.
    rewrite <-Hlen, decide_False by len_lia. by rewrite Hto.
  - change (idx (w ++ rest) 0) with (Some Byte.x03). cbn beta iota. rewrite decide_True by done.
    rewrite decide_False by len_lia. change (idx (w ++ rest) 1) with (Some (Zb (len name))). cbn beta iota.
    rewrite bZ_Zb_small by len_lia. rewrite <-Hlen, decide_False by len_lia. by rewrite Hto.
  - change (idx (w ++ rest) 0) with (Some Byte.x04). cbn beta iota. do 2 rewrite decide_False by discriminate. rewrite decide_True by done.
    rewrite <-Hlen, decide_False by len_lia. by rewrite Hto.
Qed.

(** A datagram is read back: for every destination that has a wire form (a
    name of at most 255 bytes, or a valid address), every port and every payload,
    decoding what [EncodeUDPPacket] made of its address and the payload gives the
    two parts, without an error. *)
Theorem DecodeUDPPacket_EncodeUDPPacket (domainName : string) (dstIP : Addr) (dstPort : Z) (payload : bytes) :
  serializable domainName dstIP →
  let a := SerializeAddr domainName dstIP dstPort in
  ∃ packet, EncodeUDPPacket (Some a) payload = Ok packet ∧
    DecodeUDPPacket packet = Some (Some a, payload, None).
Proof.
  intros Hs%dest_of_sized a. eexists. split; [reflexivity|].
  assert (SplitAddr (a ++ payload) = Some (Some a)) as Hsplit.
  { unfold a. rewrite SerializeAddr_dest, <-app_assoc. by apply SplitAddr_dest. }
  assert (2 ≤ len a) as Ha by (unfold a; rewrite SerializeAddr_dest; change (put16 dstPort) with
    ([Zb (Z.shiftr dstPort 8); Zb dstPort]); len_lia).
  unfold DecodeUDPPacket. rewrite decide_False by len_lia.
  set (packet := [Byte.x00; Byte.x00; Byte.x00] ++ a ++ payload).
  assert (∀ n x (y : bytes), len x = n → slice_from (x ++ y) n = Some y) as Hfrom.
  { intros n x y <-. rewrite slice_from_Some by len_lia. unfold len. by rewrite Nat2Z.id, drop_app_length. }
  assert (slice_to packet 2 = Some [Byte.x00; Byte.x00]) as -> by (unfold packet; by rewrite slice_to_Some by len_lia).
  cbn beta iota. rewrite decide_False by (intros []; done).
  change (idx packet 2) with (Some Byte.x00). cbn beta iota. rewrite decide_False by (intros []; done).
  assert (slice_from packet 3 = Some (a ++ payload)) as -> by (by apply (Hfrom 3 [Byte.x00; Byte.x00; Byte.x00])).
  cbn beta iota. rewrite Hsplit. change (default [] (Some a)) with a.
  assert (slice_from packet (3 + len a) = Some payload) as ->; [|done].
  unfold packet. rewrite app_assoc. apply Hfrom. len_lia.
Qed.

(** ** The handshake, seen from the server's bytes *)

(** The server's choice of a method and what follows it, with the messages the
    client answers. *)
Inductive greeted (user : option User) : bytes → list bytes → Prop :=
| greeted_open : greeted user [Byte.x05; Byte.x00] []
| greeted_password u ver : user = Some u →
    1 ≤ slen (Username u) ≤ MaxAuthLen → 1 ≤ slen (Password u) ≤ MaxAuthLen →
    greeted user [Byte.x05; Byte.x02; ver; Byte.x00] [auth_message u].

(** The bytes of a server that accepts, up to the bound address [a]; [msgs] are
    the messages the client sent between its greeting and its request. *)
Definition server_accepts (user : option User) (input a rest : bytes) (msgs : list bytes) : Prop :=
  ∃ pre ver rsv, greeted user pre msgs ∧ input = pre ++ [ver; Byte.x00; rsv] ++ a ++ rest ∧
    ∃ d port, dest_sized d ∧ 0 ≤ port < 65536 ∧ a = encode_dest d ++ put16 port.

Definition greeting (user : option User) : bytes :=
  [Byte.x05; Byte.x01; match user with Some _ => Byte.x02 | None => Byte.x00 end].
Definition request (command : Z) (addr : bytes) : bytes := [Byte.x05; Zb command; Byte.x00] ++ addr.

(** [wp m l i Q]: started after the client has written [l] with [i] left to read,
    [m] returns, and [Q] holds of its result, what has been written and what is
    left. *)
Section wp.
Context (c : conn) (w0 : World).

Definition wp {A} (m : St World (result A)) (l : list bytes) (i : bytes)
    (Q : result A → list bytes → bytes → Prop) : Prop :=
  ∀ w, talked (G:=World) c w0 l i w → ∃ r w' l' i', m w = Some (r, w') ∧
    talked (G:=World) c w0 l' i' w' ∧ Q r l' i'.

Lemma wp_ret {A} (r : result A) l i Q : Q r l i → wp (ret r) l i Q.
Proof. intros HQ w Ht. by exists r, w, l, i. Qed.

Lemma wp_write {B} b (f : unit → St World (result B)) l i Q :
  wp (f tt) (l ++ [b]) i Q → wp (bindE (write c b) f) l i Q.
Proof.
  intros Hf w Ht. destruct (talked_write (G:=World) (B:=B) c w0 l i b w f Ht) as (w1 & Hr & Ht1).
  destruct (Hf w1 Ht1) as (r & w2 & l' & i' & H1 & H2 & H3). exists r, w2, l', i'. split; [|done].
  by rewrite <-H1, <-Hr.
Qed.

(** A read gets its bytes, or fails because there are fewer. *)
Lemma wp_read {B} n (f : bytes → St World (result B)) l i Q :
  0 ≤ n →
  (∀ a i', i = a ++ i' → len a = n → wp (f a) l i' Q) →
  (∀ e, len i < n → Q (Fail e) l []) →
  wp (bindE (readN c n) f) l i Q.
Proof.
  intros Hn Hok Hbad w Ht. destruct (decide (n ≤ len i)) as [Hle|Hgt].
  - rewrite <-(take_drop (Z.to_nat n) i) in Ht.
    destruct (talked_read (G:=World) (B:=B) c w0 l _ _ n w f Ht) as (w1 & Hr & Ht1); [by apply len_take|].
    edestruct Hok as (r & w2 & l' & i' & H1 & H2 & H3); [by rewrite (take_drop (Z.to_nat n))|by apply len_take|exact Ht1|].
    exists r, w2, l', i'. split; [|done]. by rewrite <-H1, <-Hr.
  - destruct Ht as (Hv & Hi & Hs). change (wget w) with w in *.
    rewrite bindE_unfold. unfold readN. rewrite Hi. cbn [default from_option id].
    assert (length i < Z.to_nat n)%nat by (unfold len in *; lia).
    rewrite take_ge, drop_ge by lia. rewrite decide_False by lia.
    exists (Fail (if decide (i = []) then EOF else ErrUnexpectedEOF)). eexists _, l, [].
    split; [by case_decide|]. split; [|apply Hbad; lia].
    split; [done|]. split; [apply lookup_insert_eq|done].
Qed.
Lemma wp_bindE {A B} (m : St World (result A)) (f : A → St World (result B)) l i Q :
  wp m l i (λ r l' i', match r with Ok a => wp (f a) l' i' Q | Fail e => Q (Fail e) l' i' end) →
  wp (bindE m f) l i Q.
Proof.
  intros Hm w Ht. destruct (Hm w Ht) as ([a|e] & w1 & l1 & i1 & Hr & Ht1 & HQ); rewrite bindE_unfold, Hr.
  - by apply HQ.
  - by exists (Fail e), w1, l1, i1.
Qed.
End wp.

Section handshake.
Context (c : conn) (w0 : World) (input : bytes) (user : option User) (addr : bytes) (command : Z).

(** What a finished handshake means. *)
Definition handshake_outcome (r : result bytes) (l : list bytes) (i : bytes) : Prop :=
  match r with
  | Ok a => ∃ msgs, server_accepts user input a i msgs ∧
      l = greeting user :: msgs ++ [request command addr]
  | Fail _ => ∀ a rest msgs, ¬ server_accepts user input a rest msgs
  end.

(** [pre] has been read and the request sent; the reply says yes. *)
Definition replying (pre : bytes) (ver rsv : byte) (l : list bytes) (msgs : list bytes) (i : bytes) : Prop :=
  greeted user pre msgs ∧ input = pre ++ [ver; Byte.x00; rsv] ++ i ∧
  l = greeting user :: msgs ++ [request command addr].

Lemma greeted_unique pre1 pre2 msgs1 msgs2 i1 i2 :
  greeted user pre1 msgs1 → greeted user pre2 msgs2 → pre1 ++ i1 = pre2 ++ i2 →
  pre1 = pre2 ∧ msgs1 = msgs2 ∧ i1 = i2.
Proof.
  intros H1 H2 Heq. destruct H1 as [|u1 v1 Hu1]; destruct H2 as [|u2 v2 Hu2]; simpl in Heq; try done.
  - by injection Heq as ->.
  - injection Heq as -> ->. rewrite Hu1 in Hu2. by injection Hu2 as ->.
Qed.

(** What follows an accepted reply is an address. *)
Lemma accepts_addr pre ver rsv l msgs i a rest msgs' :
  replying pre ver rsv l msgs i → server_accepts user input a rest msgs' →
  i = a ++ rest ∧ ∃ d port, dest_sized d ∧ a = encode_dest d ++ put16 port.
Proof.
  intros (Hg & Hi & _) (pre' & ver' & rsv' & Hg' & Hi' & d & port & Hd & _ & Ha).
  rewrite Hi in Hi'. destruct (greeted_unique _ _ _ _ _ _ Hg Hg' Hi') as (-> & -> & Heq).
  injection Heq as -> -> ->. eauto.
Qed.

Lemma put16_inv (p : bytes) : len p = 2 → ∃ port, 0 ≤ port < 65536 ∧ p = put16 port.
Proof.
  destruct p as [|a [|b [|]]]; try (intros; len_lia). intros _. exists (bZ a * 256 + bZ b).
  pose proof (bZ_range a). pose proof (bZ_range b). split; [lia|]. unfold put16.
  rewrite Z.shiftr_div_pow2 by lia. change (2 ^ 8) with 256. rewrite Z.div_add_l, Z.div_small, Z.add_0_r by lia.
  rewrite Zb_bZ. f_equal. f_equal. apply bZ_inj. rewrite bZ_Zb, Z.add_comm, Z.mod_add, Z.mod_small by lia. done.
Qed.

Lemma ReadAddr_outcome pre ver rsv l msgs i :
  replying pre ver rsv l msgs i → wp c w0 (ReadAddr c MaxAddrLen) l i handshake_outcome.
Proof.
  intros Hr. unfold ReadAddr. rewrite decide_False by (unfold MaxAddrLen; lia).
  assert (∀ e l, (∀ d port rest, dest_sized d → i ≠ (encode_dest d ++ put16 port) ++ rest) →
    handshake_outcome (Fail e) l []) as Hno.
  { intros e l' Hne a rest msgs' Ha. destruct (accepts_addr _ _ _ _ _ _ _ _ _ Hr Ha) as (-> & d & port & Hd & ->).
    by eapply Hne. }
  assert (∀ d p i', dest_sized d → len p = 2 → i = (encode_dest d ++ p) ++ i' →
    handshake_outcome (Ok (encode_dest d ++ p)) l i') as Hyes.
  { intros d p i' Hd (port & Hport & ->)%put16_inv Hi. destruct Hr as (Hg & Hin & Hl). exists msgs. split; [|done].
    exists pre, ver, rsv. split; [done|]. split; [by rewrite Hin, Hi|]. eauto. }
  assert (∀ n (x : bytes), n + 2 = len x → ∃ y p, x = y ++ p ∧ len y = n ∧ len p = 2 ∨ n < 0) as Hsplit.
  { intros n x Hx. destruct (decide (n < 0)); [exists [], []; by right|].
    exists (take (Z.to_nat n) x), (drop (Z.to_nat n) x). left. split; [by rewrite take_drop|].
    rewrite len_take, len_drop by len_lia. lia. }
  assert (∀ d port (rest : bytes), 2 ≤ len ((encode_dest d ++ put16 port) ++ rest)) as Hlong.
  { intros d port rest. change (put16 port) with [Zb (Z.shiftr port 8); Zb port]. len_lia. }
  apply wp_read; [lia| |intros e He; apply Hno; intros d port rest _ ->; specialize (Hlong d port rest); lia].
  intros [|t [|]] i1 Hi1 Hl1; try len_lia. clear Hl1. change (idx [t] 0) with (Some t). rewrite bind_lift_Some.
  unfold AtypDomainName, AtypIPv4, AtypIPv6.
  destruct (decide (bZ t = 3)) as [Ht|Ht3]; [apply (bZ_inj t Byte.x03) in Ht as ->|].
  { apply wp_read; [lia| |intros e He; apply Hno; intros d port rest _ Hi; specialize (Hlong d port rest);
      rewrite <-Hi, Hi1 in Hlong; len_lia].
    intros [|n [|]] i2 -> Hl2; try len_lia. change (idx [n] 0) with (Some n). rewrite bind_lift_Some.
    pose proof (bZ_range n). apply wp_read; [lia| |].
    - intros a i3 -> Ha. apply wp_ret. destruct (Hsplit (bZ n) a) as (name & p & [(-> & Hn & Hp)|]); [lia| |lia].
      rewrite <-(Zb_bZ n), <-Hn. apply (Hyes (DestDomain name)); [cbn; lia|done|].
      rewrite Hi1. cbn. by rewrite <-(Zb_bZ n), <-Hn, <-app_assoc.
    - intros e He. apply Hno. intros [x|x|x] port rest Hd Hi; rewrite Hi1 in Hi; try done. injection Hi as Hn Hi2. subst i2.
      cbn in Hd. rewrite Hn, bZ_Zb_small in He by len_lia. change (put16 port) with [Zb (Z.shiftr port 8); Zb port] in He.
      len_lia. }
  assert (∀ n (mk : bytes → dest), 0 ≤ n → (∀ x, len x = n → dest_sized (mk x) ∧ encode_dest (mk x) = t :: x) →
    (∀ d, dest_sized d → (∃ x y, encode_dest d ++ x = t :: y) → ∃ x, d = mk x ∧ len x = n) →
    wp c w0 (bindE (readN c (n + 2)) (λ a, ret (Ok (t :: a)))) l i1 handshake_outcome) as Hfixed.
  { intros n mk Hn Hmk Hinv. apply wp_read; [lia| |].
    - intros a i3 -> Ha. apply wp_ret. destruct (Hsplit n a) as (y & p & [(-> & Hy & Hp)|]); [lia| |lia].
      destruct (Hmk y Hy) as [Hd He]. replace (t :: y ++ p) with (encode_dest (mk y) ++ p) by (by rewrite He).
      apply Hyes; [done|done|]. rewrite Hi1, He. cbn. by rewrite <-app_assoc.
    - intros e He. apply Hno. intros d port rest Hd Hi. rewrite Hi1 in Hi. rewrite <-app_assoc in Hi.
      destruct (Hinv d Hd) as (x & -> & Hx); [by exists (put16 port ++ rest), i1|].
      destruct (Hmk x Hx) as [_ Hex]. rewrite Hex in Hi. injection Hi as Hi. subst i1.
      change (put16 port) with [Zb (Z.shiftr port 8); Zb port] in He. len_lia. }
  destruct (decide (bZ t = 1)) as [Ht|Ht1]; [apply (bZ_inj t Byte.x01) in Ht as ->|].
  { apply (Hfixed 4 DestIP4); [lia|done|]. intros [x|x|x] Hd (y & z & Heq); try done. eauto. }
  destruct (decide (bZ t = 4)) as [Ht|Ht4]; [apply (bZ_inj t Byte.x04) in Ht as ->|].
  { apply (Hfixed 16 DestIP6); [lia|done|]. intros [x|x|x] Hd (y & z & Heq); try done. eauto. }
  apply wp_ret. intros a rest msgs' Ha. destruct (accepts_addr _ _ _ _ _ _ _ _ _ Hr Ha) as (-> & d & port & Hd & ->).
  destruct d; injection Hi1 as <- _; done.
Qed.

(** The request and its reply, once the method has been settled. *)
Lemma reply_outcome pre msgs i :
  greeted user pre msgs → input = pre ++ i →
  wp c w0 (let*? _ := write c (request command addr) in
           let*? buf := readN c 3 in
           let* rep := lift (idx buf 1) in
           if decide (bZ rep ≠ 0)
           then throw (ErrNew (Command_String command +:+ ": " +:+ Reply_String (bZ rep)))
           else ReadAddr c MaxAddrLen) (greeting user :: msgs) i handshake_outcome.
Proof.
  intros Hg Hin. apply wp_write. simpl app.
  assert (∀ e l j, (∀ ver rsv (x : bytes), i ≠ [ver; Byte.x00; rsv] ++ x) → handshake_outcome (Fail e) l j) as Hno.
  { intros e l j Hne a rest msgs' (pre' & ver & rsv & Hg' & Hi & _). rewrite Hin in Hi.
    destruct (greeted_unique _ _ _ _ _ _ Hg Hg' Hi) as (_ & _ & ->). by eapply Hne. }
  apply wp_read; [lia| |intros e He; apply Hno; intros ver rsv x ->; len_lia].
  intros [|ver [|rep [|rsv [|]]]] i1 -> Hl; try len_lia. clear Hl.
  change (idx [ver; rep; rsv] 1) with (Some rep). rewrite bind_lift_Some.
  destruct (decide (bZ rep ≠ 0)) as [Hrep|Hrep].
  - apply wp_ret. apply Hno. intros v r x Heq. injection Heq as _ -> _ _. by apply Hrep.
  - assert (rep = Byte.x00) as -> by (apply bZ_inj; by destruct (decide (bZ rep = 0))).
    by apply (ReadAddr_outcome pre ver rsv _ msgs).
Qed.

Lemma ClientHandshake_runs :
  wp c w0 (ClientHandshake c addr command user) [] input handshake_outcome.
Proof.
  unfold ClientHandshake. apply wp_write. simpl app.
  replace [Zb Version; Byte.x01; Zb (match user with Some _ => MethodUserPass | None => MethodNoAuth end)]
    with (greeting user) by (by destruct user).
  assert (∀ e l i, (∀ pre msgs x, greeted user pre msgs → input ≠ pre ++ x) → handshake_outcome (Fail e) l i) as Hno.
  { intros e l i Hne a rest msgs' (pre' & ver & rsv & Hg' & Hi & _). by eapply Hne. }
  apply wp_read; [lia| |intros e He; apply Hno; intros pre msgs x [] ->; len_lia].
  intros [|ver [|chosen [|]]] i Hi Hl; try len_lia. clear Hl.
  change (idx [ver; chosen] 0) with (Some ver). change (idx [ver; chosen] 1) with (Some chosen).
  rewrite !bind_lift_Some. destruct (decide (bZ ver ≠ Version)) as [Hver|Hver].
  { apply wp_ret, Hno. intros pre msgs x [] Heq; rewrite Hi in Heq; injection Heq as -> _ _; by apply Hver. }
  assert (ver = Byte.x05) as -> by (apply bZ_inj; by destruct (decide (bZ ver = Version))).
  apply wp_bindE. destruct (decide (bZ chosen = MethodUserPass)) as [Hc|Hc].
  - apply (bZ_inj chosen Byte.x02) in Hc as ->. unfold authenticate. destruct user as [u|] eqn:Eu.
    2: { apply wp_ret, Hno. intros pre msgs x [|u v Hu] Heq; [|done]. by rewrite Hi in Heq. }
    assert (∀ pre msgs x, greeted (Some u) pre msgs → input = pre ++ x → ∃ v, i = [v; Byte.x00] ++ x ∧
      1 ≤ slen (Username u) ≤ MaxAuthLen ∧ 1 ≤ slen (Password u) ≤ MaxAuthLen) as Hinv.
    { intros pre msgs x [|u' v Hu] Heq; rewrite Hi in Heq; [done|]. injection Hu as <-. injection Heq as ->. by exists v. }
    destruct (decide (_ ∨ _)) as [Hz|Hz]; [|destruct (decide (_ ∨ _)) as [Hbig|Hbig]].
    + apply wp_ret, Hno. intros pre msgs x Hg Heq. destruct (Hinv _ _ _ Hg Heq) as (v & _ & ? & ?). lia.
    + apply wp_ret, Hno. intros pre msgs x Hg Heq. destruct (Hinv _ _ _ Hg Heq) as (v & _ & ? & ?). lia.
    + apply wp_write. apply wp_read; [lia| |].
      2: { intros e He. apply Hno. intros pre msgs x Hg Heq. destruct (Hinv _ _ _ Hg Heq) as (v & -> & _). len_lia. }
      intros [|v [|status [|]]] i2 -> Hl; try len_lia. change (idx [v; status] 1) with (Some status).
      rewrite bind_lift_Some. destruct (decide (bZ status ≠ 0)) as [Hs|Hs].
      * apply wp_ret, Hno. intros pre msgs x Hg Heq. destruct (Hinv _ _ _ Hg Heq) as (v' & Hv & _).
        injection Hv as _ -> _. by apply Hs.
      * assert (status = Byte.x00) as -> by (apply bZ_inj; by destruct (decide (bZ status = 0))).
        apply wp_ret. rewrite <-Eu. apply (reply_outcome [Byte.x05; Byte.x02; v; Byte.x00] [auth_message u] i2); [|done].
        apply greeted_password; unfold slen in *; [done|lia|lia].
  - destruct (decide (bZ chosen ≠ MethodNoAuth)) as [Hn|Hn].
    + apply wp_ret, Hno. intros pre msgs x [|u v Hu] Heq; rewrite Hi in Heq.
      * injection Heq as -> _. by apply Hn.
      * injection Heq as -> _. by apply Hc.
    + assert (chosen = Byte.x00) as -> by (apply bZ_inj; by destruct (decide (bZ chosen = MethodNoAuth))).
      apply wp_ret. apply (reply_outcome [Byte.x05; Byte.x00] [] i); [constructor|done].
Qed.
End handshake.

(** The handshake returns whatever the server sends, and it succeeds exactly
    on the answers RFC 1928 and RFC 1929 allow: a method the client can use (and,
    for passwords, credentials of 1 to 255 bytes and a status of zero), a reply
    code of zero and an address.  Then it has written its greeting, its
    credentials if they were asked for, and the request, returns the bound address
    and leaves the bytes after it unread. *)
Theorem ClientHandshake_outcome (c : conn) (addr : bytes) (command : Z) (user : option User)
    (input : bytes) (w : World) :
  verdicts w = [] → inbox w !! cid c = Some input →
  ∃ r w', ClientHandshake c addr command user w = Some (r, w') ∧
    match r with
    | Ok a => ∃ rest msgs, server_accepts user input a rest msgs ∧ inbox w' !! cid c = Some rest ∧
        sent w' = sent w ++ (EWrite c <$> greeting user :: msgs ++ [request command addr])
    | Fail _ => ∀ a rest msgs, ¬ server_accepts user input a rest msgs
    end.
Proof.
  intros Hv Hi. destruct (ClientHandshake_runs c w input user addr command w) as (r & w' & l & i & Hr & Ht & Ho).
  { split; [done|]. split; [done|]. by rewrite app_nil_r. }
  exists r, w'. split; [done|]. destruct r as [a|e]; [|done].
  destruct Ho as (msgs & Hacc & ->). destruct Ht as (_ & Hrest & Hs). by exists i, msgs.
Qed.

(** The server's bytes decide the outcome. *)
Lemma server_accepts_unique user input a1 a2 rest1 rest2 msgs1 msgs2 :
  server_accepts user input a1 rest1 msgs1 → server_accepts user input a2 rest2 msgs2 →
  a1 = a2 ∧ rest1 = rest2 ∧ msgs1 = msgs2.
Proof.
  intros (p1 & v1 & s1 & Hg1 & Hi1 & d1 & port1 & Hd1 & _ & Ha1)
         (p2 & v2 & s2 & Hg2 & Hi2 & d2 & port2 & Hd2 & _ & Ha2). rewrite Hi1 in Hi2.
  destruct (greeted_unique _ _ _ _ _ _ _ Hg1 Hg2 Hi2) as (_ & -> & Heq). injection Heq as _ _ Heq.
  assert (a1 = a2) as ->.
  { pose proof (SplitAddr_dest d1 port1 rest1 Hd1) as H1. pose proof (SplitAddr_dest d2 port2 rest2 Hd2) as H2.
    rewrite app_assoc, <-Ha1 in H1. rewrite app_assoc, <-Ha2, <-Heq, H1 in H2. by injection H2. }
  by apply app_inv_head in Heq as ->.
Qed.

(** The address in [socks5ReplySuccess]. *)
Definition reply_bound : bytes := Zb AtypIPv4 :: make_zero 6.

Lemma own_server_accepts rest :
  server_accepts None (noAuthReply ++ socks5ReplySuccess ++ rest) reply_bound rest [].
Proof.
  exists [Byte.x05; Byte.x00], Byte.x05, Byte.x00. split; [constructor|]. split; [done|].
  exists (DestIP4 (make_zero 4)), 0. by repeat split.
Qed.


(** A datagram shorter than its header is decoded with what the buffer held
    before, and the count is negative. *)
Example ReadFrom_stale :
  packetConn_ReadFrom ([Byte.x00; Byte.x00; Byte.x00; Byte.x01; Byte.x07; Byte.x07; Byte.x07; Byte.x07; Byte.x00; Byte.x35])
    (Ok [Byte.x00; Byte.x00; Byte.x00]) =
  Some (Ok (-7, [Byte.x00; Byte.x00; Byte.x00; Byte.x01; Byte.x07; Byte.x07; Byte.x07; Byte.x07; Byte.x00; Byte.x35],
            ([7; 7; 7; 7], 53))).
Proof. vm_compute. reflexivity. Qed.

(** The text of an address of one byte is not looked at past its end by Go
    either: it panics. *)
Example NewSocks5_panics : NewSocks5 "a" "" "" = None ∧ NewSocks5 "" "" "" = None.
Proof. done. Qed.

(** ** Witnesses *)

#[local] Instance client_ttl : TTLService plain_state := cached_ttl probe5 None 60.
#[local] Instance client_resolver : Resolver plain_state := fixed_resolver plain_state.

Lemma DecodeUDPPacket_EncodeUDPPacket_witness :
  serializable "b.example" AddrInvalid ∧
  ∃ packet, EncodeUDPPacket (Some (SerializeAddr "b.example" AddrInvalid 53)) [Byte.x2a] = Ok packet ∧
    DecodeUDPPacket packet = Some (Some (SerializeAddr "b.example" AddrInvalid 53), [Byte.x2a], None).
Proof.
  assert (serializable "b.example" AddrInvalid) as H by (vm_compute; discriminate).
  split; [exact H|]. apply (DecodeUDPPacket_EncodeUDPPacket "b.example" AddrInvalid 53 [Byte.x2a] H).
Defined.

(** What a client connection reads from the server. *)
Definition client_world (input : bytes) : World := mkWorld [] [] 0 [] [] [] {[0 := input]}.

Lemma ClientHandshake_outcome_witness :
  let input := [Byte.x05; Byte.x02; Byte.x01; Byte.x00; Byte.x05; Byte.x00; Byte.x00] ++ reply_bound ++ [Byte.x16] in
  let u := mkUser "u" "pw" in
  ∃ w', ClientHandshake client [Byte.x01] 1 (Some u) (client_world input) = Some (Ok reply_bound, w') ∧
    sent w' = [EWrite client [Byte.x05; Byte.x01; Byte.x02]; EWrite client (auth_message u);
               EWrite client [Byte.x05; Byte.x01; Byte.x00; Byte.x01]].
Proof.
  intros input u.
  destruct (ClientHandshake_outcome client [Byte.x01] 1 (Some u) input (client_world input)) as (r & w' & Hr & Ho);
    [reflexivity|apply lookup_singleton_eq|].
  destruct r as [a|e]; [|exfalso; vm_compute in Hr; discriminate].
  assert (a = reply_bound) as -> by (vm_compute in Hr; injection Hr as <- _; reflexivity).
  exists w'. split; [exact Hr|]. vm_compute in Hr. injection Hr as <-. reflexivity.
Defined.

