(* ===== verification/Allocator.v ===== *)
(** The buffer allocator of the embedded tun2socks
    ([buffer/allocator/allocator.go], [buffer/pool.go], [internal/pool/pool.go]):
    seventeen pools of buffers, of 1 byte to 64 KiB.

    A buffer is an identity, a length and a capacity; its bytes do not matter
    here.  [sync.Pool] returns any buffer it holds, or makes a new one: the choice
    is an argument. *)

From S2P Require Import Prelude.

Definition MaxSegmentSize : Z := 65535.
Definition RelayBufferSize : Z := Z.shiftl 20 10.

Record buffer := mkBuffer { bufId : Z; bufLen : Z; bufCap : Z }.
#[export] Instance buffer_eq_dec : EqDecision buffer.
Proof. solve_decision. Defined.

(** The pools, and the identity of the next buffer that is made. *)
Record Allocator := mkAllocator { buffers : list (list buffer); fresh : Z }.

(** [New]: the pools are empty. *)
Definition New : Allocator := mkAllocator (replicate 17 []) 0.

(** [bits.Len32] *)
Definition Len32 (x : Z) : Z := if decide (x = 0) then 0 else Z.log2 x + 1.

(** The position of the most significant bit, a [uint16]. *)
Definition msb (size : Z) : Z := u16 (Len32 (u32 size) - 1).

(** [1 << b] as an [int]. *)
Definition shl1 (b : Z) : Z := s64 (Z.shiftl 1 b).

(** [Pool.Get] of pool [k]: the [i]-th buffer it holds, or a new one. *)
Definition pool_Get (k : Z) (choice : option nat) : St Allocator buffer :=
  let* a := get in
  let* pool := lift (idx (buffers a) k) in
  match choice with
  | Some i =>
      match pool !! i with
      | Some b =>
          let* _ := put (mkAllocator (<[Z.to_nat k := delete i pool]> (buffers a)) (fresh a)) in ret b
      | None =>
          let* _ := put (mkAllocator (buffers a) (fresh a + 1)) in
          ret (mkBuffer (fresh a) (shl1 k) (shl1 k))
      end
  | None =>
      let* _ := put (mkAllocator (buffers a) (fresh a + 1)) in
      ret (mkBuffer (fresh a) (shl1 k) (shl1 k))
  end.

Definition pool_Put (k : Z) (b : buffer) : St Allocator unit :=
  let* a := get in
  let* pool := lift (idx (buffers a) k) in
  put (mkAllocator (<[Z.to_nat k := b :: pool]> (buffers a)) (fresh a)).

(** [buf[:size]]: within the capacity, or a panic. *)
Definition reslice (b : buffer) (size : Z) : go buffer :=
  if decide (0 ≤ size ≤ bufCap b) then Some (mkBuffer (bufId b) size (bufCap b)) else None.

(** [Allocator.Get]; nil is [None]. *)
Definition Get (choice : option nat) (size : Z) : St Allocator (option buffer) :=
  if decide (size ≤ 0 ∨ 65536 < size) then ret None else
  let b := msb size in
  let* buf := (if decide (size = shl1 b) then pool_Get b choice else pool_Get (b + 1) choice) in
  let* buf := lift (reslice buf size) in
  ret (Some buf).

Definition Put (buf : buffer) : St Allocator (result unit) :=
  let b := msb (bufCap buf) in
  if decide (bufCap buf = 0 ∨ 65536 < bufCap buf ∨ bufCap buf ≠ shl1 b)
  then throw (ErrNew "allocator Put() incorrect buffer size") else
  let* _ := pool_Put b buf in
  ret (Ok tt).

(** ** Size classes *)

(** The pool that serves a size. *)
Definition class (size : Z) : Z := if decide (size = shl1 (msb size)) then msb size else msb size + 1.

Lemma msb_log2 size : 0 < size ≤ 65536 → msb size = Z.log2 size ∧ 0 ≤ Z.log2 size ≤ 16.
Proof.
  intros Hs. pose proof (Z.log2_nonneg size).
  pose proof (Z.log2_le_mono size 65536 ltac:(lia)) as Hle. change (Z.log2 65536) with 16 in Hle.
  unfold msb, Len32, u32, u16. rewrite (Z.mod_small size) by lia. rewrite decide_False by lia.
  rewrite Z.mod_small by lia. lia.
Qed.

Lemma shl1_pow k : 0 ≤ k ≤ 62 → shl1 k = 2 ^ k.
Proof.
  intros Hk. unfold shl1. rewrite Z.shiftl_1_l.
  assert (0 < 2 ^ k ≤ 2 ^ 62) as Hp by (split; [apply Z.pow_pos_nonneg; lia|apply Z.pow_le_mono_r; lia]).
  change (2 ^ 62) with 4611686018427387904 in Hp. unfold s64.
  rewrite Z.mod_small by lia. lia.
Qed.

(** The class is the smallest power of two that holds the size. *)
Lemma class_spec size :
  0 < size ≤ 65536 → 0 ≤ class size ≤ 16 ∧ size ≤ 2 ^ class size < 2 * size.
Proof.
  intros Hs. destruct (msb_log2 size Hs) as [Hm Hr]. unfold class. rewrite Hm, shl1_pow by lia.
  destruct (Z.log2_spec size ltac:(lia)) as [Hlo Hhi]. rewrite Z.pow_succ_r in Hhi by lia.
  destruct (decide (size = 2 ^ Z.log2 size)) as [He|He]; [lia|].
  assert (Z.log2 size ≠ 16). { intros E. rewrite E in *. change (2 ^ 16) with 65536 in *. lia. }
  rewrite Z.pow_add_r by lia. lia.
Qed.

(** ** The invariant *)

(** Who holds a buffer: a pool or a client. *)
Definition pooled (a : Allocator) : list buffer := concat (buffers a).

Record alloc_ok (a : Allocator) (held : list buffer) : Prop := {
  ok_pools : len (buffers a) = 17;
  ok_class k pool b : buffers a !! k = Some pool → b ∈ pool → bufCap b = 2 ^ Z.of_nat k;
  ok_held b : b ∈ held → ∃ k, 0 ≤ k ≤ 16 ∧ bufCap b = 2 ^ k ∧ 0 ≤ bufLen b ≤ bufCap b;
  ok_fresh b : b ∈ pooled a ++ held → bufId b < fresh a;
  ok_single : NoDup (bufId <$> pooled a ++ held)
}.

(** Clients ask for buffers, and put back those they hold, once. *)
Inductive client_step : Allocator * list buffer → Allocator * list buffer → Prop :=
| client_get choice size a held r a' :
    Get choice size a = Some (r, a') →
    client_step (a, held) (a', match r with Some b => b :: held | None => held end)
| client_put b r a held1 held2 a' :
    Put b a = Some (r, a') →
    client_step (a, held1 ++ b :: held2) (a', held1 ++ held2).

Definition reachable : Allocator * list buffer → Prop := rtc client_step (New, []).

Lemma pooled_split a k pool :
  buffers a !! k = Some pool → pooled a ≡ₚ pool ++ concat (take k (buffers a) ++ drop (S k) (buffers a)).
Proof.
  intros Hk. unfold pooled. rewrite <-(take_drop_middle _ _ _ Hk) at 1.
  rewrite !concat_app. cbn [concat]. by rewrite Permutation_app_swap_app.
Qed.

Lemma pooled_insert a k pool pool' f :
  buffers a !! k = Some pool →
  pooled (mkAllocator (<[k := pool']> (buffers a)) f) ≡ₚ
    pool' ++ concat (take k (buffers a) ++ drop (S k) (buffers a)).
Proof.
  intros Hk. unfold pooled. cbn [buffers]. rewrite insert_take_drop by by eapply lookup_lt_Some.
  rewrite !concat_app. cbn [concat]. by rewrite Permutation_app_swap_app.
Qed.

(** The invariant only looks at who holds what. *)
Lemma alloc_ok_move a held a' held' :
  alloc_ok a held → len (buffers a') = 17 →
  (∀ k pool b, buffers a' !! k = Some pool → b ∈ pool → bufCap b = 2 ^ Z.of_nat k) →
  (∀ b, b ∈ held' → ∃ k, 0 ≤ k ≤ 16 ∧ bufCap b = 2 ^ k ∧ 0 ≤ bufLen b ≤ bufCap b) →
  fresh a ≤ fresh a' →
  (bufId <$> pooled a' ++ held') ≡ₚ (bufId <$> pooled a ++ held) →
  alloc_ok a' held'.
Proof.
  intros [Hp Hc Hh Hf Hs] Hp' Hc' Hh' Hfr Hperm. split; try done.
  - intros b Hb. assert (bufId b ∈ (bufId <$> pooled a ++ held)) as (b' & -> & Hb')%list_elem_of_fmap
      by (rewrite <-Hperm; by apply list_elem_of_fmap_2). specialize (Hf b' Hb'). lia.
  - by rewrite Hperm.
Qed.

Lemma pool_Get_ok a held k choice :
  alloc_ok a held → 0 ≤ k ≤ 16 →
  ∃ b a', pool_Get k choice a = Some (b, a') ∧ bufCap b = 2 ^ k ∧
    (bufId b ∉ (bufId <$> held)) ∧
    ∀ size, 0 ≤ size ≤ 2 ^ k → alloc_ok a' (mkBuffer (bufId b) size (bufCap b) :: held).
Proof.
  intros Ha Hk. unfold pool_Get.
  destruct (idx_Some (buffers a) k) as [pool Hpool]; [rewrite (ok_pools _ _ Ha); lia|].
  unfold bind, get, lift. rewrite Hpool. unfold idx in Hpool. rewrite decide_True in Hpool by lia.
  assert (∃ a', (let* _ := put (mkAllocator (buffers a) (fresh a + 1)) in
      ret (mkBuffer (fresh a) (shl1 k) (shl1 k))) a = Some (mkBuffer (fresh a) (shl1 k) (shl1 k), a') ∧
    ∀ size, 0 ≤ size ≤ 2 ^ k → alloc_ok a' (mkBuffer (fresh a) size (shl1 k) :: held)) as (a' & Hnew & Hok).
  { eexists. split; [reflexivity|]. intros size Hsize. destruct Ha as [Hp Hc Hh Hf Hs].
    split; cbn [buffers fresh]; [done|done| | |].
    - intros b [->|Hb]%elem_of_cons; [|by apply Hh]. exists k. cbn. rewrite shl1_pow by lia. split; [lia|]. by split.
    - intros b. change (pooled (mkAllocator (buffers a) (fresh a + 1))) with (pooled a).
      rewrite elem_of_app, elem_of_cons. intros [Hb|[->|Hb]]; [|cbn; lia|];
        specialize (Hf b ltac:(apply elem_of_app; tauto)); lia.
    - change (pooled (mkAllocator (buffers a) (fresh a + 1))) with (pooled a).
      rewrite <-Permutation_middle. cbn. apply NoDup_cons. split; [|done].
      intros (b & Hb & Hin)%list_elem_of_fmap. specialize (Hf b Hin). lia. }
  assert (fresh a ∉ (bufId <$> held)) as Hfr.
  { intros (b & Hb & Hin)%list_elem_of_fmap. pose proof (ok_fresh _ _ Ha b ltac:(apply elem_of_app; tauto)). lia. }
  destruct choice as [i|].
  2: { eexists _, a'. split; [exact Hnew|]. split; [cbn; by rewrite shl1_pow by lia|]. by split. }
  destruct (pool !! i) as [b|] eqn:Ei.
  2: { eexists _, a'. split; [exact Hnew|]. split; [cbn; by rewrite shl1_pow by lia|]. by split. }
  eexists b, _. split; [reflexivity|].
  assert (bufCap b = 2 ^ k) as Hcap.
  { rewrite (ok_class _ _ Ha _ pool b Hpool) by by eapply list_elem_of_lookup_2. f_equal. lia. }
  split; [done|].
  assert (pooled a ≡ₚ b :: delete i pool ++ concat (take (Z.to_nat k) (buffers a) ++ drop (S (Z.to_nat k)) (buffers a))) as Hsplit.
  { rewrite (pooled_split _ _ _ Hpool), app_comm_cons. apply Permutation_app_tail. by apply delete_Permutation. }
  split.
  { pose proof (ok_single _ _ Ha) as Hs. rewrite Hsplit in Hs. cbn in Hs. apply NoDup_cons in Hs as [Hs _].
    rewrite fmap_app, elem_of_app in Hs. tauto. }
  intros size Hsize. apply (alloc_ok_move a held); cbn [buffers fresh]; [done| | | |lia|].
  - unfold len. rewrite length_insert. apply (ok_pools _ _ Ha).
  - intros k' pool' b' Hk' Hb'. apply list_lookup_insert_Some in Hk' as [(<- & <- & _)|(Hne & Hk')].
    + rewrite (ok_class _ _ Ha _ pool b' Hpool); [done|]. rewrite (delete_Permutation _ _ _ Ei). by right.
    + by apply (ok_class _ _ Ha k' pool').
  - intros b' [->|Hb']%elem_of_cons; [|by apply (ok_held _ _ Ha)]. exists k. cbn. rewrite Hcap. split; [lia|by split].
  - rewrite !fmap_app, (pooled_insert _ _ _ _ _ Hpool), Hsplit. cbn. by rewrite <-Permutation_middle.
Qed.

Lemma Get_ok a held choice size :
  alloc_ok a held → 0 < size ≤ 65536 →
  ∃ b a', Get choice size a = Some (Some b, a') ∧ bufLen b = size ∧ bufCap b = 2 ^ class size ∧
    (bufId b ∉ (bufId <$> held)) ∧ alloc_ok a' (b :: held).
Proof.
  intros Ha Hs. destruct (class_spec size Hs) as (Hk & Hlo & _).
  destruct (pool_Get_ok a held (class size) choice Ha Hk) as (b & a' & Hget & Hcap & Hid & Hok).
  exists (mkBuffer (bufId b) size (bufCap b)), a'. split; [|split; [done|split; [done|split; [done|]]]].
  - unfold Get. rewrite decide_False by lia. unfold bind at 1. fold (class size).
    replace ((if decide (size = shl1 (msb size)) then pool_Get (msb size) choice else pool_Get (msb size + 1) choice) a)
      with (pool_Get (class size) choice a) by (unfold class; by case_decide).
    rewrite Hget. unfold reslice. rewrite Hcap, decide_True by lia. reflexivity.
  - apply Hok. lia.
Qed.

(** A buffer is taken back exactly when its capacity is a power of two up to
    64 KiB; then it is in the pool of its class. *)
Lemma Put_ok a held1 b held2 :
  alloc_ok a (held1 ++ b :: held2) →
  ∃ a', Put b a = Some (Ok tt, a') ∧ alloc_ok a' (held1 ++ held2).
Proof.
  intros Ha. destruct (ok_held _ _ Ha b) as (k & Hk & Hcap & Hlen); [apply elem_of_app; right; left|].
  assert (0 < 2 ^ k ≤ 65536) as Hp.
  { split; [apply Z.pow_pos_nonneg; lia|]. change 65536 with (2 ^ 16). apply Z.pow_le_mono_r; lia. }
  destruct (msb_log2 _ Hp) as [Hm _]. rewrite Z.log2_pow2 in Hm by lia.
  unfold Put. rewrite Hcap, Hm, shl1_pow by lia. rewrite decide_False by lia.
  unfold pool_Put, bind, get, lift.
  destruct (idx_Some (buffers a) k) as [pool Hpool]; [rewrite (ok_pools _ _ Ha); lia|].
  rewrite Hpool. unfold idx in Hpool. rewrite decide_True in Hpool by lia.
  eexists. split; [reflexivity|]. apply (alloc_ok_move a (held1 ++ b :: held2)); cbn [buffers fresh]; [done| | | |lia|].
  - unfold len. rewrite length_insert. apply (ok_pools _ _ Ha).
  - intros k' pool' b' Hk' Hb'. apply list_lookup_insert_Some in Hk' as [(<- & <- & _)|(Hne & Hk')].
    + apply elem_of_cons in Hb' as [->|Hb']; [rewrite Hcap; f_equal; lia|by apply (ok_class _ _ Ha _ pool)].
    + by apply (ok_class _ _ Ha k' pool').
  - intros b' Hb'. apply (ok_held _ _ Ha). rewrite elem_of_app, elem_of_cons. apply elem_of_app in Hb'. tauto.
  - rewrite !fmap_app, (pooled_insert _ _ _ _ _ Hpool), (pooled_split _ _ _ Hpool), !fmap_app. cbn.
    by rewrite <-!Permutation_middle.
Qed.

Lemma New_ok : alloc_ok New [].
Proof.
  split; [done| | | |].
  - intros k pool b Hk Hb. apply lookup_replicate in Hk as [-> _]. by apply elem_of_nil in Hb.
  - intros b Hb. by apply elem_of_nil in Hb.
  - intros b Hb. by apply elem_of_nil in Hb.
  - apply NoDup_nil. done.
Qed.

Lemma client_step_ok s s' : client_step s s' → alloc_ok (fst s) (snd s) → alloc_ok (fst s') (snd s').
Proof.
  intros [choice size a held r a' Hget|b r a held1 held2 a' Hput] Ha; cbn in *.
  - destruct (decide (size ≤ 0 ∨ 65536 < size)) as [Hs|Hs].
    + unfold Get in Hget. rewrite decide_True in Hget by done. by injection Hget as <- <-.
    + destruct (Get_ok a held choice size Ha) as (b & a2 & Hr & _ & _ & _ & Hok); [lia|].
      rewrite Hr in Hget. by injection Hget as <- <-.
  - destruct (Put_ok a held1 b held2 Ha) as (a2 & Hr & Hok). rewrite Hr in Hput. by injection Hput as _ <-.
Qed.

Lemma reachable_ok s : reachable s → alloc_ok (fst s) (snd s).
Proof.
  unfold reachable. intros Hs. remember (New, []) as s0 eqn:E.
  assert (alloc_ok (fst s0) (snd s0)) as H0 by (subst; apply New_ok). clear E.
  induction Hs; [done|]. eauto using client_step_ok.
Qed.

(** C24: however clients have used the allocator before (each putting back what it
    holds, once), a request is answered with nil and nothing happens when it is not
    between 1 and 65536; else the buffer has exactly the length asked for, the
    smallest power of two that holds it as capacity, so less than half of it is
    wasted, and it is not a buffer that some client still holds. *)
Theorem Get_bounds (a : Allocator) (held : list buffer) (choice : option nat) (size : Z) :
  reachable (a, held) →
  ((size ≤ 0 ∨ 65536 < size) → Get choice size a = Some (None, a)) ∧
  (0 < size ≤ 65536 → ∃ b a', Get choice size a = Some (Some b, a') ∧
     bufLen b = size ∧ size ≤ bufCap b < 2 * size ∧ (∃ k, 0 ≤ k ≤ 16 ∧ bufCap b = 2 ^ k) ∧
     (bufId b ∉ (bufId <$> held))).
Proof.
  intros Ha%reachable_ok. split; intros Hs.
  - unfold Get. by rewrite decide_True.
  - destruct (Get_ok a held choice size Ha Hs) as (b & a' & Hr & Hlen & Hcap & Hid & _).
    destruct (class_spec size Hs) as (Hk & Hb). exists b, a'. rewrite Hcap. eauto 8.
Qed.

Lemma Get_bounds_witness :
  ∃ a held b a', reachable (a, held) ∧ len held = 1 ∧ Get (Some 0%nat) 20480 a = Some (Some b, a') ∧
    bufCap b = 32768 ∧ bufId b = 0.
Proof.
  pose (s1 := (mkAllocator (replicate 17 []) 1, [mkBuffer 0 20480 32768])).
  pose (s2 := (mkAllocator (replicate 17 []) 2, [mkBuffer 1 3 4; mkBuffer 0 20480 32768])).
  pose (a3 := mkAllocator (<[15%nat := [mkBuffer 0 20480 32768]]> (replicate 17 [])) 2).
  assert (reachable (a3, [mkBuffer 1 3 4])) as Hreach.
  { eapply rtc_l; [apply (client_get None 20480 New []); vm_compute; reflexivity|].
    eapply rtc_l; [apply (client_get None 3); vm_compute; reflexivity|].
    eapply rtc_l; [apply (client_put (mkBuffer 0 20480 32768) (Ok tt) _ [mkBuffer 1 3 4] []); vm_compute; reflexivity|].
    apply rtc_refl. }
  destruct (Get_bounds a3 [mkBuffer 1 3 4] (Some 0%nat) 20480 Hreach) as [_ Hget].
  destruct Hget as (b & a' & Hr & _); [lia|].
  exists a3, [mkBuffer 1 3 4], b, a'. split; [exact Hreach|]. split; [reflexivity|]. split; [exact Hr|].
  vm_compute in Hr. injection Hr as <- _. split; reflexivity.
Defined.
