(* ===== verification/Stats.v ===== *)
(** The statistics and the log the Android application reads
    ([mobile/stats.go]; [mobile/mobile_api.go]: [pushLog], [GetLogs]).

    Every function takes its locks one after the other, so calls of several
    goroutines interleave at the critical sections: a history is the list of the
    sections in the order they were entered.  The theorems hold of every history:
    the counters count (modulo [2^64]) and only the last events and the last log
    entries are kept. *)

From S2P Require Import Prelude GoStd.

Record statsEvent := mkEvent {
  evTime : string;
  evType : string;
  evTarget : string;
  evMode : string;
  evOutcome : string;
  evDetail : string
}.

Record statsState := mkStats {
  startedAt : string;
  tcpConnections : Z;
  udpFlows : Z;
  dnsQueries : Z;
  blockedRequests : Z;
  failedRequests : Z;
  events : list statsEvent
}.

(** The state of the package before anything is recorded. *)
Definition stats_init : statsState := mkStats "" 0 0 0 0 0 [].

(** ** Critical sections *)

Definition resetStats (now : string) : St statsState unit :=
  put (mkStats now 0 0 0 0 0 []).

(** [recordStatEvent]; [now] is the wall clock, printed. *)
Definition recordStatEvent (now : string) (event : statsEvent) : St statsState unit :=
  let* s := get in
  let event := if decide (evTime event = "")
               then mkEvent now (evType event) (evTarget event) (evMode event) (evOutcome event) (evDetail event)
               else event in
  let l := events s ++ [event] in
  let* l :=
    (if decide (80 < len l) then
       let* tail := lift (slice_from l (len l - 80)) in
       lift (slice_to (copy l tail) 80)
     else ret l) in
  put (mkStats (startedAt s) (tcpConnections s) (udpFlows s) (dnsQueries s)
         (blockedRequests s) (failedRequests s) l).

Inductive counter := CTCP | CUDP | CDNS | CBlocked | CFailed.
#[export] Instance counter_eq_dec : EqDecision counter.
Proof. solve_decision. Defined.

Definition count_of (s : statsState) (c : counter) : Z :=
  match c with
  | CTCP => tcpConnections s | CUDP => udpFlows s | CDNS => dnsQueries s
  | CBlocked => blockedRequests s | CFailed => failedRequests s
  end.

(** The counters one section increments, as [uint64]. *)
Definition bump (cs : list counter) : St statsState unit :=
  let inc (s : statsState) (c : counter) := u64 (count_of s c + if decide (c ∈ cs) then 1 else 0) in
  modify (λ s, mkStats (startedAt s) (inc s CTCP) (inc s CUDP) (inc s CDNS) (inc s CBlocked) (inc s CFailed)
                 (events s)).

Definition recordTCPStat (now target mode : string) : St statsState unit :=
  let* _ := bump [CTCP] in recordStatEvent now (mkEvent "" "TCP" target mode "ok" "").

Definition recordUDPStat (now target mode : string) : St statsState unit :=
  let* _ := bump [CUDP] in recordStatEvent now (mkEvent "" "UDP" target mode "ok" "").

Definition recordDNSStat (now target outcome detail : string) : St statsState unit :=
  let* _ := bump (CDNS :: if decide (outcome = "failed") then [CFailed] else []) in
  recordStatEvent now (mkEvent "" "DNS" target "" outcome detail).

Definition recordBlockedStat (now kind target : string) : St statsState unit :=
  let* _ := bump [CBlocked] in recordStatEvent now (mkEvent "" kind target "" "blocked" "").

Definition recordFailedStat (now kind target detail : string) : St statsState unit :=
  let* _ := bump [CFailed] in recordStatEvent now (mkEvent "" kind target "" "failed" detail).

(** [GetStats]: the snapshot is the state; [json.Marshal] prints it. *)
Definition GetStats (Marshal : statsState → result string) (s : statsState) : string :=
  match Marshal s with Fail _ => "{}" | Ok payload => payload end.

(** ** The log *)

Definition maxLogs : Z := 500.

Definition pushLog (msg : string) : St (list string) unit :=
  let* l := get in
  let l := l ++ [msg] in
  let* l := (if decide (maxLogs < len l) then lift (slice_from l 1) else ret l) in
  put l.

(** [LogWriter.Write] *)
Definition LogWriter_Write (p : bytes) : St (list string) (result Z) :=
  let* _ := pushLog (string_of_bytes p) in ret (Ok (len p)).

(** Everything since the last call, and the log is empty. *)
Definition GetLogs : St (list string) string :=
  let* l := get in
  if decide (len l = 0) then ret "" else
  let* _ := put [] in ret (foldl String.append "" l).

(** ** Histories *)

Inductive section := SReset (now : string) | SBump (cs : list counter) | SEvent (now : string) (e : statsEvent).

Definition enter (x : section) : St statsState unit :=
  match x with
  | SReset now => resetStats now
  | SBump cs => bump cs
  | SEvent now e => recordStatEvent now e
  end.

Fixpoint history {S A} (f : A → St S unit) (l : list A) : St S unit :=
  match l with
  | [] => ret tt
  | x :: l => let* _ := f x in history f l
  end.

(** What a history has recorded since it was last reset. *)
Definition stamped (now : string) (e : statsEvent) : statsEvent :=
  if decide (evTime e = "") then mkEvent now (evType e) (evTarget e) (evMode e) (evOutcome e) (evDetail e) else e.

Fixpoint recorded (l : list section) (acc : list statsEvent) : list statsEvent :=
  match l with
  | [] => acc
  | SReset _ :: l => recorded l []
  | SBump _ :: l => recorded l acc
  | SEvent now e :: l => recorded l (acc ++ [stamped now e])
  end.

Fixpoint counted (c : counter) (l : list section) (acc : Z) : Z :=
  match l with
  | [] => acc
  | SReset _ :: l => counted c l 0
  | SBump cs :: l => counted c l (acc + if decide (c ∈ cs) then 1 else 0)
  | SEvent _ _ :: l => counted c l acc
  end.

(** The last [n] elements. *)
Definition last_n {A} (n : nat) (l : list A) : list A := drop (length l - n) l.

Lemma last_n_all {A} n (l : list A) : (length l ≤ n)%nat → last_n n l = l.
Proof. intros H. unfold last_n. by replace (length l - n)%nat with 0%nat by lia. Qed.

Lemma last_n_length {A} n (l : list A) : (length (last_n n l) = length l `min` n)%nat.
Proof. unfold last_n. rewrite length_drop. lia. Qed.

(** Keeping the last [n] after each step keeps the last [n] of all. *)
Lemma last_n_snoc {A} n (l : list A) x : last_n n (last_n n l ++ [x]) = last_n n (l ++ [x]).
Proof.
  unfold last_n. rewrite !length_app, length_drop. simpl length.
  destruct (decide (length l ≤ n)%nat) as [Hle|Hgt].
  - replace (length l - n)%nat with 0%nat by lia. by rewrite drop_0, Nat.sub_0_r.
  - rewrite !drop_app, !drop_drop, !length_drop. f_equal; f_equal; lia.
Qed.

Lemma recordStatEvent_eq now e s :
  len (events s) ≤ 80 →
  recordStatEvent now e s = Some (tt, mkStats (startedAt s) (tcpConnections s) (udpFlows s) (dnsQueries s)
    (blockedRequests s) (failedRequests s) (last_n 80 (events s ++ [stamped now e]))).
Proof.
  intros Hlen. unfold recordStatEvent, bind, get. fold (stamped now e).
  set (l := events s ++ [stamped now e]).
  assert (len l = len (events s) + 1) as Hl by (unfold l; len_lia).
  destruct (decide (80 < len l)) as [Hbig|Hsmall].
  - rewrite slice_from_Some by lia. unfold lift, bind. rewrite slice_to_Some by (rewrite copy_len; lia).
    unfold put. do 3 f_equal. unfold copy, last_n.
    replace (Z.to_nat (len l - 80)) with (length l - 80)%nat by (unfold len in *; lia).
    rewrite take_app_le by (rewrite length_take, length_drop; unfold len in *; lia).
    rewrite take_take. apply take_ge. rewrite length_drop. lia.
  - unfold ret, put. do 3 f_equal. symmetry. apply last_n_all. unfold len in *. lia.
Qed.

(** A recording always returns. *)
Lemma recordStatEvent_total now e s : ∃ s', recordStatEvent now e s = Some (tt, s').
Proof.
  unfold recordStatEvent, bind, get, lift, ret, put. cbv zeta.
  set (l := events s ++ _). destruct (decide (80 < len l)) as [Hl|Hl]; [|by eexists].
  rewrite slice_from_Some by lia. rewrite slice_to_Some by (rewrite copy_len; lia). by eexists.
Qed.

Lemma bump_event_total cs now e s : ∃ s', (let* _ := bump cs in recordStatEvent now e) s = Some (tt, s').
Proof. unfold bind, bump, modify. apply recordStatEvent_total. Qed.

Lemma u64_add a b : u64 (u64 a + b) = u64 (a + b).
Proof. unfold u64. by rewrite Zplus_mod_idemp_l. Qed.
Lemma u64_idem a : u64 (u64 a) = u64 a.
Proof. unfold u64. by rewrite Zmod_mod. Qed.

(** For every interleaving of the functions that record, the state after it
    is what was recorded since the last reset: each counter is the number of times
    it was counted (modulo [2^64]), and the events are the last 80, in order. *)
Theorem stats_history (l : list section) :
  ∃ s', history enter l stats_init = Some (tt, s') ∧
    events s' = last_n 80 (recorded l []) ∧ len (events s') ≤ 80 ∧
    ∀ c, count_of s' c = u64 (counted c l 0).
Proof.
  enough (∀ acc n s, events s = last_n 80 acc → (∀ c, count_of s c = u64 (n c)) →
    ∃ s', history enter l s = Some (tt, s') ∧ events s' = last_n 80 (recorded l acc) ∧
      ∀ c, count_of s' c = u64 (counted c l (n c))) as Hgen.
  { destruct (Hgen [] (λ _, 0) stats_init) as (s' & Hr & He & Hc); [done|by intros []|].
    exists s'. split; [done|]. split; [done|]. split; [|done].
    rewrite He. unfold len. rewrite last_n_length. lia. }
  induction l as [|x l IH]; intros acc n s He Hc; [by exists s|]. simpl history. unfold bind at 1.
  destruct x as [now|cs|now e]; cbn [enter recorded counted].
  - apply (IH [] (λ _, 0)); [done|by intros []].
  - unfold bump, modify. apply (IH acc (λ c, n c + if decide (c ∈ cs) then 1 else 0)); [done|].
    intros c. transitivity (u64 (count_of s c + if decide (c ∈ cs) then 1 else 0)); [by destruct c|].
    by rewrite Hc, u64_add.
  - rewrite recordStatEvent_eq.
    2: { rewrite He. unfold len. rewrite last_n_length. lia. }
    apply (IH (acc ++ [stamped now e]) n); [cbn [events]; by rewrite He, last_n_snoc|]. intros c. rewrite <-Hc. by destruct c.
Qed.

(** The functions are histories of their sections. *)
Lemma record_histories now a b c s :
  recordTCPStat now a b s = history enter [SBump [CTCP]; SEvent now (mkEvent "" "TCP" a b "ok" "")] s ∧
  recordUDPStat now a b s = history enter [SBump [CUDP]; SEvent now (mkEvent "" "UDP" a b "ok" "")] s ∧
  recordDNSStat now a b c s = history enter [SBump (CDNS :: if decide (b = "failed") then [CFailed] else []);
    SEvent now (mkEvent "" "DNS" a "" b c)] s ∧
  recordBlockedStat now a b s = history enter [SBump [CBlocked]; SEvent now (mkEvent "" a b "" "blocked" "")] s ∧
  recordFailedStat now a b c s = history enter [SBump [CFailed]; SEvent now (mkEvent "" a b "" "failed" c)] s.
Proof.
  assert (∀ cs now e s, (let* _ := bump cs in recordStatEvent now e) s = history enter [SBump cs; SEvent now e] s) as H.
  { intros cs n e s0. simpl history. unfold bind, enter, bump, modify, ret.
    by destruct (recordStatEvent n e _) as [[[] s1]|]. }
  unfold recordTCPStat, recordUDPStat, recordDNSStat, recordBlockedStat, recordFailedStat.
  by rewrite !H.
Qed.

(** The log keeps the last 500 entries, whoever pushes them. *)
Lemma pushLog_history msgs l0 :
  (length l0 ≤ 500)%nat →
  history pushLog msgs l0 = Some (tt, last_n 500 (l0 ++ msgs)).
Proof.
  revert l0. induction msgs as [|m msgs IH]; intros l0 Hl.
  { simpl. by rewrite app_nil_r, last_n_all. }
  simpl history. unfold bind at 1.
  assert (pushLog m l0 = Some (tt, last_n 500 (l0 ++ [m]))) as ->.
  { unfold pushLog, bind, get, maxLogs. case_decide as H.
    - rewrite slice_from_Some by len_lia. unfold lift, put. do 3 f_equal. unfold last_n. f_equal.
      revert H. unfold len. rewrite length_app. simpl. lia.
    - unfold ret, put. do 3 f_equal. symmetry. apply last_n_all. unfold len in H. lia. }
  rewrite IH by (rewrite last_n_length; lia).
  do 2 f_equal. clear IH. replace (l0 ++ m :: msgs) with ((l0 ++ [m]) ++ msgs) by (by rewrite <-app_assoc).
  generalize (l0 ++ [m]) as l. intros l. revert l. induction msgs as [|m' msgs IH] using rev_ind; intros l.
  - rewrite !app_nil_r. apply last_n_all. rewrite last_n_length. lia.
  - rewrite !app_assoc, <-last_n_snoc, IH, last_n_snoc. done.
Qed.

Lemma GetLogs_last msgs :
  ∃ out, (let* _ := history pushLog msgs in GetLogs) [] = Some (out, []) ∧
    out = foldl String.append "" (last_n 500 msgs).
Proof.
  unfold bind. rewrite pushLog_history by (simpl; lia). simpl app. unfold GetLogs, bind, get.
  case_decide as H; [|by eexists]. apply len_0_nil in H. rewrite H. by exists "".
Qed.

Lemma stats_history_witness :
  let l := [SReset "12:00:00"; SBump [CTCP]; SBump [CDNS; CFailed]; SEvent "12:00:01" (mkEvent "" "TCP" "1.2.3.4:443" "raw" "ok" "");
            SEvent "12:00:02" (mkEvent "" "DNS" "q" "" "failed" "timeout")] in
  ∃ s', history enter l stats_init = Some (tt, s') ∧ len (events s') = 2 ∧
    count_of s' CTCP = 1 ∧ count_of s' CFailed = 1 ∧ count_of s' CBlocked = 0.
Proof.
  intros l. destruct (stats_history l) as (s' & Hr & He & _ & Hc).
  exists s'. split; [exact Hr|]. rewrite He, !Hc. by vm_compute.
Defined.
