(* ===== verification/Dial.v ===== *)
(** The outbound binding ([internal/dial]): which local address TCP connections
    are dialled from, chosen from the interfaces of the system, by a trial
    connection, or given; and the monitor that renews it.

    What the system reports (interfaces, local addresses, lines typed by a user)
    is an argument. *)

From Stdlib Require Import Strings.Ascii.
From S2P Require Import Prelude GoStd GoNet GoTime Json Conn Policy.

(** ** Options ([option.go]) *)

Inductive Method := MethodOff | MethodSelectInterface | MethodDialDetect | MethodCustom.
#[export] Instance Method_eq_dec : EqDecision Method.
Proof. solve_decision. Defined.

Definition Method_UnmarshalJSON (v : json) : result Method :=
  let? s := unmarshal_string v in
  if decide (s = "off") then Ok MethodOff
  else if decide (s = "select_interface") then Ok MethodSelectInterface
  else if decide (s = "dial_detect") then Ok MethodDialDetect
  else if decide (s = "custom") then Ok MethodCustom
  else Fail (ErrNew ("invalid method: " +:+ s)).

Record BindingOption := mkBinding {
  bMethod : Method;
  ManualSelect : bool;
  bZone : string;
  UpdateInterval : Z;
  DialTCP : bool;
  DialIPv4Target : string;
  DialIPv6Target : string;
  DialTimeout : Z;
  CustomIPv4 : option IP;
  CustomIPv6 : option IP;
  CustomZone : string
}.
Definition BindingOption_zero : BindingOption :=
  mkBinding MethodOff false "" 0 false "" "" 0 None None "".

Definition binding_fields : fields :=
  [("method", check_with Method_UnmarshalJSON); ("manual_select", check_bool); ("zone", check_string);
   ("update_interval", check_string); ("dial_tcp", check_bool); ("dial_ipv4_target", check_string);
   ("dial_ipv6_target", check_string); ("dial_timeout", check_string); ("custom_ipv4", check_string);
   ("custom_ipv6", check_string); ("custom_zone", check_string)].

(** An optional duration. *)
Definition parse_interval (name s : string) : result Z :=
  if decide (s = "") then Ok 0 else
  match ParseDuration s with
  | Fail e => Fail (ErrWrap ("parse " +:+ name +:+ " " +:+ s +:+ ": ") e)
  | Ok d => Ok d
  end.

Definition BindingOption_UnmarshalJSON (data : json) : result BindingOption :=
  let r :=
    let? o := unmarshal_struct binding_fields id data in
    let str name := plain_field get_string "" binding_fields name o in
    let bool name := plain_field get_bool false binding_fields name o in
    let m := custom_field Method_UnmarshalJSON MethodOff binding_fields "method" o in
    match m with
    | MethodOff => Ok BindingOption_zero
    | MethodSelectInterface =>
        let? interval := parse_interval "update_interval" (str "update_interval") in
        Ok (mkBinding m (bool "manual_select") (str "zone") interval false "" "" 0 None None "")
    | MethodDialDetect =>
        let? interval := parse_interval "update_interval" (str "update_interval") in
        let? timeout := parse_interval "dial_timeout" (str "dial_timeout") in
        Ok (mkBinding m false "" interval (bool "dial_tcp") (str "dial_ipv4_target") (str "dial_ipv6_target")
              timeout None None "")
    | MethodCustom =>
        let ip4 := ParseIP (str "custom_ipv4") in
        let ip6 := ParseIP (str "custom_ipv6") in
        match ip4, ip6 with
        | None, None => Fail (ErrNew "neither custom IPv4 nor IPv6 specified")
        | _, _ => Ok (mkBinding m false "" 0 false "" "" 0 ip4 ip6 (str "custom_zone"))
        end
    end in
  match r with Ok o => Ok o | Fail e => Fail (ErrOp "outbound_binding" e) end.

(** ** Interfaces ([interface.go], [gateway_stub.go]) *)

(** What the system says of an interface; an address that is no [*net.IPNet] is
    [None]. *)
Record sysIface := mkSysIface {
  sysIndex : Z; sysName : string; sysUp : bool; sysLoopback : bool;
  sysAddrs : result (list (option IP))
}.

Record networkInterface := mkIface {
  ifIndex : Z; ifName : string; ifGateway : string; ifIPv4 : option IP; ifIPv6 : option IP
}.

(** [ip[i] & mask == v] *)
Definition octet (ip : IP) (i : nat) (mask v : Z) : bool :=
  match ip !! i with Some b => Z.land b mask =? v | None => false end.

Definition IsLinkLocalUnicast (ip : IP) : bool :=
  match To4 ip with
  | Some ip4 => octet ip4 0 255 169 && octet ip4 1 255 254
  | None => bool_decide (len ip = 16) && octet ip 0 255 254 && octet ip 1 192 128
  end.

Definition IsPrivate (ip : IP) : bool :=
  match To4 ip with
  | Some ip4 => octet ip4 0 255 10 || octet ip4 0 255 172 && octet ip4 1 240 16 ||
                octet ip4 0 255 192 && octet ip4 1 255 168
  | None => bool_decide (len ip = 16) && octet ip 0 254 252
  end.

(** [getGatewayForInterface], the same on every system. *)
Definition getGatewayForInterface (index : Z) : string := "".

(** The first IPv4 and the first IPv6 address that are not link-local. *)
Fixpoint pick_addrs (addrs : list (option IP)) (ipv4 ipv6 : option IP) : option IP * option IP :=
  match addrs with
  | [] => (ipv4, ipv6)
  | addr :: addrs =>
      match ipv4, ipv6 with
      | Some _, Some _ => (ipv4, ipv6)
      | _, _ =>
        match addr with
        | None => pick_addrs addrs ipv4 ipv6
        | Some ip =>
            if IsLinkLocalUnicast ip then pick_addrs addrs ipv4 ipv6 else
            let isIPv4 := bool_decide (is_Some (To4 ip)) in
            let isIPv6 := bool_decide (len ip = 4 ∨ len ip = 16) in
            if bool_decide (ipv4 = None) && isIPv4 then pick_addrs addrs (Some ip) ipv6
            else if bool_decide (ipv6 = None) && negb isIPv4 && isIPv6 then pick_addrs addrs ipv4 (Some ip)
            else pick_addrs addrs ipv4 ipv6
        end
      end
  end.

Definition getFilteredInterfaces (sys : result (list sysIface)) : result (list networkInterface) :=
  match sys with
  | Fail e => Fail (ErrOp "list network interfaces" e)
  | Ok ifaces =>
      let interfaces :=
        omap (λ i,
          if negb (sysUp i) || sysLoopback i then None else
          match sysAddrs i with
          | Fail _ => None
          | Ok addrs =>
              match pick_addrs addrs None None with
              | (None, None) => None
              | (ipv4, ipv6) =>
                  Some (mkIface (sysIndex i) (sysName i) (getGatewayForInterface (sysIndex i)) ipv4 ipv6)
              end
          end) ifaces in
      if decide (len interfaces = 0) then Fail (ErrNew "no interface detected") else Ok interfaces
  end.

Definition find_iface (ifaces : list networkInterface) (name : string) : option networkInterface :=
  list.list_find (λ i, ifName i = name) ifaces ≫= λ r, Some (snd r).

Definition autoSelect (ifaces : list networkInterface) : option networkInterface :=
  match list.list_find (λ i, ifGateway i ≠ "" ∧ (IsPrivate <$> ifIPv4 i) = Some true) ifaces with
  | Some (_, i) => Some i
  | None => snd <$> list.list_find (λ i, ifGateway i ≠ "" ∧ is_Some (ifIPv4 i)) ifaces
  end.

(** [manualSelect] reads lines from the standard input: a number, or [None] when
    the scan fails, which leaves 0; after the last line every scan fails. *)
Inductive selection := Selected (i : networkInterface) | SelectPanics | SelectLoops.

Fixpoint manualSelect (ifaces : list networkInterface) (lines : list (option Z)) : selection :=
  match lines with
  | [] => SelectLoops
  | line :: lines =>
      let i := default 0 line in
      if decide (i ≤ 0 ∨ len ifaces < i) then manualSelect ifaces lines
      else match idx ifaces i with Some iface => Selected iface | None => SelectPanics end
  end.

(** ** The dialers ([dial.go]) *)

(** A [net.Dialer]: the local address and its zone, if one is set. *)
Abbreviation Dialer := (option (IP * string)).

(** What the monitor calls on every tick. *)
Inductive laddr_fn :=
| SelectFn (zone : string)
| DetectFn (network : string) (o : BindingOption).

Record DialState := mkDial {
  ipv4Dialer : option Dialer;          (* nil before the first [SetLocalAddr] *)
  ipv6Dialer : option Dialer;
  monitor : option (Z * laddr_fn)      (* [monitorCancel] is not nil *)
}.

(** The dialer that [DialContext] uses: a nil one is dereferenced. *)
Definition dialer_for (s : DialState) (address : string) : go Dialer :=
  let! c := String.get 0 address in
  if decide (c = "["%char) then ipv6Dialer s else ipv4Dialer s.

(** The time [DialTimeout] allows. *)
Definition dial_timeout (timeout : Z) : Z := if decide (timeout ≤ 0) then defaultConnectTimeout else timeout.

Section binding.
(** The interfaces now, and the address a trial connection of the network to the
    target has: [detectByDial]. *)
Context (sys : result (list sysIface)) (lines : list (option Z))
  (detectByDial : string → string → Z → result (option IP * string)).

Definition detect_network (o : BindingOption) : string := if DialTCP o then "tcp" else "udp".

(** The closures [SetLocalAddr] gives to the monitor. *)
Definition run_laddr_fn (f : laddr_fn) : result (option IP * option IP * string) :=
  match f with
  | SelectFn zone =>
      let? interfaces := getFilteredInterfaces sys in
      match (if decide (zone = "") then autoSelect interfaces else find_iface interfaces zone) with
      | None => Fail (if decide (zone = "") then ErrNew "no interface with gateway detected"
                      else ErrNew ("interface not found: " +:+ zone))
      | Some selected => Ok (ifIPv4 selected, ifIPv6 selected, ifName selected)
      end
  | DetectFn network o =>
      let r4 := if decide (DialIPv4Target o ≠ "") then detectByDial network (DialIPv4Target o) (DialTimeout o)
                else Ok (None, "") in
      let r6 := if decide (DialIPv6Target o ≠ "") then detectByDial network (DialIPv6Target o) (DialTimeout o)
                else Ok (None, "") in
      let err r := match r with Ok _ => None | Fail e => Some e end in
      match errors_Join (err r4) (err r6) with
      | Some e => Fail e
      | None => Ok (match r4 with Ok (ip, _) => ip | Fail _ => None end,
                    match r6 with Ok (ip, _) => ip | Fail _ => None end,
                    match r6 with Ok (_, zone) => zone | Fail _ => "" end)
      end
  end.

(** One tick of [laddrMonitor]. *)
Definition laddrMonitor_tick (f : laddr_fn) (s : DialState) : DialState :=
  match run_laddr_fn f with
  | Fail _ => s
  | Ok (ipv4, ipv6, zone) =>
      mkDial (match ipv4 with Some ip => Some (Some (ip, "")) | None => ipv4Dialer s end)
        (match ipv6 with Some ip => Some (Some (ip, zone)) | None => ipv6Dialer s end) (monitor s)
  end.

Definition stopLaddrMonitor : St DialState unit :=
  modify (λ s, mkDial (ipv4Dialer s) (ipv6Dialer s) None).
Definition startLaddrMonitor (interval : Z) (f : laddr_fn) : St DialState unit :=
  modify (λ s, mkDial (ipv4Dialer s) (ipv6Dialer s) (Some (interval, f))).

(** A selection that does not return is [None], like a panic. *)
Definition selected_or_stuck (s : selection) : go networkInterface :=
  match s with Selected i => Some i | SelectPanics | SelectLoops => None end.

(** The interface of [MethodSelectInterface] and the zone it is found by again. *)
Definition choose_interface (o : BindingOption) (interfaces : list networkInterface)
    : go (result (networkInterface * string)) :=
  if decide (bZone o ≠ "") then
    match find_iface interfaces (bZone o) with
    | None => Some (Fail (ErrNew ("interface not found: " +:+ bZone o)))
    | Some i => Some (Ok (i, bZone o))
    end
  else if ManualSelect o then
    let! i := selected_or_stuck (manualSelect interfaces lines) in Some (Ok (i, ifName i))
  else match autoSelect interfaces with
  | Some i => Some (Ok (i, ""))
  | None => let! i := selected_or_stuck (manualSelect interfaces lines) in Some (Ok (i, ifName i))
  end.

Definition SetLocalAddr (o : BindingOption) : St DialState (result unit) :=
  let* _ := stopLaddrMonitor in
  let*? (ipv4, ipv6, zone) :=
    match bMethod o with
    | MethodOff => ret (Ok (None, None, ""))
    | MethodSelectInterface =>
        let*? interfaces := ret (getFilteredInterfaces sys) in
        let*? (selected, zone) := lift (choose_interface o interfaces) in
        let* _ := (if decide (0 < UpdateInterval o)
                   then startLaddrMonitor (UpdateInterval o) (SelectFn zone) else ret tt) in
        (* the [zone] of the switch is another variable *)
        ret (Ok (ifIPv4 selected, ifIPv6 selected, ""))
    | MethodDialDetect =>
        let network := detect_network o in
        let*? (ipv4, _) :=
          (if decide (DialIPv4Target o ≠ "") then ret (detectByDial network (DialIPv4Target o) (DialTimeout o))
           else ret (Ok (None, ""))) in
        let*? (ipv6, zone) :=
          (if decide (DialIPv6Target o ≠ "") then ret (detectByDial network (DialIPv6Target o) (DialTimeout o))
           else ret (Ok (None, ""))) in
        let* _ := (if decide (0 < UpdateInterval o)
                   then startLaddrMonitor (UpdateInterval o) (DetectFn network o) else ret tt) in
        ret (Ok (ipv4, ipv6, zone))
    | MethodCustom => ret (Ok (CustomIPv4 o, CustomIPv6 o, CustomZone o))
    end in
  let* s := get in
  let* _ := put (mkDial (Some ((λ ip, (ip, "")) <$> ipv4)) (Some ((λ ip, (ip, zone)) <$> ipv6)) (monitor s)) in
  ret (Ok tt).
End binding.

(** ** What a binding does *)

(** The local addresses a method stands for. *)
Definition bound (sys : result (list sysIface))
    (detectByDial : string → string → Z → result (option IP * string)) (o : BindingOption)
    (d4 d6 : Dialer) : Prop :=
  match bMethod o with
  | MethodOff => d4 = None ∧ d6 = None
  | MethodCustom => d4 = (λ ip, (ip, "")) <$> CustomIPv4 o ∧ d6 = (λ ip, (ip, CustomZone o)) <$> CustomIPv6 o
  | MethodSelectInterface =>
      ∃ l i, getFilteredInterfaces sys = Ok l ∧ i ∈ l ∧ (bZone o ≠ "" → ifName i = bZone o) ∧
        d4 = (λ ip, (ip, "")) <$> ifIPv4 i ∧ d6 = (λ ip, (ip, "")) <$> ifIPv6 i
  | MethodDialDetect =>
      let probe t := if decide (t = "") then Ok (None, "") else detectByDial (detect_network o) t (DialTimeout o) in
      ∃ ip4 z4 ip6 z6, probe (DialIPv4Target o) = Ok (ip4, z4) ∧ probe (DialIPv6Target o) = Ok (ip6, z6) ∧
        d4 = (λ ip, (ip, "")) <$> ip4 ∧ d6 = (λ ip, (ip, z6)) <$> ip6
  end.

(** The methods that are renewed, when an interval is given. *)
Definition renewed (o : BindingOption) : Prop :=
  0 < UpdateInterval o ∧ (bMethod o = MethodSelectInterface ∨ bMethod o = MethodDialDetect).

Lemma list_find_elem {A} (P : A → Prop) `{!∀ x, Decision (P x)} (l : list A) i x :
  list.list_find P l = Some (i, x) → x ∈ l ∧ P x.
Proof. intros (Hl & HP & _)%list.list_find_Some. split; [by eapply list_elem_of_lookup_2|done]. Qed.

Lemma manualSelect_elem ifaces lines i : manualSelect ifaces lines = Selected i → i ∈ ifaces.
Proof.
  induction lines as [|line lines IH]; [done|]. simpl. case_decide; [done|].
  unfold idx. case_decide; [|done]. destruct (ifaces !! _) eqn:E; [|done].
  intros Hi. injection Hi as <-. by eapply list_elem_of_lookup_2.
Qed.

Lemma choose_interface_spec lines o l i zone :
  choose_interface lines o l = Some (Ok (i, zone)) → i ∈ l ∧ (bZone o ≠ "" → ifName i = bZone o).
Proof.
  unfold choose_interface, find_iface, autoSelect. intros Hc. case_decide as Hz.
  - destruct (list.list_find _ l) as [[k x]|] eqn:E; [|done]. cbn in Hc. injection Hc as <- _.
    apply list_find_elem in E as [Hin Hn]. done.
  - split; [|done]. assert (∀ s, (let! i := selected_or_stuck s in Some (Ok (i, ifName i))) = Some (Ok (i, zone)) →
      s = manualSelect l lines → i ∈ l) as Hm.
    { intros [x| |] H' Hs; try done. cbn in H'. injection H' as -> _. by apply (manualSelect_elem l lines). }
    destruct (ManualSelect o); [by eapply Hm|].
    destruct (list.list_find (λ i, ifGateway i ≠ "" ∧ (IsPrivate <$> ifIPv4 i) = Some true) l) as [[k x]|] eqn:E.
    + injection Hc as <- _. by apply list_find_elem in E as [Hin _].
    + destruct (list.list_find (λ i, ifGateway i ≠ "" ∧ is_Some (ifIPv4 i)) l) as [[k x]|] eqn:E2; cbn in Hc.
      * injection Hc as <- _. by apply list_find_elem in E2 as [Hin _].
      * by eapply Hm.
Qed.

(** A binding is all or nothing for the dialers: when it fails they are as
    before (and nothing renews them any more), when it succeeds both are replaced
    by the addresses its method stands for, and they are renewed exactly when the
    method and the interval ask for it.  An interface is bound without its zone. *)
Theorem SetLocalAddr_binds (sys : result (list sysIface)) (lines : list (option Z))
    (detectByDial : string → string → Z → result (option IP * string))
    (o : BindingOption) (s s' : DialState) (r : result unit) :
  SetLocalAddr sys lines detectByDial o s = Some (r, s') →
  match r with
  | Fail _ => ipv4Dialer s' = ipv4Dialer s ∧ ipv6Dialer s' = ipv6Dialer s ∧ monitor s' = None
  | Ok _ => ∃ d4 d6, ipv4Dialer s' = Some d4 ∧ ipv6Dialer s' = Some d6 ∧
      bound sys detectByDial o d4 d6 ∧ (is_Some (monitor s') ↔ renewed o)
  end.
Proof.
  unfold SetLocalAddr, bound, renewed, stopLaddrMonitor, startLaddrMonitor, bindE, bind, modify, get, put, ret, lift.
  destruct (bMethod o) eqn:Em.
  - intros Hr. injection Hr as <- <-. eexists _, _. split; [done|]. split; [done|]. split; [done|].
    split; [by intros [? ?]|]. by intros [_ [?|?]].
  - destruct (getFilteredInterfaces sys) as [l|e] eqn:El; [|intros Hr; by injection Hr as <- <-].
    destruct (choose_interface lines o l) as [[[i zone]|e]|] eqn:Ec; [|intros Hr; by injection Hr as <- <-|done].
    apply choose_interface_spec in Ec as [Hin Hn].
    destruct (decide (0 < UpdateInterval o)) as [Hu|Hu]; intros Hr; injection Hr as <- <-;
      (eexists _, _; split; [done|]; split; [done|]; split; [by exists l, i|]).
    + split; [|by eexists]. intros _. split; [done|by left].
    + split; [by intros [? ?]|]. by intros [? _].
  - destruct (decide (DialIPv4Target o ≠ "")) as [H4|H4];
      [rewrite (decide_False (P := DialIPv4Target o = "")) by done|
       rewrite (decide_True (P := DialIPv4Target o = "")) by (by apply dec_stable)];
      (destruct (decide (DialIPv6Target o ≠ "")) as [H6|H6];
       [rewrite (decide_False (P := DialIPv6Target o = "")) by done|
        rewrite (decide_True (P := DialIPv6Target o = "")) by (by apply dec_stable)]).
    all: try (destruct (detectByDial (detect_network o) (DialIPv4Target o) (DialTimeout o)) as [[ip4 z4]|e4] eqn:E4;
      [|intros Hr; by injection Hr as <- <-]).
    all: try (destruct (detectByDial (detect_network o) (DialIPv6Target o) (DialTimeout o)) as [[ip6 z6]|e6] eqn:E6;
      [|intros Hr; by injection Hr as <- <-]).
    all: destruct (decide (0 < UpdateInterval o)) as [Hu|Hu]; intros Hr; injection Hr as <- <-;
      (eexists _, _; split; [done|]; split; [done|]; split; [by eexists _, _, _, _|]).
    all: try (split; [intros _; split; [done|by right]|by eexists]).
    all: split; [by intros [? ?]|by intros [? _]].
  - intros Hr. injection Hr as <- <-. eexists _, _. split; [done|]. split; [done|]. split; [done|].
    split; [by intros [? ?]|]. by intros [_ [?|?]].
Qed.

(** The last interface cannot be chosen, the first is not offered, and a closed
    standard input is asked for ever. *)
Example manualSelect_quirks :
  let i0 := mkIface 1 "wlan0" "" (Some [10; 0; 0; 1]) None in
  let i1 := mkIface 2 "rmnet0" "" (Some [10; 0; 0; 2]) None in
  manualSelect [i0; i1] [Some 2] = SelectPanics ∧ manualSelect [i0; i1] [Some 0; Some 1] = Selected i1 ∧
  manualSelect [i0; i1] [None; None] = SelectLoops.
Proof. done. Qed.

Lemma SetLocalAddr_binds_witness :
  let sys := Ok [mkSysIface 1 "lo" true true (Ok [Some [127; 0; 0; 1]]);
                 mkSysIface 2 "wlan0" true false (Ok [Some [169; 254; 0; 9]; Some [10; 0; 0; 1]])] in
  let o := mkBinding MethodSelectInterface false "wlan0" 5 false "" "" 0 None None "" in
  ∃ s', SetLocalAddr sys [] (λ _ _ _, Fail EOF) o (mkDial None None None) = Some (Ok tt, s') ∧
    ipv4Dialer s' = Some (Some ([10; 0; 0; 1], "")) ∧ is_Some (monitor s').
Proof.
  intros sys o. eexists. split; [vm_compute; reflexivity|].
  destruct (SetLocalAddr_binds sys [] (λ _ _ _, Fail EOF) o (mkDial None None None)
    (mkDial (Some (Some ([10; 0; 0; 1], ""))) (Some None) (Some (5, SelectFn "wlan0"))) (Ok tt))
    as (d4 & d6 & _ & _ & _ & Hm).
  - vm_compute. reflexivity.
  - split; [reflexivity|]. apply Hm. split; [reflexivity|by left].
Defined.
