(* ===== verification/Dialer.v ===== *)
(** The dialer of the engine's direct connections ([tun2socks/dialer]): before a
    socket connects it is bound to an interface and marked, unless it goes to an
    address that is not global.  The options are shared by all attempts of a
    dial, and the first attempt may complete them. *)

From S2P Require Import Prelude GoStd GoNet Conn Dial.

Definition isTCPSocket (network : string) : bool := bool_decide (network ∈ ["tcp"; "tcp4"; "tcp6"]).
Definition isUDPSocket (network : string) : bool := bool_decide (network ∈ ["udp"; "udp4"; "udp6"]).

Record Options := mkOptions { InterfaceName : string; InterfaceIndex : Z; RoutingMark : Z }.
(** [Dialer]: the options as atomics; [DefaultDialer] starts with none. *)
Definition DefaultDialer : Options := mkOptions "" 0 0.

(** [net.IP.IsGlobalUnicast]. *)
Definition IsUnspecified (ip : IP) : bool :=
  match To4 ip with Some ip4 => bool_decide (ip4 = [0; 0; 0; 0]) | None => bool_decide (ip = replicate 16 0) end.
Definition IsLoopback (ip : IP) : bool :=
  match To4 ip with Some ip4 => octet ip4 0 255 127 | None => bool_decide (ip = replicate 15 0 ++ [1]) end.
Definition IsMulticast (ip : IP) : bool :=
  match To4 ip with Some ip4 => octet ip4 0 240 224 | None => bool_decide (len ip = 16) && octet ip 0 255 255 end.
Definition IsGlobalUnicast (ip : IP) : bool :=
  bool_decide (len ip = 4 ∨ len ip = 16) && negb (bool_decide (To4 ip = Some [255; 255; 255; 255])) &&
  negb (IsUnspecified ip) && negb (IsLoopback ip) && negb (IsMulticast ip) && negb (IsLinkLocalUnicast ip).

(** [host, _, _ := net.SplitHostPort(address)] and [net.ParseIP(host)]: on an
    error the host is empty. *)
Definition host_ip (address : string) : option IP :=
  match SplitHostPort address with Ok (host, _) => ParseIP host | Fail _ => ParseIP "" end.
(** The test in front of the options. *)
Definition spared (address : string) : bool :=
  match host_ip address with Some ip => negb (IsGlobalUnicast ip) | None => false end.

Section dialer.
(** [net.InterfaceByIndex] and [net.InterfaceByName]. *)
Context (InterfaceByIndex : Z → result string) (InterfaceByName : string → result Z).

(** A system: what the function given to [Control] does with the network and the
    address; it may complete the options. *)
Definition system : Type := string → string → Options → St World (result unit * Options).

(** [setsockopt], when it is asked for. *)
Definition option_if (b : bool) (e : event) : St World (result unit) := if b then call e else ret (Ok tt).

Definition complete_name (o : Options) : Options :=
  if decide (InterfaceName o = "" ∧ InterfaceIndex o ≠ 0) then
    match InterfaceByIndex (InterfaceIndex o) with
    | Ok name => mkOptions name (InterfaceIndex o) (RoutingMark o)
    | Fail _ => o
    end
  else o.
Definition complete_index (o : Options) : Options :=
  if decide (InterfaceIndex o = 0 ∧ InterfaceName o ≠ "") then
    match InterfaceByName (InterfaceName o) with
    | Ok i => mkOptions (InterfaceName o) i (RoutingMark o)
    | Fail _ => o
    end
  else o.

(** sockopt_linux.go *)
Definition linux_options : system := λ network address o,
  if spared address then ret (Ok tt, o) else
  let o := complete_name o in
  let* r := (let*? _ := option_if (bool_decide (InterfaceName o ≠ "")) (ESys ("SO_BINDTODEVICE " +:+ InterfaceName o)) in
             option_if (bool_decide (RoutingMark o ≠ 0)) (ESys ("SO_MARK " +:+ itoa (RoutingMark o)))) in
  ret (r, o).

(** sockopt_darwin.go *)
Definition darwin_options : system := λ network address o,
  if spared address then ret (Ok tt, o) else
  let o := complete_index o in
  let* r := (if decide (InterfaceIndex o = 0) then ret (Ok tt)
             else if decide (network ∈ ["tcp4"; "udp4"]) then call (ESys ("IP_BOUND_IF " +:+ itoa (InterfaceIndex o)))
             else if decide (network ∈ ["tcp6"; "udp6"]) then call (ESys ("IPV6_BOUND_IF " +:+ itoa (InterfaceIndex o)))
             else ret (Ok tt)) in
  ret (r, o).

(** sockopt_freebsd.go and sockopt_openbsd.go *)
Definition marking_options (opt : string) : system := λ network address o,
  if spared address then ret (Ok tt, o) else
  let* r := option_if (bool_decide (RoutingMark o ≠ 0)) (ESys (opt +:+ " " +:+ itoa (RoutingMark o))) in
  ret (r, o).
Definition freebsd_options : system := marking_options "SO_USER_COOKIE".
Definition openbsd_options : system := marking_options "SO_RTABLE".

(** sockopt_windows.go: an IPv4 index goes in network byte order, that is with
    the bytes of the little-endian machine reversed. *)
Definition swap32 (n : Z) : Z :=
  Z.lor (Z.shiftl (Z.land n 255) 24)
    (Z.lor (Z.shiftl (Z.land (Z.shiftr n 8) 255) 16)
       (Z.lor (Z.shiftl (Z.land (Z.shiftr n 16) 255) 8) (Z.land (Z.shiftr n 24) 255))).
Definition bindSocketToInterface4 (index : Z) : St World (result unit) :=
  call (ESys ("IP_UNICAST_IF " +:+ itoa (swap32 (u32 index)))).
Definition bindSocketToInterface6 (index : Z) : St World (result unit) :=
  call (ESys ("IPV6_UNICAST_IF " +:+ itoa (u32 index))).
Definition windows_options : system := λ network address o,
  if spared address then ret (Ok tt, o) else
  let o := complete_index o in
  let* r := (if decide (InterfaceIndex o = 0) then ret (Ok tt)
             else if decide (network ∈ ["tcp4"; "udp4"]) then bindSocketToInterface4 (InterfaceIndex o)
             else if decide (network ∈ ["tcp6"; "udp6"]) then
               let* innerErr := bindSocketToInterface6 (InterfaceIndex o) in
               if decide (network = "udp6" ∧ host_ip address = None) then bindSocketToInterface4 (InterfaceIndex o)
               else ret innerErr
             else ret (Ok tt)) in
  ret (r, o).

(** What all of them have around it: the raw [Control] call. *)
Definition setSocketOptions (sys : system) (c : conn) (network address : string) (o : Options) : St World (result unit * Options) :=
  if negb (isTCPSocket network) && negb (isUDPSocket network) then ret (Ok tt, o) else
  let* err := call (EControl c) in
  match err with
  | Fail e => ret (Fail e, o)
  | Ok _ => sys network address o
  end.

(** [net.Dialer] tries the addresses a name has in turn, each with a socket of its
    own, and calls [Control] on it before it connects. *)
Fixpoint dial_attempts (sys : system) (o : Options) (targets : list (conn * string * string)) (last : error)
    : St World (result conn) :=
  match targets with
  | [] => throw last
  | (c, network, address) :: targets =>
      let* (r, o) := setSocketOptions sys c network address o in
      match r with
      | Fail e => ignoring (EClose c);;; dial_attempts sys o targets e
      | Ok _ =>
          let* r := call (EDial address 0) in
          match r with
          | Fail e => ignoring (EClose c);;; dial_attempts sys o targets e
          | Ok _ => ret (Ok c)
          end
      end
  end.
Definition DialContextWithOptions (sys : system) (o : Options) (targets : list (conn * string * string)) : St World (result conn) :=
  dial_attempts sys o targets (ErrNew "no addresses").
(** [DialContext] reads the atomics. *)
Definition DialContext (sys : system) (d : Options) (targets : list (conn * string * string)) : St World (result conn) :=
  DialContextWithOptions sys (mkOptions (InterfaceName d) (InterfaceIndex d) (RoutingMark d)) targets.

(** [ListenPacketWithOptions] of one local address. *)
Definition ListenPacketWithOptions (sys : system) (o : Options) (c : conn) (network address : string) : St World (result conn) :=
  let* (r, _) := setSocketOptions sys c network address o in
  match r with
  | Fail e => ignoring (EClose c);;; throw e
  | Ok _ =>
      let* r := call (ESys ("bind " +:+ address)) in
      match r with
      | Fail e => ignoring (EClose c);;; throw e
      | Ok _ => ret (Ok c)
      end
  end.
Definition ListenPacket (sys : system) (d : Options) (c : conn) (network address : string) : St World (result conn) :=
  ListenPacketWithOptions sys (mkOptions (InterfaceName d) (InterfaceIndex d) (RoutingMark d)) c network address.
End dialer.

(** ** No socket connects without its options *)

Section linux.
Context (InterfaceByIndex : Z → result string).
Abbreviation complete := (complete_name InterfaceByIndex).

Lemma complete_complete o : complete (complete o) = complete o.
Proof.
  unfold complete_name at 2. case_decide as H.
  - destruct (InterfaceByIndex (InterfaceIndex o)) as [name|e] eqn:E.
    + unfold complete_name. cbn. rewrite E. by destruct (decide _), (decide _).
    + unfold complete_name. by rewrite decide_True, E.
  - unfold complete_name. by rewrite decide_False.
Qed.

Lemma complete_mark o : RoutingMark (complete o) = RoutingMark o.
Proof. unfold complete_name. destruct (decide _); [destruct (InterfaceByIndex _)|]; reflexivity. Qed.

(** The options a socket to [address] must carry. *)
Definition wanted (d : Options) (address : string) : list event :=
  if spared address then [] else
  (if decide (InterfaceName (complete d) ≠ "") then [ESys ("SO_BINDTODEVICE " +:+ InterfaceName (complete d))] else []) ++
  (if decide (RoutingMark d ≠ 0) then [ESys ("SO_MARK " +:+ itoa (RoutingMark d))] else []).

Definition succeeded (l : list event) : list (event * option error) := (λ e, (e, None)) <$> l.

Lemma call_ok e w w' : call e w = Some (Ok tt, w') → trace w' = trace w ++ succeeded [e].
Proof.
  intros H. injection H as Hr <-. cbn [trace]. by destruct (default None (head (verdicts w))).
Qed.

Lemma option_if_ok (P : Prop) `{Decision P} e w w' :
  option_if (bool_decide P) e w = Some (Ok tt, w') → trace w' = trace w ++ succeeded (if decide P then [e] else []).
Proof.
  unfold option_if. rewrite decide_bool_decide. destruct (bool_decide P); [apply call_ok|].
  intros [= <-]. by rewrite app_nil_r.
Qed.

(** One attempt: what [Control] does when it lets the socket pass, whatever
    earlier attempts have completed of the options. *)
Lemma linux_control_ok d o c network address w o' w' :
  complete o = complete d → RoutingMark o = RoutingMark d →
  isTCPSocket network || isUDPSocket network = true →
  setSocketOptions (linux_options InterfaceByIndex) c network address o w = Some (Ok tt, o', w') →
  trace w' = trace w ++ succeeded (EControl c :: wanted d address).
Proof.
  intros Hc Hm Hn. unfold setSocketOptions.
  replace (negb (isTCPSocket network) && negb (isUDPSocket network)) with false
    by (symmetry; rewrite <-negb_orb, Hn; done).
  intros ([[]|e] & w1 & E1 & H)%bind_Some; [|done]. apply call_ok in E1.
  unfold linux_options in H. unfold wanted. destruct (spared address).
  { injection H as _ <-. done. }
  rewrite <-Hc, <-Hm. apply bind_Some in H as (r & w2 & E & H). injection H as -> _ <-.
  rewrite bindE_unfold in E. destruct (option_if _ _ w1) as [[[[]|e] w3]|] eqn:E3; [|done|done].
  apply option_if_ok in E3. apply option_if_ok in E. rewrite E, E3, E1. unfold succeeded.
  rewrite complete_mark.
  rewrite <-!app_assoc, <-!fmap_app. done.
Qed.

Lemma linux_control_options o c network address w r o' w' :
  setSocketOptions (linux_options InterfaceByIndex) c network address o w = Some (r, o', w') →
  complete o' = complete o ∧ RoutingMark o' = RoutingMark o.
Proof.
  assert (complete (complete o) = complete o ∧ RoutingMark (complete o) = RoutingMark o) as Hco.
  { split; [apply complete_complete|apply complete_mark]. }
  unfold setSocketOptions. destruct (negb _ && _); [by intros [= _ <- _]|].
  intros ([[]|e] & w1 & _ & H)%bind_Some; [|by injection H as _ <- _].
  unfold linux_options in H. destruct (spared address); [by injection H as _ <- _|].
  apply bind_Some in H as (r' & w2 & _ & H). by injection H as _ <- _.
Qed.

Lemma dial_attempts_configured d o targets last w c w' :
  complete o = complete d → RoutingMark o = RoutingMark d →
  Forall (λ t, isTCPSocket t.1.2 || isUDPSocket t.1.2 = true) targets →
  dial_attempts (linux_options InterfaceByIndex) o targets last w = Some (Ok c, w') →
  ∃ network address before, (c, network, address) ∈ targets ∧
    trace w' = before ++ succeeded (EControl c :: wanted d address ++ [EDial address 0]).
Proof.
  intros Hc Hm Ht. revert o last w Hc Hm. induction Ht as [|[[c1 network] address] targets Hn Ht IH]; intros o last w Hc Hm; [done|].
  intros ([r o1] & w1 & E1 & H)%bind_Some. destruct (linux_control_options _ _ _ _ _ _ _ _ E1) as [Hc1 Hm1].
  assert (∀ e w2, dial_attempts (linux_options InterfaceByIndex) o1 targets e w2 = Some (Ok c, w') →
    ∃ network0 address0 before, (c, network0, address0) ∈ (c1, network, address) :: targets ∧
      trace w' = before ++ succeeded (EControl c :: wanted d address0 ++ [EDial address0 0])) as Hrest.
  { intros e w2 Hr. destruct (IH o1 e w2) as (n & a & b & Hin & Hb); [congruence..|done|].
    exists n, a, b. split; [by right|done]. }
  destruct r as [[]|e].
  - apply bind_Some in H as ([[]|e] & w2 & E2 & H).
    + injection H as -> <-. apply linux_control_ok with (d := d) in E1; [|done..]. apply call_ok in E2.
      exists network, address, (trace w). split; [by left|]. rewrite E2, E1. unfold succeeded.
      rewrite app_comm_cons, fmap_app, app_assoc. done.
    + apply bind_Some in H as (u & w3 & _ & H). by apply Hrest in H.
  - apply bind_Some in H as (u & w3 & _ & H). by apply Hrest in H.
Qed.
End linux.



(** What Windows is given for IPv4 is the index with its bytes in network order. *)
Example swap32_bytes : (bytes_of 4 ∘ swap32) <$> [3; 305419896; 4294967040] = (λ n, rev (bytes_of 4 n)) <$> [3; 305419896; 4294967040].
Proof. reflexivity. Qed.

(** The error of the IPv6 option is lost when the IPv4 option is set as well. *)
Example ipv6_error_lost :
  let w := mkWorld [] [None; Some EOF] 0 [] [] [] ∅ in
  ∃ w', setSocketOptions (windows_options (λ _, Ok 3)) (mkConn 1 false) "udp6" ":0" (mkOptions "" 3 0) w = Some (Ok tt, mkOptions "" 3 0, w').
Proof. eexists. vm_compute. reflexivity. Qed.
