(* ===== verification/HttpProxy.v ===== *)
(** [internal/http.go]: the HTTP proxy.  A CONNECT is answered and handed to
    [handleTunnel]; a request with an absolute URI is rewritten and sent on with
    the transport of [net/http], which is a variable of the section. *)

From S2P Require Import Prelude GoStd GoNet Conn Policy Cache Desync ClientHello Fragment Routing.
From S2P Require Import Session TunBridge Tunnel Socks5Server DialPlan.

Definition status500 : string := "500 Internal Server Error".
Definition status403 : string := "403 Forbidden".

(** What [net/http] sends back for the handler. *)
Inductive http_end :=
| HTTPError (body : string) (status : Z)                 (* [http.Error] *)
| HTTPReply (status : Z) (header : gmap string string) (body : bytes)
| HTTPImplicit                                           (* nothing written: 200 *)
| HTTPHijacked (e : tunnel_end).

Definition http_status (e : http_end) : option Z :=
  match e with
  | HTTPError _ s | HTTPReply s _ _ => Some s
  | HTTPImplicit => Some 200
  | HTTPHijacked _ => None
  end.

(** The answer of the other server. *)
Record UpstreamResponse := mkUpstream {
  upStatus : Z;
  upHeader : gmap string string;
  upBody : bytes
}.

(** [req.URL.IsAbs()] *)
Definition IsAbs (req : Request) : bool := bool_decide (rqScheme req ≠ "").

(** The number of the next request. *)
Definition next_http_id (connID : Z) : Z * Z :=
  let connID := u32 (connID + 1) in if decide (1048575 < connID) then (1, 1) else (connID, connID).

(** The request that is sent on, from the line that clones it. *)
Definition outgoing_request (originReq : Request) (dstHost dstPort : string) : Request :=
  let targetAddr := JoinHostPort dstHost dstPort in
  let h := delete "Proxy-Connection" (delete "Proxy-Authorization" (rqHeader originReq)) in
  let h := if decide (default "" (h !! "Connection") = "") then <["Connection" := "close"]> h else h in
  mkReq (rqMethod originReq) targetAddr targetAddr
    (if decide (rqScheme originReq = "") then "http" else rqScheme originReq)
    (rqRequestURI originReq) (rqProto originReq) h (rqBody originReq).

Section proxy.
Context {G : Type} `{HasWorld G} `{TTLService G} `{Resolver G}.
Context (rules : Rules).
Context (outs : list splice) (pageSize : Z)
  (ReadRequest : bytes → result Request * bytes) (Request_Write : Request → bytes)
  (Response_Write : Response → bytes) (StatusText : Z → string).
(** [transport.RoundTrip] with the dial timeout of the policy, if it has one. *)
Context (RoundTrip : Request → option Z → St G (result UpstreamResponse)).

(** [handleConnect] up to the tunnel: the connection it took over and what the
    tunnel is started with, or how it ends.  [hijack] is what the writer offers. *)
Definition connect_setup (hijack : option (result conn)) (req : Request)
    : St G (http_end + conn * tunnel_args) :=
  let oldDest := rqHost req in
  if decide (oldDest = "") then ret (inl (HTTPError "" 400)) else
  match SplitHostPort oldDest with
  | Fail _ => ret (inl HTTPImplicit)
  | Ok (originHost, originPort) =>
    let* gen := genPolicy rules originHost false false in
    if failed gen then ret (inl (HTTPError status500 500)) else
    if blocked gen then ret (inl (HTTPError status403 403)) else
    let* policy := lift (gPolicy gen) in
    if decide (pMode policy = ModeBlock) then ret (inl (HTTPError status403 403)) else
    let dstPort := if decide (Port policy ≠ 0 ∧ Port policy ≠ unsetInt)
                   then itoa (Port policy) else originPort in
    let dest := JoinHostPort (dstHost gen) dstPort in
    match hijack with
    | None | Some (Fail _) => ret (inl (HTTPError status500 500))
    | Some (Ok cliConn) =>
      (* the deferred close of the client *)
      let close_here := let* _ := onW (ignoring (EClose cliConn)) in
                        ret (inl (HTTPHijacked Ended)) in
      let* dst :=
        (if decide (ReplyFirst policy ≠ BoolTrue) then
           let* r := onW (dial dest (ConnectTimeout policy)) in
           match r with
           | Ok d => ret (Ok (Some d))
           | Fail e =>
               let* _ := onW (ignoring (EWrite cliConn
                 (bytes_of_string "HTTP/1.1 502 Bad Gateway" ++ [Byte.x0d; Byte.x0a; Byte.x0d; Byte.x0a]))) in
               throw e
           end
         else ret (Ok None)) in
      match dst with
      | Fail _ => close_here
      | Ok dst =>
        let* r := onW (write cliConn
          (bytes_of_string "HTTP/1.1 200 Connection Established" ++ [Byte.x0d; Byte.x0a; Byte.x0d; Byte.x0a])) in
        match r with
        | Fail _ => close_here
        | Ok _ => ret (inr (cliConn, mkArgs policy dst dest originHost originPort))
        end
      end
    end
  end.

Definition handleConnect (hijack : option (result conn)) (req : Request) : St G http_end :=
  let* r := connect_setup hijack req in
  match r with
  | inl e => ret e
  | inr (cliConn, a) =>
      let* e := handleTunnel rules outs pageSize ReadRequest Request_Write Response_Write StatusText
                  (argPolicy a) (argDst a) cliConn (argTarget a) (argOriginHost a) (argOriginPort a) in
      ret (HTTPHijacked e)
  end.

Definition forwardHTTPRequest (originReq : Request) : St G http_end :=
  let host := if decide (rqHost originReq = "") then rqURLHost originReq else rqHost originReq in
  if decide (host = "") then ret (HTTPError "400 Bad Request" 400) else
  let '(originHost, port) :=
    match SplitHostPort host with
    | Ok hp => hp
    | Fail _ => (host, if decide (rqScheme originReq = "https") then "443" else "80")
    end in
  let* gen := genPolicy rules originHost false false in
  if failed gen then ret (HTTPError status500 500) else
  if blocked gen then ret (HTTPError status403 403) else
  let* p := lift (gPolicy gen) in
  if decide (HttpStatus p ≠ 0 ∧ HttpStatus p ≠ unsetInt) then
    let scheme := if decide (rqScheme originReq = "") then "https" else rqScheme originReq in
    ret (HTTPReply (HttpStatus p)
           (if decide (HttpStatus p = 301 ∨ HttpStatus p = 302)
            then {["Location" := scheme +:+ "://" +:+ host +:+ rqRequestURI originReq]} else ∅) [])
  else
    let dstPort := if decide (Port p ≠ 0 ∧ Port p ≠ unsetInt) then itoa (Port p) else port in
    let* r := RoundTrip (outgoing_request originReq (dstHost gen) dstPort)
                (if decide (0 < ConnectTimeout p) then Some (ConnectTimeout p) else None) in
    ret match r with
        | Fail _ => HTTPError "502 Bad Gateway" 502
        | Ok u => HTTPReply (upStatus u) (upHeader u) (upBody u)
        end.

Definition httpHandler (hijack : option (result conn)) (req : Request) : St G http_end :=
  if decide (rqMethod req = "CONNECT") then handleConnect hijack req
  else if negb (IsAbs req) then ret (HTTPError status403 403)
  else forwardHTTPRequest req.
End proxy.

(** ** The theorems *)

(** Replies of [handleConnect] on a connection it has taken over. *)
Definition crlf2 : bytes := [Byte.x0d; Byte.x0a; Byte.x0d; Byte.x0a].
Definition established : bytes := bytes_of_string "HTTP/1.1 200 Connection Established" ++ crlf2.
Definition bad_gateway_reply : bytes := bytes_of_string "HTTP/1.1 502 Bad Gateway" ++ crlf2.

(** How a CONNECT that does not become a tunnel ends: the status it is answered
    with, or what is said on the connection before it is closed. *)
Inductive connect_refusal (hijack : option (result conn)) : http_end → list event → Prop :=
| refused_status e s : http_status e = Some s → s ∈ [200; 400; 403; 500] → connect_refusal hijack e []
| refused_dial c : hijack = Some (Ok c) →
    connect_refusal hijack (HTTPHijacked Ended) [EWrite c bad_gateway_reply]
| refused_reply c : hijack = Some (Ok c) →
    connect_refusal hijack (HTTPHijacked Ended) [EWrite c established].

Ltac stop_with :=
  eexists (inl _), _, []; split; [reflexivity|];
  split; [by rewrite app_nil_r; congruence|];
  eapply refused_status; [reflexivity|rewrite !elem_of_cons; auto 10].

(** The tunnel a CONNECT asks for under the rules. *)
Definition asked_for {G} `{R : !Resolver G} (rules : Rules) (req : Request) (g : G) (a : tunnel_args) : Prop :=
  pMode (argPolicy a) ≠ ModeBlock ∧
  SplitHostPort (rqHost req) = Ok (argOriginHost a, argOriginPort a) ∧
  (ReplyFirst (argPolicy a) = BoolTrue ↔ argDst a = None) ∧
  ∃ gen g1, genPolicy rules (argOriginHost a) false false g = Some (gen, g1) ∧
    gPolicy gen = Some (argPolicy a) ∧
    argTarget a = JoinHostPort (dstHost gen)
      (if decide (Port (argPolicy a) ≠ 0 ∧ Port (argPolicy a) ≠ unsetInt)
       then itoa (Port (argPolicy a)) else argOriginPort a).

(** The last step: the client is told, or the connection is lost. *)
Lemma tell_established {G} `{L : HasWorldLaws G} (Q : tunnel_args → Prop) hijack c a (g g2 : G) :
  hijack = Some (Ok c) → sent (wget g2) = sent (wget g) → Q a →
  ∃ r g' l, bind (onW (write c established)) (λ r, match r with
      | Fail _ => bind (onW (ignoring (EClose c))) (λ _, ret (inl (HTTPHijacked Ended)))
      | Ok _ => ret (inr (c, a))
      end) g2 = Some (r, g') ∧ sent (wget g') = sent (wget g) ++ l ∧
    match r with
    | inl e => connect_refusal hijack e l
    | inr (c', a') => hijack = Some (Ok c') ∧ l = [EWrite c' established] ∧ Q a'
    end.
Proof.
  intros -> Hs HQ. unfold bind at 1, onW at 1, write, call.
  destruct (default None (head (verdicts (wget g2)))).
  - eexists (inl _), _, [EWrite c established]. split; [reflexivity|].
    rewrite !wget_wset. split; [by rewrite !sent_snoc, Hs, app_nil_r|by apply refused_reply].
  - eexists (inr _), _, [EWrite c established]. split; [reflexivity|].
    rewrite wget_wset. split; [by rewrite sent_snoc, Hs|done].
Qed.

(** A CONNECT always ends in one of two ways.  Either it is refused, with a
    status or an error reply on the client's connection, and no other byte is
    sent; or the client was told "established" and the tunnel starts for the host
    and port of the request, with the target the rules give them and a policy
    that does not block, connected unless the policy wants the reply first. *)
Theorem connect_setup_outcome {G : Type} `{L : HasWorldLaws G} `{R : !Resolver G} `{RL : !ResolverLaws G}
    (rules : Rules) (hijack : option (result conn)) (req : Request) (g : G) :
  ∃ r g' l, connect_setup rules hijack req g = Some (r, g') ∧
    sent (wget g') = sent (wget g) ++ l ∧
    match r with
    | inl e => connect_refusal hijack e l
    | inr (c, a) => hijack = Some (Ok c) ∧ l = [EWrite c established] ∧ asked_for rules req g a
    end.
Proof.
  unfold connect_setup. case_decide; [stop_with|].
  destruct (SplitHostPort (rqHost req)) as [[originHost originPort]|] eqn:Esplit; [|stop_with].
  destruct (genPolicy_still rules originHost false false g) as (gen & g1 & Hg & Hw).
  unfold bind at 1. rewrite Hg.
  destruct (genPolicy_shape _ _ _ _ _ _ _ Hg) as [->|[->|[->|(dst & p & -> & _)]]];
    [stop_with|stop_with|by apply genPolicy_not_found in Hg|].
  cbn [failed blocked gen_ok gPolicy dstHost]. rewrite bind_lift_Some.
  destruct (decide (pMode p = ModeBlock)) as [|Hmode]; [stop_with|].
  destruct hijack as [[c|e]|]; [|stop_with|stop_with].
  set (dest := JoinHostPort dst _).
  assert (HQ : ∀ dst0, (ReplyFirst p = BoolTrue ↔ dst0 = None) →
    asked_for rules req g (mkArgs p dst0 dest originHost originPort)).
  { intros dst0 Hd. do 3 (split; [done|]). by exists (gen_ok dst p), g1. }
  destruct (decide (ReplyFirst p ≠ BoolTrue)) as [Hrf|Hrf].
  - unfold bind at 1 2, onW at 1, dial, call. destruct (default None (head (verdicts (wget g1)))).
    + eexists (inl _), _, [EWrite c bad_gateway_reply]. split; [reflexivity|].
      rewrite !wget_wset. split; [by rewrite !sent_snoc, Hw, !app_nil_r|by apply refused_dial].
    + apply tell_established; [done|by rewrite wget_wset, sent_snoc, app_nil_r, Hw|]. by apply HQ.
  - apply tell_established; [done|by rewrite Hw|]. apply HQ. split; [done|]. intros _.
    by destruct (ReplyFirst p); try (exfalso; by apply Hrf).
Qed.

(** A plain HTTP request of a domain that the rules send to [dst] goes to the
    transport once, with its method, path, body and headers, without the proxy's
    headers, and with "close" unless it names a connection option; but its Host
    is [dst] with the port, no longer the host the client asked for. *)
Theorem forwardHTTPRequest_replaces_host {G : Type} `{R : !Resolver G} (rules : Rules)
    (RoundTrip : Request → option Z → St G (result UpstreamResponse))
    (req : Request) (dst : string) (p : Policy) (g g1 : G) :
  rqHost req ≠ "" → (∃ e, SplitHostPort (rqHost req) = Fail e) →
  genPolicy rules (rqHost req) false false g = Some (gen_ok dst p, g1) →
  HttpStatus p = 0 ∨ HttpStatus p = unsetInt → Port p = 0 ∨ Port p = unsetInt →
  ∃ out, forwardHTTPRequest rules RoundTrip req g =
      bind (RoundTrip out (if decide (0 < ConnectTimeout p) then Some (ConnectTimeout p) else None))
        (λ r, ret match r with
                  | Fail _ => HTTPError "502 Bad Gateway" 502
                  | Ok u => HTTPReply (upStatus u) (upHeader u) (upBody u)
                  end) g1 ∧
    rqHost out = JoinHostPort dst (if decide (rqScheme req = "https") then "443" else "80") ∧
    rqMethod out = rqMethod req ∧ rqRequestURI out = rqRequestURI req ∧ rqBody out = rqBody req ∧
    rqHeader out !! "Proxy-Authorization" = None ∧ rqHeader out !! "Proxy-Connection" = None ∧
    rqHeader out !! "Connection" =
      Some (if decide (default "" (rqHeader req !! "Connection") = "") then "close"
            else default "" (rqHeader req !! "Connection")) ∧
    (∀ k, k ≠ "Proxy-Authorization" → k ≠ "Proxy-Connection" → k ≠ "Connection" →
       rqHeader out !! k = rqHeader req !! k).
Proof.
  intros Hh [e He] Hg Hs Hp. unfold forwardHTTPRequest.
  rewrite !(decide_False (P := rqHost req = "")) by done. rewrite He. cbn beta iota.
  unfold bind at 1. rewrite Hg. cbn [failed blocked gen_ok gPolicy dstHost]. rewrite bind_lift_Some.
  rewrite (decide_False (P := HttpStatus p ≠ 0 ∧ _)) by tauto.
  rewrite (decide_False (P := Port p ≠ 0 ∧ _)) by tauto.
  eexists. split; [reflexivity|]. unfold outgoing_request. cbn [rqHost rqMethod rqRequestURI rqBody rqHeader].
  do 4 (split; [done|]). set (h := delete "Proxy-Connection" (delete "Proxy-Authorization" (rqHeader req))).
  assert (h !! "Connection" = rqHeader req !! "Connection") as Hc
    by (unfold h; by rewrite !lookup_delete_ne by done).
  assert (∀ k, k ≠ "Connection" → (if decide (default "" (h !! "Connection") = "")
      then <["Connection" := "close"]> h else h) !! k = h !! k) as Hother.
  { intros k Hk. case_decide; [|done]. by rewrite lookup_insert_ne by congruence. }
  split; [rewrite Hother by done; unfold h; rewrite lookup_delete_ne, lookup_delete_eq by done; done|].
  split; [rewrite Hother by done; unfold h; by rewrite lookup_delete_eq|]. split.
  - rewrite Hc. destruct (decide (default "" (rqHeader req !! "Connection") = "")) as [Hd|Hd]; [by rewrite lookup_insert_eq|]. rewrite Hc.
    destruct (rqHeader req !! "Connection"); [done|by destruct Hd].
  - intros k H1 H2 H3. rewrite Hother by done. unfold h. by rewrite !lookup_delete_ne by congruence.
Qed.

(** ** Witness *)

#[local] Instance proxy_resolver : Resolver plain_state := fixed_resolver plain_state.

Lemma forwardHTTPRequest_replaces_host_witness :
  let req := mkReq "GET" "b.example" "" "http" "/x" "HTTP/1.1" {["Accept" := "*/*"]} [] in
  let up := λ out (t : option Z), ret (S := plain_state) (Ok (mkUpstream 200 {["Seen" := rqHost out]} [])) in
  forwardHTTPRequest name_rules up req (client_sends []) =
    Some (HTTPReply 200 {["Seen" := "93.184.216.34:80"]} [], client_sends []).
Proof.
  intros req up.
  destruct (forwardHTTPRequest_replaces_host name_rules up req "93.184.216.34" (with_mode ModeDirect 0 0)
    (client_sends []) (client_sends [])) as (out & Hrun & Hhost & _).
  - discriminate.
  - eexists. vm_compute. reflexivity.
  - vm_compute. reflexivity.
  - right. reflexivity.
  - right. reflexivity.
  - rewrite Hrun. unfold bind, up, ret. rewrite Hhost. reflexivity.
Defined.

(** A CONNECT to a name with an address of its own. *)
Lemma connect_setup_outcome_witness :
  let req := mkReq "CONNECT" "b.example:443" "" "" "b.example:443" "HTTP/1.1" ∅ [] in
  ∃ a g', connect_setup name_rules (Some (Ok client)) req (client_sends []) = Some (inr (client, a), g') ∧
    sent (wget g') = [EWrite client established] ∧ argTarget a = "93.184.216.34:443".
Proof.
  intros req.
  destruct (connect_setup_outcome name_rules (Some (Ok client)) req (client_sends []))
    as (r & g' & l & Hr & Hs & Ho).
  destruct r as [e|[c a]]; [exfalso; vm_compute in Hr; discriminate|].
  destruct Ho as (Hc & -> & _). injection Hc as <-. exists a, g'. split; [exact Hr|]. split.
  - rewrite Hs. reflexivity.
  - vm_compute in Hr. injection Hr as <- _. reflexivity.
Defined.
