(* ===== verification/Servers.v ===== *)
(** The command-line program ([main.go]) and the servers it starts: the accept
    loop of the SOCKS5 proxy ([internal/socks5.go]) and the HTTP proxy
    ([internal/http.go]). *)

From S2P Require Import Prelude GoStd Conn Socks5Server.

(** What a server does: a message it prints, a listener, a handler started for a
    connection with its number. *)
Inductive act :=
| Says (text : string)
| Listens (addr : string)
| AcceptError (e : error)
| Handles (c : conn) (id : Z).

(** [for { conn, err := ln.Accept() ... }]: an error is logged and the loop goes
    on; when [accepts] is over it waits. *)
Fixpoint accept_loop (connID : Z) (accepts : list (result conn)) : list act :=
  match accepts with
  | [] => []
  | Fail err :: accepts => AcceptError err :: accept_loop connID accepts
  | Ok conn :: accepts =>
      let connID := next_conn_id connID in
      Handles conn connID :: accept_loop connID accepts
  end.

(** What it did, and whether it has returned, which sends on [done]. *)
Definition SOCKS5Accept (addr serverAddr : string) (listen : result unit) (accepts : list (result conn)) : list act * bool :=
  match listen_address addr serverAddr with
  | Fail _ => ([Says "SOCKS5 bind address is not specified"], true)
  | Ok None => ([], true)
  | Ok (Some listenAddr) =>
      match listen with
      | Fail err => ([Says "Failed to start SOCKS5 server:"], true)
      | Ok _ => (Listens listenAddr :: accept_loop 0 accepts, false)
      end
  end.

(** [http.Serve] returns with an error, if at all. *)
Definition HTTPAccept (addr serverAddr : string) (listen : result unit) (served : option error) : list act * bool :=
  match listen_address addr serverAddr with
  | Fail _ => ([Says "HTTP bind address is not specified"], true)
  | Ok None => ([], true)
  | Ok (Some listenAddr) =>
      match listen with
      | Fail err => ([Says "Failed to start HTTP proxy server:"], true)
      | Ok _ =>
          match served with
          | Some err => ([Listens listenAddr; Says "HTTP serve:"], true)
          | None => ([Listens listenAddr], false)
          end
      end
  end.

(** The outcomes the system has for a run of the program. *)
Record Run := mkRun {
  loaded : result (string * string);
  socksListen : result unit; accepts : list (result conn);
  httpListen : result unit; httpServed : option error
}.

(** [main]: what the two servers did, and whether the program has ended, which it
    does when both have returned: [HTTPAccept], then [<-done]. *)
Definition main (addr hAddr : string) (r : Run) : (list act * list act) * bool :=
  match loaded r with
  | Fail err => (([Says "Failed to load config:"], []), true)
  | Ok (socks5Addr, httpAddr) =>
      let '(socks, socksDone) := SOCKS5Accept addr socks5Addr (socksListen r) (accepts r) in
      let '(http, httpDone) := HTTPAccept hAddr httpAddr (httpListen r) (httpServed r) in
      ((socks, http), socksDone && httpDone)
  end.

(** ** Numbers of connections *)

Definition handled (l : list act) : list Z := omap (λ a, match a with Handles _ id => Some id | _ => None end) l.
Definition maxConnID : Z := 1048575.

Lemma next_conn_id_mod k : 0 ≤ k → next_conn_id (if decide (k = 0) then 0 else (k - 1) mod maxConnID + 1) = k mod maxConnID + 1.
Proof.
  intros Hk. destruct (decide (k = 0)) as [->|H0]; [done|]. unfold next_conn_id, u32, maxConnID.
  pose proof (Z.mod_pos_bound (k - 1) 1048575 ltac:(lia)).
  rewrite (Z.mod_small _ 4294967296) by lia.
  case_decide; Z.div_mod_to_equations; lia.
Qed.

Lemma accept_loop_ids k accs :
  0 ≤ k →
  handled (accept_loop (if decide (k = 0) then 0 else (k - 1) mod maxConnID + 1) accs) =
  (λ i, (k + Z.of_nat i) mod maxConnID + 1) <$> seq 0 (length (filter (λ r, is_ok r = true) accs)).
Proof.
  revert k. induction accs as [|[c|e] accs IH]; intros k Hk; [done| |].
  - cbn [accept_loop]. rewrite next_conn_id_mod by done. rewrite filter_cons_True by done. cbn [length seq fmap list_fmap].
    unfold handled. cbn [omap list_omap]. f_equal; [f_equal; f_equal; lia|].
    specialize (IH (k + 1) ltac:(lia)). rewrite decide_False in IH by lia. replace (k + 1 - 1) with k in IH by lia.
    unfold handled in IH. rewrite IH. rewrite <-fmap_S_seq, <-list_fmap_compose. apply list_fmap_ext. intros i x _. cbn. f_equal. f_equal. lia.
  - cbn [accept_loop]. rewrite filter_cons_False by done. unfold handled. cbn [omap list_omap]. by apply IH.
Qed.

(** The SOCKS5 server numbers its connections 1, 2, ... up to [0xFFFFF] and then
    starts again: a number is always in that range, and two connections have the
    same one only if [0xFFFFF] or a multiple of it lie between them. *)
Theorem SOCKS5Accept_ids (addr serverAddr : string) (accs : list (result conn)) (i j : nat) (a b : Z) :
  handled (SOCKS5Accept addr serverAddr (Ok tt) accs).1 !! i = Some a →
  handled (SOCKS5Accept addr serverAddr (Ok tt) accs).1 !! j = Some b →
  1 ≤ a ≤ maxConnID ∧ (a = b ↔ (Z.of_nat i - Z.of_nat j) mod maxConnID = 0).
Proof.
  unfold SOCKS5Accept. destruct (listen_address addr serverAddr) as [[la|]|e]; [|done..]. cbn [fst].
  change (handled (Listens la :: accept_loop 0 accs)) with (handled (accept_loop 0 accs)).
  rewrite (accept_loop_ids 0) by done. rewrite !list_lookup_fmap.
  intros (x & Hx & ->)%fmap_Some. intros (y & Hy & ->)%fmap_Some.
  apply lookup_seq in Hx as [-> _], Hy as [-> _]. unfold maxConnID. cbn [Nat.add]. rewrite !Z.add_0_l. split.
  - Z.div_mod_to_equations; lia.
  - Z.div_mod_to_equations; lia.
Qed.

Lemma SOCKS5Accept_ids_witness :
  let accs := [Ok (mkConn 1 true); Fail EOF; Ok (mkConn 2 true)] in
  handled (SOCKS5Accept "" "127.0.0.1:1080" (Ok tt) accs).1 = [1; 2] ∧
  1 ≤ 2 ≤ maxConnID ∧ (2 = 1 ↔ (1 - 0) mod maxConnID = 0).
Proof.
  intros accs. split; [vm_compute; reflexivity|].
  apply (SOCKS5Accept_ids "" "127.0.0.1:1080" accs 1 0 2 1); vm_compute; reflexivity.
Defined.

(** A listener whose [Accept] always fails is asked again at once, for ever. *)
Example accept_spins n : accept_loop 0 (repeat (Fail ErrClosed) n) = repeat (AcceptError ErrClosed) n.
Proof. induction n as [|n IH]; [done|]. cbn [repeat accept_loop]. by rewrite IH. Qed.

(** The program does not end while the SOCKS5 server accepts, even when the HTTP
    server has failed. *)
Example main_waits :
  (main "" "" (mkRun (Ok ("127.0.0.1:1080", "none")) (Ok tt) [] (Ok tt) None)).2 = false ∧
  (main "" "" (mkRun (Ok ("none", "none")) (Ok tt) [] (Ok tt) None)).2 = true.
Proof. done. Qed.
