(* ===== verification/Doh.v ===== *)
(** The connections of the DoH client ([internal/policy.go]: [policyConn],
    [genDoHDialFunc]): where the resolver is dialled, and its own ClientHello sent
    the way the policy of the resolver's host says. *)

From S2P Require Import Prelude GoStd GoNet Conn Policy Cache Desync ClientHello Fragment Routing.
From S2P Require Import Session TunBridge.

(** [policyConn] around a connection whose remote address prints as [raddr];
    [dohConnPolicy] is the global the dial function was made with. *)
Record policyConn := mkPolicyConn { pcConn : conn; pcRaddr : string; pcHandled : bool }.

Section doh.
Context {G : Type} `{HasWorld G} `{TTLService G} `{Resolver G}.
Context (rules : Rules).
Context (outs : list splice) (pageSize : Z).
(** [url.Parse]: the host name and the port of the URL. *)
Context (url_Parse : string → result (string * string)).

(** The body of [Write] for the first buffer. *)
Definition write_hello (dohConnPolicy : Policy) (c : conn) (raddr : string) (b : bytes)
    : St G (result Z) :=
  let whole (m : St G (result unit)) : St G (result Z) := let*? _ := m in ret (Ok (len b)) in
  let* h := lift (parseClientHello b) in
  match helloErr h with
  | Some e => throw e
  | None =>
    if IsTrue (TLS13Only dohConnPolicy) && negb (hasKeyShare h)
    then throw (ErrNew "not a TLS 1.3 ClientHello") else
    if decide (sniStart h = -1) then whole (onW (write c b)) else
    match pMode dohConnPolicy with
    | ModeDirect | ModeRaw => whole (onW (write c b))
    | ModeTTLD =>
        let* _ := lift (String.get 0 raddr) in    (* raddr[0] *)
        whole (let*? ttl := wrap_op "get fake TTL" (fakeTTL dohConnPolicy raddr) in
               wrap_op "ttl desync"
                 (onW (desyncSend c outs pageSize b (sniStart h) (sniLen h) ttl (FakeSleep dohConnPolicy))))
    | ModeTLSRF =>
        whole (wrap_op "tls fragment"
                 (onW (sendRecords c b (sniStart h) (sniLen h)
                         (NumRecords dohConnPolicy) (NumSegments dohConnPolicy)
                         (IsTrue (OOB dohConnPolicy)) (IsTrue (OOBEx dohConnPolicy))
                         (IsTrue (ModMinorVer dohConnPolicy)) (IsTrue (WaitForAck dohConnPolicy))
                         (SendInterval dohConnPolicy))))
    | ModeUnknown | ModeBlock | ModeTLSAlert => ret (Ok (len b))
    end
  end.

Definition policyConn_Write (dohConnPolicy : Policy) (c : policyConn) (b : bytes)
    : St G (result Z * policyConn) :=
  if pcHandled c then
    let* r := onW (write (pcConn c) b) in
    ret (match r with Ok _ => Ok (len b) | Fail e => Fail e end, c)
  else
    let* r := write_hello dohConnPolicy (pcConn c) (pcRaddr c) b in
    ret (r, mkPolicyConn (pcConn c) (pcRaddr c) true).

(** [genDoHDialFunc]: the address and the policy the dial function uses. *)
Definition genDoHDialFunc (dnsAddr : string) : St G (result (string * Policy)) :=
  match url_Parse dnsAddr with
  | Fail e => throw (ErrOp "invalid DoH URL" e)
  | Ok (host, urlPort) =>
    let*? (host, dohConnPolicy) :=
      (if decide (is_Some (ParseIP host)) then
         let* r := ipRedirect rules host in
         match r with
         | Fail e => throw (ErrOp "ip redirect" e)
         | Ok (host, ipPolicy) =>
             ret (Ok (host, match ipPolicy with
                            | None => defaultPolicy rules
                            | Some q => mergePolicies [q; defaultPolicy rules]
                            end))
         end
       else
         let p := match domainFind rules host with
                  | Some q => mergePolicies [q; defaultPolicy rules]
                  | None => defaultPolicy rules
                  end in
         let*? host := resolveDoHPolicyHost rules host p in
         ret (Ok (host, p))) in
    if decide (pMode dohConnPolicy = ModeBlock ∨ pMode dohConnPolicy = ModeTLSAlert)
    then throw (ErrNew "the mode of the DoH cannot be `block`") else
    let port := if decide (urlPort = "") then "443" else urlPort in
    let port := if decide (Port dohConnPolicy ≠ unsetInt) then itoa (Port dohConnPolicy) else port in
    ret (Ok (JoinHostPort host port, dohConnPolicy))
  end.

(** The dial function itself. *)
Definition doh_dial (dnsAddr : string) : St G (result (conn * Policy)) :=
  let*? (addr, p) := genDoHDialFunc dnsAddr in
  let*? c := onW (dial addr (ConnectTimeout p)) in
  ret (Ok (c, p)).
End doh.

(** ** What the resolver reads *)

Section doh_hello.
Context {G : Type} `{L : HasWorldLaws G} `{T : !TTLService G} `{TL : !TTLServiceLaws G}.
Context (outs : list splice) (pageSize : Z).

Lemma emits_wrap {A} c x op (m : St G (result A)) g :
  emits c x m g → emits c x (wrap_op op m) g.
Proof.
  intros (r & g' & Hm & Hr). unfold emits, wrap_op, bind. rewrite Hm.
  destruct r as [a|e]; eexists _, g'; split; try reflexivity; [exact Hr|done].
Qed.

Lemma emits_whole c x (n : Z) (m : St G (result unit)) g :
  emits c x m g →
  ∃ r g', bindE m (λ _, ret (Ok n)) g = Some (r, g') ∧
    ∀ k, r = Ok k → k = n ∧ ∃ l, sent (wget g') = sent (wget g) ++ l ∧ inband c l = x.
Proof.
  intros (r & g' & Hm & Hr). rewrite bindE_unfold, Hm. destruct r as [[]|e].
  - exists (Ok n), g'. split; [done|]. intros k H'. injection H' as <-. split; [done|]. by apply Hr.
  - by exists (Fail e), g'.
Qed.

(** The first buffer the DoH client writes is its ClientHello: the write
    always returns, and when it succeeds it reports the whole buffer and the
    resolver reads it as it is (no server name) or the way the policy of the
    resolver's host sends it; later buffers go out as they are. *)
Theorem policyConn_Write_hello (p : Policy) (c : policyConn) (b : bytes) (h : hello) (g : G) :
  0 < pageSize → pcRaddr c ≠ "" → 5 ≤ len b → pcHandled c = false →
  parseClientHello b = Some h → helloErr h = None →
  pMode p ≠ ModeUnknown → pMode p ≠ ModeBlock → pMode p ≠ ModeTLSAlert →
  (sniStart h ≠ -1 → forwardable p b h) →
  ∃ r c' g', policyConn_Write outs pageSize p c b g = Some ((r, c'), g') ∧ pcHandled c' = true ∧
    (∀ n, r = Ok n → n = len b ∧ ∃ x l, sent (wget g') = sent (wget g) ++ l ∧
       inband (pcConn c) l = x ∧
       if decide (sniStart h = -1) then x = b else read_as (pcConn c) p b h x) ∧
    ∀ b2 g2, policyConn_Write outs pageSize p c' b2 g2 =
      bind (onW (write (pcConn c) b2)) (λ r, ret (match r with Ok _ => Ok (len b2) | Fail e => Fail e end, c')) g2.
Proof.
  intros Hp Hra Hlen Hh Hparse He Hm1 Hm2 Hm3 Hf.
  destruct (parseClientHello_total b Hlen) as (h' & Hh' & Hb). rewrite Hparse in Hh'. injection Hh' as <-.
  destruct (Hb He) as [_ Hsni].
  enough (∃ r g', write_hello outs pageSize p (pcConn c) (pcRaddr c) b g = Some (r, g') ∧
    ∀ n, r = Ok n → n = len b ∧ ∃ x l, sent (wget g') = sent (wget g) ++ l ∧
       inband (pcConn c) l = x ∧
       if decide (sniStart h = -1) then x = b else read_as (pcConn c) p b h x) as (r & g' & Hw & Hr).
  { exists r, (mkPolicyConn (pcConn c) (pcRaddr c) true), g'. unfold policyConn_Write at 1. rewrite Hh.
    unfold bind at 1. rewrite Hw. by repeat (split; [done|]). }
  unfold write_hello. rewrite Hparse, bind_lift_Some, He.
  destruct (_ && _); [by eexists (Fail _), g|].
  assert (∀ g, emits (pcConn c) b (onW (write (pcConn c) b)) g) as Hwr.
  { intros g2. apply (onW_emits _ _ _ [EWrite (pcConn c) b]); [apply _|].
    simpl. by rewrite decide_True, app_nil_r. }
  assert (Hout : ∀ x (m : St G (result unit)), (if decide (sniStart h = -1) then x = b else read_as (pcConn c) p b h x) →
    emits (pcConn c) x m g →
    ∃ r g', bindE m (λ _, ret (Ok (len b))) g = Some (r, g') ∧
      ∀ n, r = Ok n → n = len b ∧ ∃ x l, sent (wget g') = sent (wget g) ++ l ∧ inband (pcConn c) l = x ∧
        if decide (sniStart h = -1) then x = b else read_as (pcConn c) p b h x).
  { intros x m Hx Hem. destruct (emits_whole _ _ (len b) m g Hem) as (r & g' & Hrun & Hok).
    exists r, g'. split; [done|]. intros n Hn. destruct (Hok n Hn) as (-> & l & Hl & Hi). eauto 6. }
  destruct (decide (sniStart h = -1)) as [Hno|Hyes]; [by apply (Hout b)|].
  assert (58 ≤ sniStart h ∧ 0 ≤ sniLen h ∧ sniStart h + sniLen h ≤ len b) as (H1 & H2 & H3)
    by (destruct Hsni as [[? ?]|?]; [done|done]).
  specialize (Hf Hyes). unfold forwardable, read_as in *.
  destruct (pMode p); try done; try by apply (Hout b).
  - destruct (sendRecords_runs (pcConn c) b (sniStart h) (sniLen h) (NumRecords p) (NumSegments p)
      (IsTrue (OOB p)) (IsTrue (OOBEx p)) (IsTrue (ModMinorVer p)) (IsTrue (WaitForAck p))
      (SendInterval p) Hf) as (l & Hrun & Hd).
    apply (Hout (inband (pcConn c) l)); [by exists l|]. apply emits_wrap. by apply (onW_emits _ _ _ l).
  - destruct (pcRaddr c) as [|ch raddr] eqn:Er; [done|]. cbn [String.get]. rewrite bind_lift_Some.
    apply (Hout b); [done|]. unfold emits. rewrite bindE_unfold. unfold wrap_op at 1, bind at 1.
    destruct (fakeTTL_frame p (String ch raddr) g) as ([ttl|e] & g1 & -> & Hg1); [|by eexists (Fail _), _].
    assert (0 < sniStart h) as H0 by lia.
    destruct (emits_wrap _ _ "ttl desync" _ _
      (desync_emits outs pageSize (pcConn c) b _ _ ttl (FakeSleep p) g1 Hp H0 H2 H3)) as (r & g' & Hr & Hok).
    exists r, g'. by rewrite <-Hg1.
Qed.
End doh_hello.

(** ** Witness *)

#[local] Instance doh_ttl : TTLService plain_state := cached_ttl probe5 None 60.
#[local] Instance doh_ttl_laws : TTLServiceLaws plain_state := cached_ttl_laws probe5 None 60.

Lemma policyConn_Write_hello_witness :
  let p := with_mode ModeTTLD 0 0 in
  let c := mkPolicyConn hello_conn "1.1.1.1:443" false in
  ∃ c' g', policyConn_Write [] 4096 p c hello_bytes start_state = Some ((Ok (len hello_bytes), c'), g') ∧
    inband hello_conn (sent (wget g')) = hello_bytes.
Proof.
  intros p c. destruct (parseClientHello hello_bytes) as [h|] eqn:Hh; [|vm_compute in Hh; discriminate].
  assert (Hh' := Hh). vm_compute in Hh'.
  destruct (policyConn_Write_hello [] 4096 p c hello_bytes h start_state) as (r & c' & g' & Hrun & _ & Hr & _).
  - reflexivity.
  - discriminate.
  - vm_compute. discriminate.
  - reflexivity.
  - exact Hh.
  - by injection Hh' as <-.
  - vm_compute. discriminate.
  - vm_compute. discriminate.
  - vm_compute. discriminate.
  - injection Hh' as <-. intros _. unfold forwardable. by vm_compute.
  - assert (r = Ok (len hello_bytes)) as -> by (vm_compute in Hrun; injection Hrun as <- _ _; by vm_compute).
    destruct (Hr _ eq_refl) as (_ & x & l & Hs & Hi & Hx). exists c', g'. split; [exact Hrun|].
    rewrite Hs. change (sent (wget start_state)) with (@nil event). simpl app.
    injection Hh' as <-. vm_compute in Hx. rewrite Hx in Hi. exact Hi.
Defined.
