(* ===== verification/Config.v ===== *)
(** [internal/config.go]: a configuration is validated and installed in the
    package's global state, which holds what the other parts read: the rules, the
    pools, the caches' sizes and how DNS messages are exchanged.

    The tries of the package addrtrie are the lists of what is inserted, in order;
    a Go map is the list of its entries in the order an iteration visits them.
    The file, the decoded document and what other packages answer are arguments. *)

From Stdlib Require Import Strings.Ascii.
From S2P Require Import Prelude GoStd Patterns GoNet GoTime Json Cache Conn Policy Desync Routing.
From S2P Require Import DnsMobile IPPool Session Doh Dial.

Inductive LogLevel := DEBUG | INFO | ERROR.
#[export] Instance LogLevel_eq_dec : EqDecision LogLevel.
Proof. solve_decision. Defined.

(** A decoded document; a pool that is [null] is [None]. *)
Record Config := mkConfig {
  confLogLevel : string;
  confTransmitFileLimit : Z;
  confSocks5Addr : string;
  confHttpAddr : string;
  confOutboundBinding : BindingOption;
  confDNSAddr : string;
  confUDPSize : Z;
  confDoHProxy : string;
  confFakeTTLRules : string;
  confDNSSingleflight : bool;
  confDNSCacheTTL : Z;
  confDNSCacheCapacity : Z;
  confTTLSingleflight : bool;
  confTTLCacheTTL : Z;
  confTTLCacheCapacity : Z;
  confIPPools : list (string * option IPPool);
  confHosts : list (string * string);
  confDefaultPolicy : Policy;
  confDomainPolicies : list (string * Policy);
  confIpPolicies : list (string * Policy)
}.

(** How the DoH client reaches its server. *)
Inductive doh_dialer := DialPolicy (addr : string) (p : Policy) | DialProxy (socks5 : string).
Inductive exchange := dohExchange | do53Exchange.

(** The globals of the package that a configuration sets, by the file they are
    declared in, and the dialers of the package [dial].  [monitored] are the pools
    whose monitor runs. *)
Record DNSGlobals := mkDNSGlobals {
  dnsAddr : string;
  dnsClient : option Z;                  (* its [UDPSize], 0 when not set *)
  httpCli : option doh_dialer;
  dnsExchange : option exchange;
  dnsCache : option Z;                   (* the capacity *)
  dnsCacheTTL : Z;
  dnsSingleflight : bool;
  dohConnPolicy : option Policy
}.
Record TTLGlobals := mkTTLGlobals {
  ttlCache : option Z;
  ttlCacheTTL : Z;
  ttlSingleflight : bool;
  calcTTL : option (Z → result Z)
}.
Record Tables := mkTables {
  hostsMatcher : list (string * string);
  domainMatcher : list (string * Policy);
  ipMatcher : list (string * Policy);
  ipv6Matcher : list (string * Policy)
}.
Record Core := mkCore {
  logLevel : LogLevel;
  coreDefaultPolicy : Policy;
  ipPools : list (string * option IPPool);
  monitored : list string;
  sem : option Z;
  dnsGlobals : DNSGlobals;
  ttlGlobals : TTLGlobals;
  tables : Tables;
  mobileDNSRecords : MobileDNS;
  dialers : DialState
}.

(** Assignments to the globals. *)
Definition with_logLevel (l : LogLevel) (c : Core) : Core :=
  mkCore l (coreDefaultPolicy c) (ipPools c) (monitored c) (sem c) (dnsGlobals c) (ttlGlobals c)
    (tables c) (mobileDNSRecords c) (dialers c).
Definition with_defaultPolicy (p : Policy) (c : Core) : Core :=
  mkCore (logLevel c) p (ipPools c) (monitored c) (sem c) (dnsGlobals c) (ttlGlobals c) (tables c)
    (mobileDNSRecords c) (dialers c).
Definition with_pools (pools : list (string * option IPPool)) (running : list string) (c : Core) : Core :=
  mkCore (logLevel c) (coreDefaultPolicy c) pools running (sem c) (dnsGlobals c) (ttlGlobals c)
    (tables c) (mobileDNSRecords c) (dialers c).
Definition with_sem (n : Z) (c : Core) : Core :=
  mkCore (logLevel c) (coreDefaultPolicy c) (ipPools c) (monitored c) (Some n) (dnsGlobals c)
    (ttlGlobals c) (tables c) (mobileDNSRecords c) (dialers c).
Definition with_dns (f : DNSGlobals → DNSGlobals) (c : Core) : Core :=
  mkCore (logLevel c) (coreDefaultPolicy c) (ipPools c) (monitored c) (sem c) (f (dnsGlobals c))
    (ttlGlobals c) (tables c) (mobileDNSRecords c) (dialers c).
Definition with_ttl (f : TTLGlobals → TTLGlobals) (c : Core) : Core :=
  mkCore (logLevel c) (coreDefaultPolicy c) (ipPools c) (monitored c) (sem c) (dnsGlobals c) (f
    (ttlGlobals c)) (tables c) (mobileDNSRecords c) (dialers c).
Definition with_tables (t : Tables) (c : Core) : Core :=
  mkCore (logLevel c) (coreDefaultPolicy c) (ipPools c) (monitored c) (sem c) (dnsGlobals c)
    (ttlGlobals c) t (mobileDNSRecords c) (dialers c).
Definition with_dialers (d : DialState) (c : Core) : Core :=
  mkCore (logLevel c) (coreDefaultPolicy c) (ipPools c) (monitored c) (sem c) (dnsGlobals c)
    (ttlGlobals c) (tables c) (mobileDNSRecords c) d.

Definition set_logLevel (l : LogLevel) : St Core unit := modify (with_logLevel l).
Definition set_defaultPolicy (p : Policy) : St Core unit := modify (with_defaultPolicy p).
Definition set_pools (pools : list (string * option IPPool)) (running : list string) : St Core unit := modify (with_pools pools running).
Definition set_sem (n : Z) : St Core unit := modify (with_sem n).
Definition set_dns (f : DNSGlobals → DNSGlobals) : St Core unit := modify (with_dns f).
Definition set_ttl (f : TTLGlobals → TTLGlobals) : St Core unit := modify (with_ttl f).
Definition set_tables (t : Tables) : St Core unit := modify (with_tables t).
(** A function of the package [dial]. *)
Definition on_dialers {A} (m : St DialState A) : St Core A := λ c,
  match m (dialers c) with
  | Some (a, d) => Some (a, with_dialers d c)
  | None => None
  end.

(** ** Validation *)

Definition log_level (s : string) : option LogLevel :=
  if decide (s = "DEBUG" ∨ s = "debug") then Some DEBUG
  else if decide (s = "INFO" ∨ s = "info") then Some INFO
  else if decide (s = "ERROR" ∨ s = "error") then Some ERROR
  else None.

Definition validateConfigBasics (conf : Config) : option error :=
  if decide (confLogLevel conf ≠ "" ∧ log_level (confLogLevel conf) = None)
  then Some (ErrNew ("unknown log level: " +:+ confLogLevel conf))
  else if decide (confDNSCacheTTL conf < 0)
  then Some (ErrNew ("invalid dns_cache_ttl: " +:+ itoa (confDNSCacheTTL conf)))
  else if decide (confDNSCacheTTL conf ≠ 0 ∧ confDNSCacheCapacity conf < 1)
  then Some (ErrNew ("invalid dns_cache_cap: " +:+ itoa (confDNSCacheCapacity conf)))
  else if decide (confTTLCacheTTL conf < 0)
  then Some (ErrNew ("invalid ttl cache ttl: " +:+ itoa (confTTLCacheTTL conf)))
  else if decide (confTTLCacheTTL conf ≠ 0 ∧ confTTLCacheCapacity conf < 1)
  then Some (ErrNew ("invalid ttl_cache_cap: " +:+ itoa (confTTLCacheCapacity conf)))
  else if decide (confFakeTTLRules conf ≠ "") then
    ErrOp "load fake ttl rules" <$> validateTTLRules (confFakeTTLRules conf)
  else None.

(** [ValidateConfigJSON] on the decoded document. *)
Definition ValidateConfigJSON (conf : result Config) : option error :=
  match conf with Fail e => Some e | Ok conf => validateConfigBasics conf end.

(** ** Installation *)

(** What a table of patterns inserts: the elements between semicolons, expanded. *)
Definition insertions {A} (table : list (string * A)) : list (string * A) :=
  '(patterns, v) ← table; elem ← Split patterns ";"; pattern ← expandPattern elem; [(pattern, v)].

(** [StopIPPoolMonitors]; a nil pool is dereferenced. *)
Definition StopIPPoolMonitors : St Core unit :=
  let* c := get in
  if existsb (λ p, bool_decide (snd p = None)) (ipPools c) then lift None else
  set_pools (ipPools c) (list_difference (monitored c) (fst <$> ipPools c)).

Definition DNSGlobals_zero : DNSGlobals := mkDNSGlobals "" None None None None 0 false None.
Definition TTLGlobals_zero : TTLGlobals := mkTTLGlobals None 0 false None.
Definition Tables_zero : Tables := mkTables [] [] [] [].

(** What [resetConfigState] leaves; monitors that still run go on. *)
Definition reset_core (running : list string) : Core :=
  mkCore INFO Policy_zero [] running None DNSGlobals_zero TTLGlobals_zero Tables_zero ∅
    (mkDial (Some None) (Some None) None).

Definition resetConfigState : St Core unit := modify (λ c, reset_core (monitored c)).

Section load.
(** The operating system and other packages: see [Dial] for the first three;
    [runtime.GOOS]; the order in which the probes of a pool end and what they
    say; [freelru.NewSharded]; [proxy.SOCKS5]; whether [http.DefaultTransport] is
    a [*http.Transport]; [url.Parse]; the lookups of the tries. *)
Context (sys : result (list sysIface)) (lines : list (option Z))
  (detectByDial : string → string → Z → result (option IP * string))
  (GOOS : string)
  (probes : string → list Z * (Z → list (option Z)))
  (NewSharded : Z → option error)
  (proxy_SOCKS5 : string → option error)
  (is_transport : bool)
  (url_Parse : string → result (string * string))
  (find_domain : ∀ A, list (string * A) → string → option A)
  (find_ip : list (string * Policy) → string → option Policy).
Context `{!Resolver Core}.

(** The rules the lookups see. *)
Definition rules_of (c : Core) : Rules :=
  mkRules (coreDefaultPolicy c) (find_domain Policy (domainMatcher (tables c)))
    (find_domain string (hostsMatcher (tables c))) (find_ip (ipMatcher (tables c))) (find_ip (ipv6Matcher (tables c))).

(** [pool.Init] of every pool; a nil pool is dereferenced.  [done] are those
    before. *)
Fixpoint init_pools (done todo : list (string * option IPPool)) : St Core (result unit) :=
  match todo with
  | [] => ret (Ok tt)
  | (tag, pool) :: todo =>
      let* pool := lift pool in
      let* r := lift (let '(order, probe) := probes tag in Init pool order probe) in
      match r with
      | Fail e => throw (ErrOp ("init ip pool " +:+ tag) e)
      | Ok pool =>
          let* c := get in
          let* _ := set_pools (done ++ (tag, Some pool) :: todo) (tag :: monitored c) in
          init_pools (done ++ [(tag, Some pool)]) todo
      end
  end.

Definition load_log_level (conf : Config) : St Core (result unit) :=
  if decide (confLogLevel conf = "") then ret (Ok tt) else
  match log_level (confLogLevel conf) with
  | None => throw (ErrNew ("unknown log level: " +:+ confLogLevel conf))
  | Some l => let* _ := set_logLevel l in ret (Ok tt)
  end.

Definition load_pools (conf : Config) : St Core (result unit) :=
  if decide (confIPPools conf = []) then ret (Ok tt) else
  let* c := get in
  let* _ := set_pools (confIPPools conf) (monitored c) in
  init_pools [] (confIPPools conf).

Definition load_dns_cache (conf : Config) : St Core (result unit) :=
  if decide (confDNSCacheTTL conf < 0)
  then throw (ErrNew ("invalid dns_cache_ttl: " +:+ itoa (confDNSCacheTTL conf))) else
  if decide (confDNSCacheTTL conf = 0) then ret (Ok tt) else
  if decide (confDNSCacheCapacity conf < 1)
  then throw (ErrNew ("invalid dns_cache_cap: " +:+ itoa (confDNSCacheCapacity conf))) else
  let cap := u32 (confDNSCacheCapacity conf) in
  match NewSharded cap with
  | Some e => throw (ErrOp "init dns cache" e)
  | None =>
      let* _ := set_dns (λ d, mkDNSGlobals (dnsAddr d) (dnsClient d) (httpCli d) (dnsExchange d) (Some cap)
                  (confDNSCacheTTL conf * Second) (dnsSingleflight d) (dohConnPolicy d)) in
      ret (Ok tt)
  end.

Definition load_ttl_cache (conf : Config) : St Core (result unit) :=
  if decide (confTTLCacheTTL conf < 0)
  then throw (ErrNew ("invalid ttl cache ttl: " +:+ itoa (confTTLCacheTTL conf))) else
  if decide (confTTLCacheTTL conf = 0) then ret (Ok tt) else
  if decide (confTTLCacheCapacity conf < 1)
  then throw (ErrNew ("invalid ttl_cache_cap: " +:+ itoa (confTTLCacheCapacity conf))) else
  let cap := u32 (confTTLCacheCapacity conf) in
  match NewSharded cap with
  | Some e => throw (ErrOp "init ttl cache" e)
  | None =>
      let* _ := set_ttl (λ t, mkTTLGlobals (Some cap) (confTTLCacheTTL conf * Second) (ttlSingleflight t) (calcTTL t)) in
      ret (Ok tt)
  end.

Definition load_ttl_rules (conf : Config) : St Core (result unit) :=
  if decide (confFakeTTLRules conf = "") then ret (Ok tt) else
  match loadTTLRules (confFakeTTLRules conf) with
  | Fail e => throw (ErrOp "load fake ttl rules" e)
  | Ok calc =>
      let* _ := set_ttl (λ t, mkTTLGlobals (ttlCache t) (ttlCacheTTL t) (ttlSingleflight t) (Some calc)) in
      if decide (GOOS = "windows" ∧ 0 < confTransmitFileLimit conf)
      then let* _ := set_sem (confTransmitFileLimit conf) in ret (Ok tt) else ret (Ok tt)
  end.

(** The tables of the rules. *)
Definition tables_of (conf : Config) : Tables :=
  let ips := insertions (confIpPolicies conf) in
  mkTables (insertions (confHosts conf)) (insertions (confDomainPolicies conf))
    (filter (λ e, isIPv6 (fst e) = false) ips) (filter (λ e, isIPv6 (fst e) = true) ips).

(** The two ways to reach a DoH server, with [dohConnPolicy]. *)
Definition load_doh_dialer (conf : Config) : St Core (result (doh_dialer * option Policy)) :=
  if decide (confDoHProxy conf = "") then
    let* c := get in
    let*? (a, p) := genDoHDialFunc (rules_of c) url_Parse (confDNSAddr conf) in
    ret (Ok (DialPolicy a p, Some p))
  else match proxy_SOCKS5 (confDoHProxy conf) with
       | Some e => throw (ErrOp "create socks5 dialer" e)
       | None => ret (Ok (DialProxy (confDoHProxy conf), None))
       end.

Definition load_exchange (conf : Config) : St Core (result unit) :=
  let addr := confDNSAddr conf in
  let* _ := set_dns (λ d, mkDNSGlobals addr (dnsClient d) (httpCli d) (dnsExchange d) (dnsCache d) (dnsCacheTTL d)
              (dnsSingleflight d) (dohConnPolicy d)) in
  if HasPrefix addr "https://" then
    let*? (dialer, p) := load_doh_dialer conf in
    if negb is_transport then throw (ErrNew "DefaultTransport is not *http.Transport") else
    let* _ := set_dns (λ d, mkDNSGlobals (dnsAddr d) (dnsClient d) (Some dialer) (Some dohExchange) (dnsCache d)
                (dnsCacheTTL d) (dnsSingleflight d) p) in
    ret (Ok tt)
  else
    let* _ := set_dns (λ d, mkDNSGlobals (dnsAddr d) (Some (if decide (0 < confUDPSize conf) then confUDPSize conf else 0))
                (httpCli d) (Some do53Exchange) (dnsCache d) (dnsCacheTTL d) (dnsSingleflight d) (dohConnPolicy d)) in
    ret (Ok tt).

(** From the validation to [loaded = true]. *)
Definition install (conf : Config) : St Core (result (string * string)) :=
  match validateConfigBasics conf with
  | Some e => throw e
  | None =>
      let*? _ := on_dialers (SetLocalAddr sys lines detectByDial (confOutboundBinding conf)) in
      let*? _ := load_log_level conf in
      let*? _ := load_pools conf in
      let* _ := (if confDNSSingleflight conf then set_dns (λ d, mkDNSGlobals (dnsAddr d) (dnsClient d) (httpCli d)
                   (dnsExchange d) (dnsCache d) (dnsCacheTTL d) true (dohConnPolicy d)) else ret tt) in
      let* _ := (if confTTLSingleflight conf then set_ttl (λ t, mkTTLGlobals (ttlCache t) (ttlCacheTTL t) true (calcTTL t))
                 else ret tt) in
      let*? _ := load_dns_cache conf in
      let*? _ := load_ttl_cache conf in
      let*? _ := load_ttl_rules conf in
      let* _ := set_defaultPolicy (normalizePolicyDefaults (confDefaultPolicy conf)) in
      let* _ := set_tables (tables_of conf) in
      let*? _ := load_exchange conf in
      ret (Ok (confSocks5Addr conf, confHttpAddr conf))
  end.

(** [LoadConfig] of a file that reads and decodes as [conf]. *)
Definition LoadConfig (conf : result Config) : St Core (result (string * string)) :=
  match conf with
  | Fail e => throw e
  | Ok conf =>
      let* _ := StopIPPoolMonitors in
      let* _ := resetConfigState in
      let* r := install conf in
      match r with
      | Ok addrs => ret (Ok addrs)
      | Fail e =>                    (* deferred *)
          let* _ := StopIPPoolMonitors in
          let* _ := resetConfigState in
          throw e
      end
  end.
End load.

(** ** What a computation keeps *)

Definition preserves {S A} (P : S → Prop) (m : St S A) : Prop :=
  ∀ s a s', P s → m s = Some (a, s') → P s'.

Lemma preserves_ret {S A} (P : S → Prop) (a : A) : preserves P (ret a).
Proof. intros s b s' Hs H. by injection H as _ <-. Qed.
Lemma preserves_lift {S A} (P : S → Prop) (m : go A) : preserves P (lift m).
Proof. intros s b s' Hs H. unfold lift in H. destruct m; [|done]. by injection H as _ <-. Qed.
Lemma preserves_bind {S A B} (P : S → Prop) (m : St S A) (f : A → St S B) :
  preserves P m → (∀ a, preserves P (f a)) → preserves P (bind m f).
Proof. intros Hm Hf s b s' Hs (a & s1 & H1 & H2)%bind_Some. eapply Hf; [by eapply Hm|done]. Qed.
Lemma preserves_bindE {S A B} (P : S → Prop) (m : St S (result A)) (f : A → St S (result B)) :
  preserves P m → (∀ a, preserves P (f a)) → preserves P (bindE m f).
Proof. intros Hm Hf. apply preserves_bind; [done|]. intros [a|e]; [apply Hf|apply preserves_ret]. Qed.
Lemma preserves_modify {S} (P : S → Prop) (f : S → S) : (∀ s, P s → P (f s)) → preserves P (modify f).
Proof. intros Hf s a s' Hs H. injection H as _ <-. by apply Hf. Qed.
Lemma preserves_get {S A} (P : S → Prop) (f : S → St S A) : (∀ s, preserves P (f s)) → preserves P (bind get f).
Proof. intros Hf s a s' Hs H. unfold bind, get in H. by eapply Hf. Qed.

Create HintDb preserves.
#[export] Hint Resolve preserves_ret preserves_lift preserves_bind preserves_bindE preserves_get : preserves.

(** The lookups of the DoH client only take addresses from the pools. *)
Lemma genDoHDialFunc_preserves {S} `{!Resolver S} (P : S → Prop) rules url addr :
  (∀ tag, preserves P (getFromIPPool tag)) → preserves P (genDoHDialFunc rules url addr).
Proof.
  intros Hget.
  assert (∀ host sel, preserves P (if decide (sel = "" ∨ sel = unsetString ∨ sel = "self") then ret (Ok host)
    else if HasPrefix sel ipPoolTagPrefix then getFromIPPool (tail1 sel)
    else if HasPrefix sel resolvePrefix then ret (Ok host) else ret (Ok sel))) as Hsel.
  { intros host sel. case_decide; [apply preserves_ret|].
    destruct (HasPrefix sel ipPoolTagPrefix); [apply Hget|]. destruct (HasPrefix sel resolvePrefix); apply preserves_ret. }
  unfold genDoHDialFunc. destruct (url addr) as [[host port]|e]; [|apply preserves_ret].
  apply preserves_bindE.
  - case_decide.
    + apply preserves_bind; [|intros [[? ?]|?]; apply preserves_ret].
      unfold ipRedirect. destruct (getIPPolicy rules host) as [q|]; [|apply preserves_ret].
      case_decide; [apply preserves_ret|]. apply preserves_bindE; [|intros; apply preserves_ret].
      destruct (HasPrefix _ _); [apply Hget|]. case_decide; [apply preserves_lift|apply preserves_ret].
    + apply preserves_bindE; [|intros; apply preserves_ret].
      apply Hsel.
  - intros [h p]. case_decide; apply preserves_ret.
Qed.

(** Every monitor that runs belongs to a pool. *)
Definition monitors_ok (c : Core) : Prop := ∀ tag, tag ∈ monitored c → tag ∈ fst <$> ipPools c.

(** All but the pools' own state and the tags they have. *)
Definition same_but_pools (c c' : Core) : Prop :=
  logLevel c' = logLevel c ∧ coreDefaultPolicy c' = coreDefaultPolicy c ∧
  (fst <$> ipPools c') = (fst <$> ipPools c) ∧ monitored c' = monitored c ∧ sem c' = sem c ∧
  dnsGlobals c' = dnsGlobals c ∧ ttlGlobals c' = ttlGlobals c ∧ tables c' = tables c ∧
  mobileDNSRecords c' = mobileDNSRecords c ∧ dialers c' = dialers c.

Lemma same_but_pools_monitors c c' : same_but_pools c c' → monitors_ok c → monitors_ok c'.
Proof. intros (_ & _ & Ht & Hm & _) Hok tag Htag. rewrite Hm in Htag. rewrite Ht. by apply Hok. Qed.

(** What the state promises to the lookups, and they to it. *)
Class CoreResolver `{!Resolver Core} : Prop :=
  pool_frame tag c r c' : getFromIPPool tag c = Some (r, c') → same_but_pools c c'.

(** [getFromIPPool] on the pools of the state. *)
Definition core_getFromIPPool (tag : string) : St Core (result string) :=
  let* c := get in
  if decide (ipPools c = []) then throw (ErrNew "no ip pools") else
  match list.list_find (λ p, fst p = tag) (ipPools c) with
  | None => throw (ErrNew ("ip pool " +:+ tag +:+ " does not exist"))
  | Some (i, (_, pool)) =>
      let* pool := lift pool in
      let* r := lift (IPPool.Get pool) in
      let '(ip, pool) := r in
      let* _ := set_pools (<[i := (tag, Some pool)]> (ipPools c)) (monitored c) in
      if decide (ip = "") then throw (ErrNew ("cannot get ip from " +:+ tag)) else ret (Ok ip)
  end.

(** The resolver of the program; names are resolved by [resolve]. *)
Definition core_resolver (resolve : string → DNSMode → St Core (result (string * bool))) : Resolver Core :=
  {| getFromIPPool := core_getFromIPPool; dnsResolve := resolve |}.

Lemma core_resolver_frame resolve : @CoreResolver (core_resolver resolve).
Proof.
  intros tag c r c' H. cbn [getFromIPPool core_resolver] in H. unfold core_getFromIPPool, bind at 1, get in H.
  case_decide; [injection H as _ <-; by repeat split|].
  destruct (list.list_find _ (ipPools c)) as [[i [t pool]]|] eqn:E; [|injection H as _ <-; by repeat split].
  destruct pool as [pool|]; [|done]. cbn in H. destruct (IPPool.Get pool) as [[ip pool']|]; [|done].
  cbn in H. apply list.list_find_Some in E as (Hi & Ht & _). cbn in Ht. subst t.
  assert (same_but_pools c (with_pools (<[i := (tag, Some pool')]> (ipPools c)) (monitored c) c)) as Hsame.
  { do 2 (split; [done|]). split; [|by repeat split]. cbn [with_pools ipPools].
    rewrite list_fmap_insert. apply list_insert_id. by rewrite list_lookup_fmap, Hi. }
  unfold bind, set_pools, modify in H. destruct (decide (ip = "")); by injection H as _ <-.
Qed.

(** ** All or nothing *)

Section load_facts.
Context (sys : result (list sysIface)) (lines : list (option Z))
  (detectByDial : string → string → Z → result (option IP * string))
  (GOOS : string) (probes : string → list Z * (Z → list (option Z)))
  (NewSharded : Z → option error) (proxy_SOCKS5 : string → option error) (is_transport : bool)
  (url_Parse : string → result (string * string))
  (find_domain : ∀ A, list (string * A) → string → option A)
  (find_ip : list (string * Policy) → string → option Policy).
Context `{CR : CoreResolver}.

Abbreviation run_install := (install sys lines detectByDial GOOS probes NewSharded proxy_SOCKS5 is_transport url_Parse
  find_domain find_ip).
Abbreviation run_exchange := (load_exchange proxy_SOCKS5 is_transport url_Parse find_domain find_ip).

(** What [init_pools] does to the pools, and that it touches nothing else. *)
Lemma init_pools_spec before todo c r c' :
  ipPools c = before ++ todo → monitored c = reverse (fst <$> before) →
  init_pools probes before todo c = Some (r, c') →
  ∃ pools running, c' = with_pools pools running c ∧ fst <$> pools = fst <$> before ++ todo ∧
    (∀ tag, tag ∈ running → tag ∈ fst <$> pools) ∧
    (is_ok r = true → running = reverse (fst <$> pools)).
Proof.
  revert before c. induction todo as [|[tag pool] todo IH]; intros before c Hp Hm H.
  - injection H as <- <-. exists (ipPools c), (monitored c). split; [by destruct c|].
    rewrite Hp, app_nil_r. split; [done|]. rewrite Hm. split; [|done].
    intros t. by rewrite elem_of_reverse.
  - cbn [init_pools] in H. apply bind_Some in H as (pool' & c1 & H1 & H).
    destruct pool as [pool|]; [|done]. injection H1 as <- <-.
    apply bind_Some in H as (q & c1 & H1 & H). destruct (probes tag) as [order probe].
    unfold lift in H1. destruct (Init pool order probe) as [q'|]; [|done]. injection H1 as <- <-.
    destruct q' as [pool'|e].
    + apply bind_Some in H as (c1 & c2 & H1 & H). injection H1 as <- <-.
      apply bind_Some in H as ([] & c1 & H1 & H). injection H1 as <-.
      apply IH in H as (pools & running & -> & Ht & Hin & Hok).
      * exists pools, running. split; [done|]. split; [|done]. rewrite Ht, <-app_assoc, !fmap_app. reflexivity.
      * cbn. by rewrite <-app_assoc.
      * cbn [with_pools monitored]. rewrite fmap_app, reverse_app, Hm. done.
    + injection H as <- <-. exists (ipPools c), (monitored c). split; [by destruct c|].
      rewrite Hp. split; [done|]. rewrite Hm. split; [|done].
      intros t. rewrite elem_of_reverse, fmap_app, elem_of_app. by left.
Qed.

(** A stage fails before it assigns anything; when it succeeds: *)
Lemma load_log_level_spec conf c r c' :
  load_log_level conf c = Some (r, c') →
  c' = match r with
       | Ok _ => with_logLevel (default (logLevel c) (log_level (confLogLevel conf))) c
       | Fail _ => c
       end.
Proof.
  unfold load_log_level. case_decide as Hl.
  - intros H. injection H as <- <-. rewrite Hl. by destruct c.
  - destruct (log_level _); intros H; by injection H as <- <-.
Qed.

(** A cache that is configured. *)
Definition cache_cap (ttl cap : Z) : option Z := if decide (ttl = 0) then None else Some (u32 cap).

Lemma load_dns_cache_spec conf c r c' :
  dnsCache (dnsGlobals c) = None → dnsCacheTTL (dnsGlobals c) = 0 →
  load_dns_cache NewSharded conf c = Some (r, c') →
  c' = match r with
       | Ok _ => with_dns (λ d, mkDNSGlobals (dnsAddr d) (dnsClient d) (httpCli d) (dnsExchange d)
                   (cache_cap (confDNSCacheTTL conf) (confDNSCacheCapacity conf)) (confDNSCacheTTL conf * Second)
                   (dnsSingleflight d) (dohConnPolicy d)) c
       | Fail _ => c
       end.
Proof.
  intros Hc Ht. unfold load_dns_cache, cache_cap. case_decide; [intros H'; by injection H' as <- <-|].
  case_decide as H0; [intros H'; injection H' as <- <-|].
  - rewrite H0. destruct c as [l p po mo se [a b k x ca ct sf dp] tt ta mob di]. cbn in Hc, Ht. by subst.
  - case_decide; [intros H'; by injection H' as <- <-|]. destruct (NewSharded _); intros H'; by injection H' as <- <-.
Qed.

Lemma load_ttl_cache_spec conf c r c' :
  ttlCache (ttlGlobals c) = None → ttlCacheTTL (ttlGlobals c) = 0 →
  load_ttl_cache NewSharded conf c = Some (r, c') →
  c' = match r with
       | Ok _ => with_ttl (λ t, mkTTLGlobals (cache_cap (confTTLCacheTTL conf) (confTTLCacheCapacity conf))
                   (confTTLCacheTTL conf * Second) (ttlSingleflight t) (calcTTL t)) c
       | Fail _ => c
       end.
Proof.
  intros Hc Ht. unfold load_ttl_cache, cache_cap. case_decide; [intros H'; by injection H' as <- <-|].
  case_decide as H0; [intros H'; injection H' as <- <-|].
  - rewrite H0. destruct c as [l p po mo se d [ca ct sf cal] ta mob di]. cbn in Hc, Ht. by subst.
  - case_decide; [intros H'; by injection H' as <- <-|]. destruct (NewSharded _); intros H'; by injection H' as <- <-.
Qed.

(** What [load_ttl_rules] gives. *)
Definition rules_calc (conf : Config) : option (Z → result Z) :=
  if decide (confFakeTTLRules conf = "") then None
  else match loadTTLRules (confFakeTTLRules conf) with Ok f => Some f | Fail _ => None end.

Lemma load_ttl_rules_spec conf c r c' :
  calcTTL (ttlGlobals c) = None → load_ttl_rules GOOS conf c = Some (r, c') →
  match r with
  | Ok _ => ∃ n, c' = mkCore (logLevel c) (coreDefaultPolicy c) (ipPools c) (monitored c) n (dnsGlobals c)
      (mkTTLGlobals (ttlCache (ttlGlobals c)) (ttlCacheTTL (ttlGlobals c)) (ttlSingleflight (ttlGlobals c))
         (rules_calc conf)) (tables c) (mobileDNSRecords c) (dialers c)
  | Fail _ => c' = c
  end.
Proof.
  intros Hc. unfold load_ttl_rules, rules_calc. case_decide as H0.
  - intros H'. injection H' as <- <-. exists (sem c). destruct c as [l p po mo se d [ca ct sf cal] ta mob di].
    cbn in Hc. by subst.
  - destruct (loadTTLRules _) as [f|e]; [|intros H'; by injection H' as <- <-].
    unfold bind, set_ttl, modify, set_sem. case_decide; intros H'; injection H' as <- <-; by eexists.
Qed.

Lemma load_doh_dialer_frame conf c r c' :
  load_doh_dialer proxy_SOCKS5 url_Parse find_domain find_ip conf c = Some (r, c') → same_but_pools c c'.
Proof.
  unfold load_doh_dialer. case_decide.
  - unfold bind at 1, get. intros Hx.
    assert (preserves (same_but_pools c) (let*? (a, p) := genDoHDialFunc (rules_of find_domain find_ip c) url_Parse
      (confDNSAddr conf) in ret (Ok (DialPolicy a p, Some p)))) as Hp.
    { apply preserves_bindE; [|intros [? ?]; apply preserves_ret]. apply genDoHDialFunc_preserves.
      intros tag s0 x s1 Hs Hg. apply pool_frame in Hg. unfold same_but_pools in *. intuition congruence. }
    eapply Hp; [|exact Hx]. by repeat split.
  - destruct (proxy_SOCKS5 _); intros Hx; injection Hx as _ <-; by repeat split.
Qed.

Lemma load_exchange_spec conf c r c' :
  run_exchange conf c = Some (r, c') →
  same_but_pools c (with_dns (λ _, dnsGlobals c) c') ∧
  match r with
  | Ok _ => dnsAddr (dnsGlobals c') = confDNSAddr conf ∧
      dnsExchange (dnsGlobals c') =
        Some (if HasPrefix (confDNSAddr conf) "https://" then dohExchange else do53Exchange) ∧
      dnsCache (dnsGlobals c') = dnsCache (dnsGlobals c) ∧ dnsCacheTTL (dnsGlobals c') = dnsCacheTTL (dnsGlobals c) ∧
      dnsSingleflight (dnsGlobals c') = dnsSingleflight (dnsGlobals c)
  | Fail _ => True
  end.
Proof.
  unfold load_exchange, bind at 1. unfold set_dns at 1, modify at 1. set (c1 := with_dns _ c).
  destruct (HasPrefix (confDNSAddr conf) "https://").
  2: { intros H'. unfold bind, set_dns, modify in H'. injection H' as <- <-. split; [by repeat split|done]. }
  rewrite bindE_unfold.
  destruct (load_doh_dialer _ _ _ _ conf c1) as [[[[dl p]|e] c2]|] eqn:Ed; [| |done]; apply load_doh_dialer_frame in Ed.
  2: { intros H'. injection H' as <- <-. split; [|done]. unfold same_but_pools in *. cbn in *. intuition congruence. }
  assert (Hd := Ed). destruct Hd as (_ & _ & _ & _ & _ & Hdns & _).
  destruct (negb is_transport).
  { intros H'. injection H' as <- <-. split; [|done]. unfold same_but_pools in *. cbn in *. intuition congruence. }
  unfold bind, set_dns, modify. intros H'. injection H' as <- <-. split.
  - unfold same_but_pools in *. cbn in *. intuition congruence.
  - cbn [with_dns dnsGlobals dnsAddr dnsExchange dnsCache dnsCacheTTL dnsSingleflight]. by rewrite Hdns.
Qed.

(** What a loaded configuration leaves in the globals. *)
Definition installed (conf : Config) (c : Core) : Prop :=
  logLevel c = default INFO (log_level (confLogLevel conf)) ∧
  coreDefaultPolicy c = normalizePolicyDefaults (confDefaultPolicy conf) ∧
  (fst <$> ipPools c) = (fst <$> confIPPools conf) ∧ monitored c = reverse (fst <$> confIPPools conf) ∧
  tables c = tables_of conf ∧ mobileDNSRecords c = ∅ ∧
  dnsAddr (dnsGlobals c) = confDNSAddr conf ∧
  dnsExchange (dnsGlobals c) =
    Some (if HasPrefix (confDNSAddr conf) "https://" then dohExchange else do53Exchange) ∧
  dnsCache (dnsGlobals c) = cache_cap (confDNSCacheTTL conf) (confDNSCacheCapacity conf) ∧
  dnsCacheTTL (dnsGlobals c) = confDNSCacheTTL conf * Second ∧
  dnsSingleflight (dnsGlobals c) = confDNSSingleflight conf ∧
  ttlCache (ttlGlobals c) = cache_cap (confTTLCacheTTL conf) (confTTLCacheCapacity conf) ∧
  ttlCacheTTL (ttlGlobals c) = confTTLCacheTTL conf * Second ∧
  ttlSingleflight (ttlGlobals c) = confTTLSingleflight conf ∧
  calcTTL (ttlGlobals c) = rules_calc conf.

(** The next stage of [install]: it fails, which ends it, or goes on. *)
Ltac stage H c E :=
  rewrite bindE_unfold in H;
  match type of H with context [match ?m ?s with _ => _ end] =>
    destruct (m s) as [[[[]|?] c]|] eqn:E; [| |discriminate] end.

Lemma load_pools_spec conf c r c' :
  ipPools c = [] → monitored c = [] → load_pools probes conf c = Some (r, c') →
  ∃ pools running, c' = with_pools pools running c ∧ (∀ tag, tag ∈ running → tag ∈ fst <$> pools) ∧
    (is_ok r = true → fst <$> pools = fst <$> confIPPools conf ∧ running = reverse (fst <$> pools)).
Proof.
  intros Hp Hm. unfold load_pools. case_decide as H0.
  - intros H. injection H as <- <-. exists [], []. rewrite H0. split; [destruct c; cbn in *; by subst|]. split; [|done].
    intros tag. by rewrite elem_of_nil.
  - unfold bind at 1 2, get, set_pools, modify. intros H.
    apply init_pools_spec in H as (pools & running & -> & Ht & Hin & Hok); [|done|by cbn].
    exists pools, running. split; [done|]. split; [done|]. intros Hr. split; [done|]. by apply Hok.
Qed.

Lemma install_spec conf r c' :
  run_install conf (reset_core []) = Some (r, c') →
  monitors_ok c' ∧
  match r with
  | Ok addrs => validateConfigBasics conf = None ∧ addrs = (confSocks5Addr conf, confHttpAddr conf) ∧ installed conf c'
  | Fail _ => True
  end.
Proof.
  assert (∀ c, monitored c = [] → monitors_ok c) as Hnone.
  { intros c Hc tag. rewrite Hc. by rewrite elem_of_nil. }
  unfold install. destruct (validateConfigBasics conf) as [e|] eqn:Ev.
  { intros H. injection H as <- <-. split; [by apply Hnone|done]. }
  intros H. unfold on_dialers at 1 in H. rewrite bindE_unfold in H.
  destruct (SetLocalAddr sys lines detectByDial (confOutboundBinding conf) (dialers (reset_core []))) as [[[[]|e] d]|]; [| |done].
  2: { injection H as <- <-. split; [by apply Hnone|done]. }
  stage H c1 E1; apply load_log_level_spec in E1; [|injection H as <- <-; subst c1; split; [by apply Hnone|done]].
  subst c1. stage H c2 E2; (apply load_pools_spec in E2 as (pools & running & E2 & Hin & Hok); [|done|done]).
  2: { injection H as <- <-. subst c2. split; [exact Hin|done]. }
  destruct (Hok eq_refl) as [Hpools Hrun]. clear Hok.
  apply bind_Some in H as ([] & c3 & E3 & H). apply bind_Some in H as ([] & c4 & E4 & H).
  assert (c4 = with_ttl (λ t, mkTTLGlobals (ttlCache t) (ttlCacheTTL t) (confTTLSingleflight conf) (calcTTL t))
    (with_dns (λ d, mkDNSGlobals (dnsAddr d) (dnsClient d) (httpCli d) (dnsExchange d) (dnsCache d) (dnsCacheTTL d)
      (confDNSSingleflight conf) (dohConnPolicy d)) c2)) as E.
  { subst c2. destruct (confDNSSingleflight conf); injection E3 as <-;
      destruct (confTTLSingleflight conf); by injection E4 as <-. }
  clear E3 E4 c3. subst c2.
  subst c4. stage H c5 E5; (apply load_dns_cache_spec in E5; [|done|done]).
  2: { injection H as <- <-. subst c5. split; [exact Hin|done]. }
  subst c5. stage H c6 E6; (apply load_ttl_cache_spec in E6; [|done|done]).
  2: { injection H as <- <-. subst c6. split; [exact Hin|done]. }
  subst c6. stage H c7 E7; (apply load_ttl_rules_spec in E7; [|done]).
  2: { injection H as <- <-. subst c7. split; [exact Hin|done]. }
  destruct E7 as [n E7]. unfold bind at 1 2, set_defaultPolicy, set_tables, modify in H.
  set (c8 := with_tables _ _) in H.
  assert (monitors_ok c8) as Hm8 by (unfold c8; subst c7; exact Hin).
  stage H c9 E9; apply load_exchange_spec in E9 as [Hsame Hex].
  2: { injection H as <- <-. split; [|done]. apply same_but_pools_monitors in Hsame; done. }
  injection H as <- <-. split; [apply same_but_pools_monitors in Hsame; done|].
  do 2 (split; [done|]).
  destruct Hsame as (Hl & Hd & Ht & Hmon & _ & _ & Httl & Htab & Hmob & _).
  destruct Hex as (Ha & Hexch & Hc & Hct & Hsf).
  unfold installed. cbn in Hl, Hd, Ht, Hmon, Httl, Htab, Hmob. rewrite Hl, Hd, Ht, Hmon, Httl, Htab, Hmob, Ha, Hexch, Hc, Hct, Hsf.
  unfold c8. subst c7. cbn. by rewrite Hrun, Hpools.
Qed.

Lemma Stop_all c c' :
  monitors_ok c → StopIPPoolMonitors c = Some (tt, c') → monitored c' = [].
Proof.
  intros Hok. unfold StopIPPoolMonitors, bind, get. destruct (existsb _ _); [done|].
  intros H. injection H as <-. cbn. apply list.elem_of_nil_inv. intros tag.
  rewrite list_elem_of_difference. intros [Hin Hn]. by apply Hn, Hok.
Qed.
End load_facts.

(** The two ways a load of a decoded document ends. *)
Lemma LoadConfig_ends (sys : result (list sysIface)) (lines : list (option Z))
    (detectByDial : string → string → Z → result (option IP * string)) (GOOS : string)
    (probes : string → list Z * (Z → list (option Z))) (NewSharded : Z → option error)
    (proxy_SOCKS5 : string → option error) (is_transport : bool)
    (url_Parse : string → result (string * string))
    (find_domain : ∀ A, list (string * A) → string → option A)
    (find_ip : list (string * Policy) → string → option Policy) `{CR : CoreResolver}
    (conf : Config) (c c' : Core) r :
  monitors_ok c →
  LoadConfig sys lines detectByDial GOOS probes NewSharded proxy_SOCKS5 is_transport url_Parse find_domain find_ip
    (Ok conf) c = Some (r, c') →
  match r with
  | Fail _ => c' = reset_core []
  | Ok (socks, http) =>
      validateConfigBasics conf = None ∧ socks = confSocks5Addr conf ∧ http = confHttpAddr conf ∧
      installed conf c' ∧ monitors_ok c'
  end.
Proof.
  intros Hok ([] & c1 & E1 & H)%bind_Some. apply Stop_all in E1; [|done].
  apply bind_Some in H as ([] & c2 & E2 & H). injection E2 as <-. rewrite E1 in H.
  apply bind_Some in H as (r3 & c3 & E3 & H). apply (install_spec sys lines detectByDial GOOS probes NewSharded proxy_SOCKS5 is_transport url_Parse
    find_domain find_ip (CR:=CR)) in E3 as [Hm Hi].
  destruct r3 as [a|e3].
  - injection H as <- <-. destruct Hi as (Hv & -> & Hinst). done.
  - apply bind_Some in H as ([] & c4 & E4 & H). apply Stop_all in E4; [|done].
    apply bind_Some in H as ([] & c5 & E5 & H). injection E5 as <-. rewrite E4 in H. by injection H as <- <-.
Qed.

Lemma reset_monitors_ok : monitors_ok (reset_core []).
Proof. intros tag. cbn. by rewrite elem_of_nil. Qed.

(** Every monitored pool stays one of the pools, whatever becomes of a load. *)
Lemma LoadConfig_monitors (sys : result (list sysIface)) (lines : list (option Z))
    (detectByDial : string → string → Z → result (option IP * string)) (GOOS : string)
    (probes : string → list Z * (Z → list (option Z))) (NewSharded : Z → option error)
    (proxy_SOCKS5 : string → option error) (is_transport : bool)
    (url_Parse : string → result (string * string))
    (find_domain : ∀ A, list (string * A) → string → option A)
    (find_ip : list (string * Policy) → string → option Policy) `{CR : CoreResolver}
    (conf : result Config) (c c' : Core) r :
  monitors_ok c → LoadConfig sys lines detectByDial GOOS probes NewSharded proxy_SOCKS5 is_transport url_Parse find_domain find_ip
    conf c = Some (r, c') → monitors_ok c'.
Proof.
  intros Hok. destruct conf as [conf|e0]; [|intros H; by injection H as _ <-].
  intros H%LoadConfig_ends; [|apply _|done]. destruct r as [[socks http]|e]; [by apply H|].
  subst c'. apply reset_monitors_ok.
Qed.

(** C22: loading is all or nothing.  A document that cannot be read or decoded
    leaves the running configuration as it is; one that is refused later, at any
    stage, leaves the initial state: no rules, pools, caches or bindings of the old
    or the new configuration, and no pool monitor running. *)
Theorem LoadConfig_all_or_nothing (sys : result (list sysIface)) (lines : list (option Z))
    (detectByDial : string → string → Z → result (option IP * string)) (GOOS : string)
    (probes : string → list Z * (Z → list (option Z))) (NewSharded : Z → option error)
    (proxy_SOCKS5 : string → option error) (is_transport : bool)
    (url_Parse : string → result (string * string))
    (find_domain : ∀ A, list (string * A) → string → option A)
    (find_ip : list (string * Policy) → string → option Policy) `{CR : CoreResolver}
    (conf : result Config) (c c' : Core) (e : error) :
  monitors_ok c →
  LoadConfig sys lines detectByDial GOOS probes NewSharded proxy_SOCKS5 is_transport url_Parse find_domain find_ip
    conf c = Some (Fail e, c') →
  match conf with Fail _ => c' = c | Ok _ => c' = reset_core [] end.
Proof.
  intros Hok. destruct conf as [conf|e0]; [|intros H; by injection H as _ <-].
  by intros H%LoadConfig_ends.
Qed.

(** A configuration that loads has passed the validation and is what the
    program runs with, whatever was loaded before: the normalized default policy,
    tables with one entry per pattern the keys expand to (addresses with a colon in
    the IPv6 table), the cache sizes and lifetimes, the TTL rules, DNS over HTTPS
    exactly for an "https://" address, and one monitor per pool; the answers given
    out for the old one are forgotten. *)
Theorem LoadConfig_installs (sys : result (list sysIface)) (lines : list (option Z))
    (detectByDial : string → string → Z → result (option IP * string)) (GOOS : string)
    (probes : string → list Z * (Z → list (option Z))) (NewSharded : Z → option error)
    (proxy_SOCKS5 : string → option error) (is_transport : bool)
    (url_Parse : string → result (string * string))
    (find_domain : ∀ A, list (string * A) → string → option A)
    (find_ip : list (string * Policy) → string → option Policy) `{CR : CoreResolver}
    (conf : Config) (c c' : Core) (socks http : string) :
  monitors_ok c →
  LoadConfig sys lines detectByDial GOOS probes NewSharded proxy_SOCKS5 is_transport url_Parse find_domain find_ip
    (Ok conf) c = Some (Ok (socks, http), c') →
  validateConfigBasics conf = None ∧ socks = confSocks5Addr conf ∧ http = confHttpAddr conf ∧
  installed conf c' ∧ monitors_ok c'.
Proof. intros Hok H. by apply LoadConfig_ends in H. Qed.

(** ** Witnesses *)

#[local] Instance sample_resolver : Resolver Core := core_resolver (λ _ _, throw (ErrNew "no network")).
#[local] Instance sample_core_resolver : CoreResolver := core_resolver_frame _.

Definition sample_conf (dns : string) : Config :=
  mkConfig "info" 0 "127.0.0.1:1080" "none" BindingOption_zero dns 0 "" "20=3;5-1" true 60 100 false 0 0 []
    [("(a|b).example;c.example", "10.0.0.1")] Policy_zero [] [("10.0.0.0/8;2001:db8::/32", Policy_zero)].

(** [LoadConfig] with a system that has nothing to say. *)
#[local] Abbreviation sample_load conf :=
  (LoadConfig (Ok []) [] (λ _ _ _, Fail EOF) "android" (λ _, ([], λ _, [])) (λ _, None) (λ _, None) true
    (λ _, Fail (ErrNew "parse")) (λ _ _ _, None) (λ _ _, None) conf).

Lemma sample_ok (conf : result Config) (c : Core) r :
  fst <$> sample_load conf c = Some r → ∃ c', sample_load conf c = Some (r, c').
Proof. destruct (sample_load conf c) as [[r' c']|]; [|done]. intros H. injection H as ->. by exists c'. Qed.

Lemma debug_monitors_ok : monitors_ok (with_logLevel DEBUG (reset_core [])).
Proof. intros tag. cbn. by rewrite elem_of_nil. Qed.

Lemma sample_loads : ∃ c', sample_load (Ok (sample_conf "8.8.8.8:53")) (reset_core []) =
  Some (Ok ("127.0.0.1:1080", "none"), c').
Proof. apply sample_ok. vm_compute. reflexivity. Qed.

Lemma sample_tables :
  hostsMatcher (tables_of (sample_conf "8.8.8.8:53")) =
    [("a.example", "10.0.0.1"); ("b.example", "10.0.0.1"); ("c.example", "10.0.0.1")].
Proof. vm_compute. reflexivity. Qed.

Lemma LoadConfig_installs_witness :
  ∃ c', sample_load (Ok (sample_conf "8.8.8.8:53")) (reset_core []) = Some (Ok ("127.0.0.1:1080", "none"), c') ∧
    installed (sample_conf "8.8.8.8:53") c'.
Proof.
  destruct sample_loads as [c' E]. exists c'. split; [exact E|].
  exact (proj1 (proj2 (proj2 (proj2
    (LoadConfig_installs _ _ _ _ _ _ _ _ _ _ _ _ _ _ _ _ reset_monitors_ok E))))).
Defined.

(** A running configuration, and a new one whose resolver does not parse. *)
Lemma sample_refused : ∃ c', sample_load (Ok (sample_conf "https://dns.example/q")) (with_logLevel DEBUG (reset_core [])) =
  Some (Fail (ErrOp "invalid DoH URL" (ErrNew "parse")), c').
Proof. apply sample_ok. vm_compute. reflexivity. Qed.

Lemma LoadConfig_all_or_nothing_witness :
  ∃ c', sample_load (Ok (sample_conf "https://dns.example/q")) (with_logLevel DEBUG (reset_core [])) =
    Some (Fail (ErrOp "invalid DoH URL" (ErrNew "parse")), c') ∧ c' = reset_core [].
Proof.
  destruct sample_refused as [c' E]. exists c'. split; [exact E|].
  exact (LoadConfig_all_or_nothing _ _ _ _ _ _ _ _ _ _ _ (Ok _) _ _ _ debug_monitors_ok E).
Defined.

(** A pool that is [null] passes the validation and brings the program down. *)
Definition null_pool_conf : Config :=
  mkConfig "" 0 "" "" BindingOption_zero "" 0 "" "" false 0 0 false 0 0 [("p", None)] [] Policy_zero [] [].

Example null_pool_panics :
  validateConfigBasics null_pool_conf = None ∧ sample_load (Ok null_pool_conf) (reset_core []) = None.
Proof. split; vm_compute; reflexivity. Qed.
