(* ===== verification/PacketQueue.v ===== *)
(** The packet connection of a UDP flow of the VPN ([mobile/queued_packet_conn.go]):
    a goroutine pumps the packets of the base connection into a channel of 32
    places, [EnqueuePacket] adds the answers of the local DNS server, [ReadFrom]
    takes packets out.  Every [select] is the list of its ready cases, and any of
    them may be taken; the pump and the pending calls of any number of goroutines
    are a step relation.  The theorems: packets come out in the order they went in,
    each once, and after [Close] every pending call returns. *)

From S2P Require Import Prelude.

(** [make(chan queuedPacket, 32)] and [make([]byte, 64*1024)]. *)
Definition queue_capacity : Z := 32.
Definition pump_buffer : Z := 64 * 1024.

Section queue.
Context {A : Type}.   (* [net.Addr] *)

Record queuedPacket := mkQueued { payload : bytes; addr : A }.

(** What a call returns. *)
Inductive outcome :=
| Received (data : bytes) (from : A)
| Failed (e : error)
| Done.

(** Where a call that has not returned is. *)
Inductive pending :=
| Reading (size : Z) (deadline : option Z)   (* [ReadFrom] in its [select], with its timer *)
| Sending (p : queuedPacket)                 (* [EnqueuePacket] in its [select] *)
| Closing.                                   (* [Close] before [base.Close()] *)

Inductive pump :=
| Pumping                                    (* in [base.ReadFrom] *)
| Pushing (p : queuedPacket)                 (* in the [select] of the send *)
| Stopped.

(** [accepted] and [results] are the history of the channel and of the calls. *)
Record queuedPacketConn := mkPC {
  packets : list queuedPacket;
  closed : bool;
  readDeadline : option Z;
  pumpAt : pump;
  baseClosed : bool;
  clock : Z;
  calls : gmap nat pending;
  accepted : list queuedPacket;
  results : list (nat * outcome)
}.

Definition newQueuedPacketConn (now : Z) : queuedPacketConn := mkPC [] false None Pumping false now ∅ [] [].

Definition with_pump (p : pump) (s : queuedPacketConn) : queuedPacketConn :=
  mkPC (packets s) (closed s) (readDeadline s) p (baseClosed s) (clock s) (calls s) (accepted s) (results s).
Definition starts (i : nat) (c : pending) (s : queuedPacketConn) : queuedPacketConn :=
  mkPC (packets s) (closed s) (readDeadline s) (pumpAt s) (baseClosed s) (clock s) (<[i := c]> (calls s))
    (accepted s) (results s).
Definition returns (i : nat) (o : outcome) (s : queuedPacketConn) : queuedPacketConn :=
  mkPC (packets s) (closed s) (readDeadline s) (pumpAt s) (baseClosed s) (clock s) (delete i (calls s))
    (accepted s) (results s ++ [(i, o)]).

(** *** The operations of the channels *)

(** [pc.packets <- packet] is ready while there is room. *)
Definition send (p : queuedPacket) (s : queuedPacketConn) : list queuedPacketConn :=
  if decide (len (packets s) < queue_capacity) then
    [mkPC (packets s ++ [p]) (closed s) (readDeadline s) (pumpAt s) (baseClosed s) (clock s) (calls s)
       (accepted s ++ [p]) (results s)]
  else [].

(** [packet := <-pc.packets]. *)
Definition receive (s : queuedPacketConn) : list (queuedPacket * queuedPacketConn) :=
  match packets s with
  | p :: rest =>
      [(p, mkPC rest (closed s) (readDeadline s) (pumpAt s) (baseClosed s) (clock s) (calls s) (accepted s) (results s))]
  | [] => []
  end.

(** [<-pc.closed]. *)
Definition is_closed (s : queuedPacketConn) : list queuedPacketConn := if closed s then [s] else [].

(** [<-deadline]; a nil channel is never ready. *)
Definition expired (deadline : option Z) (s : queuedPacketConn) : list queuedPacketConn :=
  match deadline with Some d => if decide (d ≤ clock s) then [s] else [] | None => [] end.

(** *** The selects *)

Definition pump_select (p : queuedPacket) (s : queuedPacketConn) : list queuedPacketConn :=
  (with_pump Pumping <$> send p s) ++ (with_pump Stopped <$> is_closed s).

Definition EnqueuePacket_select (i : nat) (p : queuedPacket) (s : queuedPacketConn) : list queuedPacketConn :=
  (returns i Done <$> send p s) ++ (returns i (Failed ErrClosed) <$> is_closed s).

Definition ReadFrom_select (i : nat) (size : Z) (deadline : option Z) (s : queuedPacketConn)
    : list queuedPacketConn :=
  ((λ ps, returns i (Received (take (Z.to_nat size) (payload ps.1)) (addr ps.1)) ps.2) <$> receive s) ++
  (returns i (Failed ErrTimeout) <$> expired deadline s) ++
  (returns i (Failed ErrClosed) <$> is_closed s).

(** *** The calls up to their select *)

(** A deadline that has passed is found before the [select]. *)
Definition ReadFrom (i : nat) (size : Z) (s : queuedPacketConn) : queuedPacketConn :=
  match readDeadline s with
  | Some t => if decide (t - clock s ≤ 0) then returns i (Failed ErrTimeout) s else starts i (Reading size (Some t)) s
  | None => starts i (Reading size None) s
  end.

(** [append([]byte(nil), payload...)]: the packet is a copy. *)
Definition EnqueuePacket (i : nat) (data : bytes) (a : A) (s : queuedPacketConn) : queuedPacketConn :=
  starts i (Sending (mkQueued data a)) s.

Definition Close (i : nat) (s : queuedPacketConn) : queuedPacketConn :=
  starts i Closing
    (mkPC (packets s) true (readDeadline s) (pumpAt s) (baseClosed s) (clock s) (calls s) (accepted s) (results s)).

Definition base_Close (s : queuedPacketConn) : queuedPacketConn :=
  mkPC (packets s) (closed s) (readDeadline s) (pumpAt s) true (clock s) (calls s) (accepted s) (results s).

Definition SetReadDeadline (t : option Z) (s : queuedPacketConn) : queuedPacketConn :=
  mkPC (packets s) (closed s) t (pumpAt s) (baseClosed s) (clock s) (calls s) (accepted s) (results s).

Definition tick (d : Z) (s : queuedPacketConn) : queuedPacketConn :=
  mkPC (packets s) (closed s) (readDeadline s) (pumpAt s) (baseClosed s) (clock s + d) (calls s) (accepted s) (results s).

(** *** Steps

    What the goroutines that are already running do.  The base connection
    delivers packets until it fails or is closed. *)
Inductive runs : queuedPacketConn → queuedPacketConn → Prop :=
| pump_reads data a s :
    pumpAt s = Pumping → baseClosed s = false → len data ≤ pump_buffer →
    runs s (with_pump (Pushing (mkQueued data a)) s)
| pump_fails s : pumpAt s = Pumping → runs s (with_pump Stopped s)
| pump_sends p s s' : pumpAt s = Pushing p → s' ∈ pump_select p s → runs s s'
| enqueue_selects i p s s' : calls s !! i = Some (Sending p) → s' ∈ EnqueuePacket_select i p s → runs s s'
| read_selects i size d s s' : calls s !! i = Some (Reading size d) → s' ∈ ReadFrom_select i size d s → runs s s'
| close_base i s : calls s !! i = Some Closing → runs s (returns i Done (base_Close s)).

(** A step of the program or of its clients, who make new calls. *)
Inductive step : queuedPacketConn → queuedPacketConn → Prop :=
| step_runs s s' : runs s s' → step s s'
| step_ReadFrom i size s : calls s !! i = None → step s (ReadFrom i size s)
| step_EnqueuePacket i data a s : calls s !! i = None → step s (EnqueuePacket i data a s)
| step_Close i s : calls s !! i = None → step s (Close i s)
| step_SetReadDeadline t s : step s (SetReadDeadline t s)
| step_tick d s : 0 ≤ d → step s (tick d s).

Definition reachable (s : queuedPacketConn) : Prop := ∃ now, rtc step (newQueuedPacketConn now) s.

(** ** Order and bounds *)

(** The packets the calls have returned, in order. *)
Fixpoint received (l : list (nat * outcome)) : list (bytes * A) :=
  match l with
  | [] => []
  | (_, Received data a) :: l => (data, a) :: received l
  | _ :: l => received l
  end.

(** A reader sees as much of a packet as its buffer takes. *)
Definition shows (r : bytes * A) (p : queuedPacket) : Prop := r.1 `prefix_of` payload p ∧ r.2 = addr p.

Definition queue_inv (s : queuedPacketConn) : Prop :=
  len (packets s) ≤ queue_capacity ∧
  (baseClosed s = true → closed s = true) ∧
  (∀ i, calls s !! i = Some Closing → closed s = true) ∧
  ∃ out, accepted s = out ++ packets s ∧ Forall2 shows (received (results s)) out.

Lemma received_app l l' : received (l ++ l') = received l ++ received l'.
Proof. induction l as [|[i []] l IH]; cbn [received app]; by rewrite ?IH. Qed.

(** A call that returns nothing it has taken from the channel. *)
Lemma returns_inv i o s :
  (∀ data a, o ≠ Received data a) → queue_inv s → queue_inv (returns i o s).
Proof.
  intros Ho (Hc & Hb & Hcl & out & Ha & Hf). split; [done|]. split; [done|]. split.
  - intros j Hj. cbn [calls returns] in Hj. apply lookup_delete_Some in Hj as [_ Hj]. by eapply Hcl.
  - exists out. split; [done|]. cbn [results returns]. rewrite received_app. destruct o; cbn [received].
    + by destruct (Ho data from).
    + by rewrite app_nil_r.
    + by rewrite app_nil_r.
Qed.

Lemma pump_inv p s : queue_inv s → queue_inv (with_pump p s).
Proof. done. Qed.

Lemma starts_inv i c s : (c = Closing → closed s = true) → queue_inv s → queue_inv (starts i c s).
Proof.
  intros Hcc (Hc & Hb & Hcl & Hout). split; [done|]. split; [done|]. split; [|done].
  intros j Hj. cbn [calls starts] in Hj.
  apply lookup_insert_Some in Hj as [[_ Hj]|[_ Hj]]; [by apply Hcc|by eapply Hcl].
Qed.

Lemma send_inv p s s' : s' ∈ send p s → queue_inv s → queue_inv s'.
Proof.
  unfold send. case_decide; [|by intros ?%elem_of_nil]. intros ->%list_elem_of_singleton (Hc & Hb & Hcl & out & Ha & Hf).
  unfold queue_inv. cbn [packets baseClosed closed calls accepted results]. split; [len_lia|].
  split; [done|]. split; [done|]. exists out. by rewrite Ha, app_assoc.
Qed.

Lemma receive_inv i size p s s' :
  (p, s') ∈ receive s → queue_inv s →
  queue_inv (returns i (Received (take size (payload p)) (addr p)) s').
Proof.
  unfold receive. destruct (packets s) as [|q rest] eqn:E; [by intros ?%elem_of_nil|].
  intros H%list_elem_of_singleton (Hc & Hb & Hcl & out & Ha & Hf). injection H as -> ->.
  rewrite E in *. unfold queue_inv. cbn [packets baseClosed closed calls accepted results returns].
  split; [len_lia|]. split; [done|].
  split; [intros j Hj; apply lookup_delete_Some in Hj as [_ Hj]; by eapply Hcl|].
  exists (out ++ [q]). rewrite Ha, <-app_assoc, received_app. split; [done|].
  apply Forall2_app; [done|]. repeat constructor. apply prefix_take.
Qed.

Lemma is_closed_same s s' : s' ∈ is_closed s → s' = s.
Proof. unfold is_closed. destruct (closed s); [by intros ->%list_elem_of_singleton|by intros ?%elem_of_nil]. Qed.
Lemma expired_same d s s' : s' ∈ expired d s → s' = s.
Proof.
  unfold expired. destruct d; [|by intros ?%elem_of_nil].
  case_decide; [by intros ->%list_elem_of_singleton|by intros ?%elem_of_nil].
Qed.

Lemma runs_inv s s' : runs s s' → queue_inv s → queue_inv s'.
Proof.
  intros [data a s0 Hp Hb Hl|s0 Hp|p s0 s1 Hp Hs|i p s0 s1 Hi Hs|i size d s0 s1 Hi Hs|i s0 Hi] Hinv.
  - by apply pump_inv.
  - by apply pump_inv.
  - apply elem_of_app in Hs as [(s2 & -> & Hs)%list_elem_of_fmap|(s2 & -> & Hs)%list_elem_of_fmap];
      apply pump_inv; [by eapply send_inv|by apply is_closed_same in Hs as ->].
  - apply elem_of_app in Hs as [(s2 & -> & Hs)%list_elem_of_fmap|(s2 & -> & Hs)%list_elem_of_fmap];
      apply returns_inv; try done; [by eapply send_inv|by apply is_closed_same in Hs as ->].
  - unfold ReadFrom_select in Hs. rewrite !elem_of_app, !list_elem_of_fmap in Hs.
    destruct Hs as [([p s2] & -> & Hs)|[(s2 & -> & ->%expired_same)|(s2 & -> & ->%is_closed_same)]].
    + by eapply receive_inv.
    + by apply returns_inv.
    + by apply returns_inv.
  - apply returns_inv; [done|]. destruct Hinv as (Hc & Hb & Hcl & Hout).
    split; [done|]. split; [intros _; by eapply Hcl|]. by split.
Qed.

Lemma step_inv s s' : step s s' → queue_inv s → queue_inv s'.
Proof.
  intros [s0 s1 Hr|i size s0 _|i data a s0 _|i s0 _|t s0|d s0 _] Hinv.
  - by eapply runs_inv.
  - unfold ReadFrom. destruct (readDeadline s0); [case_decide|];
      first [by apply returns_inv|by apply starts_inv].
  - by apply starts_inv.
  - apply starts_inv; [done|]. destruct Hinv as (Hc & Hb & Hcl & Hout). by repeat split.
  - exact Hinv.
  - exact Hinv.
Qed.

Lemma queue_reachable s : reachable s → queue_inv s.
Proof.
  intros [now H]. assert (queue_inv (newQueuedPacketConn now)) as H0.
  { split; [done|]. split; [done|]. split; [intros i Hi; cbn in Hi; by rewrite lookup_empty in Hi|]. by exists []. }
  revert H H0. induction 1 as [|s1 s2 s3 Hs _ IH]; [done|]. intros H0. by eapply IH, step_inv.
Qed.

(** ** What is left to do *)

Definition pump_left (p : pump) : Z := match p with Pumping => 2 | Pushing _ => 1 | Stopped => 0 end.
Definition room (s : queuedPacketConn) : Z := queue_capacity - len (packets s).
Definition work (s : queuedPacketConn) : Z :=
  3 * Z.of_nat (size (calls s)) + pump_left (pumpAt s) + 2 * room s.

Lemma returns_work i c o s s1 :
  calls s !! i = Some c → calls s1 = calls s → pumpAt s1 = pumpAt s → room s1 ≤ room s + 1 →
  work (returns i o s1) < work s.
Proof.
  intros Hi Hc Hp Hr. unfold work, room, pump_left in *. cbn [calls pumpAt packets returns]. rewrite Hc, Hp.
  assert (size (calls s) ≠ 0)%nat by (intros H0%map_size_empty_iff; by rewrite H0, lookup_empty in Hi).
  rewrite map_size_delete_Some by eauto. lia.
Qed.

Lemma send_facts p s s' :
  s' ∈ send p s → calls s' = calls s ∧ pumpAt s' = pumpAt s ∧ room s' = room s - 1.
Proof.
  unfold send. case_decide; [|by intros ?%elem_of_nil]. intros ->%list_elem_of_singleton.
  split; [done|]. split; [done|]. unfold room. cbn [packets]. rewrite len_app, len_cons, len_nil. lia.
Qed.

Lemma receive_facts p s s' :
  (p, s') ∈ receive s → calls s' = calls s ∧ pumpAt s' = pumpAt s ∧ room s' = room s + 1.
Proof.
  unfold receive, room. destruct (packets s); [by intros ?%elem_of_nil|].
  intros H%list_elem_of_singleton. injection H as -> ->. cbn [packets calls pumpAt].
  split; [done|]. split; [done|]. rewrite len_cons. lia.
Qed.

Lemma runs_works s s' : runs s s' → work s' < work s.
Proof.
  intros [data a s0 Hp Hb Hl|s0 Hp|p s0 s1 Hp Hs|i p s0 s1 Hi Hs|i size d s0 s1 Hi Hs|i s0 Hi].
  - unfold work. cbn [pumpAt with_pump calls packets room pump_left]. rewrite Hp. cbn. unfold room; cbn. lia.
  - unfold work. cbn [pumpAt with_pump calls packets room pump_left]. rewrite Hp. cbn. unfold room; cbn. lia.
  - apply elem_of_app in Hs as [(s2 & -> & (H1 & H2 & H3)%send_facts)%list_elem_of_fmap|
      (s2 & -> & ->%is_closed_same)%list_elem_of_fmap]; unfold work, room in *; cbn [calls pumpAt packets with_pump];
      rewrite Hp; cbn [pump_left]; [rewrite H1|]; lia.
  - apply elem_of_app in Hs as [(s2 & -> & (H1 & H2 & H3)%send_facts)%list_elem_of_fmap|
      (s2 & -> & ->%is_closed_same)%list_elem_of_fmap]; eapply returns_work; eauto; lia.
  - unfold ReadFrom_select in Hs. rewrite !elem_of_app, !list_elem_of_fmap in Hs.
    destruct Hs as [([p s2] & -> & (H1 & H2 & H3)%receive_facts)|[(s2 & -> & ->%expired_same)|(s2 & -> & ->%is_closed_same)]];
      eapply returns_work; eauto; cbn [fst snd]; lia.
  - eapply returns_work; eauto. unfold room. cbn. lia.
Qed.

Lemma runs_bound n s s' : nsteps runs n s s' → Z.of_nat n + work s' ≤ work s.
Proof. induction 1 as [|n s s1 s2 Hs _ IH]; [lia|]. apply runs_works in Hs. lia. Qed.

(** Once closed, nobody is stuck. *)
Lemma closed_runs s : closed s = true → calls s ≠ ∅ ∨ pumpAt s ≠ Stopped → ∃ s', runs s s'.
Proof.
  intros Hc. assert (s ∈ is_closed s) as Hin by (unfold is_closed; rewrite Hc; by apply list_elem_of_singleton).
  intros [(i & c & Hi)%map_choose|Hp].
  - destruct c as [size d|p|]; eexists.
    + eapply read_selects; [exact Hi|]. unfold ReadFrom_select. rewrite !elem_of_app, !list_elem_of_fmap. eauto.
    + eapply enqueue_selects; [exact Hi|]. apply elem_of_app. right. apply list_elem_of_fmap. eauto.
    + by eapply close_base.
  - destruct (pumpAt s) as [|p|] eqn:E; [| |done]; eexists.
    + by eapply pump_fails.
    + eapply pump_sends; [exact E|]. apply elem_of_app. right. apply list_elem_of_fmap. eauto.
Qed.

Lemma runs_closed s s' : runs s s' → closed s' = closed s.
Proof.
  assert (∀ p s s', s' ∈ send p s → closed s' = closed s) as Hsend.
  { intros p s0 s1. unfold send. case_decide; [|by intros ?%elem_of_nil]. by intros ->%list_elem_of_singleton. }
  intros [data a s0 Hp Hb Hl|s0 Hp|p s0 s1 Hp Hs|i p s0 s1 Hi Hs|i size d s0 s1 Hi Hs|i s0 Hi]; try done.
  - apply elem_of_app in Hs as [(s2 & -> & Hs)%list_elem_of_fmap|(s2 & -> & ->%is_closed_same)%list_elem_of_fmap];
      [|done]. exact (Hsend _ _ _ Hs).
  - apply elem_of_app in Hs as [(s2 & -> & Hs)%list_elem_of_fmap|(s2 & -> & ->%is_closed_same)%list_elem_of_fmap];
      [|done]. exact (Hsend _ _ _ Hs).
  - unfold ReadFrom_select in Hs. rewrite !elem_of_app, !list_elem_of_fmap in Hs.
    destruct Hs as [([p s2] & -> & Hs)|[(s2 & -> & ->%expired_same)|(s2 & -> & ->%is_closed_same)]]; try done.
    unfold receive in Hs. destruct (packets s0); [by apply elem_of_nil in Hs|].
    apply list_elem_of_singleton in Hs. by injection Hs as -> ->.
Qed.

(** A call is pending until it has a result. *)
Definition answered (i : nat) (s : queuedPacketConn) : Prop := is_Some (calls s !! i) ∨ ∃ o, (i, o) ∈ results s.

Lemma returns_answered i j o s s1 :
  calls s1 = calls s → results s1 = results s → answered i s → answered i (returns j o s1).
Proof.
  intros Hc Hr [H|[o' H]]; unfold answered; cbn [calls results returns]; rewrite Hc, Hr.
  - destruct (decide (i = j)) as [->|].
    + right. exists o. apply elem_of_app. right. by left.
    + left. by rewrite lookup_delete_ne.
  - right. exists o'. apply elem_of_app. by left.
Qed.

Lemma runs_answered i s s' : runs s s' → answered i s → answered i s'.
Proof.
  assert (∀ p s s', s' ∈ send p s → calls s' = calls s ∧ results s' = results s) as Hsend.
  { intros p s0 s1. unfold send. case_decide; [|by intros ?%elem_of_nil]. by intros ->%list_elem_of_singleton. }
  intros [data a s0 Hp Hb Hl|s0 Hp|p s0 s1 Hp Hs|j p s0 s1 Hi Hs|j size d s0 s1 Hi Hs|j s0 Hi] Ha; try done.
  - apply elem_of_app in Hs as [(s2 & -> & [H1 H2]%Hsend)%list_elem_of_fmap|(s2 & -> & ->%is_closed_same)%list_elem_of_fmap];
      [|done]. unfold answered in *. cbn [calls results with_pump]. by rewrite H1, H2.
  - apply elem_of_app in Hs as [(s2 & -> & [H1 H2]%Hsend)%list_elem_of_fmap|(s2 & -> & ->%is_closed_same)%list_elem_of_fmap];
      by eapply returns_answered.
  - unfold ReadFrom_select in Hs. rewrite !elem_of_app, !list_elem_of_fmap in Hs.
    destruct Hs as [([p s2] & -> & Hs)|[(s2 & -> & ->%expired_same)|(s2 & -> & ->%is_closed_same)]];
      [|by eapply returns_answered..].
    unfold receive in Hs. destruct (packets s0); [by apply elem_of_nil in Hs|].
    apply list_elem_of_singleton in Hs. injection Hs as -> ->. by eapply returns_answered.
  - by eapply returns_answered.
Qed.
(** ** The theorems *)

(** C26: whatever the pump, the readers, the senders and the closers do in whatever
    order, the channel is a queue of at most 32 packets that loses, repeats and
    reorders nothing: what went in is what the calls of [ReadFrom] have returned, in
    that order, followed by what is still queued.  A reader gets the source address
    of its packet and as much of the payload as its buffer holds. *)
Theorem queue_fifo (s : queuedPacketConn) :
  reachable s →
  len (packets s) ≤ 32 ∧ ∃ out, accepted s = out ++ packets s ∧ Forall2 shows (received (results s)) out.
Proof. intros (Hc & _ & _ & Hout)%queue_reachable. done. Qed.

End queue.

(** ** Witnesses

    An answer is enqueued and read; then, while another read waits, the
    connection is closed. *)

Definition flow0 : queuedPacketConn (A:=string) := newQueuedPacketConn 0.
Definition answer : queuedPacket (A:=string) := mkQueued [Byte.x01; Byte.x02; Byte.x03] "10.0.0.1:53".
Definition flow1 := EnqueuePacket 0 (payload answer) (addr answer) flow0.
Definition flow2 := match EnqueuePacket_select 0 answer flow1 with s :: _ => s | [] => flow1 end.
Definition flow3 := ReadFrom 1 2 flow2.
Definition flow4 := match ReadFrom_select 1 2 None flow3 with s :: _ => s | [] => flow3 end.
Definition flow5 := ReadFrom 2 100 flow4.
Definition flow6 := Close 3 flow5.
Definition flow7 := with_pump Stopped flow6.
Definition flow8 := returns 3 Done (base_Close flow7).
Definition flow9 := match ReadFrom_select 2 100 None flow8 with s :: _ => s | [] => flow8 end.

Lemma flow_reachable : reachable flow6 ∧ reachable flow4.
Proof.
  assert (rtc step flow0 flow4) as H4.
  { eapply rtc_l; [by apply (step_EnqueuePacket 0 (payload answer) (addr answer))|].
    eapply rtc_l; [apply step_runs, (enqueue_selects 0 answer _ flow2); [done|by left]|].
    eapply rtc_l; [by apply (step_ReadFrom 1 2)|].
    eapply rtc_l; [apply step_runs, (read_selects 1 2 None _ flow4); [done|by left]|]. apply rtc_refl. }
  split; exists 0; [|exact H4]. transitivity flow4; [exact H4|].
  eapply rtc_l; [by apply (step_ReadFrom 2 100)|]. eapply rtc_l; [by apply (step_Close 3)|]. apply rtc_refl.
Qed.

Lemma flow_runs : nsteps runs 3 flow6 flow9.
Proof.
  eapply nsteps_l; [by apply (pump_fails flow6)|]. eapply nsteps_l; [by apply (close_base 3 flow7)|].
  eapply nsteps_l; [apply (read_selects 2 100 None flow8 flow9); [done|by left]|]. apply nsteps_O.
Qed.

Lemma flow_through s : ¬ runs flow9 s.
Proof.
  intros H. remember flow9 as f eqn:E. assert (calls f = ∅ ∧ pumpAt f = Stopped) as [Hc Hp] by by subst.
  destruct H; try congruence;
    match goal with H : calls _ !! _ = Some _ |- _ => by rewrite Hc, lookup_empty in H end.
Qed.

Lemma queue_fifo_witness :
  reachable flow4 ∧ received (results flow4) = [([Byte.x01; Byte.x02], "10.0.0.1:53")] ∧
  ∃ out, [answer] = out ++ [] ∧ Forall2 shows (received (results flow4)) out.
Proof.
  split; [exact (proj2 flow_reachable)|]. split; [reflexivity|].
  exact (proj2 (queue_fifo flow4 (proj2 flow_reachable))).
Defined.

