(* ===== verification/MobileDns.v ===== *)
(** The DNS service of the VPN at the level of packets: [HandleDNSQueryPacket]
    ([internal/dns_mobile.go]) around the handler of [DnsMobile], the local DNS
    server over TCP ([mobile/dns_tcp_conn.go]), the one-line summaries of messages
    and the recording of statistics of [mobile/lumine_proxy.go].

    The wire format is the package miekg/dns's: [Unpack] and [Pack] are
    parameters, and a message is known by its fields.  The theorem: the server
    answers the complete queries of the stream, in order, one answer each, and
    closes. *)

From Stdlib Require Import Strings.Ascii.
From S2P Require Import Prelude GoStd GoNet Policy Stats Conn TransformIP Routing Dns DnsMobile Session.

(** ** The state of the mobile package *)

Record App := mkApp { appStats : statsState; tcpDialID : Z; udpDialID : Z; blockQuic : bool }.

Class HasApp (G : Type) := {
  aget : G → App;
  aset : App → G → G;
  stamp : G → string                 (* [time.Now().Format("15:04:05")] *)
}.
Class HasAppLaws (G : Type) `{HasWorld G} `{HasMobile G} `{HasApp G} := {
  aget_aset a g : aget (aset a g) = a;
  aset_world a g : wget (aset a g) = wget g;
  aget_wset w g : aget (wset w g) = aget g;
  mset_world m g : wget (mset m g) = wget g;
  mnow_world g : ∃ t g', mnow g = Some (t, g') ∧ wget g' = wget g
}.

(** A recording of [mobile/stats.go]. *)
Definition onStats {G} `{HasApp G} (m : string → St statsState unit) : St G unit := λ g,
  match m (stamp g) (appStats (aget g)) with
  | Some (_, s) => Some (tt, aset (mkApp s (tcpDialID (aget g)) (udpDialID (aget g)) (blockQuic (aget g))) g)
  | None => None
  end.

(** ** Messages *)

(** The records a summary tells apart; of the others, the number of the type. *)
Inductive RR :=
| A (ip : option IP) | AAAA (ip : option IP) | CNAME (target : string) | HTTPS | SVCB | Other (rrtype : Z).

Record MsgView := mkView {
  msgId : Z;
  msgRcode : Z;
  msgQuestion : list (string * Z);
  msgAnswer : list RR
}.

Record Wire := mkWire {
  Msg : Type;
  Unpack : bytes → result Msg;
  Pack : Msg → result bytes;
  fields_of : Msg → MsgView;
  questions : Msg → list Question;
  (* [SetReply], [RecursionAvailable], the response code and the answers, packed *)
  PackReply : Msg → Reply → result bytes
}.

Section mobile_dns.
Context {G : Type} `{HasWorld G} `{HasMobile G} `{HasApp G} `{Resolver G}.
Context (rules : Rules) (wire : Wire).
Context (dnsExchange : Msg wire → St G (result (Msg wire))).
(** [dns.TypeToString] and [dns.RcodeToString]. *)
Context (TypeToString RcodeToString : Z → string).

Definition HandleDNSQueryPacket (payload : bytes) : St G (result bytes) :=
  match Unpack wire payload with
  | Fail e => throw e
  | Ok req =>
      let* handled := handleConfiguredMobileDNS rules (questions wire req) in
      match handled with
      | Some resp => ret (PackReply wire req resp)
      | None =>
          let*? resp := dnsExchange req in
          ret (Pack wire resp)
      end
  end.

(** ** Summaries *)

Fixpoint joinAnswerParts_loop (result : string) (parts : list string) : string :=
  match parts with
  | [] => result
  | p :: parts => joinAnswerParts_loop (result +:+ ", " +:+ p) parts
  end.
Definition joinAnswerParts (parts : list string) : string :=
  match parts with [] => "" | p :: parts => joinAnswerParts_loop p parts end.

Definition type_text (t : Z) : string :=
  let s := TypeToString t in if decide (s = "") then "TYPE" +:+ itoa t else s.

Definition answer_part (r : RR) : string :=
  match r with
  | A ip => "A=" +:+ ip_string ip
  | AAAA ip => "AAAA=" +:+ ip_string ip
  | CNAME target => "CNAME=" +:+ target
  | HTTPS => "HTTPS"
  | SVCB => "SVCB"
  | Other t => type_text t
  end.

Definition summarizeDNSAnswers (answers : list RR) : string :=
  if decide (len answers = 0) then "" else
  let limit := if decide (3 < len answers) then 3 else len answers in
  let parts := answer_part <$> take (Z.to_nat limit) answers in
  let summary := " [" +:+ joinAnswerParts parts +:+ "]" in
  if decide (limit < len answers) then summary +:+ " +" +:+ itoa (len answers - limit) else summary.

Definition summarizeDNSPacket (payload : bytes) : string :=
  match Unpack wire payload with
  | Fail err => "unpack_failed bytes=" +:+ itoa (len payload) +:+ " err=" +:+ error_Error err
  | Ok m =>
      let msg := fields_of wire m in
      let tail := " answers=" +:+ itoa (len (msgAnswer msg)) +:+ " rcode=" +:+ RcodeToString (msgRcode msg)
                    +:+ summarizeDNSAnswers (msgAnswer msg) in
      match msgQuestion msg with
      | [] => "id=" +:+ itoa (msgId msg) +:+ " questions=0" +:+ tail
      | (name, t) :: _ => "id=" +:+ itoa (msgId msg) +:+ " q=" +:+ name +:+ " type=" +:+ type_text t +:+ tail
      end
  end.

(** ** DNS over TCP *)

(** The frame of an answer; [uint16(len(resp))] wraps. *)
Definition dns_frame (resp : bytes) : bytes := put16 (len resp) ++ resp.

Fixpoint serve_loop (fuel : nat) (c : conn) : St G unit :=
  match fuel with
  | O => lift None
  | S fuel =>
      let* r := onW (readN c 2) in
      match r with
      | Fail _ => ret tt
      | Ok lengthBuf =>
          let* msgLen := lift (be16 lengthBuf) in
          if decide (msgLen ≤ 0) then ret tt else
          let* r := onW (readN c msgLen) in
          match r with
          | Fail _ => ret tt
          | Ok payload =>
              let* r := HandleDNSQueryPacket payload in
              match r with
              | Fail err => onStats (λ t, recordDNSStat t (summarizeDNSPacket payload) "failed" (error_Error err))
              | Ok resp =>
                  let* r := onW (write c (dns_frame resp)) in
                  match r with
                  | Fail _ => ret tt
                  | Ok _ =>
                      let* _ := onStats (λ t, recordDNSStat t (summarizeDNSPacket payload) "ok" (summarizeDNSPacket resp)) in
                      serve_loop fuel c
                  end
              end
          end
      end
  end.

(** What the client of the pipe still sends bounds the iterations. *)
Definition serveLocalDNSTCP (c : conn) : St G unit := λ g,
  (let* _ := serve_loop (S (length (default [] (inbox (wget g) !! cid c)))) c in
   onW (ignoring (EClose c))) g.

(** ** The stream of queries *)

(** The complete, non-empty messages at the front of a stream. *)
Fixpoint queries_fuel (fuel : nat) (data : bytes) : list bytes :=
  match fuel, data with
  | S fuel, a :: b :: data =>
      let n := bZ a * 256 + bZ b in
      if decide (n = 0 ∨ len data < n) then []
      else take (Z.to_nat n) data :: queries_fuel fuel (drop (Z.to_nat n) data)
  | _, _ => []
  end.
Definition queries (data : bytes) : list bytes := queries_fuel (S (length data)) data.

Lemma queries_fuel_enough n data : (length data < n)%nat → queries_fuel n data = queries data.
Proof.
  unfold queries. remember (S (length data)) as m eqn:Em. assert (length data < m)%nat as Hm by lia. clear Em.
  revert n data Hm. induction m as [|m IH]; intros n data Hm Hn; [lia|].
  destruct n as [|n]; [lia|]. destruct data as [|a [|b data]]; [done..|]. cbn [queries_fuel].
  cbn [length] in Hm, Hn. case_decide; [done|]. f_equal. apply IH; rewrite length_drop; lia.
Qed.

(** The queries of framed messages are the messages. *)
Lemma queries_frames (qs : list bytes) (rest : bytes) :
  Forall (λ q, 0 < len q < 65536) qs → len rest < 2 →
  queries (concat (dns_frame <$> qs) ++ rest) = qs.
Proof.
  intros Hqs Hrest. unfold queries. set (n := S _). assert (length (concat (dns_frame <$> qs) ++ rest) < n)%nat as Hn by lia.
  clearbody n. revert n Hn. induction Hqs as [|q qs Hq _ IH]; intros n Hn.
  - cbn [fmap list_fmap concat app]. destruct n, rest as [|a [|b rest]]; try done; len_lia.
  - destruct n as [|n]; [lia|]. cbn [fmap list_fmap concat] in *.
    assert (∃ a b, put16 (len q) = [a; b] ∧ bZ a * 256 + bZ b = len q) as (a & b & Hp & Hab).
    { pose proof (be16_put16 (len q) []) as Hbe. unfold put16 in *. rewrite app_nil_r, be16_cons in Hbe.
      injection Hbe as Hbe. eexists _, _. split; [done|]. rewrite Hbe. unfold u16. by rewrite Z.mod_small by lia. }
    unfold dns_frame at 1. unfold dns_frame at 1 in Hn. rewrite Hp in *. cbn [app queries_fuel] in *. rewrite Hab.
    assert (Z.to_nat (len q) = length q) as El by (unfold len; lia).
    rewrite <-!app_assoc in *. rewrite decide_False by len_lia. rewrite El, take_app_length, drop_app_length.
    f_equal. apply IH. cbn [length] in Hn. rewrite !length_app in *. lia.
Qed.
End mobile_dns.

(** ** What the server answers *)

Section service.
Context {G : Type} `{L : HasAppLaws G} `{WL : !HasWorldLaws G} `{R : !Resolver G} `{RL : !ResolverLaws G}.
Context (rules : Rules) (wire : Wire) (dnsExchange : Msg wire → St G (result (Msg wire))).
Context (TypeToString RcodeToString : Z → string).
Context (Hex : ∀ m, still (dnsExchange m)).

#[local] Abbreviation handle := (HandleDNSQueryPacket rules wire dnsExchange).
#[local] Abbreviation loop := (serve_loop rules wire dnsExchange TypeToString RcodeToString).

Lemma resolve_answer_still host t p : still (resolveMobileDNSAnswerIP host t p).
Proof.
  unfold resolveMobileDNSAnswerIP. destruct (ParseIP host); [apply ret_still|].
  destruct (match p with Some _ => _ | None => _ end); [apply ret_still|].
  apply bindE_still; [intros g; apply dnsResolve_frame|intros ?; apply ret_still].
Qed.

Lemma configured_still qs : still (handleConfiguredMobileDNS rules qs).
Proof.
  unfold handleConfiguredMobileDNS. destruct qs as [|q [|]]; try apply ret_still.
  case_decide; [apply ret_still|]. apply bind_still; [apply genPolicy_still|]. intros g.
  destruct (domainNotFound g); [apply ret_still|]. destruct (failed g); [apply ret_still|].
  destruct (blocked g || _); [apply ret_still|]. destruct (qType q); try apply ret_still.
  1,2: (apply bind_still; [apply resolve_answer_still|]; intros [[ip|]|]; try apply ret_still;
    apply bind_still; [intros s; apply mnow_world|]; intros now;
    apply bind_still; [|intros; apply ret_still]; intros s; eexists _, _; split; [done|apply mset_world]).
Qed.

Lemma handle_still payload : still (handle payload).
Proof.
  unfold HandleDNSQueryPacket. destruct (Unpack wire payload); [|apply ret_still].
  apply bind_still; [apply configured_still|]. intros [?|]; [apply ret_still|].
  apply bindE_still; [apply Hex|]. intros ?; apply ret_still.
Qed.

Lemma onStats_still (m : string → St statsState unit) :
  (∀ t s, ∃ s', m t s = Some (tt, s')) → still (onStats m).
Proof.
  intros Hm g. unfold onStats. destruct (Hm (stamp g) (appStats (aget g))) as [s' ->].
  eexists _, _. split; [done|]. apply aset_world.
Qed.

(** The handler gave this answer in some state. *)
Definition answers (q r : bytes) : Prop := ∃ g1 g2, handle q g1 = Some (Ok r, g2).

(** The round that answers [payload] and goes on with [next]. *)
Definition serve_answer (next : St G unit) (c : conn) (payload : bytes) : St G unit :=
  let* r := handle payload in
  match r with
  | Fail err => onStats (λ t, recordDNSStat t (summarizeDNSPacket wire TypeToString RcodeToString payload)
      "failed" (error_Error err))
  | Ok resp =>
      let* r := onW (write c (dns_frame resp)) in
      match r with
      | Fail _ => ret tt
      | Ok _ =>
          let* _ := onStats (λ t, recordDNSStat t (summarizeDNSPacket wire TypeToString RcodeToString payload)
            "ok" (summarizeDNSPacket wire TypeToString RcodeToString resp)) in
          next
      end
  end.

Lemma sent_wset w (g : G) : trace w = trace (wget g) → sent (wget (wset w g)) = sent (wget g).
Proof. intros E. rewrite wget_wset. unfold sent, events. by rewrite E. Qed.

(** A round reads the next message, or stops without a call. *)
Lemma serve_loop_reads c fuel g :
  let data := default [] (inbox (wget g) !! cid c) in
  (queries_fuel (S fuel) data = [] ∧
    ∃ g', loop (S fuel) c g = Some (tt, g') ∧ sent (wget g') = sent (wget g)) ∨
  ∃ payload more g', queries_fuel (S fuel) data = payload :: queries_fuel fuel more ∧
    (length more < length data)%nat ∧
    loop (S fuel) c g = serve_answer (loop fuel c) c payload g' ∧
    sent (wget g') = sent (wget g) ∧ verdicts (wget g') = verdicts (wget g) ∧
    default [] (inbox (wget g') !! cid c) = more.
Proof.
  set (data := default [] (inbox (wget g) !! cid c)) in *. cbn [serve_loop queries_fuel]. unfold bind at 1 7.
  destruct (decide (2 ≤ len data)) as [Hlen|Hlen].
  2: { left. destruct (readN_short c 2 (wget g)) as (e & w & E & Ht & _); [fold data; lia|].
    rewrite (onW_eq _ _ _ _ E). split; [destruct data as [|a [|b l]]; try done; len_lia|].
    eexists. split; [done|]. by apply sent_wset. }
  destruct (readN_take c 2 (wget g)) as (w1 & E1 & Ht1 & Hv1 & Hi1); [fold data; lia|]. fold data in E1, Hi1.
  rewrite (onW_eq _ _ _ _ E1). destruct data as [|a [|b rest]]; [len_lia..|].
  change (take (Z.to_nat 2) (a :: b :: rest)) with [a; b]. change (drop (Z.to_nat 2) (a :: b :: rest)) with rest in Hi1.
  unfold bind at 1 6, lift. rewrite be16_cons. cbv beta iota.
  set (n := bZ a * 256 + bZ b) in *. pose proof (bZ_range a) as Ha. pose proof (bZ_range b) as Hb.
  set (g1 := wset w1 g). assert (wget g1 = w1) as Hg1 by apply wget_wset.
  assert (sent (wget g1) = sent (wget g)) as Hs1 by (by apply sent_wset).
  destruct (decide (n ≤ 0)) as [Hn|Hn].
  { left. rewrite decide_True by lia. split; [done|]. by exists g1. }
  unfold bind at 1 5. destruct (decide (n = 0 ∨ len rest < n)) as [Hr|Hr].
  - left. split; [done|]. destruct (readN_short c n (wget g1)) as (e & w & E & Ht & _); [rewrite Hg1, Hi1; lia|].
    rewrite (onW_eq _ _ _ _ E). eexists. split; [done|]. rewrite <-Hs1. by apply sent_wset.
  - right. destruct (readN_take c n (wget g1)) as (w2 & E2 & Ht2 & Hv2 & Hi2); [rewrite Hg1, Hi1; lia|].
    rewrite (onW_eq _ _ _ _ E2), Hg1, Hi1. rewrite Hg1, Hi1 in Hi2. rewrite Hg1 in Hv2.
    eexists _, (drop (Z.to_nat n) rest), (wset w2 g1). split; [done|].
    split; [rewrite length_drop; cbn [length]; lia|]. split; [done|].
    split; [rewrite <-Hs1; by apply sent_wset|]. rewrite wget_wset. split; [congruence|done].
Qed.

(** Where the handler has an answer, a round writes it in its frame. *)
Lemma serve_answer_spec next c payload g :
  (∃ g', serve_answer next c payload g = Some (tt, g') ∧ sent (wget g') = sent (wget g) ∧
     ∃ s r s', handle payload s = Some (Fail r, s')) ∨
  ∃ resp g', answers payload resp ∧ sent (wget g') = sent (wget g) ++ [EWrite c (dns_frame resp)] ∧
    ((serve_answer next c payload g = Some (tt, g') ∧ verdicts (wget g) ≠ []) ∨
     (serve_answer next c payload g = next g' ∧ verdicts (wget g') = drop 1 (verdicts (wget g)) ∧
      inbox (wget g') = inbox (wget g))).
Proof.
  remember (serve_answer next c payload g) as out eqn:Eo. unfold serve_answer, bind at 1 in Eo.
  destruct (handle_still payload g) as (r & g3 & E3 & Hg3). rewrite E3 in Eo.
  destruct r as [resp|err].
  2: { left. destruct (onStats_still (λ t, recordDNSStat t (summarizeDNSPacket wire TypeToString RcodeToString payload)
         "failed" (error_Error err)) (λ t s, bump_event_total _ _ _ _) g3) as (u4 & g4 & E4 & Hg4).
    rewrite E4 in Eo. destruct u4. exists g4. split; [done|]. split; [congruence|]. by exists g, err, g3. }
  right. exists resp. unfold bind at 1, write, onW, call in Eo. cbv beta zeta in Eo. rewrite Hg3 in Eo.
  set (v := default None (head (verdicts (wget g)))) in *. set (w4 := mkWorld _ _ _ _ _ _ _) in *. set (g4 := wset w4 g3) in *.
  assert (wget g4 = w4) as Hg4 by apply wget_wset.
  assert (sent w4 = sent (wget g) ++ [EWrite c (dns_frame resp)]) as Hs4 by apply sent_snoc.
  assert (answers payload resp) as Hans by (by exists g, g3).
  destruct v as [e|] eqn:Hv.
  - exists g4. split; [done|]. split; [by rewrite Hg4|]. left. split; [done|]. intros Hnil. unfold v in Hv. by rewrite Hnil in Hv.
  - unfold bind at 1 in Eo.
    destruct (onStats_still (λ t, recordDNSStat t (summarizeDNSPacket wire TypeToString RcodeToString payload)
         "ok" (summarizeDNSPacket wire TypeToString RcodeToString resp)) (λ t s, bump_event_total _ _ _ _) g4)
      as (u5 & g5 & E5 & Hg5).
    rewrite E5 in Eo. destruct u5. exists g5. rewrite Hg5, Hg4. split; [done|]. split; [done|]. right. split; [done|].
    split; [|done]. cbn [verdicts w4]. by destruct (verdicts (wget g)).
Qed.

Lemma serve_loop_spec c fuel g :
  (length (default [] (inbox (wget g) !! cid c)) < fuel)%nat →
  ∃ rs g', loop fuel c g = Some (tt, g') ∧
    let qs := queries_fuel fuel (default [] (inbox (wget g) !! cid c)) in
    Forall2 answers (take (length rs) qs) rs ∧
    sent (wget g') = sent (wget g) ++ (EWrite c <$> (dns_frame <$> rs)) ∧
    (verdicts (wget g) = [] → (∀ q s, q ∈ qs → ∃ r s', handle q s = Some (Ok r, s')) → length rs = length qs).
Proof.
  revert g. induction fuel as [|fuel IH]; intros g Hfuel; [lia|]. cbv zeta.
  destruct (serve_loop_reads c fuel g) as [(Hq & g' & E & Hs)|(payload & more & g2 & Hq & Hmore & E & Hs2 & Hv2 & Hi2)].
  { exists [], g'. rewrite Hq. split; [done|]. split; [done|]. by rewrite app_nil_r. }
  rewrite Hq, E. destruct (serve_answer_spec (loop fuel c) c payload g2)
    as [(g' & E' & Hs' & s & r & s' & Hf)|(resp & g3 & Hans & Hs3 & [[E3 Hv3]|(E3 & Hv3 & Hi3)])].
  - exists [], g'. split; [done|]. split; [done|]. split; [cbn [fmap list_fmap]; rewrite app_nil_r; congruence|].
    intros _ Hall. destruct (Hall payload s) as (r' & s2 & Eh); [by left|congruence].
  - exists [resp], g3. split; [done|]. split; [by repeat constructor|]. split; [by rewrite Hs3, Hs2|].
    intros Hnil. congruence.
  - rewrite E3. destruct (IH g3) as (rs & g' & E' & Hans' & Hs' & Hc'); [rewrite Hi3, Hi2; lia|].
    rewrite Hi3, Hi2 in Hans', Hc'. exists (resp :: rs), g'. split; [done|]. cbn [length take fmap list_fmap].
    split; [by constructor|]. split; [by rewrite Hs', Hs3, Hs2, <-app_assoc|].
    intros Hnil Hall. f_equal. apply Hc'; [by rewrite Hv3, Hv2, Hnil|].
    intros q s Hin. apply Hall. by right.
Qed.

(** C28: the DNS server behind the VPN's TCP connections reads its stream as
    length-prefixed messages and writes one framed answer per complete query, in
    order, each an answer of the handler to that query; it always returns, closing
    the connection, and stops before the last query only when the handler fails or
    the client's side refuses an answer. *)
Theorem serveLocalDNSTCP_answers (c : conn) (g : G) :
  ∃ rs g' w, serveLocalDNSTCP rules wire dnsExchange TypeToString RcodeToString c g = Some (tt, g') ∧
    let qs := queries (default [] (inbox (wget g) !! cid c)) in
    Forall2 answers (take (length rs) qs) rs ∧
    sent w = sent (wget g) ++ (EWrite c <$> (dns_frame <$> rs)) ∧ events (wget g') = events w ++ [EClose c] ∧
    (verdicts (wget g) = [] → (∀ q s, q ∈ qs → ∃ r s', handle q s = Some (Ok r, s')) → length rs = length qs).
Proof.
  unfold serveLocalDNSTCP. destruct (serve_loop_spec c (S (length (default [] (inbox (wget g) !! cid c)))) g)
    as (rs & g1 & E & Hans & Hs & Hc); [lia|].
  destruct (ignoring_total (EClose c) (wget g1)) as (w & Ew & Hw).
  exists rs, (wset w g1), (wget g1). split.
  { unfold bind at 1. rewrite E. by apply onW_eq. }
  split; [exact Hans|]. split; [exact Hs|]. split; [by rewrite wget_wset|exact Hc].
Qed.
End service.

(** ** A concrete state *)

Record phone := mkPhone { phWorld : World; phDNS : MobileDNS; phApp : App }.
#[export] Instance phone_world : HasWorld phone :=
  {| wget := phWorld; wset w p := mkPhone w (phDNS p) (phApp p) |}.
#[export] Instance phone_mobile : HasMobile phone :=
  {| mget := phDNS; mset m p := mkPhone (phWorld p) m (phApp p); mnow := λ p, Some (now (phWorld p), p) |}.
#[export] Instance phone_app : HasApp phone :=
  {| aget := phApp; aset a p := mkPhone (phWorld p) (phDNS p) a; stamp _ := "12:00:00" |}.
#[export] Instance phone_world_laws : HasWorldLaws phone.
Proof. split; [done..|by intros []]. Qed.
#[export] Instance phone_mobile_laws : HasMobileLaws phone.
Proof. split; [done| |by eexists]. intros g t g' H. by injection H as _ <-. Qed.
#[export] Instance phone_app_laws : HasAppLaws phone.
Proof. split; try done. intros g. by eexists _, _. Qed.

Definition phone_with (input : bytes) : phone :=
  mkPhone (mkWorld [] [] 0 [] [] [] {[0 := input]}) ∅ (mkApp stats_init 0 0 true).

(** Messages that are their own bytes, and an upstream that adds one. *)
Definition echo_wire : Wire :=
  mkWire bytes (λ b, if decide (b = []) then Fail EOF else Ok b) Ok (λ _, mkView 7 0 [] []) (λ _, [])
    (λ _ _, Fail EOF).
Definition echo_exchange (m : bytes) : St phone (result bytes) := ret (Ok (m ++ [Byte.xff])).

Lemma serveLocalDNSTCP_answers_witness :
  let c := mkConn 0 false in
  let g := phone_with (dns_frame [Byte.x01; Byte.x02] ++ dns_frame [Byte.x03] ++ [Byte.x00]) in
  ∃ g' w, serveLocalDNSTCP (H2:=fixed_resolver phone) block_rules echo_wire echo_exchange (λ _, "") (λ _, "") c g = Some (tt, g') ∧
    sent w = [EWrite c (dns_frame [Byte.x01; Byte.x02; Byte.xff]); EWrite c (dns_frame [Byte.x03; Byte.xff])].
Proof.
  intros c g.
  assert (∀ m, still (echo_exchange m)) as Hex by (intros m s; by eexists _, _).
  destruct (serveLocalDNSTCP_answers (R:=fixed_resolver phone) (RL:=fixed_resolver_laws phone)
    block_rules echo_wire echo_exchange (λ _, "") (λ _, "") Hex c g) as (rs & g' & w & E & Ha & Hs & _ & Hc).
  exists g', w. split; [exact E|]. rewrite Hs.
  assert (queries (default [] (inbox (wget g) !! cid c)) = [[Byte.x01; Byte.x02]; [Byte.x03]]) as Hq by reflexivity.
  rewrite Hq in *. assert (∀ q s r s', q ≠ [] → HandleDNSQueryPacket (H2:=fixed_resolver phone) block_rules echo_wire echo_exchange q s =
    Some (Ok r, s') → r = q ++ [Byte.xff]) as Hecho.
  { intros q s r s' Hq'. unfold HandleDNSQueryPacket. cbn. rewrite decide_False by done. intros H. by injection H as <- _. }
  assert (length rs = 2%nat) as Hlen.
  { apply Hc; [done|]. intros q s Hin. unfold HandleDNSQueryPacket. cbn.
    assert (q ≠ []) as Hne by (apply elem_of_cons in Hin as [->|Hin]; [done|]; by apply list_elem_of_singleton in Hin as ->).
    rewrite decide_False by done. by eexists _, _. }
  rewrite Hlen in Ha. cbn [take] in Ha. inversion Ha as [|? r1 ? ? (s1 & s2 & E1) Ha2]; subst.
  inversion Ha2 as [|? r2 ? ? (s3 & s4 & E2) Ha3]; subst. inversion Ha3; subst.
  apply Hecho in E1 as ->; [|done]. apply Hecho in E2 as ->; [|done]. reflexivity.
Defined.
