(* ===== verification/LumineProxy.v ===== *)
(** The proxy the VPN's network stack hands every flow to
    ([mobile/lumine_proxy.go], [tun2socks/metadata]): a TCP connection is planned,
    dialled and wrapped; each UDP packet is answered by the local DNS service,
    dropped as QUIC, refused, or planned and sent.  Waiting for room in the queue
    of a flow is a point where a call can stop, so [WriteTo] is a resumption. *)

From Stdlib Require Import Strings.Ascii.
From S2P Require Import Prelude GoStd GoNet Policy Stats Conn TransformIP Routing Dns DnsMobile Session.
From S2P Require Import DialPlan TunBridge PacketQueue MobileDns.

(** ** Metadata *)

Inductive Network := TCP | UDP | OtherNetwork (n : Z).
Definition Network_String (n : Network) : string :=
  match n with TCP => "tcp" | UDP => "udp" | OtherNetwork n => "network(" +:+ itoa n +:+ ")" end.

Record Metadata := mkMetadata {
  mNetwork : Network;
  SrcIP : Addr; MidIP : Addr; DstIP : Addr;
  SrcPort : Z; MidPort : Z; DstPort : Z
}.

(** [netip.AddrPort.String]. *)
Definition AddrPort_String (a : Addr) (port : Z) : string :=
  if IsValid a then JoinHostPort (AddrString a) (itoa port) else "invalid AddrPort".

Definition DestinationAddress (m : Metadata) : string := AddrPort_String (DstIP m) (DstPort m).
Definition SourceAddress (m : Metadata) : string := AddrPort_String (SrcIP m) (SrcPort m).

(** [metadata.Addr], the net.Addr of a flow. *)
Definition Addr_Network (m : Metadata) : string := Network_String (mNetwork m).
Definition Addr_String (m : Metadata) : string := DestinationAddress m.
Definition Network_MarshalText (n : Network) : string := Network_String n.

(** [net.UDPAddr]. *)
Record udpAddr := mkUDPAddr { uIP : IP; uPort : Z; uZone : string }.
Definition UDPAddr_String (u : udpAddr) : string :=
  let ip := if decide (uIP u = []) then "" else IPString (uIP u) in
  JoinHostPort (if decide (uZone u = "") then ip else ip +:+ "%" +:+ uZone u) (itoa (uPort u)).

Definition metadata_UDPAddr (m : Metadata) : option udpAddr :=
  match mNetwork m with
  | UDP => if IsValid (DstIP m) then Some (mkUDPAddr (AsSlice (DstIP m)) (DstPort m) (Zone (DstIP m))) else None
  | _ => None
  end.
Definition metadata_TCPAddr (m : Metadata) : option udpAddr :=
  match mNetwork m with
  | TCP => if IsValid (DstIP m) then Some (mkUDPAddr (AsSlice (DstIP m)) (DstPort m) (Zone (DstIP m))) else None
  | _ => None
  end.

(** A [net.Addr]: a UDP address, or another type with its text. *)
Inductive net_addr := IsUDP (u : udpAddr) | IsOther (text : string).
Definition net_String (a : net_addr) : string := match a with IsUDP u => UDPAddr_String u | IsOther s => s end.

(** [netip.ParseAddrPort]. *)
Definition ParseAddrPort (s : string) : result (Addr * Z) :=
  let i := LastIndexByte s ":" in
  if decide (i = -1) then Fail (ErrNew "not an ip:port") else
  let ip := stake (Z.to_nat i) s in
  let port := sdrop (S (Z.to_nat i)) s in
  if decide (ip = "") then Fail (ErrNew "no IP") else
  if decide (port = "") then Fail (ErrNew "no port") else
  let? (ip, v6) :=
    match ip with
    | String "[" ip' =>
        let n := String.length ip' in
        if decide (0 < n)%nat then
          if decide (sdrop (n - 1) ip' = "]") then Ok (stake (n - 1) ip', true) else Fail (ErrNew "missing ]")
        else Fail (ErrNew "missing ]")
    | _ => Ok (ip, false)
    end in
  let? port := ParseUint port 16 in
  let? a := ParseAddr ip in
  if v6 && Is4 a then Fail (ErrNew "square brackets can only be used with IPv6 addresses")
  else if negb v6 && Is6 a then Fail (ErrNew "IPv6 addresses must be surrounded by square brackets")
  else Ok (a, port).

(** ** Session numbers

    The number of a session is only written in its log lines. *)
Definition nextID (counter : Z) : Z * Z :=
  let id := u32 (counter + 1) in
  if decide (1048575 < id) then (0, 0) else (id, id).

(** ** Log lines of plans *)

Inductive level := LDebug | LInfo.

Definition joinPlanLogMessage (network : string) (plan : DialPlan) (target : string) : string :=
  let origin :=
    if decide (RecoveredDomain plan ≠ "") then
      if decide (0 < OriginPort plan) then JoinHostPort (RecoveredDomain plan) (itoa (OriginPort plan))
      else RecoveredDomain plan
    else OriginAddress plan in
  network +:+ " " +:+ origin +:+ " -> " +:+ target +:+ " mode=" +:+ Mode_String (pMode (planPolicy plan)).

Definition logDialPlan (network : string) (plan : DialPlan) (target : string) : option (level * string) :=
  if negb (MatchedDomain plan) && negb (MatchedIP plan) && negb (Blocked plan) then None else
  Some (match pMode (planPolicy plan) with ModeDirect | ModeRaw => LDebug | _ => LInfo end,
        joinPlanLogMessage network plan target).

Section proxy.
Context {G : Type} `{HasWorld G} `{HasMobile G} `{HasApp G} `{Resolver G}.
Context (rules : Rules) (wire : Wire) (dnsExchange : Msg wire → St G (result (Msg wire))).
Context (TypeToString RcodeToString : Z → string).
(** [net.ResolveUDPAddr("udp", s)]. *)
Context (ResolveUDPAddr : string → result udpAddr).

Definition new_tcp_id : St G Z := λ g,
  let a := aget g in let '(id, n) := nextID (tcpDialID a) in
  Some (id, aset (mkApp (appStats a) n (udpDialID a) (blockQuic a)) g).
Definition new_udp_id : St G Z := λ g,
  let a := aget g in let '(id, n) := nextID (udpDialID a) in
  Some (id, aset (mkApp (appStats a) (tcpDialID a) n (blockQuic a)) g).

Definition SetBlockQuic (enabled : bool) : St G unit := λ g,
  let a := aget g in Some (tt, aset (mkApp (appStats a) (tcpDialID a) (udpDialID a) enabled) g).

(** *** TCP *)

(** The client's end of a pipe whose other end [serveLocalDNSTCP] serves, or a
    connection that applies the policy of its plan. *)
Inductive dialled := LocalDNS | Wrapped (t : tunPolicyConn).

Definition mobile_request (host : string) (port : Z) : RequestContext :=
  mkRequest RequestSourceMobile host port ResolveDomainTarget.

Definition DialContext (m : option Metadata) : St G (result dialled) :=
  match m with
  | None => throw (ErrNew "invalid tcp metadata")
  | Some m =>
    if negb (IsValid (DstIP m)) then throw (ErrNew "invalid tcp metadata") else
    let originHost := AddrString (DstIP m) in
    let* _ := new_tcp_id in
    if IsVPNDNSAddress originHost (DstPort m) then ret (Ok LocalDNS) else
    let* r := PlanRequest rules (mobile_request originHost (DstPort m)) in
    match r with
    | Fail err =>
        let* _ := onStats (λ t, recordFailedStat t "TCP" originHost (error_Error err)) in
        throw err
    | Ok plan =>
      if Blocked plan then
        let* _ := onStats (λ t, recordBlockedStat t "TCP" originHost) in
        throw (ErrNew ("blocked by policy: " +:+ originHost))
      else
        let target := TargetAddress plan in
        let* r := onW (dial target (DefaultDialTimeout (planPolicy plan))) in
        match r with
        | Fail err =>
            let* _ := onStats (λ t, recordFailedStat t "TCP" target (error_Error err)) in
            throw err
        | Ok c =>
            let* _ := onStats (λ t, recordTCPStat t target (Mode_String (pMode (planPolicy plan)))) in
            ret (Ok (Wrapped (WrapTCPConn c plan)))
        end
    end
  end.

(** *** UDP *)

(** The base connection, and whether it is wrapped in a [queuedPacketConn]. *)
Record luminePacketConn := mkLuminePC { base : conn; queued : bool }.

(** [NewDirectPacketConn] (internal/tun_bridge.go); [newSocket] is
    [net.ListenPacket("udp", "")].  Nothing reads the timeout. *)
Definition NewDirectPacketConn (newSocket : St G (result conn)) (timeout : Z) : St G (result conn) :=
  let*? c := newSocket in ret (Ok c).

Definition DialUDP (newSocket : St G (result conn)) (m : option Metadata) : St G (result luminePacketConn) :=
  let* _ := new_udp_id in
  match m with
  | None => throw (ErrNew "invalid udp metadata")
  | Some m =>
      if negb (IsValid (DstIP m)) then throw (ErrNew "invalid udp metadata") else
      let*? c := NewDirectPacketConn newSocket (30 * Second) in
      ret (Ok (mkLuminePC c true))
  end.

(** A call that has returned, or that waits in [EnqueuePacket] and goes on with
    its result. *)
Inductive sending :=
| Returns (r : result Z)
| Enqueues (resp : bytes) (from : udpAddr) (k : result unit → St G (result Z)).

Definition handleDNSQuery (pc : luminePacketConn) (payload : bytes) (addr : udpAddr) : St G sending :=
  let* r := HandleDNSQueryPacket rules wire dnsExchange payload in
  match r with
  | Fail err =>
      let* _ := onStats (λ t, recordDNSStat t (UDPAddr_String addr) "failed" (error_Error err)) in
      ret (Returns (Fail err))
  | Ok resp =>
      if negb (queued pc) then ret (Returns (Fail (ErrNew "queued packet conn unavailable"))) else
      ret (Enqueues resp addr (λ r,
        match r with
        | Fail err => throw err
        | Ok _ =>
            let* _ := onStats (λ t, recordDNSStat t (summarizeDNSPacket wire TypeToString RcodeToString payload) "ok"
                                 (summarizeDNSPacket wire TypeToString RcodeToString resp)) in
            ret (Ok (len payload))
        end))
  end.

(** Where a packet is meant to go: the UDP address, and the address its text
    names when that parses. *)
Definition destination (addr : net_addr) : result (udpAddr * IP) :=
  let? u := match addr with IsUDP u => Ok u | IsOther s => ResolveUDPAddr s end in
  let dstIP := match ParseAddrPort (net_String addr) with Ok (a, _) => AsSlice a | Fail _ => uIP u end in
  if decide (dstIP = []) then Fail (ErrNew "invalid udp destination") else Ok (u, dstIP).

Definition base_WriteTo (c : conn) (b : bytes) (dst : udpAddr) : St World (result Z) :=
  let* r := call (EWriteTo c b (UDPAddr_String dst)) in
  ret (match r with Ok _ => Ok (len b) | Fail e => Fail e end).

(** [WriteTo] of the connection that [NewDirectPacketConn] makes. *)
Definition direct_WriteTo (c : conn) (b : bytes) (addr : net_addr) : St World (result Z) :=
  match addr with
  | IsUDP u => base_WriteTo c b u
  | IsOther s => match ResolveUDPAddr s with Fail err => throw err | Ok u => base_WriteTo c b u end
  end.

Definition WriteTo (pc : luminePacketConn) (b : bytes) (addr : net_addr) : St G sending :=
  match destination addr with
  | Fail err => ret (Returns (Fail err))
  | Ok (u, dstIP) =>
    let originHost := IPString dstIP in
    if IsVPNDNSAddress originHost (uPort u) then handleDNSQuery pc b u else
    let* g := get in
    if blockQuic (aget g) && (uPort u =? 443) then
      let* _ := onStats (λ t, recordBlockedStat t "UDP" (UDPAddr_String u)) in
      ret (Returns (Ok (len b)))
    else
      let* r := PlanRequest rules (mobile_request originHost (uPort u)) in
      match r with
      | Fail err =>
          let* _ := onStats (λ t, recordFailedStat t "UDP" originHost (error_Error err)) in
          ret (Returns (Fail err))
      | Ok plan =>
        if Blocked plan then
          let* _ := onStats (λ t, recordBlockedStat t "UDP" originHost) in
          ret (Returns (Fail (ErrNew ("blocked by policy: " +:+ originHost))))
        else
          match ResolveUDPAddr (TargetAddress plan) with
          | Fail err =>
              let* _ := onStats (λ t, recordFailedStat t "UDP" (TargetAddress plan) (error_Error err)) in
              ret (Returns (Fail err))
          | Ok dst =>
              let* _ := onStats (λ t, recordUDPStat t (UDPAddr_String dst) (Mode_String (pMode (planPolicy plan)))) in
              let* r := onW (direct_WriteTo (base pc) b (IsUDP dst)) in
              ret (Returns r)
          end
      end
  end.
End proxy.
Arguments Returns {G} r.
Arguments Enqueues {G} resp from k.

(** ** What becomes of a packet *)

Section fate.
Context {G : Type} `{L : HasAppLaws G} `{WL : !HasWorldLaws G} `{R : !Resolver G} `{RL : !ResolverLaws G}.
Context (rules : Rules) (wire : Wire) (dnsExchange : Msg wire → St G (result (Msg wire))).
Context (TypeToString RcodeToString : Z → string) (ResolveUDPAddr : string → result udpAddr).
Context (Hex : ∀ m, still (dnsExchange m)).

#[local] Abbreviation write_to := (WriteTo rules wire dnsExchange TypeToString RcodeToString ResolveUDPAddr).

Lemma PlanRequest_still req : still (PlanRequest rules req).
Proof.
  unfold PlanRequest. case_decide; [apply ret_still|]. apply bind_still.
  - case_decide; [|apply ret_still]. unfold lookupMobile.
    apply bind_still; [intros g; apply mnow_world|]. intros now g.
    unfold bind, get, modify, ret. destruct (lookupMobileDNSMapping now (reqHost req) (mget g)) as [d m].
    eexists _, _. split; [done|]. apply mset_world.
  - intros d. apply bind_still; [apply genPolicy_still|]. intros gen. destruct (failed gen); apply ret_still.
Qed.

(** The requests of a packet are planned with the host and port of its
    destination, in the state the call found. *)
Definition planned (host : string) (port : Z) (g : G) (plan : DialPlan) : Prop :=
  ∃ g', PlanRequest rules (mobile_request host port) g = Some (Ok plan, g').

(** What [WriteTo] has done when it returns or waits: [l] is what left on the
    wire. *)
Definition fate (pc : luminePacketConn) (b : bytes) (addr : net_addr) (g : G) (r : sending (G:=G))
    (l : list event) : Prop :=
  match destination ResolveUDPAddr addr with
  | Fail err => l = [] ∧ r = Returns (Fail err)
  | Ok (u, ip) =>
      if IsVPNDNSAddress (IPString ip) (uPort u) then
        l = [] ∧ match r with
                 | Returns r => ∃ e, r = Fail e
                 | Enqueues resp from _ => from = u ∧ queued pc = true ∧ answers rules wire dnsExchange b resp
                 end
      else if blockQuic (aget g) && (uPort u =? 443) then l = [] ∧ r = Returns (Ok (len b))
      else
        (l = [] ∧ ∃ e, r = Returns (Fail e)) ∨
        ∃ plan dst, planned (IPString ip) (uPort u) g plan ∧ Blocked plan = false ∧
          ResolveUDPAddr (TargetAddress plan) = Ok dst ∧
          l = [EWriteTo (base pc) b (UDPAddr_String dst)] ∧ (r = Returns (Ok (len b)) ∨ ∃ e, r = Returns (Fail e))
  end.

Lemma dial_once target t g :
  ∃ r g', onW (dial target t) g = Some (r, g') ∧ Conn.events (wget g') = Conn.events (wget g) ++ [EDial target t].
Proof.
  unfold onW, dial, call. cbv beta zeta. destruct (default None _); eexists _, _; (split; [reflexivity|]);
    rewrite wget_wset; apply events_snoc.
Qed.

Lemma still_then {A B} (m : St G A) (f : A → St G B) (P : B → list event → Prop) g :
  still m →
  (∀ a g1, m g = Some (a, g1) → ∃ b g2 l, f a g1 = Some (b, g2) ∧ Conn.events (wget g2) = Conn.events (wget g1) ++ l ∧ P b l) →
  ∃ b g2 l, bind m f g = Some (b, g2) ∧ Conn.events (wget g2) = Conn.events (wget g) ++ l ∧ P b l.
Proof.
  intros Hm Hf. unfold bind. destruct (Hm g) as (a & g1 & E & Hg). rewrite E.
  destruct (Hf a g1 E) as (b & g2 & l & E2 & Hs & HP). exists b, g2, l. by rewrite E2, Hs, Hg.
Qed.

Lemma ret_then {B} (b : B) (P : B → list event → Prop) (g : G) :
  P b [] → ∃ b' g2 l, ret b g = Some (b', g2) ∧ Conn.events (wget g2) = Conn.events (wget g) ++ l ∧ P b' l.
Proof. intros HP. exists b, g, []. by rewrite app_nil_r. Qed.

(** C25: the fate of every packet of the VPN.  [WriteTo] always gets to a result or
    to the queue.  A packet for the VPN's DNS address never leaves: its answer is
    queued as coming from that address; while QUIC is blocked a packet to port 443
    is dropped and reported as written; any other packet either leaves exactly once,
    whole, for the address that the plan of its destination resolves to, the plan
    not being blocked, or does not leave and the caller gets an error. *)
Theorem WriteTo_fate pc b addr g :
  ∃ r g' l, write_to pc b addr g = Some (r, g') ∧ Conn.events (wget g') = Conn.events (wget g) ++ l ∧ fate pc b addr g r l.
Proof.
  unfold WriteTo, fate. destruct (destination ResolveUDPAddr addr) as [[u ip]|err]; [|by apply ret_then].
  destruct (IsVPNDNSAddress _ _).
  { unfold handleDNSQuery. apply still_then; [by apply handle_still|]. intros [resp|err] g1 E.
    - destruct (queued pc) eqn:Hq; cbn [negb]; apply ret_then; (split; [done|]); [|by eexists].
      split; [done|]. split; [done|]. by exists g, g1.
    - apply still_then; [apply onStats_still; intros; apply bump_event_total|].
      intros _ g2 _. apply ret_then. split; [done|]. by eexists. }
  unfold bind at 1, get. destruct (blockQuic (aget g) && _).
  { apply still_then; [apply onStats_still; intros; apply bump_event_total|]. intros _ g2 _. by apply ret_then. }
  apply still_then; [apply PlanRequest_still|]. intros [plan|err] g1 E.
  2: { apply still_then; [apply onStats_still; intros; apply bump_event_total|].
    intros _ g2 _. apply ret_then. left. split; [done|]. by eexists. }
  destruct (Blocked plan) eqn:Hb.
  { apply still_then; [apply onStats_still; intros; apply bump_event_total|].
    intros _ g2 _. apply ret_then. left. split; [done|]. by eexists. }
  destruct (ResolveUDPAddr (TargetAddress plan)) as [dst|err] eqn:Hd.
  2: { apply still_then; [apply onStats_still; intros; apply bump_event_total|].
    intros _ g2 _. apply ret_then. left. split; [done|]. by eexists. }
  apply still_then; [apply onStats_still; intros; apply bump_event_total|]. intros _ g2 _.
  unfold bind, base_WriteTo, onW, call, ret. cbv beta zeta.
  eexists _, _, [EWriteTo (base pc) b (UDPAddr_String dst)]. split; [reflexivity|].
  rewrite wget_wset. split; [apply events_snoc|].
  right. exists plan, dst. split; [by exists g1|]. do 3 (split; [done|]).
  destruct (default None _); [right; by eexists|by left].
Qed.

(** The state once a TCP connection has its number. *)
Definition numbered (g : G) : G :=
  let a := aget g in aset (mkApp (appStats a) (nextID (tcpDialID a)).2 (udpDialID a) (blockQuic a)) g.

Lemma numbered_world g : wget (numbered g) = wget g.
Proof. apply aset_world. Qed.

(** What becomes of a connection for which [PlanRequest] has returned [r1]; [l] is
    every call on the network. *)
Definition follows_plan (r1 : result DialPlan) (r : result dialled) (l : list event) : Prop :=
  match r1 with
  | Fail e => l = [] ∧ r = Fail e
  | Ok plan =>
      if Blocked plan then l = [] ∧ ∃ e, r = Fail e
      else l = [EDial (TargetAddress plan) (DefaultDialTimeout (planPolicy plan))] ∧
           ((∃ e, r = Fail e) ∨ ∃ c, r = Ok (Wrapped (WrapTCPConn c plan)))
  end.

Lemma DialContext_follows (m : Metadata) (g g2 : G) (r1 : result DialPlan) :
  IsValid (DstIP m) = true → IsVPNDNSAddress (AddrString (DstIP m)) (DstPort m) = false →
  PlanRequest rules (mobile_request (AddrString (DstIP m)) (DstPort m)) (numbered g) = Some (r1, g2) →
  wget g2 = wget g →
  ∃ r g' l, DialContext rules (Some m) g = Some (r, g') ∧
    Conn.events (wget g') = Conn.events (wget g) ++ l ∧ follows_plan r1 r l.
Proof.
  intros Hv Hdns E Hg2. unfold DialContext. rewrite Hv, Hdns. cbn [negb].
  unfold bind at 1, new_tcp_id. destruct (nextID (tcpDialID (aget g))) as [id n] eqn:En.
  assert (numbered g = aset (mkApp (appStats (aget g)) n (udpDialID (aget g)) (blockQuic (aget g))) g) as <-
    by (unfold numbered; by rewrite En).
  unfold bind at 1. rewrite E, <-Hg2. clear E.
  assert (∀ e (m0 : string → St statsState unit) s, (∀ t s, ∃ s', m0 t s = Some (tt, s')) →
    ∃ r g' l, (let* _ := onStats m0 in throw e) s = Some (r, g') ∧
      Conn.events (wget g') = Conn.events (wget s) ++ l ∧ l = [] ∧ r = Fail (A:=dialled) e) as Hfail.
  { intros e m0 s Hm. apply still_then; [by apply onStats_still|]. intros _ g3 _. by apply ret_then. }
  destruct r1 as [plan|err]; cbn [follows_plan]; [|by apply Hfail; intros; apply bump_event_total].
  destruct (Blocked plan).
  { edestruct Hfail as (r & g' & l & -> & Hl & -> & ->); [intros; apply bump_event_total|].
    eexists _, g', []. split; [reflexivity|]. split; [exact Hl|]. split; [done|by eexists]. }
  destruct (dial_once (TargetAddress plan) (DefaultDialTimeout (planPolicy plan)) g2) as (r & g3 & Ed & Hd).
  unfold bind at 1. rewrite Ed. assert (∀ (n : St G unit) (x : result dialled), still n →
    ((∃ e, x = Fail e) ∨ ∃ c, x = Ok (Wrapped (WrapTCPConn c plan))) →
    ∃ r g' l, (let* _ := n in ret x) g3 = Some (r, g') ∧ Conn.events (wget g') = Conn.events (wget g2) ++ l ∧
      l = [EDial (TargetAddress plan) (DefaultDialTimeout (planPolicy plan))] ∧
      ((∃ e, r = Fail e) ∨ ∃ c, r = Ok (Wrapped (WrapTCPConn c plan)))) as Hend.
  { intros k x Hk Hx. destruct (Hk g3) as (u & g4 & Ek & Hg4). eexists x, g4, _. unfold bind, ret. rewrite Ek.
    split; [done|]. split; [by rewrite Hg4|]. by split. }
  destruct r as [c|err]; apply Hend; try (apply onStats_still; intros; apply bump_event_total); [right|left]; by eexists.
Qed.

(** What [DialContext] has done. *)
Definition dial_fate (m : Metadata) (g : G) (r : result dialled) (l : list event) : Prop :=
  let host := AddrString (DstIP m) in
  if IsVPNDNSAddress host (DstPort m) then l = [] ∧ r = Ok LocalDNS else
  ∃ r1 g2, PlanRequest rules (mobile_request host (DstPort m)) (numbered g) = Some (r1, g2) ∧ follows_plan r1 r l.

(** A connection of the VPN is planned before anything is dialled: a refused
    one dials nothing, the VPN's DNS address is served inside the program, and any
    other is dialled once, at the target of its plan and with the plan's timeout; on
    success the caller gets that connection wrapped with that very plan. *)
Theorem DialContext_plans (m : Metadata) (g : G) :
  IsValid (DstIP m) = true →
  ∃ r g' l, DialContext rules (Some m) g = Some (r, g') ∧
    Conn.events (wget g') = Conn.events (wget g) ++ l ∧ dial_fate m g r l.
Proof.
  intros Hv. unfold dial_fate. destruct (IsVPNDNSAddress (AddrString (DstIP m)) (DstPort m)) eqn:Hdns.
  - unfold DialContext. rewrite Hv, Hdns. cbn [negb]. apply still_then; [|intros _ g1 _; by apply ret_then].
    intros s. unfold new_tcp_id. destruct (nextID _). eexists _, _. split; [done|apply aset_world].
  - destruct (PlanRequest_still (mobile_request (AddrString (DstIP m)) (DstPort m)) (numbered g)) as (r1 & g2 & E & Hg2).
    destruct (DialContext_follows m g g2 r1 Hv Hdns E) as (r & g' & l & Ed & Hl & Hf);
      [by rewrite Hg2, numbered_world|].
    exists r, g', l. split; [done|]. split; [done|]. by exists r1, g2.
Qed.
End fate.

(** ** Witnesses *)

#[local] Instance lumine_resolver : Resolver phone := fixed_resolver phone.
#[local] Instance lumine_resolver_laws : ResolverLaws phone := fixed_resolver_laws phone.

Definition no_resolver (s : string) : result udpAddr := Fail (ErrNew "no such host").
Definition quic : net_addr := IsUDP (mkUDPAddr [203; 0; 113; 1] 443 "").
Definition vpn_dns : net_addr := IsUDP (mkUDPAddr [172; 19; 0; 2] 53 "").
Definition flow : luminePacketConn := mkLuminePC (mkConn 5 false) true.

#[local] Abbreviation sample_write := (WriteTo block_rules echo_wire echo_exchange (λ _, "") (λ _, "") no_resolver flow).

(** A QUIC packet is dropped; a query comes back from the address it was sent to. *)
Lemma WriteTo_fate_witness :
  (∃ g', sample_write [Byte.x01; Byte.x02] quic (phone_with []) = Some (Returns (Ok 2), g') ∧
     Conn.events (wget g') = []) ∧
  ∃ r g', sample_write [Byte.x07] vpn_dns (phone_with []) = Some (r, g') ∧ Conn.events (wget g') = [].
Proof.
  assert (∀ m, still (echo_exchange m)) as Hex by (intros m s; by eexists _, _).
  split.
  - destruct (WriteTo_fate block_rules echo_wire echo_exchange (λ _, "") (λ _, "") no_resolver Hex flow
      [Byte.x01; Byte.x02] quic (phone_with [])) as (r & g' & l & E & He & Hf).
    assert (l = [] ∧ r = Returns (Ok 2)) as [-> ->] by (vm_compute in Hf; exact Hf).
    exists g'. split; [exact E|]. rewrite He. reflexivity.
  - destruct (WriteTo_fate block_rules echo_wire echo_exchange (λ _, "") (λ _, "") no_resolver Hex flow
      [Byte.x07] vpn_dns (phone_with [])) as (r & g' & l & E & He & Hf).
    assert (l = []) as -> by (exact (proj1 Hf)).
    exists r, g'. split; [exact E|]. rewrite He. reflexivity.
Defined.

Lemma DialContext_plans_witness :
  ∃ r g' l, DialContext block_rules (Some (mkMetadata TCP AddrInvalid AddrInvalid (Addr4 16909060) 0 0 443)) (phone_with []) =
    Some (r, g') ∧ Conn.events (wget g') = l ∧
    dial_fate block_rules (mkMetadata TCP AddrInvalid AddrInvalid (Addr4 16909060) 0 0 443) (phone_with []) r l.
Proof.
  destruct (DialContext_plans block_rules (mkMetadata TCP AddrInvalid AddrInvalid (Addr4 16909060) 0 0 443) (phone_with [])
    eq_refl) as (r & g' & l & E & He & Hf).
  exists r, g', l. split; [exact E|]. split; [exact He|exact Hf].
Defined.
