(* ===== verification/Vpn.v ===== *)
(** A flow of the VPN from the question to the bytes: the address that
    [handleConfiguredMobileDNS] answers for a domain ([DnsMobile]), the connection
    to it that is planned and dialled ([DialPlan], [LumineProxy]) and what is
    written into it ([TunBridge]), put together over one state. *)

From S2P Require Import Prelude GoStd GoNet Policy Conn ClientHello Desync TransformIP Routing Dns DnsMobile Session.
From S2P Require Import DialPlan TunBridge MobileDns LumineProxy.

(** What the parts of the state have to do with each other: the statistics and the
    table of answers are kept apart, and time does not depend on the former. *)
Class HasPhoneLaws (G : Type) `{HasWorld G} `{HasMobile G} `{HasApp G} := {
  mget_aset a g : mget (aset a g) = mget g;
  mset_mget g : mset (mget g) g = g;
  mnow_aset a g t g' : mnow (aset a g) = Some (t, g') → ∃ g'', mnow g = Some (t, g'')
}.
#[export] Instance phone_laws : HasPhoneLaws phone.
Proof. split; [done|by intros []|]. intros a g t g' [= <- _]. by eexists. Qed.

Section vpn.
Context {G : Type} `{L : HasAppLaws G} `{WL : !HasWorldLaws G} `{ML : !HasMobileLaws G} `{PL : !HasPhoneLaws G}.
Context `{R : !Resolver G} `{RL : !ResolverLaws G} `{T : !TTLService G} `{TL : !TTLServiceLaws G}.
Context (rules : Rules) (outs : list splice) (pageSize : Z).

(** An application has asked for the domain and got the address [a]; since then
    the table has kept the record, and now its time is not over. *)
Definition answered (domain : string) (a : AddressRR) (q : Question) (s0 : G) (g : G) : Prop :=
  ∃ resp s1, handleConfiguredMobileDNS rules [q] s0 = Some (Some resp, s1) ∧ a ∈ replyAnswer resp ∧
    domain = TrimDotSuffix (qName q) ∧ domain ≠ "" ∧ ParseIP domain = None ∧
    ∀ p, ParseIP (IPString (rrIP a)) = Some p → mget g !! IPString p = mget s1 !! IPString p ∧
      ∀ record t g', mget g !! IPString p = Some record → mnow g = Some (t, g') → t ≤ rExpires record.

(** The connection [t] to [c] carries a stream, however it is split into writes,
    the way the policy of [plan] says. *)
Definition carries (plan : DialPlan) (c : conn) (t : tunPolicyConn) (stream : bytes) : Prop :=
  (∀ record rest, route stream = TLSRecord record rest → usable rules plan record) →
  ∃ x,
    (∀ record rest h p, route stream = TLSRecord record rest → parseClientHello record = Some h →
       sni_policy rules (planPolicy plan) record h = Some p → ¬ refused rules plan record h →
       read_as c p record h x) ∧
    ∀ chunks g, concat chunks = stream →
      ∃ rs t' g', writes_of rules outs pageSize t chunks g = Some ((rs, t'), g') ∧
        (Forall (λ r, is_ok r = true) rs →
           tPending t' = held stream ∧
           ∃ l, Conn.sent (wget g') = Conn.sent (wget g) ++ l ∧ inband c l = outflow x stream).

(** What becomes of a connection as the domain's own plan says. *)
Definition governed_by (r1 : result DialPlan) (r : result dialled) (l : list event) : Prop :=
  match r1 with
  | Fail e => l = [] ∧ r = Fail e
  | Ok plan =>
      if Blocked plan then l = [] ∧ ∃ e, r = Fail e
      else l = [EDial (TargetAddress plan) (DefaultDialTimeout (planPolicy plan))] ∧
           ((∃ e, r = Fail e) ∨ ∃ c t, r = Ok (Wrapped t) ∧ ∀ stream, carries plan c t stream)
  end.

(** The address leads back to the domain. *)
Lemma answered_entry domain a q s0 g p :
  answered domain a q s0 g → ParseIP (IPString (rrIP a)) = Some p →
  ∃ expires, mget g !! IPString p = Some (mkRecord domain expires) ∧
    (∀ t g', mnow g = Some (t, g') → t ≤ expires) ∧ domain ≠ "" ∧ ParseIP domain = None.
Proof.
  intros (resp & s1 & Hh & Ha & -> & Hne & Hdom & Ht) Hp. destruct (Ht p Hp) as [Hm Htime].
  destruct (configured_answer rules q s0 s1 resp a Hh Ha) as (_ & _ & _ & _ & _ & now & m & Hs1).
  unfold rememberMobileDNSMapping in Hs1. rewrite Hp, decide_False in Hs1 by done.
  rewrite Hs1, lookup_insert_eq in Hm. eexists. split; [exact Hm|]. split; [|done].
  intros t g' Hnow. exact (Htime _ t g' Hm Hnow).
Qed.

End vpn.

(** ** Witness *)

#[local] Instance vpn_resolver : Resolver phone := fixed_resolver phone.
#[local] Instance vpn_resolver_laws : ResolverLaws phone := fixed_resolver_laws phone.
#[local] Instance vpn_ttl : TTLService phone := {| fakeTTL _ _ := ret (Ok 5) |}.
#[local] Instance vpn_ttl_laws : TTLServiceLaws phone.
Proof. split. intros. by eexists _, _. Qed.

(** "b.example" is at 10.9.8.7 by the configuration, with a policy of its own. *)
Definition vpn_rules : Rules :=
  mkRules Policy_zero (λ d, if decide (d = "b.example") then Some (with_mode ModeTLSRF 3 (-1)) else None)
    (λ _, Some "10.9.8.7") (λ _, None) (λ _, None).
Definition vpn_answer : AddressRR := mkAddressRR "b.example." TypeA 1 mobileDNSAnswerTTL [10; 9; 8; 7].
Definition vpn_phone : phone :=
  match handleConfiguredMobileDNS vpn_rules [a_question] (phone_with []) with
  | Some (_, s) => s
  | None => phone_with []
  end.
Definition vpn_flow : Metadata := mkMetadata TCP AddrInvalid AddrInvalid (Addr4 168364039) 0 0 443.

Lemma vpn_answered : answered vpn_rules "b.example" vpn_answer a_question (phone_with []) vpn_phone.
Proof.
  eexists (mkReply RcodeSuccess [vpn_answer]), vpn_phone. split; [by vm_compute|]. split; [by left|].
  split; [by vm_compute|]. split; [done|]. split; [by vm_compute|]. intros p Hp. split; [done|].
  intros record t g' Hr Ht. vm_compute in Hp. injection Hp as <-. vm_compute in Hr. injection Hr as <-.
  vm_compute in Ht. injection Ht as <- _. done.
Qed.

