(* ===== verification/NetStack.v ===== *)
(** The user-space network stack of the VPN ([tun2socks/core], [core/option]): how
    it is configured and put together, and the forwarder that turns an incoming
    connection into a call of the handler.  gVisor's operations are calls of the
    [World], named with their arguments, whose outcomes the environment chooses. *)

From S2P Require Import Prelude GoStd GoNet Conn.

(** A call of gVisor that can fail, and one whose error the code has no use for. *)
Definition sys (name : string) : St World (result unit) := call (ESys name).
Definition sys_ (name : string) : St World unit := ignoring (ESys name).

(** [if err := ...; err != nil { return fmt.Errorf(msg + ": %s", err) }]. *)
Definition sys_as (name msg : string) : St World (result unit) :=
  let* r := sys name in
  match r with Fail e => throw (ErrNew (msg +:+ ": " +:+ error_Error e)) | Ok _ => ret (Ok tt) end.

Definition show_bool (b : bool) : string := if b then "true" else "false".

(** ** Options ([core/option/option.go]) *)

Definition Option : Type := St World (result unit).

Definition defaultTimeToLive : Z := 64.
Definition ipForwardingEnabled : bool := true.
Definition icmpBurst : Z := 50.
Definition icmpLimit : Z := 1000.
Definition tcpCongestionControlAlgorithm : string := "reno".
Definition tcpDelayEnabled : bool := false.
Definition tcpModerateReceiveBufferEnabled : bool := false.
Definition tcpSACKEnabled : bool := true.

(** gVisor's [tcp.MinBufferSize], [DefaultSendBufferSize],
    [DefaultReceiveBufferSize], [MaxBufferSize]. *)
Record BufferSizes := mkSizes { MinBufferSize : Z; DefaultSendBufferSize : Z; DefaultReceiveBufferSize : Z; MaxBufferSize : Z }.

Definition WithDefaultTTL (ttl : Z) : Option :=
  let*? _ := sys_as ("ipv4 DefaultTTL " +:+ itoa ttl) "set ipv4 default TTL" in
  sys_as ("ipv6 DefaultTTL " +:+ itoa ttl) "set ipv6 default TTL".

Definition WithForwarding (v : bool) : Option :=
  let*? _ := sys_as ("ipv4 Forwarding " +:+ show_bool v) "set ipv4 forwarding" in
  sys_as ("ipv6 Forwarding " +:+ show_bool v) "set ipv6 forwarding".

Definition WithICMPBurst (burst : Z) : Option :=
  let* _ := sys_ ("SetICMPBurst " +:+ itoa burst) in ret (Ok tt).
Definition WithICMPLimit (limit : Z) : Option :=
  let* _ := sys_ ("SetICMPLimit " +:+ itoa limit) in ret (Ok tt).

Definition range_text (a b c : Z) : string := itoa a +:+ " " +:+ itoa b +:+ " " +:+ itoa c.

Definition WithTCPSendBufferSizeRange (a b c : Z) : Option :=
  sys_as ("TCPSendBufferSizeRange " +:+ range_text a b c) "set TCP send buffer size range".
Definition WithTCPReceiveBufferSizeRange (a b c : Z) : Option :=
  sys_as ("TCPReceiveBufferSizeRange " +:+ range_text a b c) "set TCP receive buffer size range".
Definition WithTCPSendBufferSize (g : BufferSizes) (size : Z) : Option :=
  WithTCPSendBufferSizeRange (MinBufferSize g) size (MaxBufferSize g).
Definition WithTCPReceiveBufferSize (g : BufferSizes) (size : Z) : Option :=
  WithTCPReceiveBufferSizeRange (MinBufferSize g) size (MaxBufferSize g).

Definition WithTCPCongestionControl (cc : string) : Option :=
  sys_as ("CongestionControl " +:+ cc) "set TCP congestion control algorithm".
Definition WithTCPDelay (v : bool) : Option := sys_as ("TCPDelayEnabled " +:+ show_bool v) "set TCP delay".
Definition WithTCPModerateReceiveBuffer (v : bool) : Option :=
  sys_as ("TCPModerateReceiveBuffer " +:+ show_bool v) "set TCP moderate receive buffer".
Definition WithTCPSACKEnabled (v : bool) : Option := sys_as ("TCPSACKEnabled " +:+ show_bool v) "set TCP SACK".
Definition WithTCPRecovery (v : string) : Option := sys_as ("TCPRecovery " +:+ v) "set TCP Recovery".

(** [for _, opt := range opts { if err := opt(s); err != nil { return err } }]. *)
Definition apply_all (opts : list Option) : St World (result unit) := rangeE (λ _ (opt : Option), opt) 0 opts.

Definition WithDefault (g : BufferSizes) : Option :=
  apply_all
    [WithDefaultTTL defaultTimeToLive; WithForwarding ipForwardingEnabled;
     WithICMPBurst icmpBurst; WithICMPLimit icmpLimit;
     WithTCPSendBufferSizeRange (MinBufferSize g) (DefaultSendBufferSize g) (MaxBufferSize g);
     WithTCPReceiveBufferSizeRange (MinBufferSize g) (DefaultReceiveBufferSize g) (MaxBufferSize g);
     WithTCPCongestionControl tcpCongestionControlAlgorithm; WithTCPDelay tcpDelayEnabled;
     WithTCPModerateReceiveBuffer tcpModerateReceiveBufferEnabled; WithTCPSACKEnabled tcpSACKEnabled;
     WithTCPRecovery "TCPRACKLossDetection"].

(** ** The interface of the stack ([core/nic.go], [core/route.go]) *)

Definition nicPromiscuousModeEnabled : bool := true.
Definition nicSpoofingEnabled : bool := true.

Definition withCreatingNIC (nicID : Z) : Option := sys_as ("CreateNIC " +:+ itoa nicID) "create NIC".
Definition withPromiscuousMode (nicID : Z) (v : bool) : Option :=
  sys_as ("SetPromiscuousMode " +:+ itoa nicID +:+ " " +:+ show_bool v) "set promiscuous mode".
Definition withSpoofing (nicID : Z) (v : bool) : Option :=
  sys_as ("SetSpoofing " +:+ itoa nicID +:+ " " +:+ show_bool v) "set spoofing".
Definition withRouteTable (nicID : Z) : Option :=
  let* _ := sys_ ("SetRouteTable 0.0.0.0/0 " +:+ itoa nicID +:+ ", ::/0 " +:+ itoa nicID) in ret (Ok tt).

Definition join_group (nicID : Z) (a : Addr) : Option :=
  if Is4 a then sys_as ("JoinGroup ipv4 " +:+ itoa nicID +:+ " " +:+ AddrString a) "join multicast group"
  else if Is6 a then sys_as ("JoinGroup ipv6 " +:+ itoa nicID +:+ " " +:+ AddrString a) "join multicast group"
  else ret (Ok tt).

Definition withMulticastGroups (nicID : Z) (groups : list Addr) : Option :=
  if decide (len groups = 0) then ret (Ok tt) else
  let* _ := sys_ ("AddProtocolAddress " +:+ itoa nicID +:+ " 10.0.0.1/8") in
  let* _ := sys_ ("AddProtocolAddress " +:+ itoa nicID +:+ " fd00::1/8") in
  rangeE (λ _ a, join_group nicID a) 0 groups.

(** ** Forwarders ([core/tcp.go], [core/udp.go]) *)

Definition defaultWndSize : Z := 0.
Definition maxConnAttempts : Z := Z.shiftl 2 10.
Definition tcpKeepaliveCount : Z := 9.
Definition tcpKeepaliveIdle : Z := 60 * Second.
Definition tcpKeepaliveInterval : Z := 30 * Second.

Definition set_tcp_handler : event := ESys "SetTransportProtocolHandler tcp".
Definition set_udp_handler : event := ESys "SetTransportProtocolHandler udp".
Definition withTCPHandler : Option := let* _ := ignoring set_tcp_handler in ret (Ok tt).
Definition withUDPHandler : Option := let* _ := ignoring set_udp_handler in ret (Ok tt).

(** The endpoint's buffer size is the stack's default when the stack tells. *)
Definition copy_buffer_size (opt setter : string) : St World unit :=
  let* r := sys opt in
  match r with Ok _ => sys_ setter | Fail _ => ret tt end.

Definition setSocketOptions : St World (result unit) :=
  let* _ := sys_ "SetKeepAlive true" in
  let*? _ := sys ("KeepaliveIdle " +:+ itoa tcpKeepaliveIdle) in
  let*? _ := sys ("KeepaliveInterval " +:+ itoa tcpKeepaliveInterval) in
  let*? _ := sys ("KeepaliveCount " +:+ itoa tcpKeepaliveCount) in
  let* _ := copy_buffer_size "TCPSendBufferSizeRange?" "SetSendBufferSize" in
  let* _ := copy_buffer_size "TCPReceiveBufferSizeRange?" "SetReceiveBufferSize" in
  ret (Ok tt).

(** A connection attempt: an endpoint is handed on whatever its options say; the
    request is completed, with a reset exactly when there is no endpoint. *)
Definition forward_tcp (handle : St World unit) : St World unit :=
  let* r := sys "CreateEndpoint" in
  match r with
  | Fail _ => sys_ "Complete true"
  | Ok _ =>
      let* _ := setSocketOptions in
      let* _ := handle in
      sys_ "Complete false"
  end.

Definition forward_udp (handle : St World unit) : St World unit :=
  let* r := sys "CreateEndpoint" in
  match r with Fail _ => ret tt | Ok _ => handle end.

(** ** The stack ([core/stack.go]) *)

Definition CreateStack (g : BufferSizes) (nicID : Z) (groups : list Addr) (options : list Option) : St World (result unit) :=
  apply_all
    ([WithDefault g] ++ options ++
     [withTCPHandler; withUDPHandler; withCreatingNIC nicID;
      withPromiscuousMode nicID nicPromiscuousModeEnabled; withSpoofing nicID nicSpoofingEnabled;
      withRouteTable nicID; withMulticastGroups nicID groups]).

(** ** What configuring does not do *)

Lemma sys_spares e name : ESys name ≠ e → Spares e (sys name).
Proof. apply call_spares. Qed.
Lemma sys_as_spares e name msg : ESys name ≠ e → Spares e (sys_as name msg).
Proof. intros H. apply bind_spares; [by apply call_spares|]. intros [?|?]; apply _. Qed.
Lemma sys__spares e name : ESys name ≠ e → Spares e (sys_ name).
Proof. intros H. apply bind_spares; [by apply call_spares|]. intros ?; apply _. Qed.

Lemma apply_all_spares e opts : Forall (Spares e) opts → Spares e (apply_all opts).
Proof.
  unfold apply_all. generalize 0. intros i H. revert i.
  induction H as [|opt opts Ho _ IH]; intros i; [apply ret_spares|]. apply bindE_spares; [done|]. intros _. apply IH.
Qed.

(** The NIC is not created by the options. *)
Definition creates_nic (nicID : Z) : event := ESys ("CreateNIC " +:+ itoa nicID).

Ltac spare := first [apply sys_as_spares; discriminate | apply sys__spares; discriminate].

Lemma WithDefault_spares g n : Spares (creates_nic n) (WithDefault g).
Proof.
  apply apply_all_spares.
  repeat (apply Forall_cons; split; [|]); try apply Forall_nil; try done;
    try spare; (apply bindE_spares || apply bind_spares); intros; first [spare|apply ret_spares].
Qed.

Lemma apply_all_app l1 l2 w :
  apply_all (l1 ++ l2) w = bindE (apply_all l1) (λ _, apply_all l2) w.
Proof.
  unfold apply_all. revert w. generalize 0 at 1 2 as i. generalize 0 as j.
  assert (∀ (l : list Option) i j w, rangeE (λ _ opt, opt) i l w = rangeE (λ _ opt, opt) j l w) as Hany.
  { induction l as [|o l IH]; intros i j w; [done|]. cbn [rangeE]. rewrite !bindE_unfold.
    destruct (o w) as [[[[]|e] w']|]; [apply IH|done..]. }
  induction l1 as [|o l1 IH]; intros j i w.
  - rewrite bindE_unfold. cbn [app rangeE]. unfold ret. apply Hany.
  - cbn [app rangeE]. rewrite bindE_assoc, !bindE_unfold.
    destruct (o w) as [[[[]|e] w']|]; [|done..]. rewrite (IH j (i + 1)). reflexivity.
Qed.

Lemma handlers_set w :
  ∃ w', apply_all [withTCPHandler; withUDPHandler] w = Some (Ok tt, w') ∧
    events w' = events w ++ [set_tcp_handler; set_udp_handler].
Proof.
  unfold apply_all, withTCPHandler, withUDPHandler, ignoring, call. cbn [rangeE]. unfold bindE, bind, ret. cbv beta zeta iota.
  eexists. split; [reflexivity|]. unfold events. cbn [trace]. by rewrite !fmap_app, <-app_assoc.
Qed.

Lemma nic_created nicID w :
  ∃ r w', apply_all [withCreatingNIC nicID] w = Some (r, w') ∧ events w' = events w ++ [creates_nic nicID].
Proof.
  unfold apply_all, withCreatingNIC, sys_as, sys, call. cbn [rangeE]. unfold bindE, bind, ret, throw. cbv beta zeta iota.
  destruct (default None (head (verdicts w))); eexists _, _; (split; [reflexivity|apply events_snoc]).
Qed.

Lemma rest_spares nicID groups :
  Spares set_tcp_handler (apply_all
    [withPromiscuousMode nicID nicPromiscuousModeEnabled; withSpoofing nicID nicSpoofingEnabled;
     withRouteTable nicID; withMulticastGroups nicID groups]).
Proof.
  assert (∀ i, Spares set_tcp_handler (rangeE (λ _ a, join_group nicID a) i groups)) as Hj.
  { induction groups as [|a l IH]; intros i; [apply ret_spares|]. apply bindE_spares; [|intros; apply IH].
    unfold join_group. destruct (Is4 a); [spare|]. destruct (Is6 a); [spare|apply ret_spares]. }
  apply apply_all_spares. repeat (apply Forall_cons; split; [|]); try apply Forall_nil; try done; try spare.
  - apply bind_spares; [spare|intros; apply ret_spares].
  - unfold withMulticastGroups. case_decide; [apply ret_spares|].
    do 2 (apply bind_spares; [spare|intros _]). apply Hj.
Qed.

Lemma first_unique {A} (x : A) l1 l2 k1 k2 :
  l1 ++ x :: l2 = k1 ++ x :: k2 → x ∉ k1 → x ∉ l1 → k1 = l1 ∧ k2 = l2.
Proof.
  revert k1. induction l1 as [|a l1 IH]; intros [|b k1]; cbn [app]; intros H Hk Hl.
  - by injection H as ->.
  - injection H as <- _. exfalso. apply Hk. by left.
  - injection H as -> _. exfalso. apply Hl. by left.
  - injection H as -> H. apply IH in H as [-> ->]; [done|..]; intros Hin; [apply Hk|apply Hl]; by right.
Qed.

(** However gVisor's calls turn out, the network interface is created only
    after the handlers of both transports are in place, so no packet can arrive
    without one; and the stack is handed out only if every step succeeded, the
    interface among them. *)
Theorem CreateStack_handlers_first (g : BufferSizes) (nicID : Z) (groups : list Addr) (options : list Option)
    (w w' : World) (r : result unit) (l1 l2 : list event) :
  Forall (Spares (creates_nic nicID)) options →
  CreateStack g nicID groups options w = Some (r, w') →
  (events w' = events w ++ l1 ++ creates_nic nicID :: l2 → creates_nic nicID ∉ l1 →
   set_tcp_handler ∈ l1 ∧ set_udp_handler ∈ l1) ∧
  (r = Ok tt → ∃ l3, events w' = events w ++ l3 ∧ creates_nic nicID ∈ l3).
Proof.
  intros Ho H. unfold CreateStack in H. rewrite app_assoc, apply_all_app, bindE_unfold in H.
  assert (Forall (Spares (creates_nic nicID)) ([WithDefault g] ++ options)) as Hpre.
  { apply Forall_app. split; [|done]. apply Forall_singleton, WithDefault_spares. }
  destruct (apply_all ([WithDefault g] ++ options) w) as [[[[]|e] w1]|] eqn:E1; [| |done];
    apply (apply_all_spares _ _ Hpre) in E1 as (la & Ha & Hna).
  2: { injection H as <- <-. split; [|done]. rewrite Ha. intros Heq%app_inv_head _. exfalso. apply Hna. rewrite Heq.
    apply elem_of_app. right. by left. }
  change (apply_all ([withTCPHandler; withUDPHandler] ++ [withCreatingNIC nicID] ++
    [withPromiscuousMode nicID nicPromiscuousModeEnabled; withSpoofing nicID nicSpoofingEnabled;
     withRouteTable nicID; withMulticastGroups nicID groups]) w1 = Some (r, w')) in H.
  rewrite apply_all_app, bindE_unfold in H.
  destruct (handlers_set w1) as (w2 & E2 & H2). rewrite E2 in H.
  rewrite apply_all_app, bindE_unfold in H.
  destruct (nic_created nicID w2) as (r3 & w3 & E3 & H3). rewrite E3 in H.
  assert (∃ lb, events w' = events w3 ++ lb) as [lb Hb].
  { destruct r3 as [[]|e]; [|injection H as _ <-; exists []; by rewrite app_nil_r].
    apply (rest_spares nicID groups) in H as (lb & Hb & _). by exists lb. }
  assert (events w' = events w ++ (la ++ [set_tcp_handler; set_udp_handler]) ++ creates_nic nicID :: lb) as Hev.
  { rewrite Hb, H3, H2, Ha, <-!app_assoc. done. }
  split.
  - intros Heq Hn. rewrite Hev in Heq. apply app_inv_head, first_unique in Heq as [-> _]; [|done|].
    + by rewrite !elem_of_app, !elem_of_cons; split; right; [left|right; left].
    + rewrite elem_of_app, !elem_of_cons, elem_of_nil. intros [?|[?|[?|?]]]; done.
  - intros _. eexists. split; [exact Hev|]. apply elem_of_app. right. by left.
Qed.

Lemma CreateStack_handlers_first_witness :
  let g := mkSizes 4096 212992 1048576 4194304 in
  let w := mkWorld [] [] 0 [] [] [] ∅ in
  ∃ w' l, CreateStack g 1 [] [WithTCPModerateReceiveBuffer true] w = Some (Ok tt, w') ∧
    events w' = l ∧ creates_nic 1 ∈ l.
Proof.
  intros g w. destruct (CreateStack g 1 [] [WithTCPModerateReceiveBuffer true] w) as [[r w']|] eqn:E; [|vm_compute in E; discriminate].
  assert (r = Ok tt) as -> by (vm_compute in E; congruence).
  assert (Forall (Spares (creates_nic 1)) [WithTCPModerateReceiveBuffer true]) as Ho.
  { apply Forall_singleton. apply sys_as_spares. discriminate. }
  destruct (CreateStack_handlers_first g 1 [] [WithTCPModerateReceiveBuffer true] w w' (Ok tt) [] [] Ho E) as [_ H].
  destruct (H eq_refl) as (l & Hl & Hin). exists w', l. split; [reflexivity|]. split; [exact Hl|exact Hin].
Defined.
