(* ===== verification/TunDevice.v ===== *)
(** The devices under the network stack: the endpoint over an [io.ReadWriter]
    ([tun2socks/core/device/iobased]) with its two goroutines, and the TUN devices
    ([tun2socks/core/device/tun]) that open one.  gVisor's channel between the
    stack and the endpoint is a queue of 1024 packets that drops what does not
    fit. *)

From S2P Require Import Prelude GoStd Conn.

(** ** The endpoint *)

Definition defaultOutQueueLen : Z := 1024.

Record Endpoint := mkEndpoint { mtu : Z; offset : Z }.

Definition New (rw : bool) (mtu offset : Z) : result Endpoint :=
  if decide (mtu = 0) then Fail (ErrNew "MTU size is zero")
  else if negb rw then Fail (ErrNew "RW interface is nil")
  else if decide (offset < 0) then Fail (ErrNew "offset must be non-negative")
  else Ok (mkEndpoint mtu offset).

(** One [Read]: the buffer of [offset + mtu] bytes afterwards, the count, the error. *)
Record reading := mkReading { data : bytes; count : Z; readErr : option error }.
Definition reading_ok (e : Endpoint) (r : reading) : Prop :=
  len (data r) = offset e + mtu e ∧ 0 ≤ count r ≤ offset e + mtu e.

Inductive proto := IPv4 | IPv6.

(** gVisor's [header.IPVersion]: the high half of the first byte, -1 without one. *)
Definition IPVersion (b : bytes) : Z := match b with [] => -1 | x :: _ => Z.shiftr (bZ x) 4 end.

(** One turn of [dispatchLoop] on a read without an error: what is injected.  The
    packet shares [data[offset:offset+n]]; its version is read from [data[offset:]]. *)
Definition dispatch (e : Endpoint) (attached : bool) (r : reading) : go (option (proto * bytes)) :=
  let n := count r in
  if decide (n = 0 ∨ mtu e < n) then Some None
  else if negb attached then Some None
  else
    let! pkt := slice (data r) (offset e) (offset e + n) in
    let! head := slice_from (data r) (offset e) in
    let v := IPVersion head in
    Some (if decide (v = 4) then Some (IPv4, pkt) else if decide (v = 6) then Some (IPv6, pkt) else None).

(** What [writePacket] hands to the [io.Writer]. *)
Definition writePacket (e : Endpoint) (pkt : bytes) : bytes :=
  if decide (offset e ≠ 0) then make_zero (offset e) ++ pkt else pkt.

(** A goroutine that is not started, runs, or has called [wg.Done]. *)
Inductive goroutine := NotStarted | Running | Finished.

(** The endpoint at work.  [seen] (each read, and whether a dispatcher was
    attached), [taken] (what the stack has put into the queue) and [lost] are
    history. *)
Record State := mkState {
  attached : bool; dispatcher : goroutine; writer : goroutine; cancelled : bool;
  queue : list bytes; injected : list (proto * bytes); written : list bytes;
  seen : list (reading * bool); taken : list bytes; lost : list bytes
}.
Definition initial : State := mkState false NotStarted NotStarted false [] [] [] [] [] [].

(** [Attach], with a dispatcher or with nil: the [sync.Once] starts both loops. *)
Definition Attach (d : bool) (s : State) : State :=
  match dispatcher s with
  | NotStarted => mkState d Running Running (cancelled s) (queue s) (injected s) (written s) (seen s) (taken s) (lost s)
  | _ => mkState d (dispatcher s) (writer s) (cancelled s) (queue s) (injected s) (written s) (seen s) (taken s) (lost s)
  end.

(** The stack writes a packet to the channel. *)
Definition WritePacket (p : bytes) (s : State) : State :=
  if decide (len (queue s) < defaultOutQueueLen) then
    mkState (attached s) (dispatcher s) (writer s) (cancelled s) (queue s ++ [p]) (injected s) (written s) (seen s)
      (taken s ++ [p]) (lost s)
  else
    mkState (attached s) (dispatcher s) (writer s) (cancelled s) (queue s) (injected s) (written s) (seen s)
      (taken s) (lost s ++ [p]).

(** A turn of [dispatchLoop] whose read returned [r]; on an error the deferred
    [cancel] runs. *)
Definition dispatchLoop_turn (e : Endpoint) (r : reading) (s : State) : go State :=
  match readErr r with
  | Some _ =>
      Some (mkState (attached s) Finished (writer s) true (queue s) (injected s) (written s) (seen s) (taken s) (lost s))
  | None =>
      let! p := dispatch e (attached s) r in
      Some (mkState (attached s) (dispatcher s) (writer s) (cancelled s) (queue s) (injected s ++ option_list p) (written s)
              (seen s ++ [(r, attached s)]) (taken s) (lost s))
  end.

(** A turn of [outboundLoop]: [ReadContext] selects between the queue and the
    context; the error of the write is dropped. *)
Definition outboundLoop_takes (e : Endpoint) (p : bytes) (rest : list bytes) (s : State) : State :=
  mkState (attached s) (dispatcher s) (writer s) (cancelled s) rest (injected s) (written s ++ [writePacket e p]) (seen s)
    (taken s) (lost s).
Definition outboundLoop_ends (s : State) : State :=
  mkState (attached s) (dispatcher s) Finished (cancelled s) (queue s) (injected s) (written s) (seen s) (taken s) (lost s).

Inductive step (e : Endpoint) : State → State → Prop :=
| step_attach d s : step e s (Attach d s)
| step_write p s : step e s (WritePacket p s)
| step_dispatch r s s' :
    dispatcher s = Running → reading_ok e r → dispatchLoop_turn e r s = Some s' → step e s s'
| step_take p rest s : writer s = Running → queue s = p :: rest → step e s (outboundLoop_takes e p rest s)
| step_end s : writer s = Running → cancelled s = true → step e s (outboundLoop_ends s).

Definition reachable (e : Endpoint) : State → Prop := rtc (step e) initial.

(** [Wait] returns when both goroutines are done. *)
Definition Wait_returns (s : State) : Prop := dispatcher s ≠ Running ∧ writer s ≠ Running.

(** ** What the endpoint promises *)

Definition endpoint_ok (e : Endpoint) : Prop := 0 < mtu e ∧ 0 ≤ offset e.

(** A packet of the device as the stack should see it: one that fits and is of
    IPv4 or IPv6, while the endpoint is attached. *)
Definition packet_of (e : Endpoint) (x : reading * bool) : option (proto * bytes) :=
  let n := count x.1 in
  let pkt := take (Z.to_nat n) (drop (Z.to_nat (offset e)) (data x.1)) in
  if x.2 && bool_decide (0 < n ≤ mtu e) then
    if decide (IPVersion pkt = 4) then Some (IPv4, pkt)
    else if decide (IPVersion pkt = 6) then Some (IPv6, pkt) else None
  else None.

Lemma dispatch_packet e att r :
  endpoint_ok e → reading_ok e r → dispatch e att r = Some (packet_of e (r, att)).
Proof.
  intros [Hm Ho] [Hl Hn]. unfold dispatch, packet_of. cbn [fst snd].
  destruct (decide (count r = 0 ∨ mtu e < count r)) as [Hd|Hd].
  { rewrite bool_decide_eq_false_2 by lia. by rewrite andb_false_r. }
  rewrite bool_decide_eq_true_2 by lia. rewrite andb_true_r. destruct att; [|done]. cbn [negb].
  rewrite slice_Some by lia. unfold slice_from. rewrite slice_Some by lia.
  replace (Z.to_nat (offset e + count r - offset e)) with (Z.to_nat (count r)) by lia.
  set (rest := drop (Z.to_nat (offset e)) (data r)).
  replace (Z.to_nat (len (data r) - offset e)) with (length rest) by (unfold rest, len in *; rewrite length_drop; lia).
  rewrite firstn_all.
  assert (IPVersion (take (Z.to_nat (count r)) rest) = IPVersion rest) as ->; [|done].
  destruct rest; [by rewrite take_nil|]. destruct (Z.to_nat (count r)) eqn:E; [lia|done].
Qed.

(** With buffers as [dispatchLoop] makes them, no slice is out of range. *)
Lemma dispatchLoop_turn_total e r s : endpoint_ok e → reading_ok e r → ∃ s', dispatchLoop_turn e r s = Some s'.
Proof.
  intros He Hr. unfold dispatchLoop_turn. destruct (readErr r); [by eexists|]. rewrite dispatch_packet by done. by eexists.
Qed.

Record inv (e : Endpoint) (s : State) : Prop := {
  inv_in : injected s = omap (packet_of e) (seen s);
  inv_out : ∃ gone, taken s = gone ++ queue s ∧ written s = (λ p, make_zero (offset e) ++ p) <$> gone;
  inv_queue : len (queue s) ≤ defaultOutQueueLen;
  inv_started : dispatcher s = NotStarted → writer s = NotStarted;
  inv_cancel : cancelled s = true ↔ dispatcher s = Finished;
  inv_writer : writer s = NotStarted → dispatcher s = NotStarted
}.

Lemma endpoint_initial_inv e : inv e initial.
Proof. split; cbn; try done. by exists []. Qed.

Lemma endpoint_step_inv e s s' : endpoint_ok e → step e s s' → inv e s → inv e s'.
Proof.
  intros He Hs [H1 (gone & H2 & H3) H4 H5 H6 H7]. destruct Hs as [d s|p s|r s s' Hd Hr E|p rest s Hw Hq|s Hw Hc].
  - unfold Attach. destruct (dispatcher s) eqn:Ed; split; cbn; rewrite ?Ed; try done; try (by exists gone).
    destruct H6 as [H6 _]. split; [|done]. intros Hc. by apply H6 in Hc.
  - unfold WritePacket. case_decide; split; cbn; try done; try (by exists gone).
    + exists gone. by rewrite H2, app_assoc.
    + rewrite len_app. change (len [p]) with 1. lia.
  - unfold dispatchLoop_turn in E. destruct (readErr r).
    + injection E as <-. split; cbn; try done; [by exists gone|]. intros Hw. apply H7 in Hw. congruence.
    + rewrite dispatch_packet in E by done. injection E as <-. split; cbn; try done; [|by exists gone].
      rewrite H1, omap_app. f_equal.
  - rewrite Hq in *. split; cbn; try done.
    + exists (gone ++ [p]). rewrite <-app_assoc. split; [done|]. rewrite fmap_app, H3. do 2 f_equal.
      unfold writePacket. case_decide as Ho; [done|]. by rewrite Ho.
    + rewrite len_cons in H4. lia.
  - split; cbn; try done; [by exists gone|]. intros Hd. apply H5 in Hd. congruence.
Qed.

Lemma endpoint_reachable_inv e s : endpoint_ok e → reachable e s → inv e s.
Proof.
  intros He. unfold reachable. intros Hr. pose proof (endpoint_initial_inv e) as Hi. revert Hi.
  induction Hr as [|x y z Hxy _ IH]; [done|]. intros Hx. apply IH. by eapply endpoint_step_inv.
Qed.

(** C39: at every moment, whatever the interleaving: the stack has received exactly
    the packets of the reads so far, in order; what was written to the device is a
    prefix, in order, of what the stack put into the queue, each packet behind
    [offset] zero bytes; and the queue never exceeds its 1024 places. *)
Theorem endpoint_faithful (e : Endpoint) (s : State) :
  endpoint_ok e → reachable e s →
  injected s = omap (packet_of e) (seen s) ∧
  (∃ gone, taken s = gone ++ queue s ∧ written s = (λ p, make_zero (offset e) ++ p) <$> gone) ∧
  len (queue s) ≤ defaultOutQueueLen.
Proof. intros He Hr. destruct (endpoint_reachable_inv e s He Hr). auto. Qed.

(** Once a read has failed the endpoint can always come to rest, and at rest it
    stays: [Wait] returns, and no loop is started again by another [Attach]. *)
Theorem endpoint_stops (e : Endpoint) (s : State) :
  endpoint_ok e → reachable e s → dispatcher s = Finished →
  (∃ s', rtc (step e) s s' ∧ Wait_returns s') ∧
  (∀ s', Wait_returns s → rtc (step e) s s' → Wait_returns s' ∧ written s' = written s ∧ injected s' = injected s).
Proof.
  intros He Hr Hd. destruct (endpoint_reachable_inv e s He Hr) as [_ _ _ _ Hc Hw]. split.
  - destruct (writer s) eqn:Ew.
    + specialize (Hw eq_refl). congruence.
    + exists (outboundLoop_ends s). split; [|by split; cbn; rewrite ?Hd].
      apply rtc_once, step_end; [done|]. by apply Hc.
    + exists s. split; [done|]. split; congruence.
  - intros s' [_ Hnw] Hs. assert (writer s = Finished) as Hf.
    { destruct (writer s); [specialize (Hw eq_refl); congruence|done|done]. }
    clear Hr Hc Hw Hnw. revert Hd Hf. induction Hs as [s|x y z Hxy _ IH]; intros Hd Hf.
    { split; [|done]. split; congruence. }
    assert (dispatcher y = Finished ∧ writer y = Finished ∧ written y = written x ∧ injected y = injected x) as (H1 & H2 & H3 & H4).
    { destruct Hxy; try congruence; unfold Attach, WritePacket.
      - by rewrite Hd.
      - by case_decide. }
    rewrite <-H3, <-H4. by apply IH.
Qed.

(** ** The TUN device of Linux ([tun_netstack.go]) *)

(** [fmt.Errorf("prefix: %w", err)] on the way out. *)
Definition wrap_w {A} (prefix : string) (m : St World (result A)) : St World (result A) :=
  let* r := m in ret match r with Ok a => Ok a | Fail e => Fail (ErrWrap prefix e) end.

Definition setMTU (name : string) (n : Z) : St World (result unit) :=
  let*? _ := call (ESys "socket") in
  deferring (ignoring (ESys "close socket"))
    (let*? _ := call (ESys ("NewIfreq " +:+ name)) in
     call (ESys ("SIOCSIFMTU " +:+ itoa n))).

Record TUN := mkTUN { tName : string; tFd : Z; tMtu : Z }.
Definition IFNAMSIZ : Z := 16.

(** [fd] is what [tun.Open] returns, [devMTU] what the device reports. *)
Definition Open (name : string) (mtu fd devMTU : Z) : St World (result TUN) :=
  if decide (IFNAMSIZ ≤ slen name) then throw (ErrNew ("interface name too long: " +:+ name))
  else
    let*? _ := wrap_w "create tun: " (call (ESys "tun.Open")) in
    let*? _ := (if decide (0 < mtu) then wrap_w "set mtu: " (setMTU name mtu) else ret (Ok tt)) in
    let*? _ := wrap_w "get mtu: " (call (ESys ("GetMTU " +:+ name))) in
    let*? _ := wrap_w "create endpoint: " (call (ESys ("fdbased.New " +:+ itoa fd +:+ " " +:+ itoa devMTU))) in
    ret (Ok (mkTUN name fd devMTU)).

Definition TUN_Name (t : TUN) : string := tName t.
(** The deferred call runs after the descriptor is closed. *)
Definition TUN_Close (t : TUN) : St World unit :=
  ignoring (ESys ("close " +:+ itoa (tFd t)));;; ignoring (ESys "LinkEndpoint.Close").

#[local] Instance wrap_w_paired {A} a b p (m : St World (result A)) : Paired a b m → Paired a b (wrap_w p m).
Proof. intros H. apply bind_paired; [done|]. intros ?. apply ret_paired. Qed.

(** The socket that [setMTU] opens is closed, whatever fails. *)
Lemma setMTU_tidy name n : Paired (ESys "socket") (ESys "close socket") (setMTU name n).
Proof.
  unfold setMTU. repeat paired_step.
Qed.

(** ** The TUN devices of the other systems ([tun_wireguard.go]) *)

(** [offset] and [defaultMTU] of tun_wireguard_unix.go and tun_wireguard_windows.go. *)
Definition unix_offset : Z := 4.
Definition unix_defaultMTU : Z := 1500.
Definition windows_offset : Z := 0.
Definition windows_defaultMTU : Z := 0.

Section wireguard.
(** The library's [tun.NativeTun]: [CreateTUN], which may panic, [MTU], [Read] of
    one buffer and [Write]. *)
Context {NativeTun : Type}.
Inductive created := Panics (msg : string) | Returns (r : result NativeTun).
Context (createTUN : string → Z → created) (nt_MTU : NativeTun → result Z)
  (nt_Read : NativeTun → bytes → Z → bytes * Z * option error)
  (nt_Write : NativeTun → bytes → Z → result Z)
  (tun_offset defaultMTU : Z).

Record WgTUN := mkWgTUN { wName : string; wMtu : Z; wOffset : Z; wNt : NativeTun; wEndpoint : Endpoint }.

(** [Open] turns a panic into an error. *)
Definition wg_Open (name : string) (mtu : Z) : result WgTUN :=
  let forcedMTU := if decide (0 < mtu) then mtu else defaultMTU in
  match createTUN name forcedMTU with
  | Panics msg => Fail (ErrNew ("open tun: " +:+ msg))
  | Returns (Fail e) => Fail (ErrWrap "create tun: " e)
  | Returns (Ok nt) =>
      match nt_MTU nt with
      | Fail e => Fail (ErrWrap "get mtu: " e)
      | Ok tunMTU =>
          match New true (u32 tunMTU) tun_offset with
          | Fail e => Fail (ErrWrap "create endpoint: " e)
          | Ok ep => Ok (mkWgTUN name (u32 tunMTU) tun_offset nt ep)
          end
      end
  end.

(** [Read] fills the endpoint's buffer behind the offset; [Write] is given a
    buffer that starts with as many bytes. *)
Definition wg_Read (t : WgTUN) (packet : bytes) : reading :=
  let '(buf, size, err) := nt_Read (wNt t) packet (wOffset t) in mkReading buf size err.
Definition wg_Write (t : WgTUN) (packet : bytes) : result Z := nt_Write (wNt t) packet (wOffset t).

(** The device and its endpoint agree: a device that fills no more than its
    buffer gives reads the endpoint can slice, and an opened device has an
    endpoint that is well formed. *)
Lemma wg_Read_ok name mtu t :
  0 ≤ tun_offset → wg_Open name mtu = Ok t →
  endpoint_ok (wEndpoint t) ∧ offset (wEndpoint t) = wOffset t ∧
  ((∀ nt b o, let '(b', n, _) := nt_Read nt b o in len b' = len b ∧ 0 ≤ n ≤ len b - o) →
   reading_ok (wEndpoint t) (wg_Read t (make_zero (offset (wEndpoint t) + TunDevice.mtu (wEndpoint t))))).
Proof.
  intros Ho H. unfold wg_Open in H. destruct (createTUN name _) as [|[nt|]]; try done.
  destruct (nt_MTU nt) as [n|]; [|done]. unfold New in H. case_decide as Hm; [done|]. cbn [negb] in H.
  rewrite decide_False in H by lia. injection H as <-. unfold endpoint_ok. cbn.
  pose proof (Z.mod_pos_bound n 4294967296 ltac:(lia)) as Hb. unfold u32 in *. split; [lia|]. split; [done|].
  intros Hr. unfold wg_Read. cbn. specialize (Hr nt (make_zero (tun_offset + n mod 4294967296)) tun_offset).
  destruct (nt_Read _ _ _) as [[b k] err]. destruct Hr as [Hl Hk]. unfold reading_ok. cbn.
  unfold make_zero in *. rewrite len_replicate in Hl, Hk by lia. lia.
Qed.
End wireguard.

(** ** At work *)

Definition toy_endpoint : Endpoint := mkEndpoint 20 4.
Definition toy_packet : bytes := Byte.x45 :: make_zero 19.
Definition toy_reading : reading := mkReading (make_zero 4 ++ toy_packet) 20 None.
Definition toy_failure : reading := mkReading (make_zero 24) 0 (Some EOF).
Definition toy_state : State :=
  default initial (dispatchLoop_turn toy_endpoint toy_failure
    (default initial (dispatchLoop_turn toy_endpoint toy_reading (WritePacket toy_packet (Attach true initial))))).

Lemma toy_reachable : reachable toy_endpoint toy_state.
Proof.
  unfold reachable. eapply rtc_l; [apply (step_attach _ true)|]. eapply rtc_l; [apply (step_write _ toy_packet)|].
  eapply rtc_l; [apply (step_dispatch _ toy_reading); [reflexivity|vm_compute; intuition discriminate|reflexivity]|].
  apply rtc_once. apply (step_dispatch _ toy_failure); [reflexivity|vm_compute; intuition discriminate|reflexivity].
Qed.

Lemma endpoint_faithful_witness :
  endpoint_ok toy_endpoint ∧ reachable toy_endpoint toy_state ∧ injected toy_state = [(IPv4, toy_packet)] ∧
  ∃ gone, taken toy_state = gone ++ queue toy_state ∧ written toy_state = (λ p, make_zero 4 ++ p) <$> gone.
Proof.
  assert (H : endpoint_ok toy_endpoint) by (vm_compute; intuition discriminate).
  split; [exact H|]. split; [exact toy_reachable|]. split; [vm_compute; reflexivity|].
  destruct (endpoint_faithful toy_endpoint toy_state H toy_reachable) as (_ & Hg & _). exact Hg.
Defined.

Lemma endpoint_stops_witness :
  dispatcher toy_state = Finished ∧ ∃ s', rtc (step toy_endpoint) toy_state s' ∧ Wait_returns s'.
Proof.
  assert (H : endpoint_ok toy_endpoint) by (vm_compute; intuition discriminate).
  split; [reflexivity|].
  destruct (endpoint_stops toy_endpoint toy_state H toy_reachable eq_refl) as [Hs _]. exact Hs.
Defined.

(** A failure after [tun.Open] leaves the descriptor open: here the MTU cannot
    be set. *)
Example Open_leaks :
  ∃ e w', Open "tun0" 1400 5 1500 (mkWorld [] [None; None; None; Some EOF] 0 [] [] [] ∅) = Some (Fail e, w') ∧
    events w' = [ESys "tun.Open"; ESys "socket"; ESys "NewIfreq tun0"; ESys "SIOCSIFMTU 1400"; ESys "close socket"].
Proof. eexists _, _. split; vm_compute; reflexivity. Qed.
