(* ===== verification/ShadowAead.v ===== *)
(** Shadowsocks with AEAD ciphers ([tun2socks/transport/shadowsocks/shadowaead]):
    the stream of sealed records with its counting nonce, and the packets.  The
    ciphers and the key derivation are the crypto packages', a record of
    operations with their laws.  The theorem: whatever is written into one end
    comes out of the other, however both sides cut it into calls. *)

From S2P Require Import Prelude GoStd Conn.

(** ** The cipher packages *)

(** [cipher.AEAD] without additional data. *)
Record AEAD := mkAEAD {
  NonceSize : Z;
  Overhead : Z;
  Seal : bytes → bytes → bytes;             (* nonce, plaintext *)
  Open : bytes → bytes → option bytes       (* nonce, ciphertext *)
}.

Class AEADLaws (a : AEAD) : Prop := {
  nonce_size : 0 ≤ NonceSize a ≤ 32;
  overhead_nonneg : 0 ≤ Overhead a;
  seal_len n p : len (Seal a n p) = len p + Overhead a;
  open_seal n p : Open a n (Seal a n p) = Some p
}.

Definition errOpen : error := ErrNew "cipher: message authentication failed".
Definition ErrZeroChunk : error := ErrNew "zero chunk".
Definition ErrShortPacket : error := ErrNew "short packet".

(** [metaCipher] ([cipher.go]): [hkdf] is [hkdfSHA1] with its info string, of the
    length asked for. *)
Record metaCipher := mkCipher {
  psk : bytes;
  makeAEAD : bytes → result AEAD;
  hkdf : bytes → bytes → string → Z → bytes
}.
Definition KeySize (a : metaCipher) : Z := len (psk a).
Definition SaltSize (a : metaCipher) : Z := let ks := KeySize a in if decide (16 < ks) then ks else 16.
Definition Encrypter (a : metaCipher) (salt : bytes) : result AEAD :=
  makeAEAD a (hkdf a (psk a) salt "ss-subkey" (KeySize a)).
Definition Decrypter (a : metaCipher) (salt : bytes) : result AEAD :=
  makeAEAD a (hkdf a (psk a) salt "ss-subkey" (KeySize a)).

Definition KeySizeError (n : Z) : error := ErrNew ("key size error: need " +:+ itoa n +:+ " bytes").
Definition aes_KeySizeError (n : Z) : error := ErrNew ("crypto/aes: invalid key size " +:+ itoa n).
Definition chacha_KeySize : Z := 32.

(** [AESGCM], [Chacha20Poly1305], [XChacha20Poly1305]; [make] is the package's
    constructor. *)
Definition AESGCM (make : bytes → result AEAD) (kdf : bytes → bytes → string → Z → bytes) (psk : bytes) : result metaCipher :=
  let l := len psk in
  if decide (l = 16 ∨ l = 24 ∨ l = 32) then Ok (mkCipher psk make kdf) else Fail (aes_KeySizeError l).
Definition Chacha20Poly1305 (make : bytes → result AEAD) (kdf : bytes → bytes → string → Z → bytes) (psk : bytes) : result metaCipher :=
  if decide (len psk ≠ chacha_KeySize) then Fail (KeySizeError chacha_KeySize) else Ok (mkCipher psk make kdf).

(** The nonce of XChaCha20 makes the only difference. *)
Definition XChacha20Poly1305 (makeX : bytes → result AEAD) (kdf : bytes → bytes → string → Z → bytes) (psk : bytes) : result metaCipher :=
  if decide (len psk ≠ chacha_KeySize) then Fail (KeySizeError chacha_KeySize) else Ok (mkCipher psk makeX kdf).

(** ** Records ([stream.go]) *)

Definition payloadSizeMask : Z := 16383.
Definition bufSize : Z := 17 * 1024.

(** [increment]: little endian, wraps around. *)
Fixpoint increment (b : bytes) : bytes :=
  match b with
  | [] => []
  | x :: b => let x' := Zb (bZ x + 1) in if decide (bZ x' ≠ 0) then x' :: b else x' :: increment b
  end.

Section aead.
Context (a : AEAD).

(** The nonce is the front of an array of 32 bytes. *)
Definition nonce_of (array : bytes) : go bytes := slice_to array (NonceSize a).
Definition put_nonce (array nonce : bytes) : bytes := copy array nonce.

(** The two seals of one record. *)
Definition seal_record (nonce chunk : bytes) : bytes * bytes :=
  let n1 := increment nonce in
  (Seal a nonce (put16 (len chunk)) ++ Seal a n1 chunk, increment n1).

(** [Writer]: the connection it writes to is an argument. *)
Record Writer := mkWriter { wNonce : bytes }.
Definition NewWriter : Writer := mkWriter (make_zero 32).

(** The loop of [Write] from [n]: the bytes of a record count even when the write
    fails. *)
Fixpoint write_loop (fuel : nat) (c : conn) (nonce : bytes) (p : bytes) (n : Z)
    : St World ((Z * option error) * bytes) :=
  match fuel with
  | O => lift None
  | S fuel =>
      if decide (n < len p) then
        let nr := if decide (len p < n + payloadSizeMask) then len p - n else payloadSizeMask in
        let* chunk := lift (slice p n (n + nr)) in
        let '(rec, nonce) := seal_record nonce chunk in
        let* r := write c rec in
        match r with
        | Fail e => ret ((n + nr, Some e), nonce)
        | Ok _ => write_loop fuel c nonce p (n + nr)
        end
      else ret ((n, None), nonce)
  end.

Definition Writer_Write (c : conn) (w : Writer) (p : bytes) : St World ((Z * option error) * Writer) :=
  let* nonce := lift (nonce_of (wNonce w)) in
  if decide (len p = 0) then
    let sealed := Seal a nonce (put16 0) in
    let* r := write c sealed in
    ret ((0, match r with Ok _ => None | Fail e => Some e end), mkWriter (put_nonce (wNonce w) (increment nonce)))
  else
    let* (res, nonce) := write_loop (S (length p)) c nonce p 0 in
    ret (res, mkWriter (put_nonce (wNonce w) nonce)).

(** [Writer.ReadFrom] on a source that gives these reads, each with its error:
    the record is sent whatever the read returned. *)
Fixpoint readFrom_loop (c : conn) (nonce : bytes) (reads : list (bytes * option error)) (n : Z)
    : St World ((Z * option error) * bytes) :=
  match reads with
  | [] => ret ((n, None), nonce)
  | (data, er) :: reads =>
      let '(rec, nonce) := seal_record nonce data in
      let n := n + len data in
      let* r := write c rec in
      match r, er with
      | Fail ew, _ => ret ((n, Some ew), nonce)
      | Ok _, Some er => ret ((n, if decide (er = EOF) then None else Some er), nonce)
      | Ok _, None => readFrom_loop c nonce reads n
      end
  end.
Definition Writer_ReadFrom (c : conn) (w : Writer) (reads : list (bytes * option error))
    : St World ((Z * option error) * Writer) :=
  let* nonce := lift (nonce_of (wNonce w)) in
  let* (res, nonce) := readFrom_loop c nonce reads 0 in
  ret (res, mkWriter (put_nonce (wNonce w) nonce)).

(** [Reader]: [rBuf] is what is left of the current record, [buf[off:]]. *)
Record Reader := mkReader { rNonce : bytes; rBuf : option bytes }.
Definition NewReader : Reader := mkReader (make_zero 32) None.

Definition set_nonce (r : Reader) (nonce : bytes) : Reader := mkReader (put_nonce (rNonce r) nonce) (rBuf r).
Definition set_buf (r : Reader) (b : option bytes) : Reader := mkReader (rNonce r) b.

(** [Reader.read]: one record. *)
Definition read_record (c : conn) (r : Reader) : St World (result bytes * Reader) :=
  let* nonce := lift (nonce_of (rNonce r)) in
  let* hdr := readN c (2 + Overhead a) in
  match hdr with
  | Fail e => ret (Fail e, r)
  | Ok hdr =>
      let n1 := increment nonce in
      match Open a nonce hdr with
      | None => ret (Fail errOpen, set_nonce r n1)
      | Some p =>
          let* p0 := lift (idx p 0) in
          let* p1 := lift (idx p 1) in
          let size := Z.land (Z.shiftl (bZ p0) 8 + bZ p1) payloadSizeMask in
          if decide (size = 0) then ret (Fail ErrZeroChunk, set_nonce r n1) else
          let* body := readN c (size + Overhead a) in
          match body with
          | Fail e => ret (Fail e, set_nonce r n1)
          | Ok body =>
              match Open a n1 body with
              | None => ret (Fail errOpen, set_nonce r (increment n1))
              | Some data => ret (Ok data, set_nonce r (increment n1))
              end
          end
      end
  end.

(** The end of [Read]: hand out what the buffer holds. *)
Definition hand_out (r : Reader) (buf : bytes) (n : Z) : result bytes * Reader :=
  let out := take (Z.to_nat n) buf in
  let rest := drop (Z.to_nat n) buf in
  (Ok out, set_buf r (if decide (rest = []) then None else Some rest)).

(** [Read] into a buffer of [n] bytes. *)
Definition Reader_Read (c : conn) (r : Reader) (n : Z) : St World (result bytes * Reader) :=
  match rBuf r with
  | Some buf => ret (hand_out r buf n)
  | None =>
      let* (res, r) := read_record c r in
      match res with
      | Fail e => ret (Fail e, r)
      | Ok data => ret (if decide (payloadSizeMask + Overhead a ≤ n) then (Ok data, r) else hand_out r data n)
      end
  end.

(** [Reader.WriteTo] the connection [d]: what is left of a record, then record by
    record until a read fails.  A failed write has written nothing.  After it the
    buffer is not [nil] any more, with nothing left in it. *)
Fixpoint writeTo_loop (fuel : nat) (c d : conn) (r : Reader) (n : Z) : St World ((Z * option error) * Reader) :=
  match fuel with
  | O => lift None
  | S fuel =>
      let buf := default [] (rBuf r) in
      let* sent := (if decide (buf = []) then ret (Ok tt) else write d buf) in
      match sent with
      | Fail ew => ret ((n, Some ew), set_buf r (Some buf))
      | Ok _ =>
          let n := n + len buf in
          let* (res, r) := read_record c r in
          match res with
          | Fail er => ret ((n, if decide (er = EOF) then None else Some er), set_buf r (Some []))
          | Ok data => writeTo_loop fuel c d (set_buf r (Some data)) n
          end
      end
  end.
Definition Reader_WriteTo (c d : conn) (r : Reader) : St World ((Z * option error) * Reader) := λ w,
  writeTo_loop (S (length (default [] (inbox w !! cid c)))) c d r 0 w.
End aead.

(** ** Connections *)

Record Conn := mkConnS { cipher : metaCipher; reader : option (AEAD * Reader); writer : option (AEAD * Writer) }.
Definition NewConn (ciph : metaCipher) : Conn := mkConnS ciph None None.

Definition initReader (c : conn) (s : Conn) : St World (result (AEAD * Reader)) :=
  let*? salt := readN c (SaltSize (cipher s)) in
  match Decrypter (cipher s) salt with
  | Fail e => throw e
  | Ok a => ret (Ok (a, NewReader))
  end.

Definition Conn_Read (c : conn) (s : Conn) (n : Z) : St World (result bytes * Conn) :=
  let* r := match reader s with Some r => ret (Ok r) | None => initReader c s end in
  match r with
  | Fail e => ret (Fail e, s)
  | Ok (a, r) =>
      let* (res, r) := Reader_Read a c r n in
      ret (res, mkConnS (cipher s) (Some (a, r)) (writer s))
  end.

(** [salt] is what [rand.Read] gives. *)
Definition initWriter (c : conn) (s : Conn) (salt : bytes) : St World (result (AEAD * Writer)) :=
  match Encrypter (cipher s) salt with
  | Fail e => throw e
  | Ok a => let*? _ := write c salt in ret (Ok (a, NewWriter))
  end.

Definition Conn_Write (c : conn) (s : Conn) (salt b : bytes) : St World ((Z * option error) * Conn) :=
  let* w := match writer s with Some w => ret (Ok w) | None => initWriter c s salt end in
  match w with
  | Fail e => ret ((0, Some e), s)
  | Ok (a, w) =>
      let* (res, w) := Writer_Write a c w b in
      ret (res, mkConnS (cipher s) (reader s) (Some (a, w)))
  end.

Definition Conn_WriteTo (c d : conn) (s : Conn) : St World ((Z * option error) * Conn) :=
  let* r := match reader s with Some r => ret (Ok r) | None => initReader c s end in
  match r with
  | Fail e => ret ((0, Some e), s)
  | Ok (a, r) =>
      let* (res, r) := Reader_WriteTo a c d r in
      ret (res, mkConnS (cipher s) (Some (a, r)) (writer s))
  end.
Definition Conn_ReadFrom (c : conn) (s : Conn) (salt : bytes) (reads : list (bytes * option error)) : St World ((Z * option error) * Conn) :=
  let* w := match writer s with Some w => ret (Ok w) | None => initWriter c s salt end in
  match w with
  | Fail e => ret ((0, Some e), s)
  | Ok (a, w) =>
      let* (res, w) := Writer_ReadFrom a c w reads in
      ret (res, mkConnS (cipher s) (reader s) (Some (a, w)))
  end.

(** ** Packets ([packet.go]) *)

Definition zerononce : bytes := make_zero 128.
Definition maxPacketSize : Z := 64 * 1024.

(** [dstlen] is [len(dst)]; the salt is what [rand.Read] puts at its front. *)
Definition Pack (dstlen : Z) (salt plaintext : bytes) (ciph : metaCipher) : go (result bytes) :=
  if decide (dstlen < SaltSize ciph) then None else   (* dst[:saltSize] *)
  match Encrypter ciph salt with
  | Fail e => Some (Fail e)
  | Ok a =>
      if decide (dstlen < SaltSize ciph + len plaintext + Overhead a) then Some (Fail ErrShortBuffer) else
      let! nonce := slice_to zerononce (NonceSize a) in
      Some (Ok (salt ++ Seal a nonce plaintext))
  end.

Definition Unpack (dstlen : Z) (pkt : bytes) (ciph : metaCipher) : go (result bytes) :=
  let saltSize := SaltSize ciph in
  if decide (len pkt < saltSize) then Some (Fail ErrShortPacket) else
  let! salt := slice_to pkt saltSize in
  match Decrypter ciph salt with
  | Fail e => Some (Fail e)
  | Ok a =>
      if decide (len pkt < saltSize + Overhead a) then Some (Fail ErrShortPacket) else
      if decide (saltSize + dstlen + Overhead a < len pkt) then Some (Fail ErrShortBuffer) else
      let! nonce := slice_to zerononce (NonceSize a) in
      let! sealed := slice_from pkt saltSize in
      Some (match Open a nonce sealed with Some b => Ok b | None => Fail errOpen end)
  end.

(** [PacketConn.WriteTo] and [ReadFrom]: the bytes for the inner connection, and
    what a caller with a buffer of [blen] bytes gets for a packet of [pkt]. *)
Definition PacketConn_WriteTo (ciph : metaCipher) (salt b : bytes) : go (result bytes) :=
  Pack maxPacketSize salt b ciph.
Definition PacketConn_ReadFrom (ciph : metaCipher) (blen : Z) (pkt : bytes) : go (result bytes) :=
  if decide (blen < SaltSize ciph) then None else     (* b[SaltSize():] *)
  Unpack (blen - SaltSize ciph) (take (Z.to_nat blen) pkt) ciph.

Lemma take_len_app {A} (l r : list A) : take (Z.to_nat (len l)) (l ++ r) = l.
Proof. unfold len. by rewrite Nat2Z.id, take_app_length. Qed.
Lemma drop_len_app {A} (l r : list A) : drop (Z.to_nat (len l)) (l ++ r) = r.
Proof. unfold len. by rewrite Nat2Z.id, drop_app_length. Qed.

(** ** The stream as records *)

Section records.
Context (a : AEAD) `{AL : !AEADLaws a}.

(** The records of a list of chunks, and the nonce after them. *)
Fixpoint wire (nonce : bytes) (chunks : list bytes) : bytes :=
  match chunks with
  | [] => []
  | ch :: l => (seal_record a nonce ch).1 ++ wire (seal_record a nonce ch).2 l
  end.
Fixpoint nonce_after (nonce : bytes) (chunks : list bytes) : bytes :=
  match chunks with [] => nonce | ch :: l => nonce_after (seal_record a nonce ch).2 l end.

Definition chunk_ok (ch : bytes) : Prop := 0 < len ch ≤ payloadSizeMask.

Lemma wire_app nonce l1 l2 : wire nonce (l1 ++ l2) = wire nonce l1 ++ wire (nonce_after nonce l1) l2.
Proof. revert nonce. induction l1 as [|ch l1 IH]; intros nonce; [done|]. cbn [app wire nonce_after]. by rewrite IH, app_assoc. Qed.
Lemma nonce_after_app nonce l1 l2 : nonce_after nonce (l1 ++ l2) = nonce_after (nonce_after nonce l1) l2.
Proof. revert nonce. induction l1 as [|ch l1 IH]; intros nonce; [done|]. cbn [app nonce_after]. apply IH. Qed.

Lemma increment_len b : len (increment b) = len b.
Proof.
  induction b as [|x b IH]; [done|]. cbn [increment]. case_decide; rewrite !len_cons; [done|]. by rewrite IH.
Qed.
Lemma nonce_after_len nonce l : len (nonce_after nonce l) = len nonce.
Proof.
  revert nonce. induction l as [|ch l IH]; intros nonce; [done|]. cbn [nonce_after]. rewrite IH.
  cbn [seal_record snd]. by rewrite !increment_len.
Qed.

(** The nonce kept in its array. *)
Definition holds (array nonce : bytes) : Prop := len array = 32 ∧ len nonce = NonceSize a ∧ nonce `prefix_of` array.

Lemma holds_nonce array nonce : holds array nonce → nonce_of a array = Some nonce.
Proof.
  intros (Ha & Hn & l & ->). pose proof (nonce_size (a:=a)). unfold nonce_of.
  rewrite slice_to_Some by len_lia. rewrite <-Hn. unfold len. by rewrite Nat2Z.id, take_app_length.
Qed.
Lemma holds_put array nonce nonce' : holds array nonce → len nonce' = len nonce → holds (put_nonce array nonce') nonce'.
Proof.
  intros (Ha & Hn & _) Hl. pose proof (nonce_size (a:=a)). split; [|split].
  - unfold put_nonce. by rewrite copy_len.
  - lia.
  - unfold put_nonce. rewrite copy_prefix by lia. by eexists.
Qed.
Lemma holds_zero : holds (make_zero 32) (make_zero (NonceSize a)).
Proof.
  pose proof (nonce_size (a:=a)). split; [done|]. split; [unfold make_zero; apply len_replicate; lia|].
  exists (make_zero (32 - NonceSize a)). unfold make_zero. rewrite <-replicate_add. f_equal. lia.
Qed.

(** *** Writing *)

Definition writes (c : conn) (l : list bytes) : list event := EWrite c <$> l.

(** The records of a list of chunks, one by one. *)
Fixpoint records (nonce : bytes) (chunks : list bytes) : list bytes :=
  match chunks with
  | [] => []
  | ch :: l => (seal_record a nonce ch).1 :: records (seal_record a nonce ch).2 l
  end.
Lemma records_wire nonce chunks : concat (records nonce chunks) = wire nonce chunks.
Proof. revert nonce. induction chunks as [|ch l IH]; intros nonce; [done|]. cbn [records concat wire]. by rewrite IH. Qed.

Lemma write_loop_sends c p fuel nonce n w :
  0 ≤ n ≤ len p → (Z.to_nat (len p - n) < fuel)%nat →
  ∃ res nonce' w' chunks, write_loop a fuel c nonce p n w = Some ((res, nonce'), w') ∧
    (snd res = None → fst res = len p ∧ Forall chunk_ok chunks ∧ concat chunks = drop (Z.to_nat n) p ∧
       nonce' = nonce_after nonce chunks ∧ events w' = events w ++ writes c (records nonce chunks)).
Proof.
  revert nonce n w. induction fuel as [|fuel IH]; intros nonce n w Hn Hf; [lia|]. cbn [write_loop].
  destruct (decide (n < len p)) as [Hlt|Hge].
  2: { exists (n, None), nonce, w, []. split; [done|]. intros _. split; [cbn; lia|]. split; [constructor|].
    split; [|split; [done|by rewrite app_nil_r]]. rewrite drop_ge; [done|]. unfold len in *. lia. }
  set (nr := if decide (len p < n + payloadSizeMask) then len p - n else payloadSizeMask).
  assert (0 < nr ≤ payloadSizeMask ∧ n + nr ≤ len p) as [Hnr Hle] by (unfold nr, payloadSizeMask in *; case_decide; lia).
  unfold bind at 1, lift. rewrite slice_Some by lia. cbv beta iota.
  replace (n + nr - n) with nr by lia. set (chunk := take (Z.to_nat nr) (drop (Z.to_nat n) p)).
  assert (len chunk = nr) as Hch by (unfold chunk; rewrite len_take; [done|]; rewrite len_drop by lia; lia).
  destruct (seal_record a nonce chunk) as [rec nonce1] eqn:Hs. unfold bind at 1, write, call. cbv beta zeta.
  set (v := default None (head (verdicts w))). destruct v as [e|].
  { eexists _, _, _, []. split; [reflexivity|]. done. }
  set (w1 := mkWorld _ _ _ _ _ _ _).
  destruct (IH nonce1 (n + nr) w1) as (res & nonce' & w' & chunks & E & H); [lia|lia|].
  exists res, nonce', w', (chunk :: chunks). split; [exact E|]. intros Hr. destruct (H Hr) as (H1 & H2 & H3 & H4 & H5).
  split; [done|]. split; [constructor; [unfold chunk_ok; lia|done]|]. cbn [concat nonce_after records]. rewrite Hs. cbn [fst snd].
  split; [|split; [done|]].
  - rewrite H3. replace (Z.to_nat (n + nr)) with (Z.to_nat n + Z.to_nat nr)%nat by lia.
    rewrite <-drop_drop. unfold chunk. apply take_drop.
  - rewrite H5. unfold w1. rewrite events_snoc, <-app_assoc. done.
Qed.

Lemma Writer_Write_sends c wr nonce p w :
  holds (wNonce wr) nonce → p ≠ [] →
  ∃ res wr' w' chunks, Writer_Write a c wr p w = Some ((res, wr'), w') ∧
    (snd res = None → fst res = len p ∧ Forall chunk_ok chunks ∧ concat chunks = p ∧
       holds (wNonce wr') (nonce_after nonce chunks) ∧ events w' = events w ++ writes c (records nonce chunks)).
Proof.
  intros Hh Hp. unfold Writer_Write. rewrite (holds_nonce _ _ Hh), bind_lift_Some.
  rewrite decide_False by (intros H0; by apply Hp, len_0_nil). unfold bind.
  destruct (write_loop_sends c p (S (length p)) nonce 0 w) as (res & nonce' & w' & chunks & -> & H);
    [pose proof (len_nonneg p); lia|unfold len; lia|].
  exists res, (mkWriter (put_nonce (wNonce wr) nonce')), w', chunks. split; [done|]. intros Hr.
  destruct (H Hr) as (H1 & H2 & H3 & -> & H5). split; [done|]. split; [done|]. split; [by rewrite H3|].
  split; [|done]. cbn [wNonce]. eapply holds_put; [done|]. apply nonce_after_len.
Qed.

(** *** Reading *)

Lemma seal_header ch : chunk_ok ch →
  ∃ p0 p1, put16 (len ch) = [p0; p1] ∧ Z.land (Z.shiftl (bZ p0) 8 + bZ p1) payloadSizeMask = len ch.
Proof.
  intros Hch. unfold chunk_ok, payloadSizeMask in Hch. pose proof (be16_put16 (len ch) []) as Hbe. unfold put16 in *.
  rewrite app_nil_r, be16_cons in Hbe. injection Hbe as Hbe. eexists _, _. split; [done|].
  rewrite Z.shiftl_mul_pow2 by lia. change (2 ^ 8) with 256. rewrite Hbe. unfold u16.
  rewrite (Z.mod_small (len ch)) by lia. unfold payloadSizeMask. change 16383 with (Z.ones 14).
  rewrite Z.land_ones by lia. apply Z.mod_small. change (2 ^ 14) with 16384. lia.
Qed.

Lemma read_record_ok c r nonce ch rest w :
  holds (rNonce r) nonce → chunk_ok ch → default [] (inbox w !! cid c) = (seal_record a nonce ch).1 ++ rest →
  ∃ r' w', read_record a c r w = Some ((Ok ch, r'), w') ∧ holds (rNonce r') (seal_record a nonce ch).2 ∧
    rBuf r' = rBuf r ∧ default [] (inbox w' !! cid c) = rest ∧ trace w' = trace w ∧ verdicts w' = verdicts w.
Proof.
  intros Hh Hch Hin. cbn [seal_record fst snd] in *. destruct (seal_header ch Hch) as (p0 & p1 & Hput & Hsize).
  unfold read_record. rewrite (holds_nonce _ _ Hh), bind_lift_Some. unfold bind at 1.
  pose proof (overhead_nonneg (a:=a)). rewrite <-app_assoc in Hin.
  assert (len (Seal a nonce (put16 (len ch))) = 2 + Overhead a) as Hl1 by (rewrite seal_len, Hput, !len_cons, len_nil; lia).
  destruct (readN_take c (2 + Overhead a) w) as (w1 & -> & Ht1 & Hv1 & Hi1); [rewrite Hin; len_lia|].
  rewrite Hin in Hi1 |- *. rewrite <-Hl1 in Hi1 |- *. rewrite take_len_app. rewrite drop_len_app in Hi1. rewrite open_seal, Hput.
  change (idx [p0; p1] 0) with (Some p0). change (idx [p0; p1] 1) with (Some p1). rewrite !bind_lift_Some.
  cbv zeta. rewrite Hsize. rewrite decide_False by (unfold chunk_ok in Hch; lia). unfold bind.
  assert (len (Seal a (increment nonce) ch) = len ch + Overhead a) as Hl2 by apply seal_len.
  destruct (readN_take c (len ch + Overhead a) w1) as (w2 & E2 & Ht2 & Hv2 & Hi2);
    [rewrite Hi1; pose proof (len_nonneg ch); len_lia|].
  rewrite E2. rewrite Hi1 in Hi2 |- *. rewrite <-Hl2 in Hi2 |- *.
  rewrite take_len_app. rewrite drop_len_app in Hi2. rewrite open_seal.
  eexists _, w2. split; [reflexivity|]. rewrite Ht2, Hv2, Ht1, Hv1. split; [|by split].
  cbn [rNonce set_nonce]. eapply holds_put; [done|]. by rewrite !increment_len.
Qed.

Lemma read_record_eof c r nonce w :
  holds (rNonce r) nonce → default [] (inbox w !! cid c) = [] →
  ∃ w', read_record a c r w = Some ((Fail EOF, r), w') ∧ trace w' = trace w.
Proof.
  intros Hh Hin. unfold read_record. rewrite (holds_nonce _ _ Hh), bind_lift_Some. unfold bind, readN.
  rewrite Hin, take_nil, drop_nil. pose proof (overhead_nonneg (a:=a)).
  rewrite decide_False by (rewrite len_nil; lia). rewrite decide_True by done.
  by eexists.
Qed.

(** A reader in front of the rest of a stream. *)
Definition reading (c : conn) (r : Reader) (w : World) (plain : bytes) : Prop :=
  ∃ nonce chunks, holds (rNonce r) nonce ∧ Forall chunk_ok chunks ∧
    default [] (inbox w !! cid c) = wire nonce chunks ∧ plain = default [] (rBuf r) ++ concat chunks ∧
    (∀ b, rBuf r = Some b → b ≠ []).

Lemma hand_out_reading c r buf n w nonce chunks :
  holds (rNonce r) nonce → Forall chunk_ok chunks → default [] (inbox w !! cid c) = wire nonce chunks →
  0 < n → buf ≠ [] →
  ∃ out rest, hand_out r buf n = (Ok out, rest) ∧ out ≠ [] ∧
    ∃ plain, buf ++ concat chunks = out ++ plain ∧ reading c rest w plain.
Proof.
  intros Hh Hc Hin Hn Hb. unfold hand_out. eexists _, _. split; [reflexivity|]. split.
  { destruct buf; [done|]. destruct (Z.to_nat n) eqn:E; [lia|done]. }
  exists (drop (Z.to_nat n) buf ++ concat chunks). split; [by rewrite app_assoc, take_drop|].
  exists nonce, chunks. split; [done|]. split; [done|]. split; [done|]. cbn [rBuf set_buf].
  case_decide as Hd; [by rewrite Hd|]. split; [done|]. intros b H. injection H as <-. done.
Qed.

Lemma Reader_Read_reading c r n w plain :
  reading c r w plain → 0 < n →
  ∃ res r' w', Reader_Read a c r n w = Some ((res, r'), w') ∧
    ((∃ out plain', res = Ok out ∧ out ≠ [] ∧ plain = out ++ plain' ∧ reading c r' w' plain') ∨
     (res = Fail EOF ∧ plain = [])).
Proof.
  intros (nonce & chunks & Hh & Hc & Hin & -> & Hb) Hn. unfold Reader_Read.
  destruct (rBuf r) as [buf|] eqn:Eb.
  - destruct (hand_out_reading c r buf n w nonce chunks) as (out & rest & E & Ho & plain' & Hp & Hr); try done; [by apply Hb|].
    exists (Ok out), rest, w. unfold ret. rewrite E. split; [done|]. left. exists out, plain'. done.
  - destruct chunks as [|ch chunks].
    + unfold bind. destruct (read_record_eof c r nonce w Hh Hin) as (w' & -> & _).
      eexists _, _, w'. split; [reflexivity|]. by right.
    + apply Forall_cons in Hc as [Hch Hc]. cbn [wire] in Hin. unfold bind.
      destruct (read_record_ok c r nonce ch _ w Hh Hch Hin) as (r' & w' & -> & Hh' & Hb' & Hin' & _). cbn [default from_option].
      assert (ch ≠ []) as Hne by (intros ->; by destruct Hch as [? _]).
      destruct (decide (payloadSizeMask + Overhead a ≤ n)).
      * exists (Ok ch), r', w'. split; [done|]. left. exists ch, (concat chunks). split; [done|]. split; [done|]. split; [done|].
        exists (seal_record a nonce ch).2, chunks. rewrite Hb', Eb. do 4 (split; [done|]). done.
      * destruct (hand_out_reading c r' ch n w' _ chunks Hh' Hc Hin' Hn Hne) as (out & rest & E & Ho & plain' & Hp & Hr).
        exists (Ok out), rest, w'. unfold ret. rewrite E. split; [done|]. left. exists out, plain'. done.
Qed.

Lemma sends_buffer d (buf : bytes) w : verdicts w = [] →
  ∃ w1 l, (if decide (buf = []) then ret (Ok tt) else write d buf) w = Some (Ok tt, w1) ∧
    events w1 = events w ++ writes d l ∧ concat l = buf ∧ inbox w1 = inbox w ∧ verdicts w1 = [].
Proof.
  intros Hv. case_decide as Hb.
  - exists w, []. unfold writes. cbn. rewrite app_nil_r. by subst buf.
  - unfold write, call. rewrite Hv. eexists _, [buf]. split; [reflexivity|]. rewrite events_snoc. cbn. by rewrite app_nil_r.
Qed.

(** [WriteTo] hands on every record that is left, and ends with the stream.  The
    fuel is enough: a record is not empty. *)
Lemma writeTo_loop_delivers fuel c d r n nonce chunks w :
  holds (rNonce r) nonce → Forall chunk_ok chunks → default [] (inbox w !! cid c) = wire nonce chunks → verdicts w = [] →
  (length chunks < fuel)%nat →
  ∃ r' w', writeTo_loop a fuel c d r n w = Some ((n + len (default [] (rBuf r) ++ concat chunks), None, r'), w') ∧
    ∃ l, events w' = events w ++ writes d l ∧ concat l = default [] (rBuf r) ++ concat chunks.
Proof.
  intros Hh Hc. revert fuel r n nonce w Hh. induction Hc as [|ch chunks Hch Hc IH]; intros [|fuel] r n nonce w Hh Hin Hv Hf;
    [cbn in Hf; lia| |cbn in Hf; lia|]; cbn [writeTo_loop]; set (buf := default [] (rBuf r));
    destruct (sends_buffer d buf w Hv) as (w1 & l1 & E1 & Hl1 & Hc1 & Hi1 & Hv1); unfold bind at 1; rewrite E1; unfold bind.
  - destruct (read_record_eof c r nonce w1 Hh) as (w2 & -> & Ht); [by rewrite Hi1|]. rewrite decide_True by done.
    cbn [concat]. rewrite app_nil_r. eexists _, w2. split; [done|]. exists l1. split; [|done]. unfold events in *. by rewrite Ht.
  - cbn [wire] in Hin. rewrite <-Hi1 in Hin.
    destruct (read_record_ok c r nonce ch _ w1 Hh Hch Hin) as (r' & w2 & -> & Hh' & Hb' & Hin' & Ht & Hv2).
    destruct (IH fuel (set_buf r' (Some ch)) (n + len buf) (seal_record a nonce ch).2 w2) as (r3 & w3 & E3 & l3 & Hl3 & Hc3);
      [done|done|by rewrite Hv2|cbn in Hf; lia|].
    rewrite E3. cbn [rBuf set_buf default from_option concat] in *. eexists _, w3. 
    split; [by rewrite !len_app, !Z.add_assoc|].
    exists (l1 ++ l3). rewrite concat_app, Hc1, Hc3. split; [|done]. rewrite Hl3. unfold events in *. rewrite Ht, Hl1.
    unfold writes. by rewrite fmap_app, app_assoc.
Qed.
End records.

(** ** Both ends *)

Section ends.
Context (ciph : metaCipher).

(** A sender writes [ps] in turn until a write fails. *)
Fixpoint send_all (c : conn) (s : Conn) (salt : bytes) (ps : list bytes) : St World (result Conn) :=
  match ps with
  | [] => ret (Ok s)
  | p :: ps =>
      let* (r, s) := Conn_Write c s salt p in
      match snd r with
      | Some e => throw e
      | None => send_all c s salt ps
      end
  end.

(** A receiver reads into buffers of these sizes until a read fails. *)
Fixpoint read_all (d : conn) (s : Conn) (sizes : list Z) : St World (list bytes * option error) :=
  match sizes with
  | [] => ret ([], None)
  | n :: sizes =>
      let* (r, s) := Conn_Read d s n in
      match r with
      | Fail e => ret ([], Some e)
      | Ok out => let* (outs, e) := read_all d s sizes in ret (out :: outs, e)
      end
  end.

(** The bytes a list of calls has written to [c]. *)
Fixpoint stream (c : conn) (l : list event) : bytes :=
  match l with
  | EWrite c' b :: l => if decide (c' = c) then b ++ stream c l else stream c l
  | _ :: l => stream c l
  | [] => []
  end.

Lemma stream_writes c l : stream c (writes c l) = concat l.
Proof. induction l as [|b l IH]; [done|]. cbn [writes fmap list_fmap stream concat]. rewrite decide_True by done. by f_equal. Qed.

Context (CL : ∀ k a, makeAEAD ciph k = Ok a → AEADLaws a).

Lemma send_more c a wr nonce s salt ps w s' w' :
  AEADLaws a → cipher s = ciph → writer s = Some (a, wr) → holds a (wNonce wr) nonce → Forall (λ p, p ≠ []) ps →
  send_all c s salt ps w = Some (Ok s', w') →
  ∃ chunks, Forall chunk_ok chunks ∧ concat chunks = concat ps ∧ events w' = events w ++ writes c (records a nonce chunks).
Proof.
  intros AL Hc Hw Hh Hps. revert s wr nonce w Hc Hw Hh. induction Hps as [|p ps Hp _ IH]; intros s wr nonce w Hc Hw Hh.
  { intros H. injection H as <- <-. exists []. split; [constructor|]. by rewrite app_nil_r. }
  cbn [send_all]. unfold Conn_Write. rewrite Hw. unfold bind at 1 2 3, ret at 1.
  destruct (Writer_Write_sends a c wr nonce p w Hh Hp) as (res & wr1 & w1 & ch1 & -> & H1). unfold ret at 1.
  destruct (snd res) as [e|]; [done|]. destruct (H1 eq_refl) as (_ & Hok & Hcat & Hh1 & He1). intros H.
  destruct (IH (mkConnS (cipher s) (reader s) (Some (a, wr1))) wr1 (nonce_after a nonce ch1) w1 Hc eq_refl Hh1 H)
    as (ch2 & Hok2 & Hcat2 & He2).
  exists (ch1 ++ ch2). split; [by apply Forall_app|]. split; [by rewrite concat_app, Hcat, Hcat2|].
  rewrite He2, He1, <-app_assoc. unfold writes. rewrite <-fmap_app. do 2 f_equal.
  clear. revert nonce. induction ch1 as [|ch l IH]; intros nonce; [done|]. cbn [app records nonce_after]. by rewrite IH.
Qed.

(** What a sender has put on the wire. *)
Lemma send_all_stream c salt ps w s' w' :
  Forall (λ p, p ≠ []) ps → send_all c (NewConn ciph) salt ps w = Some (Ok s', w') →
  ∃ l, events w' = events w ++ l ∧
    ((ps = [] ∧ l = []) ∨
     ∃ a chunks, Encrypter ciph salt = Ok a ∧ Forall chunk_ok chunks ∧ concat chunks = concat ps ∧
       stream c l = salt ++ wire a (make_zero (NonceSize a)) chunks).
Proof.
  intros Hps. destruct ps as [|p ps].
  { intros H. injection H as <- <-. exists []. rewrite app_nil_r. split; [done|]. by left. }
  cbn [send_all]. unfold Conn_Write at 1. cbn [writer NewConn cipher]. unfold initWriter. change (cipher (NewConn ciph)) with ciph.
  destruct (Encrypter ciph salt) as [a|e] eqn:Ea; [|done]. pose proof (CL _ _ Ea) as AL.
  unfold bind at 1 2, bindE at 1, bind at 1, write, call. cbv beta zeta.
  set (v := default None (head (verdicts w))). destruct v as [e|]; [done|].
  set (w1 := mkWorld _ _ _ _ _ _ _). unfold ret at 1. cbv beta iota. intros H.
  assert (send_all c (mkConnS ciph None (Some (a, NewWriter))) salt (p :: ps) w1 = Some (Ok s', w')) as H1.
  { cbn [send_all]. unfold Conn_Write. cbn [writer]. exact H. }
  destruct (send_more c a NewWriter (make_zero (NonceSize a)) (mkConnS ciph None (Some (a, NewWriter))) salt (p :: ps)
      w1 s' w' AL eq_refl eq_refl (holds_zero a) Hps H1)
    as (chunks & Hok & Hcat & He).
  exists (EWrite c salt :: writes c (records a (make_zero (NonceSize a)) chunks)). split.
  { rewrite He. unfold w1. rewrite events_snoc, <-app_assoc. done. }
  right. exists a, chunks. split; [done|]. split; [done|]. split; [done|].
  cbn [stream]. rewrite decide_True by done. by rewrite stream_writes, records_wire.
Qed.

Lemma read_more d a r s sizes w plain :
  AEADLaws a → cipher s = ciph → reader s = Some (a, r) → reading a d r w plain → Forall (λ n, 0 < n) sizes →
  ∃ outs e w', read_all d s sizes w = Some ((outs, e), w') ∧
    ∃ rest, plain = concat outs ++ rest ∧ (e = None ∧ length outs = length sizes ∨ e = Some EOF ∧ rest = []).
Proof.
  intros AL Hc Hr Hreading Hn. revert s r w plain Hc Hr Hreading.
  induction Hn as [|n sizes Hn _ IH]; intros s r w plain Hc Hr Hreading.
  { exists [], None, w. split; [done|]. exists plain. split; [done|]. by left. }
  cbn [read_all]. unfold Conn_Read. rewrite Hr. unfold bind at 1 2 3, ret at 1.
  destruct (Reader_Read_reading a d r n w plain Hreading Hn) as (res & r' & w1 & -> & H). unfold ret at 1.
  destruct H as [(out & plain' & -> & _ & -> & Hr')|[-> ->]].
  - destruct (IH (mkConnS (cipher s) (Some (a, r')) (writer s)) r' w1 plain' Hc eq_refl Hr') as (outs & e & w2 & E & rest & -> & He).
    unfold bind. rewrite E. exists (out :: outs), e, w2. split; [done|]. exists rest. cbn [concat length].
    split; [by rewrite app_assoc|]. destruct He as [[-> ->]|He]; [by left|by right].
  - exists [], (Some EOF), w1. split; [done|]. exists []. split; [done|]. by right.
Qed.

(** C29: what is written into one end of a Shadowsocks AEAD connection comes out of
    the other: whatever the non-empty writes, and whatever the sizes of the reads,
    the bytes read are the bytes written, in order, and the only failure is the end
    of the stream, which comes after the last byte. *)
Theorem shadow_stream_roundtrip (c d : conn) (salt : bytes) (ps : list bytes) (sizes : list Z)
    (w w' w2 : World) (s' : Conn) (l : list event) :
  len salt = SaltSize ciph → Forall (λ p, p ≠ []) ps → Forall (λ n, 0 < n) sizes →
  send_all c (NewConn ciph) salt ps w = Some (Ok s', w') → events w' = events w ++ l →
  default [] (inbox w2 !! cid d) = stream c l →
  ∃ outs e w3, read_all d (NewConn ciph) sizes w2 = Some ((outs, e), w3) ∧
    ∃ rest, concat ps = concat outs ++ rest ∧ (e = None ∧ length outs = length sizes ∨ e = Some EOF ∧ rest = []).
Proof.
  intros Hsalt Hps Hn Hsend Hl Hin. destruct (send_all_stream c salt ps w s' w' Hps Hsend) as (l' & Hl' & Hs).
  rewrite Hl in Hl'. apply app_inv_head in Hl' as <-.
  destruct Hn as [|n sizes Hn Hns].
  { exists [], None, w2. split; [done|]. exists (concat ps). split; [done|]. by left. }
  destruct Hs as [[-> ->]|(a & chunks & Ea & Hok & Hcat & Hstream)].
  - (* nothing was sent, not even a salt *)
    cbn [stream] in Hin. exists [], (Some EOF). cbn [read_all]. unfold Conn_Read, initReader. cbn [reader NewConn].
    change (cipher (NewConn ciph)) with ciph. unfold bind at 1 2, bindE, bind at 1, readN. rewrite Hin, take_nil.
    assert (SaltSize ciph ≠ 0) as Hne by (unfold SaltSize; case_decide; lia).
    rewrite decide_False by (rewrite len_nil; lia). rewrite decide_True by done.
    eexists. split; [reflexivity|]. exists []. split; [done|]. by right.
  - pose proof (CL _ _ Ea) as AL. rewrite Hstream in Hin.
    assert (0 ≤ SaltSize ciph) as Hs0 by (rewrite <-Hsalt; apply len_nonneg).
    destruct (readN_take d (SaltSize ciph) w2) as (w3 & E3 & _ & _ & Hi3); [rewrite Hin; len_lia|].
    rewrite Hin in E3, Hi3. rewrite <-Hsalt in Hi3. rewrite drop_len_app in Hi3.
    replace (take (Z.to_nat (SaltSize ciph)) (salt ++ wire a (make_zero (NonceSize a)) chunks)) with salt in E3
      by (by rewrite <-Hsalt, take_len_app).
    assert (reading a d NewReader w3 (concat chunks)) as Hreading.
    { exists (make_zero (NonceSize a)), chunks. split; [apply (holds_zero a)|]. by repeat (split; [done|]). }
    destruct (read_more d a NewReader (mkConnS ciph (Some (a, NewReader)) None) (n :: sizes) w3 (concat chunks) AL eq_refl eq_refl
      Hreading) as (outs & e & w4 & E4 & rest & Hrest & He); [by constructor|].
    exists outs, e, w4. split; [|exists rest; by rewrite <-Hcat].
    rewrite <-E4. cbn [read_all]. unfold Conn_Read at 1. cbn [reader NewConn]. unfold initReader.
    change (cipher (NewConn ciph)) with ciph. unfold bind at 1 2, bindE, bind at 1. rewrite E3.
    change (Decrypter ciph salt) with (Encrypter ciph salt). rewrite Ea. reflexivity.
Qed.
End ends.

(** A packet that is packed is unpacked again, when it fits the buffers of both
    sides. *)
Theorem Unpack_Pack (ciph : metaCipher) (a : AEAD) (salt plaintext : bytes) (dst1 dst2 : Z) :
  AEADLaws a → Encrypter ciph salt = Ok a → len salt = SaltSize ciph →
  SaltSize ciph + len plaintext + Overhead a ≤ dst1 → len plaintext ≤ dst2 →
  ∃ pkt, Pack dst1 salt plaintext ciph = Some (Ok pkt) ∧ len pkt = SaltSize ciph + len plaintext + Overhead a ∧
    Unpack dst2 pkt ciph = Some (Ok plaintext).
Proof.
  intros AL Ea Hs H1 H2. pose proof (overhead_nonneg (a:=a)) as Ho. pose proof (nonce_size (a:=a)) as Hns.
  pose proof (len_nonneg plaintext) as Hp. pose proof (len_nonneg salt) as Hsn.
  unfold Pack. rewrite decide_False by lia. rewrite Ea. rewrite decide_False by lia.
  rewrite slice_to_Some by (unfold zerononce, make_zero; rewrite len_replicate; lia).
  set (nonce := take _ zerononce). eexists. split; [reflexivity|]. rewrite len_app, seal_len. split; [lia|].
  unfold Unpack. rewrite decide_False by (rewrite len_app, seal_len; lia).
  rewrite slice_to_Some by (rewrite len_app, seal_len; lia). rewrite <-Hs, take_len_app.
  change (Decrypter ciph salt) with (Encrypter ciph salt). rewrite Ea.
  rewrite decide_False by (rewrite len_app, seal_len; lia). rewrite decide_False by (rewrite len_app, seal_len; lia).
  rewrite slice_to_Some by (unfold zerononce, make_zero; rewrite len_replicate; lia).
  rewrite slice_from_Some by (rewrite len_app, seal_len; lia). rewrite drop_len_app. fold nonce. by rewrite open_seal.
Qed.

(** ** Witnesses

    A cipher that appends one byte of the nonce. *)

Definition toy_tag (n : bytes) : bytes := take 1 (n ++ [Byte.x00]).
Definition toy_aead : AEAD :=
  mkAEAD 2 1 (λ n p, p ++ toy_tag n)
    (λ n c, if decide (drop (length c - 1) c = toy_tag n) then Some (take (length c - 1) c) else None).
#[local] Instance toy_laws : AEADLaws toy_aead.
Proof.
  assert (∀ n, length (toy_tag n) = 1%nat) as Ht by (intros [|x n]; done).
  split; [cbn; lia|cbn; lia|..]; intros n p; cbn [Seal Open Overhead toy_aead].
  - unfold len. rewrite length_app, Ht. lia.
  - rewrite length_app, Ht, Nat.add_sub. by rewrite drop_app_length, take_app_length, decide_True.
Qed.
Definition toy_cipher : metaCipher := mkCipher [Byte.x01] (λ _, Ok toy_aead) (λ _ salt _ _, salt).
Definition toy_salt : bytes := replicate 16 Byte.x2a.
Definition empty_world : World := mkWorld [] [] 0 [] [] [] ∅.
Definition toy_sent : list bytes := [[Byte.x61; Byte.x62; Byte.x63]; [Byte.x64]].
Definition end_c : conn := mkConn 1 false.

Lemma toy_cipher_laws k a : makeAEAD toy_cipher k = Ok a → AEADLaws a.
Proof. intros H. injection H as <-. apply toy_laws. Qed.

Lemma shadow_stream_roundtrip_witness :
  ∃ s' w', send_all end_c (NewConn toy_cipher) toy_salt toy_sent empty_world = Some (Ok s', w') ∧
  ∃ outs w3, read_all end_c (NewConn toy_cipher) [2; 2; 5; 1]
      (mkWorld [] [] 0 [] [] [] {[1 := stream end_c (events w')]}) = Some ((outs, Some EOF), w3) ∧
    concat outs = [Byte.x61; Byte.x62; Byte.x63; Byte.x64].
Proof.
  destruct (send_all end_c (NewConn toy_cipher) toy_salt toy_sent empty_world) as [[[s'|e] w']|] eqn:E;
    [|vm_compute in E; discriminate..].
  exists s', w'. split; [reflexivity|].
  destruct (shadow_stream_roundtrip toy_cipher toy_cipher_laws end_c end_c toy_salt toy_sent [2; 2; 5; 1] empty_world w'
    (mkWorld [] [] 0 [] [] [] {[1 := stream end_c (events w')]}) s' (events w')) as (outs & e & w3 & Er & rest & Hc & He);
    [reflexivity|repeat constructor; discriminate|repeat constructor|exact E|reflexivity|reflexivity|].
  assert (e = Some EOF) as ->.
  { vm_compute in E. injection E as _ <-. vm_compute in Er. injection Er as _ <- _. reflexivity. }
  destruct He as [[He _]|[_ ->]]; [discriminate|].
  exists outs, w3. split; [exact Er|]. rewrite app_nil_r in Hc. symmetry. exact Hc.
Defined.

Lemma Unpack_Pack_witness :
  ∃ pkt, Pack 100 toy_salt [Byte.x07; Byte.x08] toy_cipher = Some (Ok pkt) ∧ len pkt = 19 ∧
    Unpack 2 pkt toy_cipher = Some (Ok [Byte.x07; Byte.x08]).
Proof.
  apply (Unpack_Pack toy_cipher toy_aead toy_salt [Byte.x07; Byte.x08] 100 2 toy_laws eq_refl eq_refl);
    vm_compute; discriminate.
Defined.

(** [Writer.ReadFrom] ends a stream with a record of no bytes, which the reader of
    the other end takes for an error. *)
Example ReadFrom_ends_with_zero_chunk :
  (let! (_, w) := Writer_ReadFrom toy_aead end_c NewWriter [([Byte.x61], None); ([], Some EOF)] empty_world in
   let! (r1, rd, w1) := read_record toy_aead end_c NewReader (mkWorld [] [] 0 [] [] [] {[1 := stream end_c (events w)]}) in
   let! (r2, _, _) := read_record toy_aead end_c rd w1 in Some (r1, r2)) = Some (Ok [Byte.x61], Fail ErrZeroChunk).
Proof. vm_compute. reflexivity. Qed.
