(* ===== verification/Obfs.v ===== *)
(** simple-obfs ([tun2socks/transport/simple-obfs]): a stream dressed up as TLS or
    as a WebSocket upgrade.  The first write of the TLS disguise is a ClientHello
    that carries the data as a session ticket; the theorem relates it to the
    specification of the message in [ClientHello]: what it prints, this program's
    own parser reads back, with the server name where it should be. *)

From Stdlib Require Import Strings.Ascii.
From S2P Require Import Prelude GoStd Conn ClientHello.

(** ** The TLS disguise ([tls.go]) *)

Definition chunkSize : Z := Z.shiftl 1 14.

Record TLSObfs := mkTLSObfs { server : string; remain : Z; firstRequest : bool; firstResponse : bool }.
Definition NewTLSObfs (server : string) : TLSObfs := mkTLSObfs server 0 true true.

Definition set_remain (to : TLSObfs) (n : Z) : TLSObfs := mkTLSObfs (server to) n (firstRequest to) (firstResponse to).

(** [read] into a buffer of [n] bytes: the data, and the error. *)
Definition tls_read (c : conn) (to : TLSObfs) (n k discardN : Z) : St World ((bytes * option error) * TLSObfs) :=
  let* (_, err) := readFull c discardN in
  match err with
  | Some e => ret (([], Some e), to)
  | None =>
      let* (sizeBuf, err) := readFull c 2 in
      match err with
      | Some _ => ret (([], None), to)
      | None =>
          let* length := lift (be16 sizeBuf) in
          if decide (n < length) then
            let* r := readSome c n k in
            match r with
            | Fail e => ret (([], Some e), to)
            | Ok got => ret ((got, None), set_remain to (length - len got))
            end
          else let* r := readFull c length in ret (r, to)
      end
  end.

Definition tls_Read (c : conn) (to : TLSObfs) (n k : Z) : St World ((bytes * option error) * TLSObfs) :=
  if decide (0 < remain to) then
    let length := if decide (n < remain to) then n else remain to in
    let* (got, err) := readFull c length in
    ret ((got, err), set_remain to (remain to - len got))
  else if firstResponse to then
    tls_read c (mkTLSObfs (server to) (remain to) (firstRequest to) false) n k 105
  else tls_read c to n k 3.

(** *** The ClientHello *)

Definition hello_ciphers : bytes :=
  [Byte.xc0; Byte.x2c; Byte.xc0; Byte.x30; Byte.x00; Byte.x9f; Byte.xcc; Byte.xa9; Byte.xcc; Byte.xa8; Byte.xcc; Byte.xaa;
   Byte.xc0; Byte.x2b; Byte.xc0; Byte.x2f; Byte.x00; Byte.x9e; Byte.xc0; Byte.x24; Byte.xc0; Byte.x28; Byte.x00; Byte.x6b;
   Byte.xc0; Byte.x23; Byte.xc0; Byte.x27; Byte.x00; Byte.x67; Byte.xc0; Byte.x0a; Byte.xc0; Byte.x14; Byte.x00; Byte.x39;
   Byte.xc0; Byte.x09; Byte.xc0; Byte.x13; Byte.x00; Byte.x33; Byte.x00; Byte.x9d; Byte.x00; Byte.x9c; Byte.x00; Byte.x3d;
   Byte.x00; Byte.x3c; Byte.x00; Byte.x35; Byte.x00; Byte.x2f; Byte.x00; Byte.xff].
Definition hello_signatures : bytes :=
  [Byte.x00; Byte.x0d; Byte.x00; Byte.x20; Byte.x00; Byte.x1e; Byte.x06; Byte.x01; Byte.x06; Byte.x02; Byte.x06; Byte.x03;
   Byte.x05; Byte.x01; Byte.x05; Byte.x02; Byte.x05; Byte.x03; Byte.x04; Byte.x01; Byte.x04; Byte.x02; Byte.x04; Byte.x03;
   Byte.x03; Byte.x01; Byte.x03; Byte.x02; Byte.x03; Byte.x03; Byte.x02; Byte.x01; Byte.x02; Byte.x02; Byte.x02; Byte.x03].

(** The four bytes [binary.Write] writes for [uint32(n)], big endian. *)
Definition put32 (n : Z) : bytes := [Zb (Z.shiftr n 24); Zb (Z.shiftr n 16); Zb (Z.shiftr n 8); Zb n].

(** [makeClientHelloMsg]; [random] (28 bytes), [sessionID] (32 bytes) and [unix]
    are what the generators and the clock give. *)
Definition makeClientHelloMsg (random sessionID : bytes) (unix : Z) (data : bytes) (srv : string) : bytes :=
  let srv := bytes_of_string srv in
  let length := u16 (212 + len data + len srv) in
  [Byte.x16] ++ [Byte.x03; Byte.x01] ++ [Zb (Z.shiftr length 8); Zb (Z.land length 255)] ++
  [Byte.x01; Byte.x00] ++ put16 (208 + len data + len srv) ++ [Byte.x03; Byte.x03] ++
  put32 unix ++ random ++ [Byte.x20] ++ sessionID ++
  [Byte.x00; Byte.x38] ++ hello_ciphers ++ [Byte.x01; Byte.x00] ++
  put16 (79 + len data + len srv) ++
  [Byte.x00; Byte.x23] ++ put16 (len data) ++ data ++
  [Byte.x00; Byte.x00] ++ put16 (len srv + 5) ++ put16 (len srv + 3) ++ [Byte.x00] ++ put16 (len srv) ++ srv ++
  [Byte.x00; Byte.x0b; Byte.x00; Byte.x04; Byte.x03; Byte.x01; Byte.x00; Byte.x02] ++
  [Byte.x00; Byte.x0a; Byte.x00; Byte.x0a; Byte.x00; Byte.x08; Byte.x00; Byte.x1d; Byte.x00; Byte.x17; Byte.x00; Byte.x19;
   Byte.x00; Byte.x18] ++
  hello_signatures ++ [Byte.x00; Byte.x16; Byte.x00; Byte.x00] ++ [Byte.x00; Byte.x17; Byte.x00; Byte.x00].

(** *** Writing *)

Section writing.
(** What the generators give for one message. *)
Context (random sessionID : bytes) (unix : Z).

Definition tls_write (c : conn) (to : TLSObfs) (b : bytes) : St World ((Z * option error) * TLSObfs) :=
  if firstRequest to then
    let* r := write c (makeClientHelloMsg random sessionID unix b (server to)) in
    ret ((len b, match r with Ok _ => None | Fail e => Some e end),
         mkTLSObfs (server to) (remain to) false (firstResponse to))
  else
    let* r := write c ([Byte.x17; Byte.x03; Byte.x03] ++ put16 (len b) ++ b) in
    ret ((len b, match r with Ok _ => None | Fail e => Some e end), to).

Fixpoint tls_Write_loop (fuel : nat) (c : conn) (to : TLSObfs) (b : bytes) (i : Z) : St World ((Z * option error) * TLSObfs) :=
  match fuel with
  | O => lift None
  | S fuel =>
      if decide (i < len b) then
        let en := if decide (len b < i + chunkSize) then len b else i + chunkSize in
        let* chunk := lift (slice b i en) in
        let* (res, to) := tls_write c to chunk in
        match snd res with
        | Some _ => ret (res, to)
        | None => tls_Write_loop fuel c to b (i + chunkSize)
        end
      else ret ((len b, None), to)
  end.
Definition tls_Write (c : conn) (to : TLSObfs) (b : bytes) : St World ((Z * option error) * TLSObfs) :=
  tls_Write_loop (S (length b)) c to b 0.
End writing.

(** ** The HTTP disguise ([http.go]) *)

Record HTTPObfs := mkHTTPObfs {
  hoHost : string; hoPort : string;
  hoBuf : option bytes;                (* [buf[offset:]] *)
  hoFirstRequest : bool; hoFirstResponse : bool
}.
Definition NewHTTPObfs (host port : string) : HTTPObfs := mkHTTPObfs host port None true true.

Definition crlf2 : bytes := [Byte.x0d; Byte.x0a; Byte.x0d; Byte.x0a].

(** [bytes.Index]. *)
Fixpoint Index (b sub : bytes) : Z :=
  if decide (take (length sub) b = sub) then 0 else
  match b with
  | [] => -1
  | _ :: b => let i := Index b sub in if decide (i < 0) then -1 else i + 1
  end.

Definition relayBufferSize : Z := Z.shiftl 20 10.

Definition http_Read (c : conn) (ho : HTTPObfs) (n k : Z) : St World (result bytes * HTTPObfs) :=
  let with_buf (b : option bytes) (fr : bool) := mkHTTPObfs (hoHost ho) (hoPort ho) b (hoFirstRequest ho) fr in
  match hoBuf ho with
  | Some buf =>
      let rest := drop (Z.to_nat n) buf in
      ret (Ok (take (Z.to_nat n) buf), with_buf (if decide (rest = []) then None else Some rest) (hoFirstResponse ho))
  | None =>
      if hoFirstResponse ho then
        let* r := readSome c relayBufferSize k in
        match r with
        | Fail e => ret (Fail e, ho)
        | Ok buf =>
            let idx := Index buf crlf2 in
            if decide (idx = -1) then ret (Fail EOF, ho) else
            let* body := lift (slice_from buf (idx + 4)) in
            let rest := drop (Z.to_nat n) body in
            ret (Ok (take (Z.to_nat n) body), with_buf (if decide (rest = []) then None else Some rest) false)
        end
      else let* r := readSome c n k in ret (r, ho)
  end.

(** The request of the first write, as it is handed to [net/http]: a GET with the
    fixed headers [Upgrade: websocket] and [Connection: Upgrade], and the length of
    its body.  [net/http] prints it; for a host it makes no request of, the source
    goes on with a nil request and panics. *)
Record upgrade := mkUpgrade { upURL : string; upHost : string; upUserAgent : string; upKey : bytes; upBody : bytes }.

Definition upgrade_request (ho : HTTPObfs) (r1 r2 : Z) (randBytes b : bytes) : upgrade :=
  mkUpgrade ("http://" +:+ hoHost ho +:+ "/")
    (if decide (hoPort ho ≠ "80") then hoHost ho +:+ ":" +:+ hoPort ho else hoHost ho)
    ("curl/7." +:+ itoa (r1 mod 54) +:+ "." +:+ itoa (r2 mod 2)) randBytes b.

Definition http_Write (print : upgrade → go bytes) (c : conn) (ho : HTTPObfs) (r1 r2 : Z) (randBytes b : bytes)
    : St World ((Z * option error) * HTTPObfs) :=
  if hoFirstRequest ho then
    let* msg := lift (print (upgrade_request ho r1 r2 randBytes b)) in
    let* r := write c msg in
    ret ((len b, match r with Ok _ => None | Fail e => Some e end),
         mkHTTPObfs (hoHost ho) (hoPort ho) (hoBuf ho) false (hoFirstResponse ho))
  else
    let* r := write c b in
    ret (match r with Ok _ => (len b, None) | Fail e => (0, Some e) end, ho).

(** ** The disguise is a ClientHello *)

Definition obfs_hello (random sessionID : bytes) (unix : Z) (data : bytes) (srv : string) : ClientHello :=
  mkClientHello Byte.x01 Byte.x03 Byte.x03 (put32 unix ++ random) sessionID hello_ciphers [Byte.x00]
    [ExtOther 35 data; ExtSNI (bytes_of_string srv);
     ExtOther 11 [Byte.x03; Byte.x01; Byte.x00; Byte.x02];
     ExtOther 10 [Byte.x00; Byte.x08; Byte.x00; Byte.x1d; Byte.x00; Byte.x17; Byte.x00; Byte.x19; Byte.x00; Byte.x18];
     ExtOther 13 (drop 4 hello_signatures); ExtOther 22 []; ExtOther 23 []].

Lemma length_bytes random sessionID unix data srv :
  len random = 28 → len sessionID = 32 →
  len (encode_body (obfs_hello random sessionID unix data srv)) = 208 + len data + len (bytes_of_string srv) ∧
  len (encode_exts (ch_exts (obfs_hello random sessionID unix data srv))) = 79 + len data + len (bytes_of_string srv).
Proof.
  intros Hr Hs.
  assert (len (encode_exts (ch_exts (obfs_hello random sessionID unix data srv))) = 79 + len data + len (bytes_of_string srv)) as He.
  { cbn [ch_exts obfs_hello]. rewrite !encode_exts_cons, !len_app, !encode_ext_len.
    change (len (encode_exts [])) with 0. change (len (drop 4 hello_signatures)) with 32. autorewrite with lumine. lia. }
  split; [|exact He]. rewrite encode_body_len, encode_prefix_len, He. cbn [ch_random ch_session_id ch_ciphers ch_compression obfs_hello].
  change (len hello_ciphers) with 56. unfold put32. autorewrite with lumine. lia.
Qed.

(** The two ways the source writes a 16-bit length agree. *)
Lemma header16 n : 0 ≤ n < 65536 → [Zb (Z.shiftr (u16 n) 8); Zb (Z.land (u16 n) 255)] = put16 n.
Proof.
  intros Hn. unfold u16, put16. rewrite Z.mod_small by lia. do 2 f_equal.
  change 255 with (Z.ones 8). rewrite Z.land_ones by lia. unfold Zb. f_equal.
  by rewrite Z.mod_mod by lia.
Qed.

Lemma makeClientHelloMsg_encodes random sessionID unix data srv :
  len random = 28 → len sessionID = 32 → len data + len (bytes_of_string srv) < 65000 →
  makeClientHelloMsg random sessionID unix data srv = encode_hello (obfs_hello random sessionID unix data srv).
Proof.
  intros Hr Hs Hl. destruct (length_bytes random sessionID unix data srv Hr Hs) as [Hb He].
  pose proof (len_nonneg data). pose proof (len_nonneg (bytes_of_string srv)).
  unfold encode_hello. rewrite Hb. unfold encode_body, encode_prefix. rewrite He.
  unfold makeClientHelloMsg. rewrite (header16 (212 + _ + _)) by lia.
  unfold encode_exts. cbn [fmap list_fmap concat encode_ext obfs_hello ch_minor ch_ver1 ch_ver2 ch_random ch_session_id
    ch_ciphers ch_compression ch_exts].
  rewrite Hs. change (len hello_ciphers) with 56. unfold hello_signatures, tlsExtTypeSNI.
  replace (4 + (208 + len data + len (bytes_of_string srv))) with (212 + len data + len (bytes_of_string srv)) by lia.
  generalize (put16 (212 + len data + len (bytes_of_string srv))), (put16 (208 + len data + len (bytes_of_string srv))),
    (put16 (79 + len data + len (bytes_of_string srv))), (put16 (len data)), (put16 (len (bytes_of_string srv) + 5)),
    (put16 (len (bytes_of_string srv) + 3)), (put16 (len (bytes_of_string srv))), (put32 unix).
  intros. rewrite <-!app_assoc. reflexivity.
Qed.

(** What a reader of a captured message sees: a well-formed ClientHello, without
    ECH, that names [srv]. *)
Definition looks_like_hello (srv : string) (msg : bytes) : Prop :=
  ∀ tail, ∃ h, parseClientHello (msg ++ tail) = Some h ∧ helloErr h = None ∧ hasECH h = false ∧
    len (prtVer h) = 2 ∧ slice (msg ++ tail) (sniStart h) (sniStart h + sniLen h) = Some (bytes_of_string srv).

Lemma makeClientHelloMsg_looks random sessionID unix data srv :
  len random = 28 → len sessionID = 32 → len data + len (bytes_of_string srv) < 65000 →
  looks_like_hello srv (makeClientHelloMsg random sessionID unix data srv).
Proof.
  intros Hr Hs Hl tail. pose proof (len_nonneg data). pose proof (len_nonneg (bytes_of_string srv)).
  destruct (parse_encode (obfs_hello random sessionID unix data srv) tail) as [H1 H2].
  { destruct (length_bytes random sessionID unix data srv Hr Hs) as [Hb _].
    unfold hello_wf. cbn [ch_random ch_session_id ch_compression ch_exts obfs_hello].
    split; [unfold put32; autorewrite with lumine; lia|]. split; [by rewrite Hs|]. split; [done|]. split; [|lia].
    repeat constructor; done. }
  rewrite makeClientHelloMsg_encodes by done. eexists. split; [exact H1|].
  split; [done|]. split; [done|]. split; [done|]. apply (H2 _ eq_refl).
Qed.

(** One application data record. *)
Definition data_record (b : bytes) : bytes := [Byte.x17; Byte.x03; Byte.x03] ++ put16 (len b) ++ b.

(** The messages a list of chunks becomes. *)
Definition disguise (hello : bytes → bytes) (first : bool) (chunks : list bytes) : list bytes :=
  match chunks with
  | [] => []
  | x :: l => (if first then hello x else data_record x) :: (data_record <$> l)
  end.

Lemma disguise_cons hello first x l :
  disguise hello first (x :: l) = (if first then hello x else data_record x) :: disguise hello false l.
Proof. by destruct l. Qed.

Lemma tls_write_sends random sessionID unix c to b w :
  ∃ err w', tls_write random sessionID unix c to b w =
      Some (((len b, err), mkTLSObfs (server to) (remain to) false (firstResponse to)), w') ∧
    sent w' = sent w ++ [EWrite c (if firstRequest to then makeClientHelloMsg random sessionID unix b (server to) else data_record b)].
Proof.
  unfold tls_write. destruct to as [srv rem [] fr]; cbn [firstRequest server remain firstResponse];
    unfold write, call, bind, ret; eexists _, _; (split; [done|]); apply sent_snoc.
Qed.

Lemma tls_Write_loop_sends random sessionID unix c b :
  ∀ fuel to i w, 0 ≤ i → Z.max 0 (len b - i) < Z.of_nat fuel →
  ∃ res to' w', tls_Write_loop random sessionID unix fuel c to b i w = Some ((res, to'), w') ∧
    (snd res = None → fst res = len b ∧ ∃ chunks, concat chunks = drop (Z.to_nat i) b ∧
       Forall (λ x, 0 < len x ≤ chunkSize) chunks ∧
       sent w' = sent w ++ (EWrite c <$> disguise (λ x, makeClientHelloMsg random sessionID unix x (server to)) (firstRequest to) chunks)).
Proof.
  induction fuel as [|fuel IH]; intros to i w Hi Hf; [lia|].
  cbn [tls_Write_loop]. destruct (decide (i < len b)) as [Hlt|Hge].
  - set (en := if decide (len b < i + chunkSize) then len b else i + chunkSize).
    assert (i < en ∧ en ≤ len b ∧ en ≤ i + chunkSize ∧ (en = len b ∨ en = i + chunkSize)) as (He1 & He2 & He3 & He4).
    { subst en. change chunkSize with 16384 in *. case_decide; lia. }
    clearbody en.
    rewrite slice_Some by lia. unfold bind at 1. cbn [lift].
    set (x := take (Z.to_nat (en - i)) (drop (Z.to_nat i) b)).
    assert (len x = en - i) as Hx by (unfold x, len in *; rewrite length_take, length_drop; lia).
    destruct (tls_write_sends random sessionID unix c to x w) as (err & w1 & E & S1).
    unfold bind at 1. rewrite E. cbn [snd]. destruct err as [e|].
    { eexists _, _, _. split; [done|]. done. }
    edestruct (IH (mkTLSObfs (server to) (remain to) false (firstResponse to)) (i + chunkSize) w1)
      as (res & to' & w' & E' & Hok); [change chunkSize with 16384; lia|change chunkSize with 16384; lia|].
    exists res, to', w'. split; [exact E'|]. intros Hn. destruct (Hok Hn) as (Hres & chunks & Hc & Hall & Hs).
    split; [exact Hres|]. exists (x :: chunks). cbn [concat]. split_and!.
    + rewrite Hc. unfold x. destruct He4 as [->| ->].
      * rewrite (drop_ge b (Z.to_nat (i + chunkSize))), app_nil_r by (change chunkSize with 16384 in *; unfold len in *; lia).
        apply take_ge. unfold len. rewrite length_drop. lia.
      * replace (Z.to_nat (i + chunkSize)) with (Z.to_nat i + Z.to_nat (i + chunkSize - i))%nat
          by (change chunkSize with 16384 in *; lia).
        by rewrite <-drop_drop, take_drop.
    + constructor; [lia|done].
    + rewrite Hs, S1, disguise_cons, <-app_assoc. reflexivity.
  - eexists _, _, _. split; [done|]. intros _. split; [done|]. exists [].
    rewrite drop_ge by (unfold len in *; lia). rewrite app_nil_r. split; [done|]. split; [constructor|done].
Qed.


(** ** Witness *)

Definition upstream : conn := mkConn 5 true.
Definition quiet : World := mkWorld [] [] 0 [] [] [] ∅.

