(* ===== verification/ShadowStream.v ===== *)
(** Shadowsocks with the older stream ciphers
    ([tun2socks/transport/shadowsocks/shadowstream]): an initial vector and then
    the plaintext combined with a key stream.  The ciphers are the crypto
    packages'.  The theorem: whatever is written into one end comes out of the
    other, however both sides and the network cut it. *)

From S2P Require Import Prelude GoStd Conn.

(** ** The cipher packages *)

(** A [cipher.Stream] is given by what it makes of all it has been fed: one call
    of [XORKeyStream] yields the part that belongs to the new bytes. *)
Record Stream := mkStream { xks : bytes → bytes; seen : bytes }.
Definition start (f : bytes → bytes) : Stream := mkStream f [].
Definition XORKeyStream (s : Stream) (src : bytes) : bytes * Stream :=
  (drop (length (seen s)) (xks s (seen s ++ src)), mkStream (xks s) (seen s ++ src)).

(** Byte for byte, and without looking ahead. *)
Class KeyStream (f : bytes → bytes) : Prop := {
  ks_len l : length (f l) = length l;
  ks_app a b : f a `prefix_of` f (a ++ b)
}.

(** [Cipher] ([cipher.go]): a constructor that panics is [None]. *)
Record Cipher := mkCipher {
  IVSize : Z;
  Encrypter : bytes → go (bytes → bytes);
  Decrypter : bytes → go (bytes → bytes)
}.

Class CipherLaws (a : Cipher) : Prop := {
  iv_size : 0 < IVSize a;
  cipher_ok iv : len iv = IVSize a →
    ∃ f g, Encrypter a iv = Some f ∧ Decrypter a iv = Some g ∧ KeyStream f ∧ KeyStream g ∧ ∀ l, g (f l) = l
}.

(** The operations of the crypto packages. *)
Record crypto := mkCrypto {
  Block : Type;
  aes_NewCipher : bytes → result Block;
  BlockSize : Block → Z;
  NewCTR : Block → bytes → bytes → bytes;
  NewCFBEncrypter : Block → bytes → bytes → bytes;
  NewCFBDecrypter : Block → bytes → bytes → bytes;
  NewUnauthenticatedCipher : bytes → bytes → result (bytes → bytes);    (* chacha20 *)
  md5 : bytes → bytes;
  rc4_NewCipher : bytes → result (bytes → bytes)
}.

Definition KeySizeError (n : Z) : error := ErrNew ("key size error: need " +:+ itoa n +:+ " bytes").
Definition chacha_KeySize : Z := 32.
Definition chacha_NonceSize : Z := 12.
Definition chacha_NonceSizeX : Z := 24.

Section ciphers.
Context (cr : crypto).

Definition AESCTR (key : bytes) : result Cipher :=
  let? blk := aes_NewCipher cr key in
  let enc iv := Some (NewCTR cr blk iv) in
  Ok (mkCipher (BlockSize cr blk) enc enc).
Definition AESCFB (key : bytes) : result Cipher :=
  let? blk := aes_NewCipher cr key in
  Ok (mkCipher (BlockSize cr blk) (λ iv, Some (NewCFBEncrypter cr blk iv)) (λ iv, Some (NewCFBDecrypter cr blk iv))).

Definition chacha_stream (key iv : bytes) : go (bytes → bytes) :=
  match NewUnauthenticatedCipher cr key iv with Ok f => Some f | Fail _ => None end.
Definition Chacha20IETF (key : bytes) : result Cipher :=
  if decide (len key ≠ chacha_KeySize) then Fail (KeySizeError chacha_KeySize)
  else Ok (mkCipher chacha_NonceSize (chacha_stream key) (chacha_stream key)).
Definition Xchacha20 (key : bytes) : result Cipher :=
  if decide (len key ≠ chacha_KeySize) then Fail (KeySizeError chacha_KeySize)
  else Ok (mkCipher chacha_NonceSizeX (chacha_stream key) (chacha_stream key)).

(** The error of [rc4.NewCipher] is ignored; the nil cipher it comes with panics
    when it is used. *)
Definition rc4_stream (key iv : bytes) : go (bytes → bytes) :=
  match rc4_NewCipher cr (md5 cr (key ++ iv)) with Ok f => Some f | Fail _ => None end.
Definition RC4MD5 (key : bytes) : result Cipher := Ok (mkCipher 16 (rc4_stream key) (rc4_stream key)).
End ciphers.

(** ** Streams ([stream.go]) *)

Definition bufSize : Z := 2048.

Record Writer := mkWriter { wStream : Stream }.
Definition NewWriter (s : Stream) : Writer := mkWriter s.

(** The loop of [Writer.Write] from [n].  How much of a buffer a failed write has
    sent is not known: the result has then no count. *)
Fixpoint write_loop (fuel : nat) (c : conn) (s : Stream) (p : bytes) (n : Z) : St World (result Z * Stream) :=
  match fuel with
  | O => lift None
  | S fuel =>
      if decide (n < len p) then
        let en := if decide (len p < n + bufSize) then len p else n + bufSize in
        let* chunk := lift (slice p n en) in
        let '(b, s) := XORKeyStream s chunk in
        let* r := write c b in
        match r with
        | Fail e => ret (Fail e, s)
        | Ok _ => write_loop fuel c s p (n + (en - n))
        end
      else ret (Ok n, s)
  end.
Definition Writer_Write (c : conn) (w : Writer) (p : bytes) : St World (result Z * Writer) :=
  let* (r, s) := write_loop (S (length p)) c (wStream w) p 0 in ret (r, mkWriter s).

(** [Writer.ReadFrom] on a source that gives these reads, each with its error. *)
Fixpoint readFrom_loop (c : conn) (s : Stream) (reads : list (bytes * option error)) (n : Z)
    : St World ((Z * option error) * Stream) :=
  match reads with
  | [] => ret ((n, None), s)
  | (data, er) :: reads =>
      let n := n + len data in
      let '(b, s) := XORKeyStream s data in
      let* r := write c b in
      match r, er with
      | Fail ew, _ => ret ((n, Some ew), s)
      | Ok _, Some er => ret ((n, if decide (er = EOF) then None else Some er), s)
      | Ok _, None => readFrom_loop c s reads n
      end
  end.
Definition Writer_ReadFrom (c : conn) (w : Writer) (reads : list (bytes * option error)) : St World ((Z * option error) * Writer) :=
  let* (r, s) := readFrom_loop c (wStream w) reads 0 in ret (r, mkWriter s).

Record Reader := mkReader { rStream : Stream }.
Definition NewReader (s : Stream) : Reader := mkReader s.

(** [Reader.Read] into a buffer of [n] bytes; the network has [k] ready. *)
Definition Reader_Read (c : conn) (r : Reader) (n k : Z) : St World (result bytes * Reader) :=
  let* got := readSome c n k in
  match got with
  | Fail e => ret (Fail e, r)
  | Ok b => let '(out, s) := XORKeyStream (rStream r) b in ret (Ok out, mkReader s)
  end.

(** [Reader.WriteTo] the connection [d]; before read number [i] the network has
    [avail i] bytes ready. *)
Fixpoint writeTo_loop (fuel : nat) (c d : conn) (avail : nat → Z) (s : Stream) (n : Z) : St World ((Z * option error) * Stream) :=
  match fuel with
  | O => lift None
  | S fuel =>
      let* got := readSome c bufSize (avail fuel) in
      match got with
      | Fail er => ret ((n, if decide (er = EOF) then None else Some er), s)
      | Ok b =>
          let '(out, s) := XORKeyStream s b in
          let* r := write d out in
          match r with
          | Fail ew => ret ((n, Some ew), s)
          | Ok _ => writeTo_loop fuel c d avail s (n + len out)
          end
      end
  end.
Definition Reader_WriteTo (c d : conn) (avail : nat → Z) (r : Reader) : St World ((Z * option error) * Reader) := λ w,
  (let* (res, s) := writeTo_loop (S (length (default [] (inbox w !! cid c)))) c d avail (rStream r) 0 in
   ret (res, mkReader s)) w.

(** ** Connections *)

Record Conn := mkConnS {
  ciph : Cipher; rd : option Reader; wr : option Writer; readIV : bytes; writeIV : bytes
}.
Definition NewConn (a : Cipher) : Conn := mkConnS a None None [] [].

(** [iv] is what [rand.Read] gives. *)
Definition ObtainWriteIV (s : Conn) (iv : bytes) : bytes * Conn :=
  if decide (len (writeIV s) = IVSize (ciph s)) then (writeIV s, s)
  else (iv, mkConnS (ciph s) (rd s) (wr s) (readIV s) iv).
Definition ObtainReadIV (c : conn) (s : Conn) : St World (result bytes * Conn) :=
  if decide (len (readIV s) = IVSize (ciph s)) then ret (Ok (readIV s), s) else
  let* r := readN c (IVSize (ciph s)) in
  match r with
  | Fail e => ret (Fail e, s)
  | Ok iv => ret (Ok iv, mkConnS (ciph s) (rd s) (wr s) iv (writeIV s))
  end.

Definition initReader (c : conn) (s : Conn) : St World (result Reader * Conn) :=
  match rd s with
  | Some r => ret (Ok r, s)
  | None =>
      let* (r, s) := ObtainReadIV c s in
      match r with
      | Fail e => ret (Fail e, s)
      | Ok iv =>
          let* f := lift (Decrypter (ciph s) iv) in
          let r := NewReader (start f) in
          ret (Ok r, mkConnS (ciph s) (Some r) (wr s) (readIV s) (writeIV s))
      end
  end.
Definition initWriter (c : conn) (s : Conn) (iv : bytes) : St World (result Writer * Conn) :=
  match wr s with
  | Some w => ret (Ok w, s)
  | None =>
      let '(iv, s) := ObtainWriteIV s iv in
      let* r := write c iv in
      match r with
      | Fail e => ret (Fail e, s)
      | Ok _ =>
          let* f := lift (Encrypter (ciph s) iv) in
          let w := NewWriter (start f) in
          ret (Ok w, mkConnS (ciph s) (rd s) (Some w) (readIV s) (writeIV s))
      end
  end.

Definition set_rd (s : Conn) (r : Reader) : Conn := mkConnS (ciph s) (Some r) (wr s) (readIV s) (writeIV s).
Definition set_wr (s : Conn) (w : Writer) : Conn := mkConnS (ciph s) (rd s) (Some w) (readIV s) (writeIV s).

Definition Conn_Read (c : conn) (s : Conn) (n k : Z) : St World (result bytes * Conn) :=
  let* (r, s) := initReader c s in
  match r with
  | Fail e => ret (Fail e, s)
  | Ok r => let* (res, r) := Reader_Read c r n k in ret (res, set_rd s r)
  end.
Definition Conn_WriteTo (c d : conn) (avail : nat → Z) (s : Conn) : St World ((Z * option error) * Conn) :=
  let* (r, s) := initReader c s in
  match r with
  | Fail e => ret ((0, Some e), s)
  | Ok r => let* (res, r) := Reader_WriteTo c d avail r in ret (res, set_rd s r)
  end.
Definition Conn_Write (c : conn) (s : Conn) (iv b : bytes) : St World (result Z * Conn) :=
  let* (w, s) := initWriter c s iv in
  match w with
  | Fail e => ret (Fail e, s)
  | Ok w => let* (res, w) := Writer_Write c w b in ret (res, set_wr s w)
  end.
Definition Conn_ReadFrom (c : conn) (s : Conn) (iv : bytes) (reads : list (bytes * option error)) : St World ((Z * option error) * Conn) :=
  let* (w, s) := initWriter c s iv in
  match w with
  | Fail e => ret ((0, Some e), s)
  | Ok w => let* (res, w) := Writer_ReadFrom c w reads in ret (res, set_wr s w)
  end.

(** ** Packets ([packet.go]) *)

Definition ErrShortPacket : error := ErrNew "short packet".
Definition maxPacketSize : Z := 64 * 1024.

(** [dstlen] is [len(dst)]; [iv] is what [rand.Read] puts at its front. *)
Definition Pack (dstlen : Z) (iv plaintext : bytes) (a : Cipher) : go (result bytes) :=
  if decide (dstlen < IVSize a + len plaintext) then Some (Fail ErrShortBuffer) else
  let! f := Encrypter a iv in
  Some (Ok (iv ++ (XORKeyStream (start f) plaintext).1)).
Definition Unpack (dstlen : Z) (pkt : bytes) (a : Cipher) : go (result bytes) :=
  if decide (len pkt < IVSize a) then Some (Fail ErrShortPacket) else
  if decide (dstlen < len pkt - IVSize a) then Some (Fail ErrShortBuffer) else
  let! iv := slice_to pkt (IVSize a) in
  let! body := slice_from pkt (IVSize a) in
  let! f := Decrypter a iv in
  Some (Ok (XORKeyStream (start f) body).1).

Definition PacketConn_WriteTo (a : Cipher) (iv b : bytes) : go (result bytes) := Pack maxPacketSize iv b a.
Definition PacketConn_ReadFrom (a : Cipher) (blen : Z) (pkt : bytes) : go (result bytes) :=
  if decide (blen < IVSize a) then None else     (* b[IVSize():] *)
  Unpack (blen - IVSize a) (take (Z.to_nat blen) pkt) a.

(** ** Key streams *)

Lemma xor_next f (K : KeyStream f) a b :
  ∃ t, XORKeyStream (mkStream f a) b = (t, mkStream f (a ++ b)) ∧ f (a ++ b) = f a ++ t.
Proof.
  destruct (ks_app (f:=f) a b) as [t Ht]. exists t. split; [|done]. unfold XORKeyStream. cbn [xks seen].
  by rewrite Ht, <-(ks_len (f:=f) a), drop_app_length.
Qed.

Lemma xor_start f (K : KeyStream f) b : (XORKeyStream (start f) b).1 = f b.
Proof. reflexivity. Qed.

(** ** Writing *)

Lemma write_ok c (b : bytes) w r w' : write c b w = Some (Ok r, w') → events w' = events w ++ [EWrite c b].
Proof. unfold write, call. cbv beta zeta. destruct (default None _); [done|]. intros H. injection H as _ <-. apply events_snoc. Qed.

Lemma inband_all c l : inband c (EWrite c <$> l) = concat l.
Proof. induction l as [|b l IH]; [done|]. cbn [fmap list_fmap inband concat]. rewrite decide_True by done. by f_equal. Qed.

Lemma xor_write_loop_sends f (K : KeyStream f) c p fuel a n w :
  0 ≤ n ≤ len p → (Z.to_nat (len p - n) < fuel)%nat →
  ∃ r s w', write_loop fuel c (mkStream f a) p n w = Some ((r, s), w') ∧
    ∀ m, r = Ok m → m = len p ∧ s = mkStream f (a ++ drop (Z.to_nat n) p) ∧
      ∃ l, events w' = events w ++ (EWrite c <$> l) ∧ f (a ++ drop (Z.to_nat n) p) = f a ++ concat l.
Proof.
  revert a n w. induction fuel as [|fuel IH]; intros a n w Hn Hf; [lia|]. cbn [write_loop].
  destruct (decide (n < len p)) as [Hlt|Hge].
  2: { eexists _, _, _. split; [reflexivity|]. intros m Hm. injection Hm as <-.
    rewrite drop_ge by (unfold len in *; lia). rewrite app_nil_r. split; [lia|]. split; [done|].
    exists []. cbn. by rewrite !app_nil_r. }
  set (en := if decide (len p < n + bufSize) then len p else n + bufSize).
  assert (n < en ≤ len p) as Hen by (unfold en, bufSize in *; case_decide; lia). clearbody en.
  rewrite slice_Some by lia. rewrite bind_lift_Some. set (chunk := take (Z.to_nat (en - n)) (drop (Z.to_nat n) p)).
  destruct (xor_next f K a chunk) as (t & -> & Ht). unfold bind at 1.
  destruct (write c t w) as [[[[]|e] w1]|] eqn:E; [|by eexists _, _, _|done].
  apply write_ok in E. replace (n + (en - n)) with en by lia.
  destruct (IH (a ++ chunk) en w1) as (r & s & w' & E' & H); [lia|lia|].
  exists r, s, w'. split; [exact E'|]. intros m Hm. destruct (H m Hm) as (-> & -> & l & He & Hl).
  assert (chunk ++ drop (Z.to_nat en) p = drop (Z.to_nat n) p) as Hc.
  { unfold chunk. replace (Z.to_nat en) with (Z.to_nat n + Z.to_nat (en - n))%nat by lia. rewrite <-drop_drop. apply take_drop. }
  rewrite <-app_assoc, Hc in *. split; [done|]. split; [done|]. exists (t :: l). cbn [fmap list_fmap concat].
  split; [by rewrite He, E, <-app_assoc|]. by rewrite Hl, Ht, <-app_assoc.
Qed.

Section ends.
Context (a : Cipher) `{CL : !CipherLaws a}.

(** A sender writes [ps] in turn until a write fails. *)
Fixpoint send_all (c : conn) (s : Conn) (iv : bytes) (ps : list bytes) : St World (result Conn) :=
  match ps with
  | [] => ret (Ok s)
  | p :: ps =>
      let* (r, s) := Conn_Write c s iv p in
      match r with
      | Fail e => throw e
      | Ok _ => send_all c s iv ps
      end
  end.

(** A receiver reads until a read fails: the size of its buffer and what the
    network has ready, for each read. *)
Fixpoint read_all (d : conn) (s : Conn) (sizes : list (Z * Z)) : St World (list bytes * option error) :=
  match sizes with
  | [] => ret ([], None)
  | (n, k) :: sizes =>
      let* (r, s) := Conn_Read d s n k in
      match r with
      | Fail e => ret ([], Some e)
      | Ok out => let* (outs, e) := read_all d s sizes in ret (out :: outs, e)
      end
  end.

Lemma xor_send_more f (K : KeyStream f) c iv ps s x w s' w' :
  wr s = Some (mkWriter (mkStream f x)) → send_all c s iv ps w = Some (Ok s', w') →
  ∃ l, events w' = events w ++ (EWrite c <$> l) ∧ f (x ++ concat ps) = f x ++ concat l.
Proof.
  revert s x w. induction ps as [|p ps IH]; intros s x w Hw H.
  { injection H as <- <-. exists []. cbn. by rewrite !app_nil_r. }
  cbn [send_all] in H. apply bind_Some in H as ([r s1] & w1 & E & H).
  unfold Conn_Write, initWriter in E. rewrite Hw in E. unfold bind at 1, ret at 1 in E.
  apply bind_Some in E as ([res wr1] & w2 & E & H2). injection H2 as <- <- <-.
  unfold Writer_Write in E. apply bind_Some in E as ([r0 s0] & w3 & E & H3). injection H3 as <- <- <-.
  cbn [wStream] in E.
  destruct (xor_write_loop_sends f K c p (S (length p)) x 0 w) as (r1 & s2 & w4 & E4 & Hok);
    [pose proof (len_nonneg p); lia|unfold len; lia|].
  rewrite E in E4. injection E4 as <- <- <-. destruct r0 as [m|e]; [|done].
  destruct (Hok m eq_refl) as (_ & -> & l1 & He1 & Hf1). change (drop (Z.to_nat 0) p) with p in *.
  destruct (IH (set_wr s (mkWriter (mkStream f (x ++ p)))) (x ++ p) w3 eq_refl H) as (l2 & He2 & Hf2).
  exists (l1 ++ l2). rewrite fmap_app, concat_app. split; [by rewrite He2, He1, <-app_assoc|].
  cbn [concat]. by rewrite app_assoc, Hf2, Hf1, <-app_assoc.
Qed.

(** What a sender has put on the wire. *)
Lemma xor_send_all_stream c iv ps w s' w' f :
  len iv = IVSize a → Encrypter a iv = Some f → KeyStream f →
  send_all c (NewConn a) iv ps w = Some (Ok s', w') →
  ∃ l, events w' = events w ++ (EWrite c <$> l) ∧ (ps = [] ∧ l = [] ∨ concat l = iv ++ f (concat ps)).
Proof.
  intros Hiv Hf K H. destruct ps as [|p ps].
  { injection H as <- <-. exists []. rewrite app_nil_r. split; [done|]. by left. }
  cbn [send_all] in H. unfold Conn_Write, initWriter, ObtainWriteIV in H. cbn [wr NewConn writeIV ciph readIV rd] in H.
  set (pick := if decide (len [] = IVSize a) then _ else _) in H.
  assert (∃ wv, pick = (iv, mkConnS a None None [] wv)) as (wv & Hpick).
  { unfold pick. case_decide as Hd; [|by eexists]. exists []. f_equal. symmetry. apply len_0_nil. by rewrite Hiv, <-Hd. }
  rewrite Hpick in H. cbn [ciph] in H. rewrite Hf in H. clear pick Hpick.
  unfold bind at 1 2 3 in H. destruct (write c iv w) as [[[[]|e] w1]|] eqn:E; [|done|done]. apply write_ok in E.
  destruct (xor_send_more f K c iv (p :: ps) (mkConnS a None (Some (NewWriter (start f))) [] wv) [] w1 s' w' eq_refl H) as (l & He & Hl).
  exists (iv :: l). split; [by rewrite He, E, <-app_assoc|]. right. change (concat (iv :: l)) with (iv ++ concat l). f_equal.
  cbn [app] in Hl. rewrite Hl. pose proof (ks_len (f:=f) []) as H0. by destruct (f []).
Qed.

(** *** Reading *)

(** The reader has taken [x] of the stream [g] decodes, and [rest] is to come. *)
Lemma Conn_Read_next g (K : KeyStream g) d s x n k w :
  rd s = Some (mkReader (mkStream g x)) → 0 < n →
  let rest := default [] (inbox w !! cid d) in
  ∃ r s' w', Conn_Read d s n k w = Some ((r, s'), w') ∧
    (rest = [] ∧ r = Fail EOF ∨
     ∃ now later t, rest = now ++ later ∧ r = Ok t ∧ g (x ++ now) = g x ++ t ∧
       rd s' = Some (mkReader (mkStream g (x ++ now))) ∧ default [] (inbox w' !! cid d) = later).
Proof.
  intros Hr Hn rest. unfold Conn_Read, initReader. rewrite Hr. unfold bind at 1, ret at 1.
  unfold Reader_Read, readSome, bind. fold rest. case_decide as Hd.
  - eexists _, _, _. split; [reflexivity|]. left. split; [apply Hd|done].
  - set (m := Z.to_nat _). cbn [rStream]. destruct (xor_next g K x (take m rest)) as (t & -> & Ht).
    eexists _, _, _. split; [reflexivity|]. right. exists (take m rest), (drop m rest), t.
    rewrite take_drop. split; [done|]. split; [done|]. split; [done|]. split; [done|].
    cbn [inbox]. by rewrite lookup_insert_eq.
Qed.

Lemma xor_read_more g (K : KeyStream g) d sizes s x w :
  rd s = Some (mkReader (mkStream g x)) → Forall (λ nk, 0 < nk.1) sizes →
  let rest := default [] (inbox w !! cid d) in
  ∃ outs e w', read_all d s sizes w = Some ((outs, e), w') ∧
    ∃ now later, rest = now ++ later ∧ g (x ++ now) = g x ++ concat outs ∧
      (e = None ∧ length outs = length sizes ∨ e = Some EOF ∧ later = []).
Proof.
  intros Hr Hn. revert s x w Hr. induction Hn as [|[n k] sizes Hn _ IH]; intros s x w Hr rest.
  { exists [], None, w. split; [done|]. exists [], rest. cbn. rewrite !app_nil_r. split; [done|]. split; [done|]. by left. }
  cbn [read_all]. destruct (Conn_Read_next g K d s x n k w Hr Hn) as (r & s' & w1 & E & H). fold rest in H.
  unfold bind at 1. rewrite E. destruct H as [[Hrest ->]|(now & later & t & Hrest & -> & Ht & Hr' & Hl)].
  - exists [], (Some EOF), w1. split; [done|]. exists [], []. cbn. rewrite !app_nil_r. split; [done|]. split; [done|]. by right.
  - destruct (IH s' (x ++ now) w1 Hr') as (outs & e & w2 & E2 & now2 & later2 & Hsplit & Hg & He).
    rewrite Hl in Hsplit. unfold bind. rewrite E2. exists (t :: outs), e, w2. split; [done|].
    exists (now ++ now2), later2. rewrite Hrest, Hsplit, <-app_assoc. split; [done|]. cbn [concat length].
    rewrite (app_assoc x), Hg, Ht, <-app_assoc. split; [done|]. destruct He as [[-> ->]|He]; [by left|by right].
Qed.
End ends.

(** C33: what is written into one end of a connection with a stream cipher comes
    out of the other: whatever the writes, the sizes of the reads and the pieces
    the network delivers, the bytes read are the bytes written, in order, and the
    only failure is the end of the stream, which comes after the last byte. *)
Theorem stream_cipher_roundtrip (a : Cipher) `{CL : !CipherLaws a} (c d : conn) (iv : bytes) (ps : list bytes)
    (sizes : list (Z * Z)) (w w' w2 : World) (s' : Conn) (l : list event) :
  len iv = IVSize a → Forall (λ nk, 0 < nk.1) sizes →
  send_all c (NewConn a) iv ps w = Some (Ok s', w') → events w' = events w ++ l →
  default [] (inbox w2 !! cid d) = inband c l →
  ∃ outs e w3, read_all d (NewConn a) sizes w2 = Some ((outs, e), w3) ∧
    ∃ rest, concat ps = concat outs ++ rest ∧ (e = None ∧ length outs = length sizes ∨ e = Some EOF ∧ rest = []).
Proof.
  intros Hiv Hn Hsend Hl Hin. destruct (cipher_ok (a:=a) iv Hiv) as (f & g & Ef & Eg & Kf & Kg & Hgf).
  destruct (xor_send_all_stream a c iv ps w s' w' f Hiv Ef Kf Hsend) as (l' & Hl' & Hs).
  rewrite Hl in Hl'. apply app_inv_head in Hl' as ->. rewrite inband_all in Hin.
  destruct sizes as [|[n k] sizes].
  { exists [], None, w2. split; [done|]. exists (concat ps). split; [done|]. by left. }
  pose proof (iv_size (a:=a)) as Hpos.
  assert (ObtainReadIV d (NewConn a) w2 =
    match readN d (IVSize a) w2 with
    | Some (Ok v, w3) => Some ((Ok v, mkConnS a None None v []), w3)
    | Some (Fail e, w3) => Some ((Fail e, NewConn a), w3)
    | None => None
    end) as Ho.
  { unfold ObtainReadIV. cbn [readIV NewConn ciph rd wr writeIV]. rewrite decide_False by (rewrite len_nil; lia).
    unfold bind, ret. by destruct (readN d (IVSize a) w2) as [[[v|e] w3]|]. }
  destruct Hs as [[-> ->]|Hs].
  - destruct (readN_short d (IVSize a) w2) as (e & w3 & E & _); [by rewrite Hin|].
    assert (e = EOF) as ->.
    { unfold readN in E. rewrite Hin in E. cbn in E. rewrite take_nil in E. rewrite decide_False in E by (rewrite len_nil; lia).
      by injection E. }
    exists [], (Some EOF), w3. split; [|exists []; by split; [|right]].
    cbn [read_all]. unfold Conn_Read, initReader. cbn [rd NewConn]. unfold bind. by rewrite Ho, E.
  - rewrite Hs in Hin. destruct (readN_take d (IVSize a) w2) as (w3 & E & _ & _ & Hin3).
    { rewrite Hin, len_app. pose proof (len_nonneg (f (concat ps))). lia. }
    assert (Z.to_nat (IVSize a) = length iv) as Hn0 by (unfold len in Hiv; lia).
    rewrite Hin, Hn0 in E, Hin3. rewrite take_app_length in E. rewrite drop_app_length in Hin3.
    set (s3 := mkConnS a (Some (NewReader (start g))) None iv []).
    destruct (xor_read_more g Kg d ((n, k) :: sizes) s3 [] w3 eq_refl Hn) as (outs & e & w4 & E4 & now & later & Hsp & Hg & He).
    exists outs, e, w4. split.
    { rewrite <-E4. cbn [read_all]. unfold Conn_Read at 1, initReader at 1. cbn [rd NewConn]. unfold bind at 1 2.
      unfold bind at 1. rewrite Ho, E. cbn [ciph]. rewrite Eg. reflexivity. }
    rewrite Hin3 in Hsp. cbn [app] in Hg. pose proof (ks_len (f:=g) []) as H0. destruct (g []) as [|]; [|done]. cbn [app] in Hg.
    destruct (ks_app (f:=g) now later) as [t Ht]. rewrite <-Hsp, Hgf in Ht. exists t. rewrite <-Hg. split; [exact Ht|].
    destruct He as [He|[He ->]]; [by left|right]. split; [done|].
    rewrite app_nil_r in Hsp. rewrite <-Hsp, Hgf in Ht. apply (f_equal length) in Ht. rewrite length_app in Ht.
    destruct t; [done|cbn in Ht; lia].
Qed.

(** Packets: what is packed is unpacked again, when it fits the buffers. *)
Lemma stream_packet_roundtrip (a : Cipher) `{CL : !CipherLaws a} (iv plaintext : bytes) (dst1 dst2 : Z) :
  len iv = IVSize a → IVSize a + len plaintext ≤ dst1 → len plaintext ≤ dst2 →
  ∃ pkt, Pack dst1 iv plaintext a = Some (Ok pkt) ∧ Unpack dst2 pkt a = Some (Ok plaintext).
Proof.
  intros Hiv H1 H2. destruct (cipher_ok (a:=a) iv Hiv) as (f & g & Ef & Eg & Kf & Kg & Hgf).
  pose proof (len_nonneg plaintext). pose proof (len_nonneg iv).
  assert (len (f plaintext) = len plaintext) as Hl by (unfold len; by rewrite (ks_len (f:=f))).
  unfold Pack. rewrite decide_False by lia. rewrite Ef. eexists. split; [reflexivity|]. rewrite xor_start by done.
  unfold Unpack. rewrite !decide_False by (rewrite len_app; lia).
  rewrite slice_to_Some, slice_from_Some by (rewrite len_app; lia).
  assert (Z.to_nat (IVSize a) = length iv) as -> by (unfold len in Hiv; lia).
  rewrite take_app_length, drop_app_length, Eg. by rewrite xor_start, Hgf.
Qed.

(** ** Witness *)

Definition toy_xor (k : byte) (l : bytes) : bytes := (λ b, Zb (Z.lxor (bZ b) (bZ k))) <$> l.
Definition toy_stream_cipher : Cipher :=
  mkCipher 1 (λ iv, match iv with [k] => Some (toy_xor k) | _ => None end)
    (λ iv, match iv with [k] => Some (toy_xor k) | _ => None end).
Lemma toy_xor_twice k l : toy_xor k (toy_xor k l) = l.
Proof.
  unfold toy_xor. rewrite <-list_fmap_compose. rewrite <-(list_fmap_id l) at 2. apply list_fmap_ext. intros _ b _. cbn.
  pose proof (bZ_range b). pose proof (bZ_range k).
  assert (0 ≤ Z.lxor (bZ b) (bZ k) < 256) as Hr.
  { split; [apply Z.lxor_nonneg; lia|]. change 256 with (2 ^ 8). apply Z.log2_lt_cancel. cbn.
    eapply Z.le_lt_trans; [apply Z.log2_lxor; lia|]. apply Z.max_lub_lt;
      (apply Z.le_lt_trans with (Z.log2 255); [apply Z.log2_le_mono; lia|done]). }
  rewrite bZ_Zb_small by done. by rewrite Z.lxor_assoc, Z.lxor_nilpotent, Z.lxor_0_r, Zb_bZ.
Qed.
#[local] Instance toy_stream_laws : CipherLaws toy_stream_cipher.
Proof.
  split; [done|]. intros [|k [|? iv]] Hiv; [done| |cbn in Hiv; unfold len in Hiv; cbn in Hiv; lia].
  assert (KeyStream (toy_xor k)).
  { split; [intros l; apply length_fmap|]. intros a b. unfold toy_xor. rewrite fmap_app. by eexists. }
  exists (toy_xor k), (toy_xor k). do 4 (split; [done|]). apply toy_xor_twice.
Qed.
Definition toy_end : conn := mkConn 1 false.
Definition toy_world : World := mkWorld [] [] 0 [] [] [] ∅.

Lemma stream_cipher_roundtrip_witness :
  ∃ s' w', send_all toy_end (NewConn toy_stream_cipher) [Byte.x2a] [[Byte.x61; Byte.x62; Byte.x63]; []; [Byte.x64]] toy_world = Some (Ok s', w') ∧
  ∃ outs w3, read_all toy_end (NewConn toy_stream_cipher) [(2, 9); (8, 1); (8, 8); (1, 1)]
      (mkWorld [] [] 0 [] [] [] {[1 := inband toy_end (events w')]}) = Some ((outs, Some EOF), w3) ∧
    concat outs = [Byte.x61; Byte.x62; Byte.x63; Byte.x64].
Proof.
  destruct (send_all toy_end (NewConn toy_stream_cipher) [Byte.x2a] [[Byte.x61; Byte.x62; Byte.x63]; []; [Byte.x64]] toy_world)
    as [[[s'|e] w']|] eqn:E; [|vm_compute in E; discriminate..].
  exists s', w'. split; [reflexivity|].
  destruct (stream_cipher_roundtrip toy_stream_cipher toy_end toy_end [Byte.x2a] [[Byte.x61; Byte.x62; Byte.x63]; []; [Byte.x64]]
    [(2, 9); (8, 1); (8, 8); (1, 1)] toy_world w' (mkWorld [] [] 0 [] [] [] {[1 := inband toy_end (events w')]}) s' (events w'))
    as (outs & e & w3 & Er & rest & Hc & He); [reflexivity|repeat constructor|exact E|reflexivity|reflexivity|].
  assert (e = Some EOF) as ->.
  { vm_compute in E. injection E as _ <-. vm_compute in Er. injection Er as _ <- _. reflexivity. }
  destruct He as [[He _]|[_ ->]]; [discriminate|].
  exists outs, w3. split; [exact Er|]. rewrite app_nil_r in Hc. symmetry. exact Hc.
Defined.
