(* ===== verification/ShadowCore.v ===== *)
(** The choice of a Shadowsocks cipher
    ([tun2socks/transport/shadowsocks/core/cipher.go]): the table of names, the
    aliases, and the key derived from the password.  The theorem: every supported
    name gives a cipher whose key is what OpenSSL derives from the password, cut to
    the size of the table, and every other name is refused. *)

From S2P Require Import Prelude GoStd Conn ShadowAead ShadowStream.

(** What the package uses of the crypto packages, besides the stream ciphers. *)
Record packages := mkPackages {
  streams : crypto;
  aesGCM : bytes → result AEAD;
  chacha20poly1305_New : bytes → result AEAD;
  chacha20poly1305_NewX : bytes → result AEAD;
  hkdfSHA1 : bytes → bytes → string → Z → bytes
}.

Definition ErrCipherNotSupported : error := ErrNew "cipher not supported".

Section core.
Context (pk : packages).

Definition aead_New (f : (bytes → result AEAD) → (bytes → bytes → string → Z → bytes) → bytes → result metaCipher)
    (make : bytes → result AEAD) : bytes → result metaCipher := f make (hkdfSHA1 pk).

Definition aeadList : list (string * (Z * (bytes → result metaCipher))) :=
  [("AEAD_AES_128_GCM", (16, aead_New AESGCM (aesGCM pk)));
   ("AEAD_AES_192_GCM", (24, aead_New AESGCM (aesGCM pk)));
   ("AEAD_AES_256_GCM", (32, aead_New AESGCM (aesGCM pk)));
   ("AEAD_CHACHA20_POLY1305", (32, aead_New Chacha20Poly1305 (chacha20poly1305_New pk)));
   ("AEAD_XCHACHA20_POLY1305", (32, aead_New Chacha20Poly1305 (chacha20poly1305_NewX pk)))].

Definition streamList : list (string * (Z * (bytes → result ShadowStream.Cipher))) :=
  [("RC4-MD5", (16, RC4MD5 (streams pk)));
   ("AES-128-CTR", (16, AESCTR (streams pk)));
   ("AES-192-CTR", (24, AESCTR (streams pk)));
   ("AES-256-CTR", (32, AESCTR (streams pk)));
   ("AES-128-CFB", (16, AESCFB (streams pk)));
   ("AES-192-CFB", (24, AESCFB (streams pk)));
   ("AES-256-CFB", (32, AESCFB (streams pk)));
   ("CHACHA20-IETF", (32, Chacha20IETF (streams pk)));
   ("XCHACHA20", (32, Xchacha20 (streams pk)))].

Fixpoint entry {A} (name : string) (l : list (string * A)) : option A :=
  match l with
  | [] => None
  | (n, x) :: l => if decide (n = name) then Some x else entry name l
  end.

(** [sort.Strings]. *)
Fixpoint insert_string (x : string) (l : list string) : list string :=
  match l with
  | [] => [x]
  | y :: l => if String.leb x y then x :: y :: l else y :: insert_string x l
  end.
Definition sort_Strings (l : list string) : list string := foldr insert_string [] l.

Definition ListCipher : list string := sort_Strings ((fst <$> aeadList) ++ (fst <$> streamList)).

(** [Kdf]: [h.Sum(b)] appends the digest of [prev] and the password to [b]. *)
Definition md5_Size : Z := 16.
Fixpoint Kdf_loop (fuel : nat) (password : bytes) (keyLen : Z) (b prev : bytes) : go bytes :=
  match fuel with
  | O => None
  | S fuel =>
      if decide (len b < keyLen) then
        let b := b ++ md5 (streams pk) (prev ++ password) in
        let! prev := slice_from b (len b - md5_Size) in
        Kdf_loop fuel password keyLen b prev
      else slice_to b keyLen
  end.
Definition Kdf (password : string) (keyLen : Z) : go bytes :=
  Kdf_loop (S (Z.to_nat keyLen)) (bytes_of_string password) keyLen [] [].

(** The three implementations of [Cipher]; the key is a field of the last two. *)
Inductive Cipher :=
| Dummy
| AeadCipher (c : metaCipher) (key : bytes)
| StreamCipher (c : ShadowStream.Cipher) (key : bytes).

Definition alias (name : string) : string :=
  if decide (name = "CHACHA20-IETF-POLY1305") then "AEAD_CHACHA20_POLY1305"
  else if decide (name = "XCHACHA20-IETF-POLY1305") then "AEAD_XCHACHA20_POLY1305"
  else if decide (name = "AES-128-GCM") then "AEAD_AES_128_GCM"
  else if decide (name = "AES-192-GCM") then "AEAD_AES_192_GCM"
  else if decide (name = "AES-256-GCM") then "AEAD_AES_256_GCM"
  else name.

Definition key_for (key : bytes) (password : string) (size : Z) : go bytes :=
  if decide (len key = 0) then Kdf password size else Some key.

Definition PickCipher (name : string) (key : bytes) (password : string) : go (result Cipher) :=
  let name := ToUpper name in
  if decide (name = "DUMMY") then Some (Ok Dummy) else
  let name := alias name in
  match entry name aeadList with
  | Some (size, new) =>
      let! key := key_for key password size in
      if decide (len key ≠ size) then Some (Fail (ShadowAead.KeySizeError size)) else
      Some (let? c := new key in Ok (AeadCipher c key))
  | None =>
      match entry name streamList with
      | Some (size, new) =>
          let! key := key_for key password size in
          if decide (len key ≠ size) then Some (Fail (ShadowStream.KeySizeError size)) else
          Some (let? c := new key in Ok (StreamCipher c key))
      | None => Some (Fail ErrCipherNotSupported)
      end
  end.

(** *** Connections of a cipher: what it wraps around the one it is given. *)
Inductive streamConn := PlainConn | AeadConn (s : ShadowAead.Conn) | XorConn (s : ShadowStream.Conn).
Definition StreamConn (c : Cipher) : streamConn :=
  match c with
  | Dummy => PlainConn
  | AeadCipher a _ => AeadConn (ShadowAead.NewConn a)
  | StreamCipher a _ => XorConn (ShadowStream.NewConn a)
  end.

(** ** The key a password stands for

    Digests chained as OpenSSL's [EVP_BytesToKey] chains them. *)

Fixpoint digests (n : nat) (password prev : bytes) : list bytes :=
  match n with
  | O => []
  | S n => let d := md5 (streams pk) (prev ++ password) in d :: digests n password d
  end.
Definition derived (password : string) (size : Z) : bytes :=
  take (Z.to_nat size) (concat (digests (Z.to_nat size) (bytes_of_string password) [])).

Context (md5_len : ∀ b, len (md5 (streams pk) b) = md5_Size).

Lemma digests_length n password prev : len (concat (digests n password prev)) = md5_Size * Z.of_nat n.
Proof.
  revert prev. induction n as [|n IH]; intros prev; [done|]. cbn [digests concat]. rewrite len_app, md5_len, IH.
  unfold md5_Size. lia.
Qed.

(** Any number of digests that covers the key gives the same key. *)
Lemma Kdf_loop_spec password keyLen fuel b prev m :
  0 ≤ keyLen → (Z.to_nat (keyLen - len b) < fuel)%nat → keyLen - len b ≤ md5_Size * Z.of_nat m →
  Kdf_loop fuel password keyLen b prev = Some (take (Z.to_nat keyLen) (b ++ concat (digests m password prev))).
Proof.
  intros Hk. revert b prev m. unfold md5_Size in *. induction fuel as [|fuel IH]; intros b prev m Hf Hm; [lia|].
  cbn [Kdf_loop]. pose proof (len_nonneg b). destruct (decide (len b < keyLen)) as [Hlt|Hge].
  - destruct m as [|m]; [lia|]. cbn [digests concat].
    set (d := md5 (streams pk) (prev ++ password)). pose proof (md5_len (prev ++ password)) as Hd. fold d in Hd.
    unfold md5_Size. rewrite slice_from_Some by (rewrite len_app; lia).
    assert (drop (Z.to_nat (len (b ++ d) - 16)) (b ++ d) = d) as ->.
    { rewrite len_app, Hd. replace (Z.to_nat (len b + 16 - 16)) with (length b) by (unfold len; lia). apply drop_app_length. }
    rewrite (IH (b ++ d) d m) by (rewrite len_app; lia). by rewrite <-app_assoc.
  - rewrite slice_to_Some by lia. f_equal. rewrite take_app_le; [done|]. unfold len in *. lia.
Qed.

Lemma Kdf_derived password size : 0 ≤ size → Kdf password size = Some (derived password size) ∧ len (derived password size) = size.
Proof.
  intros Hs. unfold Kdf, derived. rewrite (Kdf_loop_spec _ _ _ [] [] (Z.to_nat size)) by (unfold md5_Size; rewrite ?len_nil; lia).
  split; [done|]. rewrite len_take; [done|]. rewrite digests_length. unfold md5_Size. lia.
Qed.
End core.

(** ** What a name gives *)

(** The sizes of the keys, by the names a user may write (in capitals). *)
Definition key_sizes : list (string * Z) :=
  [("AES-128-GCM", 16); ("AES-192-GCM", 24); ("AES-256-GCM", 32);
   ("CHACHA20-IETF-POLY1305", 32); ("XCHACHA20-IETF-POLY1305", 32);
   ("AEAD_AES_128_GCM", 16); ("AEAD_AES_192_GCM", 24); ("AEAD_AES_256_GCM", 32);
   ("AEAD_CHACHA20_POLY1305", 32); ("AEAD_XCHACHA20_POLY1305", 32);
   ("RC4-MD5", 16); ("AES-128-CTR", 16); ("AES-192-CTR", 24); ("AES-256-CTR", 32);
   ("AES-128-CFB", 16); ("AES-192-CFB", 24); ("AES-256-CFB", 32); ("CHACHA20-IETF", 32); ("XCHACHA20", 32)].

Definition key_of (c : Cipher) : option bytes :=
  match c with Dummy => None | AeadCipher _ k | StreamCipher _ k => Some k end.

Lemma key_for_password pk password size :
  (∀ b, len (md5 (streams pk) b) = md5_Size) → 0 ≤ size →
  key_for pk [] password size = Some (derived pk password size) ∧ len (derived pk password size) = size.
Proof. intros Hmd Hs. unfold key_for. rewrite decide_True by done. by apply Kdf_derived. Qed.

Lemma cipher_made {C} pk password size (new : bytes → result C) (wrap : C → bytes → Cipher) (err : error) :
  (∀ b, len (md5 (streams pk) b) = md5_Size) → 0 ≤ size → (∀ c key, key_of (wrap c key) = Some key) →
  (∀ key, len key = size → ∃ c, new key = Ok c) →
  ∃ c, (let! key := key_for pk [] password size in
        if decide (len key ≠ size) then Some (Fail err) else Some (let? c := new key in Ok (wrap c key))) = Some (Ok c) ∧
    key_of c = Some (derived pk password size) ∧ len (derived pk password size) = size.
Proof.
  intros Hmd Hs Hw Hn. destruct (key_for_password pk password size Hmd Hs) as [-> Hl].
  destruct (Hn _ Hl) as [c Hc]. exists (wrap c (derived pk password size)). cbn beta iota.
  rewrite decide_False by (intros H; by apply H). by rewrite Hc, Hw.
Qed.

(** The constructors accept the keys of their sizes. *)
Lemma gcm_made make kdf size : size = 16 ∨ size = 24 ∨ size = 32 → ∀ key, len key = size → ∃ c, AESGCM make kdf key = Ok c.
Proof. intros Hs key Hk. unfold AESGCM. rewrite decide_True by lia. by eexists. Qed.
Lemma poly_made make kdf : ∀ key, len key = 32 → ∃ c, Chacha20Poly1305 make kdf key = Ok c.
Proof. intros key Hk. unfold Chacha20Poly1305, ShadowAead.chacha_KeySize. rewrite decide_False by lia. by eexists. Qed.
Lemma chacha_made cr : ∀ key, len key = 32 → (∃ c, Chacha20IETF cr key = Ok c) ∧ (∃ c, Xchacha20 cr key = Ok c).
Proof. intros key Hk. unfold Chacha20IETF, Xchacha20, chacha_KeySize. rewrite !decide_False by lia. split; by eexists. Qed.
Lemma aes_made cr size :
  (∀ key, len key = 16 ∨ len key = 24 ∨ len key = 32 → ∃ blk, aes_NewCipher cr key = Ok blk) →
  size = 16 ∨ size = 24 ∨ size = 32 →
  ∀ key, len key = size → (∃ c, AESCTR cr key = Ok c) ∧ (∃ c, AESCFB cr key = Ok c).
Proof.
  intros Haes Hs key Hk. destruct (Haes key) as [blk Hb]; [lia|]. unfold AESCTR, AESCFB. rewrite Hb.
  split; by eexists.
Qed.

Ltac compare_names := repeat first [rewrite decide_True by reflexivity | rewrite decide_False by discriminate].
Ltac look_up :=
  repeat match goal with |- context [alias ?n] => let a := eval vm_compute in (alias n) in change (alias n) with a end;
  unfold aeadList, streamList; cbn [entry]; compare_names.

(** The supported ciphers.  A name of the table (in any case of letters) with a
    password gives a cipher whose key is the first bytes of the chained digests of
    the password, of exactly the size of the table; the derivation ends and never
    leaves its buffer; the name [dummy] gives the cipher that does nothing, and
    every other name is refused. *)
Theorem PickCipher_outcome (pk : packages) (name password : string) :
  (∀ b, len (md5 (streams pk) b) = md5_Size) →
  (∀ key, len key = 16 ∨ len key = 24 ∨ len key = 32 → ∃ blk, aes_NewCipher (streams pk) key = Ok blk) →
  match entry (ToUpper name) key_sizes with
  | Some size =>
      ∃ c, PickCipher pk name [] password = Some (Ok c) ∧ key_of c = Some (derived pk password size) ∧
        len (derived pk password size) = size
  | None =>
      PickCipher pk name [] password =
        Some (if decide (ToUpper name = "DUMMY") then Ok Dummy else Fail ErrCipherNotSupported)
  end.
Proof.
  intros Hmd Haes. unfold PickCipher. generalize (ToUpper name). clear name. intros name.
  destruct (entry name key_sizes) as [size|] eqn:E; unfold key_sizes in E; cbn [entry] in E.
  - repeat (case_decide; [injection E as <-; subst name; look_up|]).
    all: try discriminate E.
    all: apply cipher_made; [exact Hmd|lia|done|].
    all: intros key Hk; first [eapply gcm_made; [|exact Hk]; lia | by apply poly_made | by apply chacha_made
                              | eapply (aes_made _ _ Haes); [|exact Hk]; lia | by eexists].
  - repeat (case_decide; [done|]).
    assert (alias name = name) as -> by (unfold alias; rewrite !decide_False by congruence; done).
    unfold aeadList, streamList. cbn [entry]. by rewrite !decide_False by done.
Qed.

(** ** Witness *)

Definition toy_crypto : crypto :=
  mkCrypto unit (λ _, Ok tt) (λ _, 16) (λ _ _ l, l) (λ _ _ l, l) (λ _ _ l, l) (λ _ _, Ok (λ l, l)) (λ _, make_zero 16) (λ _, Ok (λ l, l)).
Definition toy_packages : packages := mkPackages toy_crypto (λ _, Ok toy_aead) (λ _, Ok toy_aead) (λ _, Ok toy_aead) (λ _ salt _ _, salt).

Lemma PickCipher_outcome_witness :
  (∃ c, PickCipher toy_packages "aes-256-gcm" [] "secret" = Some (Ok c) ∧
     key_of c = Some (derived toy_packages "secret" 32) ∧ len (derived toy_packages "secret" 32) = 32) ∧
  PickCipher toy_packages "rot13" [] "secret" = Some (Fail ErrCipherNotSupported).
Proof.
  assert (∀ b, len (md5 (streams toy_packages) b) = md5_Size) as H1 by done.
  assert (∀ key, len key = 16 ∨ len key = 24 ∨ len key = 32 → ∃ blk, aes_NewCipher (streams toy_packages) key = Ok blk) as H2
    by (intros key _; exists tt; done).
  split.
  - exact (PickCipher_outcome toy_packages "aes-256-gcm" "secret" H1 H2).
  - exact (PickCipher_outcome toy_packages "rot13" "secret" H1 H2).
Defined.

Example ListCipher_sorted :
  ListCipher toy_packages =
    ["AEAD_AES_128_GCM"; "AEAD_AES_192_GCM"; "AEAD_AES_256_GCM"; "AEAD_CHACHA20_POLY1305"; "AEAD_XCHACHA20_POLY1305";
     "AES-128-CFB"; "AES-128-CTR"; "AES-192-CFB"; "AES-192-CTR"; "AES-256-CFB"; "AES-256-CTR"; "CHACHA20-IETF"; "RC4-MD5";
     "XCHACHA20"].
Proof. reflexivity. Qed.
