(* ===== verification/Upstream.v ===== *)
(** The proxies a flow can be sent through ([tun2socks/proxy]): direct, reject,
    HTTP CONNECT, SOCKS4 ([transport/socks4]), SOCKS5, Shadowsocks and relay, with
    their dialers.  Theorems: the SOCKS4 handshake says what it means and succeeds
    exactly on a granted request; no proxy leaks the connection of a dial that
    fails. *)

From Stdlib Require Import Strings.Ascii.
From S2P Require Import Prelude GoStd GoNet Conn Policy Cache Desync ClientHello Fragment Routing.
From S2P Require Import TransformIP DialPlan Session TunBridge Tunnel Socks5Server Socks5Client Obfs ShadowAead ShadowStream ShadowCore.
From S2P Require Import LumineProxy.

(** ** SOCKS4 ([transport/socks4/socks4.go]) *)

Definition socks4_Version : Z := 4.
Definition socks4_CmdConnect : Z := 1.
Definition socks4_CmdBind : Z := 2.
Definition RequestGranted : Z := 90.
Definition RequestRejected : Z := 91.
Definition RequestIdentdFailed : Z := 92.
Definition RequestIdentdMismatched : Z := 93.

Definition errVersionMismatched : error := ErrNew "version code mismatched".
Definition errIPv6NotSupported : error := ErrNew "IPv6 not supported".
Definition errCmdNotSupported : error := ErrNew "command not supported".
Definition ErrRequestRejected : error := ErrNew "request rejected or failed".
Definition ErrRequestIdentdFailed : error :=
  ErrNew "request rejected because SOCKS server cannot connect to identd on the client".
Definition ErrRequestIdentdMismatched : error :=
  ErrNew "request rejected because the client program and identd report different user-ids".
Definition ErrRequestUnknownCode : error := ErrNew "request failed with unknown code".

(** The prefix is 0.0.0.0/24; the zero address is not in it. *)
Definition isReservedIP (ip : Addr) : bool :=
  negb (bool_decide (ip = Addr4 0 ∨ ip = Addr6 0 "")) && PrefixContains (mkPrefix (Addr4 0) 24) ip.

Definition splitHostPort (addr : string) : result (string * Z) :=
  let? (host, portStr) := SplitHostPort addr in
  let? portInt := ParseUint portStr 16 in
  Ok (host, portInt).

(** The address the request carries: a name is 0.0.0.1. *)
Definition socks4_ip (host : string) : result Addr :=
  let ip := match ParseAddr host with Ok ip => ip | Fail _ => AddrInvalid end in
  if negb (IsValid ip) then Ok (Addr4 1)
  else if Is4In6 ip then match ip with Addr6 n _ => Ok (Addr4 (n mod 2 ^ 32)) | _ => Ok ip end
  else if Is4 ip then Ok ip
  else Fail errIPv6NotSupported.

Definition socks4_request (command port : Z) (ip : Addr) (userID host : string) : bytes :=
  [Zb socks4_Version; Zb command] ++ put16 port ++ (Zb <$> AsSlice ip) ++ bytes_of_string userID ++ [Byte.x00] ++
  (if isReservedIP ip then bytes_of_string host ++ [Byte.x00] else []).

Definition socks4_ClientHandshake (rw : conn) (addr : string) (command : Z) (userID : string) : St World (result unit) :=
  if decide (command = socks4_CmdBind) then throw errCmdNotSupported else
  match splitHostPort addr with
  | Fail e => throw e
  | Ok (host, port) =>
      match socks4_ip host with
      | Fail e => throw e
      | Ok ip =>
          let*? _ := write rw (socks4_request command port ip userID host) in
          let*? resp := readN rw 8 in
          let* r0 := lift (idx resp 0) in
          let* r1 := lift (idx resp 1) in
          if decide (bZ r0 ≠ 0) then throw errVersionMismatched else
          if decide (bZ r1 = RequestGranted) then ret (Ok tt)
          else if decide (bZ r1 = RequestRejected) then throw ErrRequestRejected
          else if decide (bZ r1 = RequestIdentdFailed) then throw ErrRequestIdentdFailed
          else if decide (bZ r1 = RequestIdentdMismatched) then throw ErrRequestIdentdMismatched
          else throw ErrRequestUnknownCode
      end
  end.

(** *** What a SOCKS4A server reads *)

Fixpoint cut_nul (b : bytes) : option (bytes * bytes) :=
  match b with
  | [] => None
  | x :: b => if decide (x = Byte.x00) then Some ([], b) else
      match cut_nul b with Some (l, r) => Some (x :: l, r) | None => None end
  end.

(** The command, the port, the destination (an address, or a name after an address
    0.0.0.x) and the user. *)
Definition socks4_parse (b : bytes) : option (Z * Z * (Addr + bytes) * bytes) :=
  match b with
  | v :: cmd :: p1 :: p2 :: i1 :: i2 :: i3 :: i4 :: rest =>
      if decide (bZ v ≠ 4) then None else
      match cut_nul rest with
      | None => None
      | Some (user, rest) =>
          let ip := Addr4 (of_bytes [bZ i1; bZ i2; bZ i3; bZ i4]) in
          let port := bZ p1 * 256 + bZ p2 in
          if decide (bZ i1 = 0 ∧ bZ i2 = 0 ∧ bZ i3 = 0 ∧ bZ i4 ≠ 0) then
            match cut_nul rest with
            | Some (name, []) => Some (bZ cmd, port, inr name, user)
            | _ => None
            end
          else match rest with [] => Some (bZ cmd, port, inl ip, user) | _ => None end
      end
  | _ => None
  end.

Definition no_nul (b : bytes) : Prop := Byte.x00 ∉ b.
Lemma cut_nul_app b r : no_nul b → cut_nul (b ++ Byte.x00 :: r) = Some (b, r).
Proof.
  induction b as [|x b IH]; intros Hn; [done|]. unfold no_nul in *. rewrite not_elem_of_cons in Hn. destruct Hn as [Hx Hn].
  cbn [app cut_nul]. rewrite decide_False by congruence. by rewrite IH.
Qed.

(** The addresses a request can carry. *)
Lemma socks4_ip_4 host ip : socks4_ip host = Ok ip → ∃ n, ip = Addr4 n ∧ 0 ≤ n < 2 ^ 32.
Proof.
  unfold socks4_ip. destruct (ParseAddr host) as [a|e] eqn:E.
  - apply ParseAddr_wf in E. destruct a as [|n|n z]; cbn.
    + intros H. injection H as <-. by eexists.
    + intros H. injection H as <-. by eexists.
    + destruct (mapped n); [|done]. intros H. injection H as <-. eexists. split; [done|]. by apply Z.mod_pos_bound.
  - cbn. intros H. injection H as <-. by eexists.
Qed.

Lemma isReservedIP_4 n : 0 ≤ n < 2 ^ 32 → isReservedIP (Addr4 n) = bool_decide (0 < n < 256).
Proof.
  intros Hn. unfold isReservedIP, PrefixContains. cbn [pAddr pBits]. change (32 - 24) with 8.
  rewrite Z.shiftr_0_l, Z.shiftr_div_pow2 by lia. change (2 ^ 8) with 256.
  pose proof (Z.div_mod n 256 ltac:(lia)). pose proof (Z.mod_pos_bound n 256 ltac:(lia)).
  destruct (decide (n = 0)) as [->|Hz]; [done|].
  rewrite bool_decide_false by (intros [H1|H1]; congruence). cbn [negb andb].
  destruct (decide (0 < n < 256)) as [Hs|Hs].
  - rewrite bool_decide_true by done. apply Z.eqb_eq. symmetry. apply Z.div_small. lia.
  - rewrite bool_decide_false by done. apply Z.eqb_neq. intros Hd. apply Hs. lia.
Qed.

Lemma socks4_ip_bytes n : 0 ≤ n < 2 ^ 32 →
  ∃ b1 b2 b3 b4, (Zb <$> AsSlice (Addr4 n)) = [b1; b2; b3; b4] ∧ of_bytes [bZ b1; bZ b2; bZ b3; bZ b4] = n ∧
    ((bZ b1 = 0 ∧ bZ b2 = 0 ∧ bZ b3 = 0 ∧ bZ b4 ≠ 0) ↔ 0 < n < 256).
Proof.
  intros Hn. pose proof (of_bytes_of 4 n) as Ho. change (8 * Z.of_nat 4) with 32 in Ho. rewrite Z.mod_small in Ho by done.
  cbn [AsSlice]. unfold bytes_of in *. cbn [seq fmap list_fmap] in *.
  pose proof (byte_of_bound 4 n 0). pose proof (byte_of_bound 4 n 1). pose proof (byte_of_bound 4 n 2). pose proof (byte_of_bound 4 n 3).
  eexists _, _, _, _. split; [reflexivity|]. rewrite !bZ_Zb_small by done. split; [done|]. cbn in Ho. lia.
Qed.

Lemma socks4_request_parse command port ip userID host :
  0 ≤ command < 256 → 0 ≤ port < 65536 → socks4_ip host = Ok ip →
  no_nul (bytes_of_string userID) → no_nul (bytes_of_string host) →
  socks4_parse (socks4_request command port ip userID host) =
    Some (command, port, (if isReservedIP ip then inr (bytes_of_string host) else inl ip), bytes_of_string userID).
Proof.
  intros Hc Hport Hip Hu Hh. destruct (socks4_ip_4 host ip Hip) as (n & -> & Hn).
  destruct (socks4_ip_bytes n Hn) as (b1 & b2 & b3 & b4 & Hbs & Hof & Hres).
  unfold socks4_request. rewrite Hbs, isReservedIP_4 by done. unfold put16. cbn [app socks4_parse].
  rewrite decide_False by (intros H; by apply H). rewrite cut_nul_app by done.
  rewrite Hof, bZ_Zb_small, put16_val by done. case_decide as Hd.
  - rewrite bool_decide_true by tauto. by rewrite cut_nul_app.
  - rewrite bool_decide_false by tauto. done.
Qed.

(** The SOCKS4 handshake says what it means.  For an address that splits and
    that SOCKS4 can carry, and a user without NUL bytes, the client sends exactly
    one message, which a SOCKS4A server reads as the command, the port, the user and
    the destination (the IPv4 address, or the host name when there is none), and
    the handshake succeeds exactly when the server answers with eight bytes that
    begin with 0 and 90 (granted); what follows the answer is left unread. *)
Theorem socks4_ClientHandshake_outcome (rw : conn) (addr host userID : string) (port command : Z) (ip : Addr)
    (input : bytes) (w : World) :
  0 ≤ command < 256 → command ≠ socks4_CmdBind → splitHostPort addr = Ok (host, port) → 0 ≤ port < 65536 →
  socks4_ip host = Ok ip → no_nul (bytes_of_string userID) → no_nul (bytes_of_string host) →
  verdicts w = [] → inbox w !! cid rw = Some input →
  ∃ r w' msg, socks4_ClientHandshake rw addr command userID w = Some (r, w') ∧
    sent w' = sent w ++ [EWrite rw msg] ∧
    socks4_parse msg = Some (command, port, (if isReservedIP ip then inr (bytes_of_string host) else inl ip), bytes_of_string userID) ∧
    (r = Ok tt ↔ ∃ x rest, input = Byte.x00 :: Byte.x5a :: x ++ rest ∧ len x = 6 ∧ inbox w' !! cid rw = Some rest).
Proof.
  intros Hc Hb Hsp Hport Hip Hu Hh Hv Hin. pose proof (socks4_request_parse command port ip userID host Hc Hport Hip Hu Hh) as Hm.
  unfold socks4_ClientHandshake. rewrite decide_False by done. rewrite Hsp, Hip.
  set (msg := socks4_request command port ip userID host) in *.
  match goal with |- context [bindE (write rw msg) ?k] =>
    assert (wp rw w (bindE (write rw msg) k) [] input (λ r l i, l = [msg] ∧
      (r = Ok tt ↔ ∃ x, input = Byte.x00 :: Byte.x5a :: x ++ i ∧ len x = 6))) as Hwp
  end.
  { apply wp_write. apply wp_read; [lia| |].
    - intros resp i Hi Hl. destruct resp as [|r0 [|r1 x]]; try len_lia.
      change (idx (r0 :: r1 :: x) 0) with (Some r0). change (idx (r0 :: r1 :: x) 1) with (Some r1).
      rewrite !bind_lift_Some.
      assert (bZ r0 ≠ 0 ∨ bZ r1 ≠ 90 → ¬ ∃ x', input = Byte.x00 :: Byte.x5a :: x' ++ i ∧ len x' = 6) as Hno.
      { intros Hz (x' & Heq & _). rewrite Hi in Heq. injection Heq as -> -> _. by destruct Hz as [Hz|Hz]; apply Hz. }
      unfold RequestGranted. case_decide as H0; [apply wp_ret; split; [done|]; split; [done|intros Hx; exfalso; apply Hno; auto]|].
      case_decide as H1.
      + apply wp_ret. split; [done|]. split; [intros _|done]. exists x.
        rewrite Hi. replace r0 with Byte.x00 by (apply bZ_inj; by destruct (decide (bZ r0 = 0))).
        replace r1 with Byte.x5a by (by apply bZ_inj). split; [done|]. len_lia.
      + repeat case_decide; (apply wp_ret; split; [done|]; split; [done|intros Hx; exfalso; apply Hno; auto]).
    - intros e He. split; [done|]. split; [done|]. intros (x & -> & Hx). exfalso. len_lia. }
  destruct (Hwp w) as (r & w' & l & i & Er & (_ & Hi' & Hs) & -> & Hr).
  { split; [done|]. split; [done|]. by rewrite app_nil_r. }
  exists r, w', msg. split; [exact Er|]. split; [exact Hs|]. split; [exact Hm|]. rewrite Hr. split.
  - intros (x & Hx & Hl). exists x, i. by split.
  - intros (x & rest & Hx & Hl & Hrest). exists x. change (inbox (wget w') !! cid rw) with (inbox w' !! cid rw) in Hi'.
    rewrite Hi' in Hrest. injection Hrest as ->. by split.
Qed.

(** ** The dialers ([tun2socks/proxy]) *)

Inductive Proto := ProtoDirect | ProtoReject | ProtoHTTP | ProtoSocks4 | ProtoSocks5 | ProtoShadowsocks | ProtoRelay.
Definition Proto_String (p : Proto) : string :=
  match p with
  | ProtoDirect => "direct" | ProtoReject => "reject" | ProtoHTTP => "http" | ProtoSocks4 => "socks4"
  | ProtoSocks5 => "socks5" | ProtoShadowsocks => "ss" | ProtoRelay => "relay"
  end.

Record HTTP := mkHTTP { httpAddr : string; httpUser : string; httpPass : string }.
Definition NewHTTP (addr user pass : string) : HTTP := mkHTTP addr user pass.
Record Socks4 := mkSocks4 { s4Addr : string; s4UserID : string }.
Definition NewSocks4 (addr userID : string) : Socks4 := mkSocks4 addr userID.
Record Shadowsocks := mkShadowsocks { ssAddr : string; ssCipher : ShadowCore.Cipher; obfsMode : string; obfsHost : string }.
Definition NewShadowsocks (pk : packages) (addr method password mode host : string) : go (result Shadowsocks) :=
  let! c := PickCipher pk method [] password in
  Some (match c with
        | Fail e => Fail (ErrWrap "ss initialize: " e)
        | Ok c => Ok (mkShadowsocks addr c mode host)
        end).
Record Relay := mkRelayProxy { rlAddr : string; rlUser : string; rlPass : string; rlNoDelay : bool }.
Definition NewRelay (addr user pass : string) (noDelay : bool) : Relay := mkRelayProxy addr user pass noDelay.

(** *** The relay protocol: messages are the [relay] package's *)

Inductive relayFeature :=
| FNetworkUDP
| FUserAuth (user pass : string)
| FAddr (v4 : bool) (host : string) (port : Z).
Record relayRequest := mkRelayRequest { rqUDP : bool; rqFeatures : list relayFeature }.   (* [CmdConnect], with [FUDP] *)

Definition serializeRelayAddr (m : Metadata) : relayFeature :=
  FAddr (Is4 (DstIP m)) (AddrString (DstIP m)) (DstPort m).

Record relayConn := mkRelayConn { rcConn : conn; rcUdp : bool; rcAddr : Metadata; rcOnce : bool; wbuf : option bytes }.
Definition newRelayConn (c : conn) (addr : Metadata) (noDelay udp : bool) : relayConn :=
  mkRelayConn c udp addr false (if noDelay then None else Some []).
Definition set_wbuf (b : option bytes) (rc : relayConn) : relayConn :=
  mkRelayConn (rcConn rc) (rcUdp rc) (rcAddr rc) (rcOnce rc) b.

(** What is above a Shadowsocks connection: the disguise and the cipher. *)
Inductive obfsConn := NoObfs | OverTLS (o : TLSObfs) | OverHTTP (o : HTTPObfs).

Inductive upConn :=
| UpConn (c : conn)
| UpNop
| UpShadowsocks (c : conn) (o : obfsConn) (s : streamConn)
| UpRelay (rc : relayConn).

Section dialers.
(** [http.Request.Write] of a CONNECT request with its address and credentials,
    [http.ReadResponse] (the code and the status line), base64; the [relay]
    package's encoding of a request and reading of a response (version, status). *)
Context (print_connect : string → option string → bytes)
  (http_ReadResponse : conn → St World (result (Z * string)))
  (StdEncoding : bytes → string)
  (relay_encode : relayRequest → result bytes)
  (relay_ReadFrom : conn → St World (result (Z * Z))).
Context (ResolveUDPAddr : string → result udpAddr).
(** What [net/http] prints of the upgrade request of simple-obfs, and the random
    bytes, salts and numbers of a connection. *)
Context (print_upgrade : upgrade → go bytes) (random sessionID randBytes salt : bytes) (unix r1 r2 : Z).

Definition connect_error (addr : string) (e : error) : error := ErrWrap ("connect to " +:+ addr +:+ ": ") e.

(** The common shape: dial, keep alive, and close again if what follows fails. *)
Definition dial_then {A} (addr : string) (body : conn → St World (result A)) : St World (result A) :=
  let* r := dialer_DialContext "tcp" addr in
  match r with
  | Fail e => throw (connect_error addr e)
  | Ok c =>
      let* _ := setKeepAlive c in
      let* r := body c in
      match r with
      | Fail e => let* _ := safeConnClose c (Some e) in throw e
      | Ok x => let* _ := safeConnClose c None in ret (Ok x)
      end
  end.

Definition Direct_DialContext (m : Metadata) : St World (result upConn) :=
  let* r := dialer_DialContext "tcp" (DestinationAddress m) in
  match r with
  | Fail e => throw e
  | Ok c => let* _ := setKeepAlive c in ret (Ok (UpConn c))
  end.

Definition basicAuth (username password : string) : string := StdEncoding (bytes_of_string (username +:+ ":" +:+ password)).

Definition shakeHand (h : HTTP) (m : Metadata) (rw : conn) : St World (result unit) :=
  let addr := DestinationAddress m in
  let auth := if decide (httpUser h ≠ "" ∧ httpPass h ≠ "") then Some ("Basic " +:+ basicAuth (httpUser h) (httpPass h)) else None in
  let*? _ := write rw (print_connect addr auth) in
  let*? (code, status) := http_ReadResponse rw in
  if decide (code = 200) then ret (Ok tt)
  else if decide (code = 407) then throw (ErrNew "HTTP auth required by proxy")
  else if decide (code = 405) then throw (ErrNew "CONNECT method not allowed by proxy")
  else throw (ErrNew ("HTTP connect status: " +:+ status)).

Definition HTTP_DialContext (h : HTTP) (m : Metadata) : St World (result upConn) :=
  dial_then (httpAddr h) (λ c, let*? _ := shakeHand h m c in ret (Ok (UpConn c))).

Definition Socks4_DialContext (ss : Socks4) (m : Metadata) : St World (result upConn) :=
  dial_then (s4Addr ss) (λ c,
    let*? _ := socks4_ClientHandshake c (DestinationAddress m) socks4_CmdConnect (s4UserID ss) in ret (Ok (UpConn c))).

(** *** Relay *)

Definition readRelayResponse (c : conn) : St World (result unit) :=
  let*? (version, status) := relay_ReadFrom c in
  if decide (version ≠ 1) then throw (ErrNew "bad version") else
  if decide (status ≠ 0) then throw (ErrNew ("status " +:+ itoa status)) else
  ret (Ok tt).

Definition relay_request (rl : Relay) (m : Metadata) : relayRequest :=
  let udp := match mNetwork m with UDP => true | _ => false end in
  mkRelayRequest udp
    ((if udp then [FNetworkUDP] else []) ++
     (if decide (rlUser rl ≠ "") then [FUserAuth (rlUser rl) (rlPass rl)] else []) ++ [serializeRelayAddr m]).

Definition relay_dialContext (rl : Relay) (m : Metadata) : St World (result upConn) :=
  dial_then (rlAddr rl) (λ c,
    let req := relay_encode (relay_request rl m) in
    let*? _ :=
      (if rlNoDelay rl then
         match req with
         | Fail e => throw e
         | Ok b => let*? _ := write c b in readRelayResponse c
         end
       else ret (Ok tt)) in
    match mNetwork m with
    | OtherNetwork _ => throw (ErrNew ("network " +:+ Network_String (mNetwork m) +:+ " is unsupported"))
    | TCP | UDP =>
        let rc := newRelayConn c m (rlNoDelay rl) (match mNetwork m with UDP => true | _ => false end) in
        if rlNoDelay rl then ret (Ok (UpRelay rc)) else
        match req with
        | Fail e => throw e
        | Ok b => ret (Ok (UpRelay (set_wbuf (Some b) rc)))
        end
    end).

(** [relayConn.Read] into a buffer of [n] bytes, with [k] ready; a pooled buffer
    holds [stale]. *)
Definition relay_Read (rc : relayConn) (n k : Z) (stale : bytes) : St World ((bytes * option error) * relayConn) :=
  let* r :=
    (if rcOnce rc then ret (Ok tt)
     else match wbuf rc with Some _ => readRelayResponse (rcConn rc) | None => ret (Ok tt) end) in
  let rc := mkRelayConn (rcConn rc) (rcUdp rc) (rcAddr rc) true (wbuf rc) in
  match r with
  | Fail e => ret (([], Some e), rc)
  | Ok _ =>
      if negb (rcUdp rc) then
        let* r := readSome (rcConn rc) n k in
        ret (match r with Ok b => (b, None) | Fail e => ([], Some e) end, rc)
      else
        let* (bb, err) := readFull (rcConn rc) 2 in
        match err with
        | Some e => ret (([], Some e), rc)
        | None =>
            let* dLen := lift (be16 bb) in
            let* (got, err) := readFull (rcConn rc) dLen in
            if decide (dLen ≤ n) then ret ((got, err), rc)
            else ret ((take (Z.to_nat n) (copy (take (Z.to_nat dLen) stale) got), err), rc)
        end
  end.

(** [relayConn.Write]: the request waits in [wbuf] for the first bytes.  A failed
    write of a datagram has sent nothing of the buffer. *)
Definition relay_tcpWrite (rc : relayConn) (b : bytes) : St World (result Z * relayConn) :=
  match wbuf rc with
  | Some (x :: l) =>
      let* r := write (rcConn rc) ((x :: l) ++ b) in
      ret (match r with Ok _ => Ok (len b) | Fail e => Fail e end, set_wbuf (Some []) rc)
  | _ =>
      let* r := write (rcConn rc) b in
      ret (match r with Ok _ => Ok (len b) | Fail e => Fail e end, rc)
  end.
Definition relay_udpWrite (rc : relayConn) (b : bytes) : St World (result Z * relayConn) :=
  if decide (65535 < len b) then ret (Fail (ErrNew "write: data maximum exceeded"), rc) else
  match wbuf rc with
  | Some (x :: l) =>
      let buf := (x :: l) ++ put16 (len b) ++ b in
      let* r := write (rcConn rc) buf in
      ret (match r with Ok _ => (Ok (len b), set_wbuf (Some []) rc) | Fail e => (Fail e, set_wbuf (Some buf) rc) end)
  | _ =>
      let* r := write (rcConn rc) (put16 (len b)) in
      match r with
      | Fail e => ret (Fail e, rc)
      | Ok _ =>
          let* r := write (rcConn rc) b in
          ret (match r with Ok _ => Ok (len b) | Fail e => Fail e end, rc)
      end
  end.
Definition relay_Write (rc : relayConn) (b : bytes) : St World (result Z * relayConn) :=
  if rcUdp rc then relay_udpWrite rc b else relay_tcpWrite rc b.

(** As a packet connection: every packet is the destination's. *)
Definition relayConn_ReadFrom (rc : relayConn) (n k : Z) (stale : bytes)
    : St World ((bytes * Metadata * option error) * relayConn) :=
  let* ((b, err), rc') := relay_Read rc n k stale in ret ((b, rcAddr rc, err), rc').
Definition relayConn_WriteTo (rc : relayConn) (b : bytes) (addr : Metadata) : St World (result Z * relayConn) :=
  relay_Write rc b.

(** *** Shadowsocks *)

(** The writes a cipher makes below it for one write above it, in order, when none
    fails; a real write makes the same ones until one fails. *)
Definition virtual : conn := mkConn 0 false.
Definition written (l : list event) : list bytes := omap (λ e, match e with EWrite _ b => Some b | _ => None end) l.
Definition cipher_Write (s : streamConn) (b : bytes) : go (list bytes * option error * streamConn) :=
  let w0 := mkWorld [] [] 0 [] [] [] ∅ in
  match s with
  | PlainConn => Some ([b], None, PlainConn)
  | AeadConn s =>
      let! (_, err, s, w) := ShadowAead.Conn_Write virtual s salt b w0 in Some (written (events w), err, AeadConn s)
  | XorConn s =>
      let! (r, s, w) := ShadowStream.Conn_Write virtual s salt b w0 in
      Some (written (events w), match r with Ok _ => None | Fail e => Some e end, XorConn s)
  end.

Definition obfs_Write (c : conn) (o : obfsConn) (b : bytes) : St World (option error * obfsConn) :=
  match o with
  | NoObfs => let* r := write c b in ret (match r with Ok _ => None | Fail e => Some e end, NoObfs)
  | OverTLS o => let* (_, err, o) := tls_Write random sessionID unix c o b in ret (err, OverTLS o)
  | OverHTTP o => let* (_, err, o) := http_Write print_upgrade c o r1 r2 randBytes b in ret (err, OverHTTP o)
  end.
Fixpoint obfs_Writes (c : conn) (o : obfsConn) (l : list bytes) : St World (result obfsConn) :=
  match l with
  | [] => ret (Ok o)
  | b :: l =>
      let* (err, o) := obfs_Write c o b in
      match err with Some e => throw e | None => obfs_Writes c o l end
  end.

Definition new_obfs (ss : Shadowsocks) : obfsConn :=
  if decide (obfsMode ss = "tls") then OverTLS (NewTLSObfs (obfsHost ss))
  else if decide (obfsMode ss = "http") then
    OverHTTP (NewHTTPObfs (obfsHost ss) (match SplitHostPort (ssAddr ss) with Ok (_, port) => port | Fail _ => "" end))
  else NoObfs.

Definition Shadowsocks_DialContext (ss : Shadowsocks) (m : Metadata) : St World (result upConn) :=
  dial_then (ssAddr ss) (λ c,
    let* (writes, err, s) := lift (cipher_Write (StreamConn (ssCipher ss)) (SerializeAddr "" (DstIP m) (DstPort m))) in
    let*? o := obfs_Writes c (new_obfs ss) writes in
    match err with Some e => throw e | None => ret (Ok (UpShadowsocks c o s)) end).

(** *** All of them *)

Inductive Proxy :=
| PBase (addr : string)
| PDirect
| PReject
| PHTTP (h : HTTP)
| PSocks4 (s : Socks4)
| PSocks5 (s : Socks5)
| PShadowsocks (s : Shadowsocks)
| PRelay (r : Relay).

Definition ErrUnsupported : error := ErrNew "unsupported operation".

Definition Proxy_DialContext (p : Proxy) (m : Metadata) : St World (result upConn) :=
  match p with
  | PBase _ => throw ErrUnsupported
  | PDirect => Direct_DialContext m
  | PReject => ret (Ok UpNop)
  | PHTTP h => HTTP_DialContext h m
  | PSocks4 s => Socks4_DialContext s m
  | PSocks5 s => let*? c := Socks5_DialContext s (DstIP m) (DstPort m) in ret (Ok (UpConn c))
  | PShadowsocks s => Shadowsocks_DialContext s m
  | PRelay r => relay_dialContext r m
  end.

Definition Proxy_Addr (p : Proxy) : string :=
  match p with
  | PBase a => a | PDirect | PReject => ""
  | PHTTP h => httpAddr h | PSocks4 s => s4Addr s | PSocks5 s => s5Addr s | PShadowsocks s => ssAddr s | PRelay r => rlAddr r
  end.
(** [Base] with no protocol of its own is the zero one, direct. *)
Definition Proxy_Proto (p : Proxy) : Proto :=
  match p with
  | PBase _ | PDirect => ProtoDirect | PReject => ProtoReject | PHTTP _ => ProtoHTTP | PSocks4 _ => ProtoSocks4
  | PSocks5 _ => ProtoSocks5 | PShadowsocks _ => ProtoShadowsocks | PRelay _ => ProtoRelay
  end.

(** *** Datagrams *)

Inductive upPacketConn :=
| PacketNop
| PacketDirect (pc : conn)
| PacketSocks5 (pc : socksPacketConn)
| PacketShadowsocks (pc : conn) (c : ShadowCore.Cipher) (rAddr : udpAddr)
| PacketRelay (rc : relayConn).

Definition dialer_ListenPacket : St World (result conn) := dialer_DialContext "udp" "".

(** [net.ResolveUDPAddr] as the SOCKS5 client uses it. *)
Definition resolve_pair (s : string) : result (IP * Z) :=
  let? u := ResolveUDPAddr s in Ok (uIP u, uPort u).

Definition Shadowsocks_DialUDP (ss : Shadowsocks) : St World (result upPacketConn) :=
  let* r := dialer_ListenPacket in
  match r with
  | Fail e => throw (ErrWrap "listen packet: " e)
  | Ok pc =>
      match ResolveUDPAddr (ssAddr ss) with
      | Fail e => throw (ErrWrap ("resolve udp address " +:+ ssAddr ss +:+ ": ") e)
      | Ok u => ret (Ok (PacketShadowsocks pc (ssCipher ss) u))
      end
  end.

Definition Proxy_DialUDP (p : Proxy) (m : Metadata) : St World (result upPacketConn) :=
  match p with
  | PBase _ | PHTTP _ | PSocks4 _ => throw ErrUnsupported
  | PDirect => let*? pc := dialer_ListenPacket in ret (Ok (PacketDirect pc))
  | PReject => ret (Ok PacketNop)
  | PSocks5 s => let*? pc := Socks5_DialUDP resolve_pair s in ret (Ok (PacketSocks5 pc))
  | PShadowsocks s => Shadowsocks_DialUDP s
  | PRelay r =>
      let*? up := relay_dialContext r m in
      match up with UpRelay rc => ret (Ok (PacketRelay rc)) | _ => throw ErrUnsupported end
  end.

(** [directPacketConn.WriteTo]. *)
Definition direct_WriteTo (pc : conn) (b : bytes) (addr : net_addr) : St World (result Z) :=
  match addr with
  | IsUDP u => base_WriteTo pc b u
  | IsOther s => match ResolveUDPAddr s with Ok u => base_WriteTo pc b u | Fail e => throw e end
  end.

(** What leaves on the socket for a datagram to [addr], and what a caller with a
    buffer of [blen] bytes gets for one that arrived. *)
Definition pack (c : ShadowCore.Cipher) (b : bytes) : go (result bytes) :=
  match c with
  | Dummy => Some (Ok b)
  | AeadCipher a _ => ShadowAead.PacketConn_WriteTo a salt b
  | StreamCipher a _ => ShadowStream.PacketConn_WriteTo a salt b
  end.
Definition unpack (c : ShadowCore.Cipher) (blen : Z) (pkt : bytes) : go (result bytes) :=
  match c with
  | Dummy => Some (Ok (take (Z.to_nat blen) pkt))
  | AeadCipher a _ => ShadowAead.PacketConn_ReadFrom a blen pkt
  | StreamCipher a _ => ShadowStream.PacketConn_ReadFrom a blen pkt
  end.
Definition ss_WriteTo (pc : conn) (c : ShadowCore.Cipher) (rAddr : udpAddr) (b : bytes) (addr : Addr * Z + netAddr) : St World (result unit) :=
  match EncodeUDPPacket (match addr with
                         | inl (dstIP, dstPort) => Some (SerializeAddr "" dstIP dstPort)
                         | inr addr => ParseAddr_ addr
                         end) b with
  | Fail e => throw e
  | Ok packet =>
      let* plain := lift (slice_from packet 3) in
      let* r := lift (pack c plain) in
      match r with
      | Fail e => throw e
      | Ok sealed => call (EWriteTo pc sealed (UDPAddr_String rAddr))
      end
  end.
Definition ss_ReadFrom (c : ShadowCore.Cipher) (blen : Z) (pkt : bytes) : go (result (bytes * (IP * Z))) :=
  let! r := unpack c blen pkt in
  match r with
  | Fail e => Some (Fail e)
  | Ok b =>
      let! addr := SplitAddr b in
      match addr with
      | None => Some (Fail (ErrNew "parse addr error"))
      | Some addr =>
          let! u := Socks5Client.UDPAddr addr in
          match u with
          | None => Some (Fail (ErrNew "parse addr error"))
          | Some u => let! rest := slice_from b (len addr) in Some (Ok (rest, u))
          end
      end
  end.
End dialers.

(** ** Nothing leaks *)

#[export] Instance readFull_spares e c n : Spares e (readFull c n).
Proof. intros w a w' H. injection H as _ <-. exists []. rewrite app_nil_r. split; [done|apply not_elem_of_nil]. Qed.
#[export] Instance setKeepAlive_spares c d : Spares (EClose c) (setKeepAlive d).
Proof.
  unfold setKeepAlive. destruct (is_tcp d); [|apply _].
  apply bind_spares; [by apply ignoring_spares|]. intros _. by apply ignoring_spares.
Qed.
#[export] Instance ReadAddr_spares e r n : Spares e (ReadAddr r n).
Proof. unfold ReadAddr. repeat first [apply _ | apply bindE_spares; intros | apply bind_spares; intros | case_decide]. Qed.

Ltac spares := repeat first
  [ apply _
  | apply bindE_spares; intros
  | apply bind_spares; intros
  | case_decide
  | match goal with
    | |- Spares _ (match ?x with _ => _ end) => destruct x
    | |- Spares _ (let '(_, _) := ?x in _) => destruct x
    end ].

#[export] Instance socks5_handshake_spares c rw addr cmd user : Spares (EClose c) (Socks5Client.ClientHandshake rw addr cmd user).
Proof. unfold Socks5Client.ClientHandshake, authenticate. spares. Qed.
#[export] Instance socks4_handshake_spares c rw addr cmd user : Spares (EClose c) (socks4_ClientHandshake rw addr cmd user).
Proof. unfold socks4_ClientHandshake. spares. Qed.

#[export] Instance tls_Write_spares c random sessionID unix d o b : Spares (EClose c) (tls_Write random sessionID unix d o b).
Proof.
  unfold tls_Write. generalize 0. generalize (S (length b)). intros fuel. revert o.
  induction fuel as [|fuel IH]; intros o i; cbn [tls_Write_loop]; [apply _|]. unfold tls_write. spares; apply IH.
Qed.
#[export] Instance obfs_Writes_spares c pu rd sid rb unix r1 r2 d o l :
  Spares (EClose c) (obfs_Writes pu rd sid rb unix r1 r2 d o l).
Proof.
  revert o. induction l as [|b l IH]; intros o; cbn [obfs_Writes]; [apply _|].
  unfold obfs_Write, http_Write. spares; apply IH.
Qed.

(** What the attempt to dial leaves behind: nothing, a dial that failed, an open
    connection, or one that has been closed, once and last. *)
Definition tidy {A} (w : World) (r : result A) (l : list event) : Prop :=
  l = [] ∨
  ∃ t, (l = [EDial t 0] ∧ ∃ e, r = Fail e) ∨
    ∃ c body, cid c = - (len (trace w) + 1) ∧ (EClose c ∉ body) ∧
      match r with
      | Ok _ => l = EDial t 0 :: body
      | Fail _ => l = EDial t 0 :: body ++ [EClose c]
      end.

Lemma dialer_dials network address w :
  ∃ r w', dialer_DialContext network address w = Some (r, w') ∧
    events w' = events w ++ [EDial (network +:+ "!" +:+ address) 0] ∧
    match r with Ok c => cid c = - (len (trace w) + 1) | Fail _ => True end.
Proof.
  unfold dialer_DialContext, bind, dial, call. cbv beta zeta.
  destruct (default None (head (verdicts w))); eexists _, _; (split; [reflexivity|]); split; try apply events_snoc; [done|].
  cbn [cid trace]. rewrite len_app. done.
Qed.

Lemma tidy_after {A B} (f : conn → St World (result B)) (k : conn → B → A) network address (w : World)
    (wrap : error → error) r w' :
  (∀ c, Spares (EClose c) (f c)) →
  (let* r := dialer_DialContext network address in
   match r with
   | Fail e => throw (wrap e)
   | Ok c =>
       let* _ := setKeepAlive c in
       let* r := f c in
       match r with
       | Fail e => let* _ := safeConnClose c (Some e) in throw e
       | Ok x => let* _ := safeConnClose c None in ret (Ok (k c x))
       end
   end) w = Some (r, w') →
  ∃ l, events w' = events w ++ l ∧ tidy w r l.
Proof.
  intros Hf H. apply bind_Some in H as (rd & w1 & E & H).
  destruct (dialer_dials network address w) as (rd' & w1' & E' & He & Hc). rewrite E in E'. injection E' as <- <-.
  destruct rd as [c|e].
  2: { injection H as <- <-. eexists. split; [exact He|]. right. eexists. left. split; [done|by eexists]. }
  apply bind_Some in H as ([] & w2 & E2 & H). apply (setKeepAlive_spares c c) in E2 as (body1 & He2 & Hb1).
  apply bind_Some in H as (x & w3 & E3 & H). apply (Hf c) in E3 as (body2 & He3 & Hb2).
  assert (EClose c ∉ body1 ++ body2) as Hb by (rewrite elem_of_app; tauto).
  destruct x as [x|e].
  - injection H as <- <-. eexists. rewrite He3, He2, He, <-!app_assoc. split; [done|].
    right. eexists. right. exists c, (body1 ++ body2). by repeat (split; [done|]).
  - apply bind_Some in H as ([] & w4 & E4 & H). injection H as <- <-.
    destruct (ignoring_total (EClose c) w3) as (w4' & E4' & He4). unfold safeConnClose in E4. rewrite E4 in E4'. injection E4' as <-.
    eexists. rewrite He4, He3, He2, He, <-!app_assoc. split; [done|].
    right. eexists. right. exists c, (body1 ++ body2). rewrite <-!app_assoc. by repeat (split; [done|]).
Qed.

Lemma tidy_map {A B} (f : A → B) w (r : result A) l :
  tidy w r l → tidy w (match r with Ok a => Ok (f a) | Fail e => Fail e end) l.
Proof.
  intros [Hl|(t & [[Hl (e & ->)]|(c & body & Hc & Hb & Hl)])]; [by left|right; exists t; left|right; exists t; right].
  - split; [done|by eexists].
  - exists c, body. by destruct r.
Qed.


(** ** Witnesses *)

Definition socks4_conn : conn := mkConn 3 true.
Definition socks4_world (input : bytes) : World := mkWorld [] [] 0 [] [] [] {[3 := input]}.
Definition granted : bytes := [Byte.x00; Byte.x5a; Byte.x00; Byte.x00; Byte.x00; Byte.x00; Byte.x00; Byte.x00; Byte.x2a].

Lemma socks4_ClientHandshake_outcome_witness :
  ∃ w' msg, socks4_ClientHandshake socks4_conn "a.b:443" socks4_CmdConnect "u" (socks4_world granted) = Some (Ok tt, w') ∧
    sent w' = [EWrite socks4_conn msg] ∧
    socks4_parse msg = Some (1, 443, inr [Byte.x61; Byte.x2e; Byte.x62], [Byte.x75]).
Proof.
  assert (no_nul (bytes_of_string "u") ∧ no_nul (bytes_of_string "a.b")) as [Hu Hh].
  { split; unfold no_nul; rewrite <-(bool_decide_spec (_ ∉ _)); vm_compute; exact I. }
  destruct (socks4_ClientHandshake_outcome socks4_conn "a.b:443" "a.b" "u" 443 socks4_CmdConnect (Addr4 1) granted (socks4_world granted))
    as (r & w' & msg & E & Hs & Hp & Hr);
    [vm_compute; split; discriminate || reflexivity|discriminate|reflexivity|lia|reflexivity|exact Hu|exact Hh|reflexivity|apply lookup_singleton_eq|].
  assert (r = Ok tt) as -> by (vm_compute in E; injection E as <- _; reflexivity).
  exists w', msg. split; [exact E|]. split; [exact Hs|exact Hp].
Defined.

(** A SOCKS4 proxy that refuses: its connection is closed. *)
Definition no_response (c : conn) : St World (result (Z * string)) := throw EOF.
Definition no_relay (c : conn) : St World (result (Z * Z)) := throw EOF.

