(* ===== verification/Engine.v ===== *)
(** The engine of the VPN ([tun2socks/engine], [core/device/fdbased]): the
    configuration key, its parsing, and how [start] and [stop] move the globals:
    proxy, device and network stack. *)

From Stdlib Require Import Strings.Ascii.
From S2P Require Import Prelude GoStd GoNet GoTime Conn TransformIP Session LumineProxy Socks5Client Upstream ShadowCore NetStack.

(** ** Data *)

Record Key := mkKey {
  MTU : Z; Mark : Z;
  kProxy : string; RestAPI : string; kDevice : string; LogLevel : string; Interface : string;
  TCPModerateReceiveBuffer : bool;
  TCPSendBufferSize : string; TCPReceiveBufferSize : string;
  MulticastGroups : string; TUNPreUp : string; TUNPostUp : string;
  UDPTimeout : Z
}.

(** [url.URL]: its user info is the name, the password if there is one, and their
    encoded text. *)
Record URL := mkURL { uScheme : string; uHost : string; uPath : string; uUsername : string; uPassword : option string;
  uUserString : string; uRawQuery : string }.

(** The proxy of the tunnel: the injected one, or one made from the key. *)
Inductive engineProxy := Injected | Parsed (p : Proxy).

(** [fdbased.FD]. *)
Inductive Device := DevFD (fd mtu : Z) | DevTUN (name : string).

(** The globals of the engine, of the package dialer and of the tunnel. *)
Record Engine := mkEngine {
  defaultKey : option Key;
  customProxy : bool;
  defaultProxy : option engineProxy;
  defaultDevice : option Device;
  defaultStack : bool;
  tunnelDialer : option engineProxy;        (* [proxy.Base] before the first [SetDialer] *)
  udpTimeout : Z;
  InterfaceName : string; InterfaceIndex : Z; RoutingMark : Z
}.
Definition udpSessionTimeout : Z := 60 * Second.
Definition engine_init : Engine := mkEngine None false None None false None udpSessionTimeout "" 0 0.

Definition set_key (k : option Key) (e : Engine) : Engine :=
  mkEngine k (customProxy e) (defaultProxy e) (defaultDevice e) (defaultStack e) (tunnelDialer e) (udpTimeout e) (InterfaceName e) (InterfaceIndex e) (RoutingMark e).
Definition set_custom (b : bool) (e : Engine) : Engine :=
  mkEngine (defaultKey e) b (defaultProxy e) (defaultDevice e) (defaultStack e) (tunnelDialer e) (udpTimeout e) (InterfaceName e) (InterfaceIndex e) (RoutingMark e).
Definition set_proxy (p : option engineProxy) (e : Engine) : Engine :=
  mkEngine (defaultKey e) (customProxy e) p (defaultDevice e) (defaultStack e) (tunnelDialer e) (udpTimeout e) (InterfaceName e) (InterfaceIndex e) (RoutingMark e).
Definition set_device (d : option Device) (e : Engine) : Engine :=
  mkEngine (defaultKey e) (customProxy e) (defaultProxy e) d (defaultStack e) (tunnelDialer e) (udpTimeout e) (InterfaceName e) (InterfaceIndex e) (RoutingMark e).
Definition set_stack (s : bool) (e : Engine) : Engine :=
  mkEngine (defaultKey e) (customProxy e) (defaultProxy e) (defaultDevice e) s (tunnelDialer e) (udpTimeout e) (InterfaceName e) (InterfaceIndex e) (RoutingMark e).
Definition set_dialer (p : option engineProxy) (e : Engine) : Engine :=
  mkEngine (defaultKey e) (customProxy e) (defaultProxy e) (defaultDevice e) (defaultStack e) p (udpTimeout e) (InterfaceName e) (InterfaceIndex e) (RoutingMark e).
Definition set_udpTimeout (t : Z) (e : Engine) : Engine :=
  mkEngine (defaultKey e) (customProxy e) (defaultProxy e) (defaultDevice e) (defaultStack e) (tunnelDialer e) t (InterfaceName e) (InterfaceIndex e) (RoutingMark e).
Definition set_interface (name : string) (index : Z) (e : Engine) : Engine :=
  mkEngine (defaultKey e) (customProxy e) (defaultProxy e) (defaultDevice e) (defaultStack e) (tunnelDialer e) (udpTimeout e) name index (RoutingMark e).
Definition set_mark (m : Z) (e : Engine) : Engine :=
  mkEngine (defaultKey e) (customProxy e) (defaultProxy e) (defaultDevice e) (defaultStack e) (tunnelDialer e) (udpTimeout e) (InterfaceName e) (InterfaceIndex e) m.

(** The engine and the world. *)
Record EngineState := mkEngineState { eng : Engine; eworld : World }.
Definition onWorld {A} (m : St World A) : St EngineState A := λ s,
  match m (eworld s) with Some (a, w) => Some (a, mkEngineState (eng s) w) | None => None end.
Definition update (f : Engine → Engine) : St EngineState unit := λ s, Some (tt, mkEngineState (f (eng s)) (eworld s)).
Definition engine : St EngineState Engine := λ s, Some (eng s, s).

Definition s32 (z : Z) : Z := (z + 2147483648) mod 4294967296 - 2147483648.

Section engine.
(** [net/url], [net], [encoding/base64] (unpadded URL encoding, errors ignored),
    [net/url.QueryUnescape] (errors ignored); zap's level names, gorilla's decoding
    of [NoDelay], docker's sizes, Google's [shlex]. *)
Context (url_Parse : string → result URL) (ResolveTCPAddr : string → result udpAddr)
  (InterfaceByName : string → result (string * Z))
  (RawURLEncoding : string → string) (QueryUnescape : string → string)
  (zap_ParseLevel : string → result Z) (schema_NoDelay : URL → result bool) (RAMInBytes : string → result Z)
  (shlex_Split : string → result (list string)).
(** The cipher packages, gVisor's buffer sizes, the number of the NIC, and the TUN
    driver. *)
Context (pk : packages) (sizes : BufferSizes) (nicID : Z) (tun_Open : string → Z → St World (result Device)).

(** ** Parsing ([parse.go]) *)

Definition with_scheme (scheme s : string) : string := if Contains s "://" then s else scheme +:+ "://" +:+ s.

Definition parseRestAPI (s : string) : result URL :=
  let? u := url_Parse (with_scheme "http" s) in
  let? addr := ResolveTCPAddr (uHost u) in
  let addr := if decide (uIP addr = []) then mkUDPAddr [0; 0; 0; 0] (uPort addr) (uZone addr) else addr in
  let u := mkURL (uScheme u) (UDPAddr_String addr) (uPath u) (uUsername u) (uPassword u) (uUserString u) (uRawQuery u) in
  if decide (uScheme u = "http") then Ok u else Fail (ErrNew ("unsupported scheme: " +:+ uScheme u)).

Definition defaultMTU : Z := 1500.

(** [fdbased.Open] and [open] (open_linux.go). *)
Definition fd_Open (name : string) (mtu : Z) : St World (result Device) :=
  match Atoi name with
  | Fail _ => throw (ErrNew ("cannot open fd: " +:+ name))
  | Ok fd =>
      let mtu := if decide (mtu = 0) then defaultMTU else mtu in
      let* r := call (ESys ("fdbased.New " +:+ itoa fd +:+ " " +:+ itoa mtu)) in
      match r with
      | Fail e => throw (ErrWrap "create endpoint: " e)
      | Ok _ => ret (Ok (DevFD fd mtu))
      end
  end.

Definition parseDevice (s : string) (mtu : Z) : St World (result Device) :=
  match url_Parse (with_scheme "tun" s) with
  | Fail e => throw e
  | Ok u =>
      let driver := ToLower (uScheme u) in
      if decide (driver = "fd") then fd_Open (uHost u) mtu
      else if decide (driver = "tun") then tun_Open (uHost u) mtu
      else throw (ErrNew ("unsupported driver: " +:+ driver))
  end.

Definition split2 (s : string) (c : ascii) : option (string * string) :=
  let i := IndexByte s c in
  if decide (i < 0) then None else Some (stake (Z.to_nat i) s, sdrop (S (Z.to_nat i)) s).

Definition parseHTTP (u : URL) : go (result Proxy) := Some (Ok (PHTTP (NewHTTP (uHost u) (uUsername u) (default "" (uPassword u))))).
Definition parseSocks4 (u : URL) : go (result Proxy) := Some (Ok (PSocks4 (NewSocks4 (uHost u) (uUsername u)))).
Definition parseSocks5 (u : URL) : go (result Proxy) :=
  let address := if decide (uHost u = "") then uPath u else uHost u in
  let! s := NewSocks5 address (uUsername u) (default "" (uPassword u)) in Some (Ok (PSocks5 s)).

Definition obfs_option (acc : string * string) (s : string) : string * string :=
  match split2 s "=" with
  | None => acc
  | Some (key, value) =>
      if decide (key = "obfs") then (value, snd acc)
      else if decide (key = "obfs-host") then (fst acc, value) else acc
  end.
Definition parseShadowsocks (u : URL) : go (result Proxy) :=
  let '(method, password) :=
    if decide (uUserString u = "") then ("dummy", "")
    else match uPassword u with
         | Some pass => (uUsername u, pass)
         | None => default ("", "") (split2 (RawURLEncoding (uUserString u)) ":")
         end in
  let '(mode, host) := foldl obfs_option ("", "") (Split (QueryUnescape (uRawQuery u)) ";") in
  let! r := NewShadowsocks pk (uHost u) method password mode host in
  Some (let? ss := r in Ok (PShadowsocks ss)).
Definition parseRelay (u : URL) : go (result Proxy) :=
  Some (let? noDelay := schema_NoDelay u in Ok (PRelay (NewRelay (uHost u) (uUsername u) (default "" (uPassword u)) noDelay))).

Definition parseProxy (s : string) : go (result Proxy) :=
  match url_Parse (with_scheme (Proto_String ProtoSocks5) s) with
  | Fail e => Some (Fail e)
  | Ok u =>
      let protocol := ToLower (uScheme u) in
      if decide (protocol = Proto_String ProtoDirect) then Some (Ok PDirect)
      else if decide (protocol = Proto_String ProtoReject) then Some (Ok PReject)
      else if decide (protocol = Proto_String ProtoHTTP) then parseHTTP u
      else if decide (protocol = Proto_String ProtoSocks4) then parseSocks4 u
      else if decide (protocol = Proto_String ProtoSocks5) then parseSocks5 u
      else if decide (protocol = Proto_String ProtoShadowsocks) then parseShadowsocks u
      else if decide (protocol = Proto_String ProtoRelay) then parseRelay u
      else Some (Fail (ErrNew ("unsupported protocol: " +:+ protocol)))
  end.

(** [Addr.IsMulticast]; a mapped address is taken as the IPv4 address it maps. *)
Definition IsMulticast (a : Addr) : bool :=
  match a with
  | AddrInvalid => false
  | Addr4 n => Z.shiftr n 28 =? 14
  | Addr6 n _ => if mapped n then Z.shiftr (n mod 2 ^ 32) 28 =? 14 else Z.shiftr n 120 =? 255
  end.
Fixpoint multicast_loop (ips : list string) : result (list Addr) :=
  match ips with
  | [] => Ok []
  | ip :: ips =>
      let ip := TrimSpace ip in
      if decide (ip = "") then multicast_loop ips else
      let? addr := ParseAddr ip in
      if IsMulticast addr then let? l := multicast_loop ips in Ok (addr :: l)
      else Fail (ErrNew ("invalid multicast IP: " +:+ AddrString addr))
  end.
Definition parseMulticastGroups (s : string) : result (list Addr) := multicast_loop (Split s ",").

(** ** Starting ([engine.go]) *)

Definition ParseLevel (text : string) : result Z :=
  if decide (text = "silent" ∨ text = "SILENT") then Ok 7 else zap_ParseLevel text.

Definition execCommand (cmd : string) : St World (result unit) :=
  match shlex_Split cmd with
  | Fail e => throw e
  | Ok [] => throw (ErrNew "empty command")
  | Ok parts => call (ESys ("exec " +:+ Join parts " "))
  end.

Definition general (k : Key) : St EngineState (result unit) :=
  match ParseLevel (LogLevel k) with
  | Fail e => throw e
  | Ok level =>
      let* _ := onWorld (ignoring (ESys ("SetLogger " +:+ itoa level))) in
      let*? _ :=
        (if decide (Interface k ≠ "") then
           match InterfaceByName (Interface k) with
           | Fail e => throw e
           | Ok (name, index) => let* _ := update (set_interface name (s32 index)) in ret (Ok tt)
           end
         else ret (Ok tt)) in
      let* _ := (if decide (Mark k ≠ 0) then update (set_mark (s32 (Mark k))) else ret tt) in
      if decide (0 < UDPTimeout k) then
        if decide (UDPTimeout k < Second) then throw (ErrNew "invalid udp timeout value")
        else let* _ := update (set_udpTimeout (UDPTimeout k)) in ret (Ok tt)
      else ret (Ok tt)
  end.

Definition restAPI (k : Key) : St EngineState (result unit) :=
  if decide (RestAPI k ≠ "") then
    match parseRestAPI (RestAPI k) with
    | Fail e => throw e
    | Ok u =>
        let* _ := onWorld (ignoring (ESys ("restapi " +:+ uHost u +:+ " " +:+ uUserString u))) in ret (Ok tt)
    end
  else ret (Ok tt).

Definition buffer_option (s : string) (opt : Z → Option) : result (list Option) :=
  if decide (s = "") then Ok [] else let? size := RAMInBytes s in Ok [opt size].

(** The part of [netstack] that has [TUNPostUp] deferred. *)
Definition netstack_body (k : Key) : St EngineState (result unit) :=
  let* e := engine in
  let*? p :=
    (if customProxy e then ret (Ok Injected)
     else
       let* r := lift (parseProxy (kProxy k)) in
       match r with
       | Ok p => ret (Ok (Parsed p))
       | Fail err => let* _ := update (set_proxy None) in throw err
       end) in
  let* _ := update (set_proxy (Some p)) in
  let* _ := update (set_dialer (Some p)) in
  let* r := onWorld (parseDevice (kDevice k) (u32 (MTU k))) in
  match r with
  | Fail err => let* _ := update (set_device None) in throw err
  | Ok d =>
      let* _ := update (set_device (Some d)) in
      match parseMulticastGroups (MulticastGroups k) with
      | Fail err => throw err
      | Ok groups =>
          let opts := if TCPModerateReceiveBuffer k then [WithTCPModerateReceiveBuffer true] else [] in
          match buffer_option (TCPSendBufferSize k) (WithTCPSendBufferSize sizes) with
          | Fail err => throw err
          | Ok send =>
              match buffer_option (TCPReceiveBufferSize k) (WithTCPReceiveBufferSize sizes) with
              | Fail err => throw err
              | Ok receive =>
                  let* r := onWorld (CreateStack sizes nicID groups (opts ++ send ++ receive)) in
                  match r with
                  | Fail err => let* _ := update (set_stack false) in throw err
                  | Ok _ => let* _ := update (set_stack true) in ret (Ok tt)
                  end
              end
          end
      end
  end.

Definition netstack (k : Key) : St EngineState (result unit) :=
  let* e := engine in
  if decide (kProxy k = "" ∧ customProxy e = false) then throw (ErrNew "empty proxy") else
  if decide (kDevice k = "") then throw (ErrNew "empty device") else
  let* _ := (if decide (TUNPreUp k ≠ "") then let* _ := onWorld (execCommand (TUNPreUp k)) in ret tt else ret tt) in
  let* r := netstack_body k in
  match r with
  | Fail err => throw err
  | Ok _ =>
      let* _ := (if decide (TUNPostUp k ≠ "") then let* _ := onWorld (execCommand (TUNPostUp k)) in ret tt else ret tt) in
      ret (Ok tt)
  end.

Definition start : St EngineState (result unit) :=
  let* e := engine in
  match defaultKey e with
  | None => throw (ErrNew "empty key")
  | Some k => let*? _ := general k in let*? _ := restAPI k in netstack k
  end.

(** ** Stopping *)

Definition close_fd (fd : Z) : event := ESys ("close fd " +:+ itoa fd).
Definition Device_Close (d : Device) : St World unit :=
  match d with
  | DevFD fd _ => let* _ := ignoring (close_fd fd) in ignoring (ESys "LinkEndpoint.Close")
  | DevTUN name => ignoring (ESys ("tun Close " +:+ name))
  end.

Definition stop : St EngineState (result unit) :=
  let* e := engine in
  let* _ := (match defaultDevice e with Some d => onWorld (Device_Close d) | None => ret tt end) in
  let* _ := (if defaultStack e then
               let* _ := onWorld (ignoring (ESys "stack Close")) in onWorld (ignoring (ESys "stack Wait"))
             else ret tt) in
  ret (Ok tt).

(** [Start] and [Stop] end the process on an error ([log.Fatalf]); the application
    calls the others. *)
Definition or_fatal (what : string) (m : St EngineState (result unit)) : St EngineState unit :=
  let* r := m in
  match r with
  | Ok _ => ret tt
  | Fail e => onWorld (ignoring (ESys ("fatal [ENGINE] failed to " +:+ what +:+ ": " +:+ error_Error e)))
  end.
Definition StartErr : St EngineState (result unit) := start.
Definition Start : St EngineState unit := or_fatal "start" start.
Definition StopErr : St EngineState (result unit) := stop.
Definition Stop : St EngineState unit := or_fatal "stop" stop.

Definition SetCustomProxy : St EngineState unit := update (set_custom true).
Definition ClearCustomProxy : St EngineState unit := update (set_custom false).
Definition Insert (k : Key) : St EngineState unit := update (set_key (Some k)).
End engine.

(** ** The life of a descriptor *)

Definition is_fd_close (e : event) : bool := match e with ESys s => HasPrefix s "close fd " | _ => false end.
Definition fd_closes (l : list event) : list event := List.filter is_fd_close l.
Lemma fd_closes_app l1 l2 : fd_closes (l1 ++ l2) = fd_closes l1 ++ fd_closes l2.
Proof. apply List.filter_app. Qed.

(** [m] closes no descriptor. *)
Class Keeps {A} (m : St World A) : Prop :=
  keeps w a w' : m w = Some (a, w') → fd_closes (events w') = fd_closes (events w).

#[export] Instance ret_keeps {A} (a : A) : Keeps (ret a).
Proof. intros w a' w' H. by injection H as _ <-. Qed.
#[export] Instance bind_keeps {A B} (m : St World A) (f : A → St World B) : Keeps m → (∀ a, Keeps (f a)) → Keeps (bind m f).
Proof. intros Hm Hf w b w' (a & w1 & E1 & E2)%bind_Some. apply Hm in E1. apply (Hf a) in E2. congruence. Qed.
#[export] Instance bindE_keeps {A B} (m : St World (result A)) (f : A → St World (result B)) :
  Keeps m → (∀ a, Keeps (f a)) → Keeps (bindE m f).
Proof. intros Hm Hf. apply bind_keeps; [done|]. intros [a|x]; apply _. Qed.
Lemma call_keeps e : is_fd_close e = false → Keeps (call e).
Proof. intros He w r w' H. injection H as _ <-. rewrite events_snoc, fd_closes_app. cbn. by rewrite He, app_nil_r. Qed.
Lemma ignoring_keeps e : is_fd_close e = false → Keeps (ignoring e).
Proof. intros He. apply bind_keeps; [by apply call_keeps|]. intros ?; apply _. Qed.
Lemma sys_as_keeps name msg : HasPrefix name "close fd " = false → Keeps (sys_as name msg).
Proof. intros He. apply bind_keeps; [by apply call_keeps|]. intros [?|?]; apply _. Qed.

Lemma apply_all_keeps opts : Forall Keeps opts → Keeps (apply_all opts).
Proof.
  unfold apply_all. generalize 0. intros i H. revert i.
  induction H as [|opt opts Ho _ IH]; intros i; [apply ret_keeps|]. apply bindE_keeps; [done|]. intros _. apply IH.
Qed.

Ltac keep := first [apply sys_as_keeps; reflexivity | apply ignoring_keeps; reflexivity | apply ret_keeps].
Ltac keep_all := repeat (apply Forall_cons; split; [|]); try apply Forall_nil; try done; try keep;
  (apply bindE_keeps || apply bind_keeps); intros; keep.

Lemma WithDefault_keeps g : Keeps (WithDefault g).
Proof. apply apply_all_keeps. keep_all. Qed.

Lemma CreateStack_keeps g nicID : Keeps (CreateStack g nicID [] []).
Proof. apply apply_all_keeps. apply Forall_cons. split; [apply WithDefault_keeps|]. keep_all. Qed.

Lemma HasPrefix_app p s : HasPrefix (p +:+ s) p = true.
Proof. induction p as [|c p IH]; [by destruct s|]. cbn. by rewrite bool_decide_eq_true_2, IH. Qed.

Lemma digits_acc_pretty (x : N) s : digits_acc (pretty_N_go x s) 0 = digits_acc s (Z.of_N x).
Proof.
  revert s. induction (N.lt_wf_0 x) as [x _ IH]. intros s.
  destruct (decide (x = 0)%N) as [->|Hx]; [by rewrite pretty_N_go_0|].
  rewrite pretty_N_go_step by lia. rewrite IH by (apply N.div_lt; lia). cbn [digits_acc].
  pose proof (N.mod_lt x 10 ltac:(lia)). destruct (Desync.pretty_N_char_digit (x mod 10)) as [Hd Hv]; [done|].
  rewrite Hd. unfold digit_val. rewrite Hv. f_equal. pose proof (N.div_mod x 10 ltac:(lia)). lia.
Qed.

Lemma Atoi_itoa n : 0 ≤ n ≤ maxInt64 → Atoi (itoa n) = Ok n.
Proof.
  intros Hn. assert (digits_acc (itoa n) 0 = Some n ∧ ∃ c s, itoa n = String c s ∧ is_digit c = true) as (Hd & c & s & Hs & Hc).
  { unfold itoa, pretty, pretty_Z. destruct n as [|p|p]; [|  |lia]; [split; [done|]; by eexists _, _|].
    change (digits_acc (pretty_N_go (N.pos p) "") 0 = Some (Z.pos p) ∧
      ∃ c s, pretty_N_go (N.pos p) "" = String c s ∧ is_digit c = true).
    split; [by rewrite digits_acc_pretty|]. by apply Desync.pretty_N_go_head. }
  rewrite Hs in *. assert (c ≠ "+"%char ∧ c ≠ "-"%char) as [H1 H2] by (split; intros ->; discriminate).
  unfold Atoi. destruct c as [[] [] [] [] [] [] [] []]; try (exfalso; by apply H1); try (exfalso; by apply H2);
    rewrite Hd, decide_True by lia; reflexivity.
Qed.

Section lifetime.
Context (url_Parse : string → result URL) (ResolveTCPAddr : string → result udpAddr)
  (InterfaceByName : string → result (string * Z))
  (RawURLEncoding : string → string) (QueryUnescape : string → string)
  (zap_ParseLevel : string → result Z) (schema_NoDelay : URL → result bool) (RAMInBytes : string → result Z)
  (shlex_Split : string → result (list string))
  (pk : packages) (sizes : BufferSizes) (nicID : Z) (tun_Open : string → Z → St World (result Device)).

Abbreviation run_start :=
  (start url_Parse ResolveTCPAddr InterfaceByName RawURLEncoding QueryUnescape zap_ParseLevel schema_NoDelay RAMInBytes
     shlex_Split pk sizes nicID tun_Open).

(** The key of the Android application: a descriptor, and the injected proxy. *)
Definition fd_key (fd : Z) : Key := mkKey 1500 0 "" "" ("fd://" +:+ itoa fd) "info" "" false "" "" "" "" "" 0.

(** What [url.Parse] documents of such a device. *)
Definition parses_fd (fd : Z) : Prop :=
  ∃ u, url_Parse ("fd://" +:+ itoa fd) = Ok u ∧ uScheme u = "fd" ∧ uHost u = itoa fd.

Lemma onWorld_keeps {A} (m : St World A) s a s' :
  Keeps m → onWorld m s = Some (a, s') → eng s' = eng s ∧ fd_closes (events (eworld s')) = fd_closes (events (eworld s)).
Proof.
  intros Hm H. unfold onWorld in H. destruct (m (eworld s)) as [[b w]|] eqn:E; [|done]. injection H as _ <-.
  split; [done|]. by apply Hm in E.
Qed.

Lemma general_fd fd s r s' :
  general InterfaceByName zap_ParseLevel (fd_key fd) s = Some (r, s') →
  eng s' = eng s ∧ fd_closes (events (eworld s')) = fd_closes (events (eworld s)).
Proof.
  unfold general. destruct (ParseLevel _ _) as [level|e]; [|by intros [= _ <-]].
  intros ([] & s1 & E1 & H)%bind_Some. apply onWorld_keeps in E1 as [Ee Ew]; [|keep].
  cbn in H. by injection H as _ <-.
Qed.

Lemma parse_fd fd : 0 ≤ fd ≤ maxInt64 → parses_fd fd →
  parseDevice url_Parse tun_Open ("fd://" +:+ itoa fd) 1500 = fd_Open (itoa fd) 1500.
Proof.
  intros Hfd (u & Hu & Hus & Huh). unfold parseDevice, with_scheme.
  change (Contains ("fd://" +:+ itoa fd) "://") with (HasPrefix (itoa fd) "" || Contains ("//" +:+ itoa fd) "://").
  rewrite (HasPrefix_app "" (itoa fd) : HasPrefix (itoa fd) "" = true). cbn [orb].
  by rewrite Hu, Hus, Huh.
Qed.
Lemma open_fd fd w r w' : 0 ≤ fd ≤ maxInt64 → fd_Open (itoa fd) 1500 w = Some (r, w') →
  fd_closes (events w') = fd_closes (events w) ∧ (∀ d, r = Ok d → d = DevFD fd 1500).
Proof.
  intros Hfd H. unfold fd_Open in H. rewrite Atoi_itoa in H by done.
  apply bind_Some in H as (r1 & w1 & E1 & H). apply call_keeps in E1; [|reflexivity].
  rewrite <- E1. destruct r1 as [?|?]; injection H as <- <-; split; congruence.
Qed.

(** What an operation on [fd_key fd] does: it keeps the injected proxy and closes
    no descriptor; on success the device owns [fd]. *)
Definition takes (fd : Z) (s : EngineState) (r : result unit) (s' : EngineState) : Prop :=
  customProxy (eng s') = true ∧ fd_closes (events (eworld s')) = fd_closes (events (eworld s)) ∧
  (r = Ok tt → defaultDevice (eng s') = Some (DevFD fd 1500)).

Lemma netstack_body_fd fd s r s' :
  0 ≤ fd ≤ maxInt64 → parses_fd fd → customProxy (eng s) = true →
  netstack_body url_Parse RawURLEncoding QueryUnescape schema_NoDelay RAMInBytes pk sizes nicID tun_Open
    (fd_key fd) s = Some (r, s') → takes fd s r s'.
Proof.
  intros Hfd Hp Hc (e & s0 & [= <- <-] & H)%bind_Some. rewrite Hc, bindE_unfold in H. cbn [ret] in H.
  apply bind_Some in H as ([] & s1 & [= <-] & H). apply bind_Some in H as ([] & s2 & [= <-] & H).
  apply bind_Some in H as (rd & s3 & E3 & H).
  change (u32 (MTU (fd_key fd))) with 1500 in E3. change (kDevice (fd_key fd)) with ("fd://" +:+ itoa fd) in E3.
  rewrite parse_fd in E3 by done. unfold onWorld in E3. cbn [eworld eng] in E3.
  destruct (fd_Open (itoa fd) 1500 (eworld s)) as [[rd' w']|] eqn:Eo; [|done]. injection E3 as <- <-.
  apply open_fd in Eo as [Ew Hd]; [|done].
  destruct rd' as [d|e]; cbn in H; [|by injection H as <- <-].
  rewrite (Hd d) in H by done. clear Hd.
  apply bind_Some in H as (rs & s4 & E4 & H).
  apply onWorld_keeps in E4 as [Ee4 Ew4]; [|apply CreateStack_keeps].
  cbn in Ee4, Ew4. destruct rs as [|e]; cbn in H; injection H as <- <-; unfold takes; cbn; rewrite Ee4, Ew4; cbn; done.
Qed.

Lemma netstack_fd fd s r s' :
  0 ≤ fd ≤ maxInt64 → parses_fd fd → customProxy (eng s) = true →
  netstack url_Parse RawURLEncoding QueryUnescape schema_NoDelay RAMInBytes shlex_Split pk sizes nicID tun_Open
    (fd_key fd) s = Some (r, s') → takes fd s r s'.
Proof.
  intros Hfd Hp Hc (e & s0 & [= <- <-] & H)%bind_Some. rewrite decide_False in H by (rewrite Hc; by intros [_ ?]).
  cbn in H. apply bind_Some in H as ([] & s1 & [= <-] & H). apply bind_Some in H as (rb & s2 & E2 & H).
  apply netstack_body_fd in E2; [|done..]. destruct rb as [[]|e]; [|by injection H as <- <-].
  by injection H as <- <-.
Qed.

Lemma start_fd fd s r s' :
  0 ≤ fd ≤ maxInt64 → parses_fd fd → defaultKey (eng s) = Some (fd_key fd) → customProxy (eng s) = true →
  run_start s = Some (r, s') → takes fd s r s'.
Proof.
  intros Hfd Hp Hk Hc (e & s0 & [= <- <-] & H)%bind_Some. rewrite Hk, bindE_unfold in H.
  destruct (general _ _ _ _) as [[[[]|e] s1]|] eqn:E1; [| |done]; apply general_fd in E1 as [Ee Ew].
  - rewrite bindE_unfold in H. cbn [restAPI] in H. apply netstack_fd in H; [|done|done|by rewrite Ee].
    unfold takes in *. by rewrite <- Ew.
  - injection H as <- <-. unfold takes. by rewrite Ee, Ew.
Qed.
End lifetime.

Lemma close_fd_counts fd : is_fd_close (close_fd fd) = true.
Proof. apply (HasPrefix_app "close fd "). Qed.

Lemma closing_fd fd w r w' :
  ignoring (close_fd fd) w = Some (r, w') → fd_closes (events w') = fd_closes (events w) ++ [close_fd fd].
Proof.
  intros ([?|?] & w1 & E & H)%bind_Some; injection E as _ <-; injection H as _ <-; rewrite events_snoc, fd_closes_app;
    cbn [fd_closes List.filter]; by rewrite close_fd_counts.
Qed.

Lemma stop_fd fd mtu s r s' :
  defaultDevice (eng s) = Some (DevFD fd mtu) → stop s = Some (r, s') →
  eng s' = eng s ∧ fd_closes (events (eworld s')) = fd_closes (events (eworld s)) ++ [close_fd fd].
Proof.
  intros Hd (e & s0 & [= <- <-] & H)%bind_Some. rewrite Hd in H.
  apply bind_Some in H as ([] & s1 & E1 & H). apply bind_Some in H as ([] & s2 & E2 & H). injection H as _ <-.
  unfold onWorld in E1. destruct (Device_Close _ _) as [[a w]|] eqn:Ec; [|done]. injection E1 as _ <-.
  apply bind_Some in Ec as ([] & w1 & Ec & Em). apply closing_fd in Ec. apply ignoring_keeps in Em; [|done].
  rewrite <- Ec, <- Em. destruct (defaultStack (eng s)); [|by injection E2 as <-].
  apply bind_Some in E2 as ([] & s3 & E3 & E4). apply onWorld_keeps in E3 as [Ee3 Ew3]; [|keep].
  apply onWorld_keeps in E4 as [Ee4 Ew4]; [|keep]. rewrite Ee4, Ew4, Ee3, Ew3. done.
Qed.
