(* ===== verification/MobileApi.v ===== *)
(** The interface of the Android application ([mobile/mobile_api.go]): starting and
    stopping the core and the engine, and who owns the file descriptor of the VPN.
    The theorem covers every history of calls: a descriptor is taken exactly when
    the call that brings it answers with the empty string, and is then closed
    exactly once; a core that does not run has nothing left running. *)

From S2P Require Import Prelude GoStd Stats Conn Cache Policy Routing IPPool Dial Doh Config.
From S2P Require Import GoNet Session Upstream ShadowCore NetStack Engine LumineProxy.

(** The globals of the package, of the core and of the engine. *)
Record Mobile := mkMobile {
  workingDir : string;
  isRunning : bool;
  logEntries : list string;
  mstats : statsState;
  logWriter : bool;              (* the core's log goes to [LogWriter] *)
  core : Core;
  machine : EngineState
}.

Definition set_dir (d : string) (s : Mobile) : Mobile :=
  mkMobile d (isRunning s) (logEntries s) (mstats s) (logWriter s) (core s) (machine s).
Definition set_running (b : bool) (s : Mobile) : Mobile :=
  mkMobile (workingDir s) b (logEntries s) (mstats s) (logWriter s) (core s) (machine s).
Definition set_logWriter (b : bool) (s : Mobile) : Mobile :=
  mkMobile (workingDir s) (isRunning s) (logEntries s) (mstats s) b (core s) (machine s).

(** Operations of the parts. *)
Definition onLog {A} (m : St (list string) A) : St Mobile A := λ s,
  match m (logEntries s) with
  | Some (a, l) => Some (a, mkMobile (workingDir s) (isRunning s) l (mstats s) (logWriter s) (core s) (machine s))
  | None => None
  end.
Definition onStat {A} (m : St statsState A) : St Mobile A := λ s,
  match m (mstats s) with
  | Some (a, x) => Some (a, mkMobile (workingDir s) (isRunning s) (logEntries s) x (logWriter s) (core s) (machine s))
  | None => None
  end.
Definition onCore {A} (m : St Core A) : St Mobile A := λ s,
  match m (core s) with
  | Some (a, c) => Some (a, mkMobile (workingDir s) (isRunning s) (logEntries s) (mstats s) (logWriter s) c (machine s))
  | None => None
  end.
Definition onEngine {A} (m : St EngineState A) : St Mobile A := λ s,
  match m (machine s) with
  | Some (a, e) => Some (a, mkMobile (workingDir s) (isRunning s) (logEntries s) (mstats s) (logWriter s) (core s) e)
  | None => None
  end.

(** [init]. *)
Definition mobile_init (w : World) : Mobile := mkMobile "" false [] stats_init false (reset_core []) (mkEngineState engine_init w).

Section api.
(** The system as the core's loading finds it ([Config]). *)
Context (detectByDial : string → string → Z → result (option IP * string)) (GOOS : string)
  (probes : string → list Z * (Z → list (option Z))) (NewSharded : Z → option error)
  (proxy_SOCKS5 : string → option error) (is_transport : bool)
  (core_url_Parse : string → result (string * string))
  (find_domain : ∀ A, list (string * A) → string → option A)
  (find_ip : list (string * Policy) → string → option Policy) `{!Resolver Core}.
(** What the engine uses ([Engine]). *)
Context (url_Parse : string → result URL) (ResolveTCPAddr : string → result udpAddr)
  (InterfaceByName : string → result (string * Z))
  (RawURLEncoding : string → string) (QueryUnescape : string → string)
  (zap_ParseLevel : string → result Z) (schema_NoDelay : URL → result bool) (RAMInBytes : string → result Z)
  (shlex_Split : string → result (list string))
  (pk : packages) (sizes : BufferSizes) (nicID : Z) (tun_Open : string → Z → St World (result Device)).
(** [filepath.Join], and a line of the main logger. *)
Context (filepath_Join : string → string → string) (log_line : string → string → string).

(** What a call finds outside: the wall clock, the files (read and decoded), the
    network interfaces and the lines of standard input. *)
Record surroundings := mkSurroundings {
  clock_text : string;
  read_config : string → result Config;
  sys_interfaces : result (list sysIface);
  stdin_lines : list (option Z)
}.

Abbreviation run_load su :=
  (LoadConfig (sys_interfaces su) (stdin_lines su) detectByDial GOOS probes NewSharded proxy_SOCKS5 is_transport core_url_Parse
     find_domain find_ip).
Abbreviation run_start :=
  (start url_Parse ResolveTCPAddr InterfaceByName RawURLEncoding QueryUnescape zap_ParseLevel schema_NoDelay RAMInBytes
     shlex_Split pk sizes nicID tun_Open).

Definition SetWorkingDir (dir : string) : St Mobile unit := modify (set_dir dir).

Definition closeUnusedFD (fd : Z) : St World unit :=
  if decide (fd < 0) then ret tt else ignoring (close_fd fd).

(** The deferred function of [StartLumine], when [started] is false. *)
Definition unwind : St Mobile unit :=
  let* _ := onEngine ClearCustomProxy in
  let* _ := onCore StopIPPoolMonitors in
  modify (set_logWriter false).

Definition StartLumine (su : surroundings) (fd : Z) (configName : string) : St Mobile string :=
  let* s := get in
  if decide (workingDir s = "") then ret "working directory not set" else
  if isRunning s then
    let* _ := onEngine (onWorld (closeUnusedFD fd)) in ret ""
  else
    let* _ := onLog (put []) in
    let* _ := onStat (resetStats (clock_text su)) in
    let* _ := onLog (pushLog (log_line "INFO" "Lumine mobile starting...")) in
    let* _ := modify (set_logWriter true) in
    let configPath := filepath_Join (workingDir s) (configName +:+ ".json") in
    let* r := onCore (run_load su (read_config su configPath)) in
    match r with
    | Fail err => let* _ := unwind in ret ("load config error: " +:+ error_Error err)
    | Ok _ =>
        let* _ := onEngine SetCustomProxy in
        let* _ := onEngine (Insert (fd_key fd)) in
        let* r := onEngine run_start in
        match r with
        | Fail err => let* _ := unwind in ret ("engine start error: " +:+ error_Error err)
        | Ok _ => let* _ := modify (set_running true) in ret ""
        end
    end.

Definition StopLumine : St Mobile unit :=
  let* s := get in
  if negb (isRunning s) then ret tt else
  let* r := onEngine stop in
  let* _ := match r with
            | Fail err => onLog (pushLog (log_line "ERROR" ("Engine stop error: " +:+ error_Error err)))
            | Ok _ => ret tt
            end in
  let* _ := onEngine ClearCustomProxy in
  let* _ := onCore StopIPPoolMonitors in
  let* _ := modify (set_running false) in
  modify (set_logWriter false).

Definition IsRunning : St Mobile bool := let* s := get in ret (isRunning s).

(** [CheckConfig] on a document as it decodes. *)
Definition CheckConfig (conf : result Config) : string :=
  match ValidateConfigJSON conf with Some err => "invalid config: " +:+ error_Error err | None => "" end.

Definition GetVersion (Version : string) : string := Version +:+ "-android-original".
Definition HelloSplice : string :=
  if decide (GOOS = "linux") then "Splice is available on Linux/Android" else "Splice is NOT available on " +:+ GOOS.

(** ** Histories of calls *)

Inductive apiCall :=
| CStart (su : surroundings) (fd : Z) (configName : string)
| CStop
| CSetWorkingDir (dir : string).

(** The descriptors that [StartLumine] has taken, oldest first. *)
Fixpoint session (calls : list apiCall) (taken : list Z) : St Mobile (list Z) :=
  match calls with
  | [] => ret taken
  | CStart su fd name :: calls =>
      let* r := StartLumine su fd name in
      session calls (if decide (r = "") then taken ++ [fd] else taken)
  | CStop :: calls => let* _ := StopLumine in session calls taken
  | CSetWorkingDir dir :: calls => let* _ := SetWorkingDir dir in session calls taken
  end.

(** ** Who owns the descriptors *)

(** Of the descriptors [taken], every one is closed, once, except the one a running
    engine holds; what runs with the core runs exactly when the core does. *)
Definition owns (taken : list Z) (s : Mobile) : Prop :=
  let closed := fd_closes (events (eworld (machine s))) in
  let e := eng (machine s) in
  if isRunning s then
    ∃ fd, defaultDevice e = Some (DevFD fd 1500) ∧ closed ++ [close_fd fd] ≡ₚ close_fd <$> taken ∧
    customProxy e = true ∧ logWriter s = true
  else closed ≡ₚ close_fd <$> taken ∧ customProxy e = false ∧ monitored (core s) = [] ∧ logWriter s = false.

Definition api_inv (taken : list Z) (s : Mobile) : Prop := owns taken s ∧ monitors_ok (core s).

(** The descriptors Android hands over, and how [net/url] reads their URLs. *)
Definition fd_ok (c : apiCall) : Prop :=
  match c with CStart _ fd _ => 0 ≤ fd ≤ maxInt64 ∧ parses_fd url_Parse fd | _ => True end.

Context `{CR : !CoreResolver}.

Lemma unwind_inv taken s s' :
  fd_closes (events (eworld (machine s))) ≡ₚ close_fd <$> taken → isRunning s = false → monitors_ok (core s) →
  unwind s = Some (tt, s') → api_inv taken s'.
Proof.
  intros Hc Hr Hm ([] & s1 & [= <-] & H)%bind_Some. apply bind_Some in H as ([] & s2 & E2 & H).
  unfold onCore in E2. destruct (StopIPPoolMonitors _) as [[[] c]|] eqn:Es; [|done]. injection E2 as <-. injection H as <-.
  apply Stop_all in Es; [|done]. unfold api_inv, owns. cbn. rewrite Hr. cbn. rewrite Es.
  split; [by split|]. intros tag. cbn. rewrite Es. by rewrite elem_of_nil.
Qed.

(** Operations on the log and the statistics leave the rest alone. *)
Definition same_core (s s' : Mobile) : Prop :=
  workingDir s' = workingDir s ∧ isRunning s' = isRunning s ∧ logWriter s' = logWriter s ∧ core s' = core s ∧ machine s' = machine s.
Lemma onLog_same {A} (m : St (list string) A) s a s' : onLog m s = Some (a, s') → same_core s s'.
Proof. unfold onLog. destruct (m _) as [[b l]|]; [|done]. by intros [= _ <-]. Qed.
Lemma onStat_same {A} (m : St statsState A) s a s' : onStat m s = Some (a, s') → same_core s s'.
Proof. unfold onStat. destruct (m _) as [[b l]|]; [|done]. by intros [= _ <-]. Qed.
Lemma onEngine_inv {A} (m : St EngineState A) s a s' :
  onEngine m s = Some (a, s') → ∃ e, m (machine s) = Some (a, e) ∧
    s' = mkMobile (workingDir s) (isRunning s) (logEntries s) (mstats s) (logWriter s) (core s) e.
Proof. unfold onEngine. destruct (m _) as [[b e]|]; [|done]. intros [= -> <-]. by exists e. Qed.
Lemma onCore_inv {A} (m : St Core A) s a s' :
  onCore m s = Some (a, s') → ∃ c, m (core s) = Some (a, c) ∧
    s' = mkMobile (workingDir s) (isRunning s) (logEntries s) (mstats s) (logWriter s) c (machine s).
Proof. unfold onCore. destruct (m _) as [[b c]|]; [|done]. intros [= -> <-]. by exists c. Qed.

(** A start while the core runs only closes the descriptor it brings. *)
Lemma start_again_inv taken fd s r s' :
  0 ≤ fd → isRunning s = true → api_inv taken s →
  (let* _ := onEngine (onWorld (closeUnusedFD fd)) in ret "") s = Some (r, s') → r = "" ∧ api_inv (taken ++ [fd]) s'.
Proof.
  intros Hfd Hr [Ho Hm] ([] & s1 & (e & E & ->)%onEngine_inv & [= <- <-])%bind_Some. split; [done|].
  unfold closeUnusedFD in E. rewrite decide_False in E by lia. unfold onWorld in E.
  destruct (ignoring _ _) as [[[] w]|] eqn:Ec; [|done]. injection E as <-. apply closing_fd in Ec.
  unfold api_inv, owns in *. cbn. rewrite Hr in *. split; [|done]. destruct Ho as (fd0 & Hd & Hc & Ho).
  exists fd0. split; [done|]. split; [|done]. rewrite Ec, fmap_app. cbn.
  by rewrite <- Hc, <- !app_assoc, (Permutation_app_comm [close_fd fd]).
Qed.

(** The part of [StartLumine] from the loading on. *)
Lemma start_engine_inv taken su fd path s r s' :
  0 ≤ fd ≤ maxInt64 → parses_fd url_Parse fd → isRunning s = false → logWriter s = true → monitors_ok (core s) →
  fd_closes (events (eworld (machine s))) ≡ₚ close_fd <$> taken →
  (let* r := onCore (run_load su (read_config su path)) in
    match r with
    | Fail err => let* _ := unwind in ret ("load config error: " +:+ error_Error err)
    | Ok _ =>
        let* _ := onEngine SetCustomProxy in
        let* _ := onEngine (Insert (fd_key fd)) in
        let* r := onEngine run_start in
        match r with
        | Fail err => let* _ := unwind in ret ("engine start error: " +:+ error_Error err)
        | Ok _ => let* _ := modify (set_running true) in ret ""
        end
    end) s = Some (r, s') →
  api_inv (if decide (r = "") then taken ++ [fd] else taken) s'.
Proof.
  intros Hfd Hp Hr Hl Hm Hc (rl & s1 & (c & E1 & ->)%onCore_inv & H)%bind_Some.
  apply (LoadConfig_monitors _ _ _ _ _ _ _ _ _ _ _ _ _ _ _ Hm) in E1.
  destruct rl as [a|e].
  2: { apply bind_Some in H as ([] & s2 & E2 & [= <- <-]). rewrite decide_False by done. by apply (unwind_inv taken) in E2. }
  apply bind_Some in H as ([] & s2 & (e2 & [= <-] & ->)%onEngine_inv & H).
  apply bind_Some in H as ([] & s3 & (e3 & [= <-] & ->)%onEngine_inv & H).
  apply bind_Some in H as (r4 & s4 & (e4 & E4 & ->)%onEngine_inv & H). cbn in H.
  apply (start_fd _ _ _ _ _ _ _ _ _ _ _ _ _ fd) in E4 as (Hcp & Hcl & Hd); [|done..]. cbn in Hcl.
  destruct r4 as [[]|e].
  - apply bind_Some in H as ([] & s5 & [= <-] & [= <- <-]). rewrite decide_True by done.
    unfold api_inv, owns. cbn. split; [|done]. exists fd. rewrite Hcl, fmap_app. by split_and!; [apply Hd|by rewrite Hc| |].
  - apply bind_Some in H as ([] & s5 & E5 & [= <- <-]). rewrite decide_False by done.
    apply (unwind_inv taken) in E5; [done|cbn; by rewrite Hcl|done..].
Qed.

Lemma StartLumine_inv taken su fd name s r s' :
  0 ≤ fd ≤ maxInt64 → parses_fd url_Parse fd → api_inv taken s → StartLumine su fd name s = Some (r, s') →
  api_inv (if decide (r = "") then taken ++ [fd] else taken) s'.
Proof.
  intros Hfd Hp Hi (s0 & s1 & [= <- <-] & H)%bind_Some.
  case_decide as Hw; [injection H as <- <-; by rewrite decide_False|].
  destruct (isRunning s) eqn:Hr.
  { apply (start_again_inv taken) in H as [-> Hi']; [|lia|done..]. by rewrite decide_True. }
  destruct Hi as [Ho Hm]. unfold owns in Ho. rewrite Hr in Ho. destruct Ho as (Hc & _).
  apply bind_Some in H as ([] & s1 & S1%onLog_same & H). apply bind_Some in H as ([] & s2 & S2%onStat_same & H).
  apply bind_Some in H as ([] & s3 & S3%onLog_same & H). apply bind_Some in H as ([] & s4 & [= <-] & H).
  assert (same_core s s3) as (_ & E2 & _ & E4 & E5) by (unfold same_core in *; intuition congruence).
  apply (start_engine_inv taken) in H; cbn; by rewrite ?E2, ?E4, ?E5.
Qed.

Lemma StopLumine_inv taken s s' : api_inv taken s → StopLumine s = Some (tt, s') → api_inv taken s'.
Proof.
  intros [Ho Hm] (s0 & s1 & [= <- <-] & H)%bind_Some. unfold owns in Ho.
  destruct (isRunning s) eqn:Hr; cbn [negb] in H; [|injection H as <-; unfold api_inv, owns; by rewrite Hr].
  destruct Ho as (fd & Hd & Hc & _).
  apply bind_Some in H as (r & s1 & (e1 & E1 & ->)%onEngine_inv & H). apply (stop_fd fd 1500) in E1 as [Ee Ew]; [|done].
  apply bind_Some in H as ([] & s2 & E2 & H).
  assert (same_core (mkMobile (workingDir s) (isRunning s) (logEntries s) (mstats s) (logWriter s) (core s) e1) s2)
    as (_ & _ & _ & F4 & F5) by (destruct r; [by injection E2 as <-|by apply onLog_same in E2]).
  apply bind_Some in H as ([] & s3 & (e3 & [= <-] & ->)%onEngine_inv & H).
  apply bind_Some in H as ([] & s4 & (c & E4 & ->)%onCore_inv & H). apply Stop_all in E4; [|cbn; rewrite F4; exact Hm].
  apply bind_Some in H as ([] & s5 & [= <-] & [= <-]). cbn in F4, F5. unfold api_inv, owns. cbn. rewrite F5, Ew.
  split; [by split|]. intros tag. cbn. rewrite E4. by rewrite elem_of_nil.
Qed.

Lemma session_inv calls taken taken' s s' :
  Forall fd_ok calls → api_inv taken s → session calls taken s = Some (taken', s') → api_inv taken' s'.
Proof.
  intros Hf. revert taken s. induction Hf as [|c calls Hc Hf IH]; intros taken s Hi H; [by injection H as <- <-|].
  destruct c as [su fd name| |dir].
  - destruct Hc. apply bind_Some in H as (r & s1 & E & H). apply (StartLumine_inv taken) in E; [|done..]. by apply IH in H.
  - apply bind_Some in H as ([] & s1 & E & H). apply (StopLumine_inv taken) in E; [|done]. by apply IH in H.
  - apply bind_Some in H as ([] & s1 & [= <-] & H). by apply IH in H.
Qed.

(** C31: over every history of calls from the start of the process, the core owns
    exactly the descriptors whose [StartLumine] answered with the empty string:
    it closes each of them once, but for the one that the running engine still
    holds, and never one whose start failed (which the application closes
    itself).  When the core does not run, no injected proxy, pool monitor or log
    redirection is left over, however the last start or stop went. *)
Theorem fd_ownership (calls : list apiCall) (w : World) (taken : list Z) (s : Mobile) :
  Forall fd_ok calls → fd_closes (events w) = [] → session calls [] (mobile_init w) = Some (taken, s) → owns taken s.
Proof.
  intros Hf Hw H. apply (session_inv calls []) in H as [Ho _]; [done|done|].
  split; [|apply reset_monitors_ok]. unfold owns. cbn. by rewrite Hw.
Qed.
End api.

(** ** Witness *)

#[local] Instance toy_resolver : Resolver Core := core_resolver (λ _ _, throw (ErrNew "no network")).
#[local] Instance toy_core_resolver : CoreResolver := core_resolver_frame _.

Definition toy_url (s : string) : result URL := Ok (mkURL "fd" (sdrop 5 s) "" "" None "" "").
Definition toy_conf : Config :=
  mkConfig "info" 0 "none" "none" BindingOption_zero "8.8.8.8:53" 0 "" "20=3;5-1" true 60 100 false 0 0 []
    [] Policy_zero [] [].
Definition toy_su (conf : result Config) : surroundings := mkSurroundings "12:00:00" (λ _, conf) (Ok []) [].
(** Two starts, the second while the core runs; a stop; a start whose
    configuration cannot be read. *)
Definition toy_calls : list apiCall :=
  [CSetWorkingDir "/data"; CStart (toy_su (Ok toy_conf)) 42 "a"; CStart (toy_su (Ok toy_conf)) 43 "a"; CStop;
   CStart (toy_su (Ok toy_conf)) 44 "a"; CStop; CStart (toy_su (Fail EOF)) 45 "b"; CStart (toy_su (Ok toy_conf)) 46 "a"].
#[local] Abbreviation toy_session :=
  (session (λ _ _ _, Fail EOF) "android" (λ _, ([], λ _, [])) (λ _, None) (λ _, None) true
    (λ _, Fail (ErrNew "parse")) (λ _ _ _, None) (λ _ _, None) toy_url (λ _, Fail EOF) (λ _, Fail EOF) id id
    (λ _, Ok 0) (λ _, Ok false) (λ _, Fail EOF) (λ _, Ok []) toy_packages (mkSizes 1 2 3 4) 1 (λ _ _, throw EOF)
    (λ a b, a +:+ "/" +:+ b) (λ a b, a +:+ " " +:+ b) toy_calls []).
Definition toy_world : World := mkWorld [] [] 0 [] [] [] ∅.

Lemma toy_taken : (λ x, fst x) <$> toy_session (mobile_init toy_world) = Some [42; 43; 44; 46].
Proof. vm_compute. reflexivity. Qed.

Lemma toy_fds : Forall (fd_ok toy_url) toy_calls.
Proof.
  unfold toy_calls. repeat (apply Forall_cons; split; [|]); try done; cbn [fd_ok];
    (split; [unfold maxInt64; lia|by eexists]).
Qed.

Lemma fd_ownership_witness :
  ∃ s, toy_session (mobile_init toy_world) = Some ([42; 43; 44; 46], s) ∧ owns [42; 43; 44; 46] s.
Proof.
  destruct (toy_session (mobile_init toy_world)) as [[taken s]|] eqn:E; [|pose proof toy_taken as T; rewrite E in T; discriminate].
  assert (taken = [42; 43; 44; 46]) as -> by (pose proof toy_taken as T; rewrite E in T; by injection T).
  exists s. split; [done|].
  exact (fd_ownership _ _ _ _ _ _ _ _ _ _ _ _ _ _ _ _ _ _ _ _ _ _ _ _ _ _ _ _ toy_fds (eq_refl : fd_closes (events toy_world) = []) E).
Defined.
