(* ===== verification/Flow.v ===== *)
(** The tunnel of the VPN's engine ([tun2socks/tunnel], [tun2socks/tunnel/statistic]):
    the loop that takes connections from the network stack, the handlers of a TCP
    and of a UDP flow with their two directions, and the trackers and counters of
    the statistics.  All of it runs at the same time: a goroutine is a program of
    atomic actions, the tunnel a step relation that may take any goroutine's next
    action.  [FlowRun] has what holds of every run, [FlowFacts] the theorems. *)

From stdpp Require Import functions.
From S2P Require Import Prelude GoStd GoNet GoTime Conn.
From S2P Require Import Allocator LumineProxy.

(** ** Goroutines *)

(** The counters of the manager and of the tracker with a UUID ([atomic.Int64]). *)
Inductive counter :=
| uploadTemp | downloadTemp | uploadBlip | downloadBlip | uploadTotal | downloadTotal
| UploadTotal (uuid : Z) | DownloadTotal (uuid : Z).
#[export] Instance counter_eq_dec : EqDecision counter.
Proof. solve_decision. Defined.

(** What a flow does to its connections. *)
Inductive out :=
| OWrite (c : conn) (b : bytes)
| OWriteTo (c : conn) (b : bytes) (to : option string)
| OCloseRead (c : conn)
| OCloseWrite (c : conn)
| OReadDeadline (c : conn) (after : Z)
| OClose (c : conn).
#[export] Instance out_eq_dec : EqDecision out.
Proof. solve_decision. Defined.
Definition out_conn (o : out) : conn :=
  match o with OWrite c _ | OWriteTo c _ _ | OCloseRead c | OCloseWrite c | OReadDeadline c _ | OClose c => c end.

(** One atomic action; a goroutine has one register for what it has loaded. *)
Inductive act :=
| AAdd (c : counter) (n : Z)
| ALoad (c : counter)
| AStoreLoaded (c : counter)
| AStore (c : counter) (v : Z)
| AJoin (uuid : Z)
| ALeave (uuid : Z)
| AOut (o : out).

Record shared := mkShared { value : counter → Z; connections : gset Z; outputs : list out }.
Definition shared_init : shared := mkShared (λ _, 0) ∅ [].

Definition do_act (a : act) (r : Z) (s : shared) : Z * shared :=
  match a with
  | AAdd c n => (r, mkShared (<[c := s64 (value s c + n)]> (value s)) (connections s) (outputs s))
  | ALoad c => (value s c, s)
  | AStoreLoaded c => (r, mkShared (<[c := r]> (value s)) (connections s) (outputs s))
  | AStore c v => (r, mkShared (<[c := v]> (value s)) (connections s) (outputs s))
  | AJoin id => (r, mkShared (value s) ({[id]} ∪ connections s) (outputs s))
  | ALeave id => (r, mkShared (value s) (connections s ∖ {[id]}) (outputs s))
  | AOut o => (r, mkShared (value s) (connections s) (outputs s ++ [o]))
  end.

(** [PPar p q k]: two goroutines, waited for ([sync.WaitGroup]), then [k]. *)
Inductive prog := PEnd | PAct (a : act) (p : prog) | PPar (p q k : prog).
Definition acts (l : list act) (k : prog) : prog := foldr PAct k l.

Inductive pstep : prog * Z * shared → prog * Z * shared → Prop :=
| pstep_act a p r s : pstep (PAct a p, r, s) (p, (do_act a r s).1, (do_act a r s).2)
| pstep_left p q k r s p' r' s' : pstep (p, r, s) (p', r', s') → pstep (PPar p q k, r, s) (PPar p' q k, r', s')
| pstep_right p q k r s q' r' s' : pstep (q, r, s) (q', r', s') → pstep (PPar p q k, r, s) (PPar p q' k, r', s')
| pstep_join k r s : pstep (PPar PEnd PEnd k, r, s) (k, r, s).

(** ** Statistics ([statistic/manager.go], [statistic/tracker.go]) *)

Definition PushUploaded (size : Z) : list act := [AAdd uploadTemp size; AAdd uploadTotal size].
Definition PushDownloaded (size : Z) : list act := [AAdd downloadTemp size; AAdd downloadTotal size].
Definition Join (uuid : Z) : list act := [AJoin uuid].
Definition Leave (uuid : Z) : list act := [ALeave uuid].
Definition ResetStatistic : list act :=
  [AStore uploadTemp 0; AStore uploadBlip 0; AStore uploadTotal 0;
   AStore downloadTemp 0; AStore downloadBlip 0; AStore downloadTotal 0].

(** One turn of [Manager.handle], and [n] of them. *)
Definition tick : list act :=
  [ALoad uploadTemp; AStoreLoaded uploadBlip; AStore uploadTemp 0;
   ALoad downloadTemp; AStoreLoaded downloadBlip; AStore downloadTemp 0].
Definition handle (n : nat) : prog := acts (concat (repeat tick n)) PEnd.

Definition Now (s : shared) : Z * Z := (value s uploadBlip, value s downloadBlip).

Record Snapshot := mkSnapshot { snapUpload : Z; snapDownload : Z; snapConnections : gset Z }.
Definition Manager_Snapshot (s : shared) : Snapshot :=
  mkSnapshot (value s uploadTotal) (value s downloadTotal) (connections s).

(** What a tracker does when a read or a write of its connection has returned [n]. *)
Definition tracked_read (uuid n : Z) : list act := PushDownloaded n ++ [AAdd (DownloadTotal uuid) n].
Definition tracked_write (uuid n : Z) : list act := PushUploaded n ++ [AAdd (UploadTotal uuid) n].
Definition tracker_Close (uuid : Z) (c : conn) : list act := Leave uuid ++ [AOut (OClose c)].

(** The trackers of the two kinds of flows: [NewTCPTracker] and [NewUDPTracker]
    join the manager, and the methods count alike. *)
Definition NewTCPTracker (uuid : Z) : list act := Join uuid.
Definition NewUDPTracker (uuid : Z) : list act := Join uuid.
Definition udpTracker_ReadFrom (uuid n : Z) : list act := tracked_read uuid n.
Definition udpTracker_WriteTo (uuid n : Z) : list act := tracked_write uuid n.
Definition udpTracker_Close (uuid : Z) (c : conn) : list act := tracker_Close uuid c.

(** ** Addresses ([addr.go]) *)

(** [stack.TransportEndpointID]. *)
Record endpointID := mkEndpointID { LocalAddress : list Z; LocalPort : Z; RemoteAddress : list Z; RemotePort : Z }.

(** What a [LocalAddr] is: nothing, an address with an [AddrPort], or a text. *)
Inductive local_addr := NoAddr | HasAddrPort (a : Addr) (port : Z) | AddrText (s : string).

Definition parseAddrString (s : string) : Addr * Z := match ParseAddrPort s with Ok ap => ap | Fail _ => (AddrInvalid, 0) end.
Definition parseNetAddr (a : local_addr) : Addr * Z :=
  match a with NoAddr => (AddrInvalid, 0) | HasAddrPort a p => (a, p) | AddrText s => parseAddrString s end.
Definition parseTCPIPAddress (l : list Z) : Addr := fst (AddrFromSlice l).

Definition flow_metadata (n : Network) (id : endpointID) : Metadata :=
  mkMetadata n (parseTCPIPAddress (RemoteAddress id)) AddrInvalid (parseTCPIPAddress (LocalAddress id))
    (RemotePort id) 0 (LocalPort id).
Definition with_mid (m : Metadata) (a : local_addr) : Metadata :=
  let '(ip, port) := parseNetAddr a in mkMetadata (mNetwork m) (SrcIP m) ip (DstIP m) (SrcPort m) port (DstPort m).

(** ** TCP flows ([tcp.go]) *)

Definition tcpWaitTimeout : Z := 60 * Second.

Section copy.
(** What the reader and the writer do besides: a tracker counts. *)
Context (onRead onWrite : Z → list act).

(** [io.CopyBuffer] of what [reads] bring, the last together with an error; a write
    takes all of its bytes, but for those of [writes], which say what it returns. *)
Definition copy_chunk (dst : conn) (b : bytes) (w : option (Z * option error)) : list act * bool :=
  if decide (b = []) then ([], true) else
  let '(n, err) := default (len b, None) w in
  (AOut (OWrite dst b) :: onWrite n, bool_decide (err = None ∧ n = len b)).
Fixpoint copyBuffer (dst : conn) (reads : list bytes) (last : bytes) (writes : list (Z * option error)) : list act :=
  match reads with
  | [] => onRead (len last) ++ fst (copy_chunk dst last (head writes))
  | b :: reads =>
      let '(l, go) := copy_chunk dst b (head writes) in
      onRead (len b) ++ l ++
      (if go then copyBuffer dst reads last (if decide (b = []) then writes else tail writes) else [])
  end.

(** [unidirectionalStream]; the connections tell whether they can half-close. *)
Definition unidirectionalStream (dst src : conn) (dst_half src_half : bool) (reads : list bytes) (last : bytes)
    (writes : list (Z * option error)) : list act :=
  copyBuffer dst reads last writes ++
  (if src_half then [AOut (OCloseRead src)] else []) ++ (if dst_half then [AOut (OCloseWrite dst)] else []) ++
  [AOut (OReadDeadline dst tcpWaitTimeout)].
End copy.

Definition untracked (n : Z) : list act := [].

(** One direction of a flow: what arrives, and what the writes return. *)
Record stream := mkStream { sReads : list bytes; sLast : bytes; sWrites : list (Z * option error) }.

(** A connection from the stack, with what its two directions will bring, and the
    connection that the dialer makes of it. *)
Record remoteConn := mkRemote { rConn : conn; rLocal : local_addr; rHalf : bool }.
Record tcpFlow := mkTCPFlow {
  tOrigin : conn; tID : endpointID; tUUID : Z; tUp : stream; tDown : stream
}.

Definition pipe (f : tcpFlow) (remote : remoteConn) (k : prog) : prog :=
  PPar
    (acts (unidirectionalStream untracked (tracked_write (tUUID f)) (rConn remote) (tOrigin f) (rHalf remote) true
             (sReads (tUp f)) (sLast (tUp f)) (sWrites (tUp f))) PEnd)
    (acts (unidirectionalStream (tracked_read (tUUID f)) untracked (tOrigin f) (rConn remote) true (rHalf remote)
             (sReads (tDown f)) (sLast (tDown f)) (sWrites (tDown f))) PEnd)
    k.

(** The deferred calls run last first. *)
Definition handleTCPConn (DialContext : Metadata → result remoteConn) (f : tcpFlow) : prog :=
  match DialContext (flow_metadata TCP (tID f)) with
  | Fail _ => acts [AOut (OClose (tOrigin f))] PEnd
  | Ok remote =>
      acts (NewTCPTracker (tUUID f)) (pipe f remote
        (acts (tracker_Close (tUUID f) (rConn remote) ++ [AOut (OClose (tOrigin f))]) PEnd))
  end.

(** ** UDP flows ([udp.go]) *)

(** A read of packets: the bytes, the address they come from if the connection
    tells it, and an error. *)
Definition packet_read : Type := bytes * option string * option error.

(** [symmetricNATPacketConn.ReadFrom] reads on over a packet from elsewhere,
    whatever the error that comes with it. *)
Definition nat_drops (nat : option string) (from : option string) : bool :=
  match nat, from with Some dst, Some from => bool_decide (from ≠ dst) | _, _ => false end.

Section packets.
Context (onRead onWrite : Z → list act).

(** [copyPacketData]; when [reads] is over nothing arrives before the deadline. *)
Fixpoint copyPacketData_loop (nat : option string) (dst src : conn) (to : option string) (timeout : Z)
    (reads : list packet_read) (writes : list (Z * option error)) : list act :=
  match reads with
  | [] => onRead 0
  | (b, from, err) :: reads =>
      onRead (len b) ++
      if nat_drops nat from then copyPacketData_loop nat dst src to timeout reads writes
      else
        match err with
        | Some _ => []
        | None =>
            let '(n, werr) := default (len b, None) (head writes) in
            AOut (OWriteTo dst b to) :: onWrite n ++
            match werr with
            | Some _ => []
            | None =>
                AOut (OReadDeadline dst timeout) :: AOut (OReadDeadline src timeout) ::
                copyPacketData_loop nat dst src to timeout reads (tail writes)
            end
        end
  end.
Definition copyPacketData (nat : option string) (dst src : conn) (to : option string) (timeout : Z)
    (reads : list packet_read) (writes : list (Z * option error)) : list act :=
  AOut (OReadDeadline src timeout) :: copyPacketData_loop nat dst src to timeout reads writes.
End packets.

Record packet_stream := mkPackets { pReads : list packet_read; pWrites : list (Z * option error) }.
Record udpFlow := mkUDPFlow {
  uOrigin : conn; uID : endpointID; uUUID : Z; uUp : packet_stream; uDown : packet_stream
}.

(** Where packets of a flow go: [UDPAddr], or the address of the metadata. *)
Definition metadata_UDPAddr (m : Metadata) : option udpAddr :=
  match mNetwork m with
  | UDP => if IsValid (DstIP m) then Some (mkUDPAddr (AsSlice (DstIP m)) (DstPort m) (Zone (DstIP m))) else None
  | _ => None
  end.
Definition flow_remote (m : Metadata) : string :=
  match metadata_UDPAddr m with Some u => UDPAddr_String u | None => DestinationAddress m end.

Definition pipePacket (f : udpFlow) (pc : conn) (m : Metadata) (timeout : Z) (k : prog) : prog :=
  PPar
    (acts (copyPacketData untracked (udpTracker_WriteTo (uUUID f)) None pc (uOrigin f) (Some (flow_remote m)) timeout
             (pReads (uUp f)) (pWrites (uUp f))) PEnd)
    (acts (copyPacketData (udpTracker_ReadFrom (uUUID f)) untracked (Some (DestinationAddress m)) (uOrigin f) pc None timeout
             (pReads (uDown f)) (pWrites (uDown f))) PEnd)
    k.

Definition handleUDPConn (DialUDP : Metadata → result remoteConn) (timeout : Z) (f : udpFlow) : prog :=
  let m := flow_metadata UDP (uID f) in
  match DialUDP m with
  | Fail _ => acts [AOut (OClose (uOrigin f))] PEnd
  | Ok pc =>
      acts (NewUDPTracker (uUUID f)) (pipePacket f (rConn pc) m timeout
        (acts (udpTracker_Close (uUUID f) (rConn pc) ++ [AOut (OClose (uOrigin f))]) PEnd))
  end.

(** ** The tunnel ([tunnel.go]) *)

Inductive flow := TCPFlow (f : tcpFlow) | UDPFlow (f : udpFlow).

(** The dialer that [SetDialer] has installed: what it answers. *)
Record Dialer := mkDialer { DialContext : Metadata → result remoteConn; DialUDP : Metadata → result remoteConn }.

(** The life of the loop: before [ProcessAsync], running, told to stop, over. *)
Inductive processing := Idle | Running | Cancelled | Stopped.

Record Tunnel := mkTunnel {
  queue : list flow;                (* senders in [HandleTCP] and [HandleUDP] that wait for the loop *)
  udpTimeout : Z;
  dialer : Dialer;
  loop : processing;
  goroutines : list (prog * Z);
  sh : shared
}.

Definition udpSessionTimeout : Z := 60 * Second.
Definition New (d : Dialer) : Tunnel := mkTunnel [] udpSessionTimeout d Idle [] shared_init.
(** The start of [Manager.handle] for [n] seconds of run. *)
Definition with_manager (n : nat) (t : Tunnel) : Tunnel :=
  mkTunnel (queue t) (udpTimeout t) (dialer t) (loop t) (goroutines t ++ [(handle n, 0)]) (sh t).

Definition Handle (f : flow) (t : Tunnel) : Tunnel :=
  mkTunnel (queue t ++ [f]) (udpTimeout t) (dialer t) (loop t) (goroutines t) (sh t).
Definition HandleTCP (f : tcpFlow) : Tunnel → Tunnel := Handle (TCPFlow f).
Definition HandleUDP (f : udpFlow) : Tunnel → Tunnel := Handle (UDPFlow f).
Definition set_loop (p : processing) (t : Tunnel) : Tunnel :=
  mkTunnel (queue t) (udpTimeout t) (dialer t) p (goroutines t) (sh t).
(** The [sync.Once]; [Close] before it only calls the empty function. *)
Definition ProcessAsync (t : Tunnel) : Tunnel := match loop t with Idle => set_loop Running t | _ => t end.
Definition Close (t : Tunnel) : Tunnel := match loop t with Running => set_loop Cancelled t | _ => t end.
Definition SetDialer (d : Dialer) (t : Tunnel) : Tunnel :=
  mkTunnel (queue t) (udpTimeout t) d (loop t) (goroutines t) (sh t).
Definition SetUDPTimeout (d : Z) (t : Tunnel) : Tunnel :=
  mkTunnel (queue t) d (dialer t) (loop t) (goroutines t) (sh t).

(** The goroutine of a flow: it asks for the dialer, and a UDP flow for the
    timeout, when it runs; that is taken to be when it starts. *)
Definition handleConn (t : Tunnel) (f : flow) : prog :=
  match f with
  | TCPFlow f => handleTCPConn (DialContext (dialer t)) f
  | UDPFlow f => handleUDPConn (DialUDP (dialer t)) (udpTimeout t) f
  end.

(** One step: a goroutine acts; the loop takes a flow that waits (also one more
    after [Close], [select] being free to choose), or stops. *)
Inductive step : Tunnel → Tunnel → Prop :=
| step_goroutine q d dl lp g1 p r g2 s p' r' s' :
    pstep (p, r, s) (p', r', s') →
    step (mkTunnel q d dl lp (g1 ++ (p, r) :: g2) s) (mkTunnel q d dl lp (g1 ++ (p', r') :: g2) s')
| step_accept q1 f q2 d dl lp gs s :
    lp = Running ∨ lp = Cancelled →
    step (mkTunnel (q1 ++ f :: q2) d dl lp gs s)
      (mkTunnel (q1 ++ q2) d dl lp (gs ++ [(handleConn (mkTunnel (q1 ++ f :: q2) d dl lp gs s) f, 0)]) s)
| step_stop q d dl gs s :
    step (mkTunnel q d dl Cancelled gs s) (mkTunnel q d dl Stopped gs s).
