(* ===== verification/FlowRun.v ===== *)
(** Runs of the tunnel ([Flow]): accounts that every step keeps, the work left that
    every step decreases, the owner of a connection, the trackers that leave. *)

From stdpp Require Import functions.
From S2P Require Import Prelude GoStd GoNet GoTime Conn.
From S2P Require Import Allocator LumineProxy Flow.

(** ** Accounts

    A weight on actions adds up over a program; what the shared state shows moves
    by the weight of the action taken, up to a multiple of [m]. *)

Fixpoint weigh (w : act → Z) (p : prog) : Z :=
  match p with
  | PEnd => 0
  | PAct a p => w a + weigh w p
  | PPar p q k => weigh w p + weigh w q + weigh w k
  end.
Fixpoint every (P : act → bool) (p : prog) : bool :=
  match p with
  | PEnd => true
  | PAct a p => P a && every P p
  | PPar p q k => every P p && every P q && every P k
  end.
Definition sum (l : list Z) : Z := foldr Z.add 0 l.

Lemma sum_app l1 l2 : sum (l1 ++ l2) = sum l1 + sum l2.
Proof. unfold sum. rewrite foldr_app. induction l1 as [|x l1 IH]; cbn; lia. Qed.
Lemma sum_cons x l : sum (x :: l) = x + sum l.
Proof. done. Qed.
Lemma weigh_acts w l k : weigh w (acts l k) = sum (w <$> l) + weigh w k.
Proof. induction l as [|a l IH]; [done|]. change (w a + weigh w (acts l k) = w a + sum (w <$> l) + weigh w k). lia. Qed.
Lemma every_acts P l k : every P (acts l k) = forallb P l && every P k.
Proof.
  induction l as [|a l IH]; [done|]. change (P a && every P (acts l k) = P a && forallb P l && every P k).
  by rewrite IH, andb_assoc.
Qed.

Section accounts.
Context (w : act → Z) (P : act → bool) (obs : shared → Z) (m : Z).
Context (obs_act : ∀ a r s, P a = true → (m | obs (do_act a r s).2 - obs s - w a)).

Lemma pstep_account x y : pstep x y → every P x.1.1 = true →
  every P y.1.1 = true ∧ (m | obs y.2 + weigh w y.1.1 - (obs x.2 + weigh w x.1.1)).
Proof.
  induction 1 as [a p r s|p q k r s p' r' s' _ IH|p q k r s q' r' s' _ IH|k r s]; cbn; intros HP.
  - apply andb_prop in HP as [Ha Hp]. split; [done|]. specialize (obs_act a r s Ha).
    replace (_ - _) with (obs (do_act a r s).2 - obs s - w a) by lia. done.
  - apply andb_prop in HP as [[Hp Hq]%andb_prop Hk]. destruct (IH Hp) as [H1 H2]. cbn in H1, H2. rewrite H1, Hq, Hk.
    split; [done|]. replace (_ - _) with (obs s' + weigh w p' - (obs s + weigh w p)) by lia. done.
  - apply andb_prop in HP as [[Hp Hq]%andb_prop Hk]. destruct (IH Hq) as [H1 H2]. cbn in H1, H2. rewrite H1, Hp, Hk.
    split; [done|]. replace (_ - _) with (obs s' + weigh w q' - (obs s + weigh w q)) by lia. done.
  - split; [done|]. replace (_ - _) with 0 by lia. apply Z.divide_0_r.
Qed.

(** What is still to come, in the goroutines and from the flows that wait. *)
Definition pending (t : Tunnel) : Z :=
  sum ((λ g, weigh w (fst g)) <$> goroutines t) + sum ((λ f, weigh w (handleConn t f)) <$> queue t).
Definition sound (t : Tunnel) : Prop :=
  Forall (λ g, every P (fst g) = true) (goroutines t) ∧ Forall (λ f, every P (handleConn t f) = true) (queue t).

Lemma step_account t t' : step t t' → sound t →
  sound t' ∧ (m | obs (sh t') + pending t' - (obs (sh t) + pending t)).
Proof.
  intros [q d dl lp g1 p r g2 s p' r' s' H|q1 f q2 d dl lp gs s _|q d dl gs s] [Hg Hq]; unfold sound, pending in *;
    cbn [goroutines queue sh] in *.
  - apply Forall_app in Hg as [Hg1 [Hp Hg2]%Forall_cons]. apply pstep_account in H as [Hp' Hd]; [|done]. cbn in Hp', Hd.
    split; [split; [|done]; apply Forall_app; split; [done|]; by apply Forall_cons|].
    rewrite !fmap_app, !sum_app, !fmap_cons, !sum_cons. cbn [fst].
    match goal with |- (_ | ?x) => replace x with (obs s' + weigh w p' - (obs s + weigh w p)) by (unfold handleConn; cbn; lia) end.
    done.
  - apply Forall_app in Hq as [Hq1 [Hf Hq2]%Forall_cons].
    split; [split; apply Forall_app; split; try done; by apply Forall_cons|].
    rewrite !fmap_app, !sum_app, !fmap_cons, !sum_cons. cbn [fst].
    match goal with |- (_ | ?x) => replace x with 0 by (unfold handleConn; cbn; lia) end. apply Z.divide_0_r.
  - split; [done|]. unfold handleConn. cbn. rewrite Z.sub_diag. apply Z.divide_0_r.
Qed.

Lemma run_account t t' : rtc step t t' → sound t →
  sound t' ∧ (m | obs (sh t') + pending t' - (obs (sh t) + pending t)).
Proof.
  induction 1 as [t|t1 t2 t3 H _ IH]; intros Hs; [rewrite Z.sub_diag; split; [done|apply Z.divide_0_r]|].
  apply step_account in H as [Hs2 Hd]; [|done]. destruct (IH Hs2) as [Hs3 Hd']. split; [done|].
  pose proof (Z.divide_add_r _ _ _ Hd Hd') as Hx.
  match type of Hx with (_ | ?x) => match goal with |- (_ | ?y) => replace y with x by lia end end. done.
Qed.
End accounts.

(** ** Every run ends *)

Fixpoint size (p : prog) : nat :=
  match p with PEnd => 0 | PAct _ p => S (size p) | PPar p q k => S (size p + size q + size k) end.
Definition total (l : list nat) : nat := foldr plus 0%nat l.
Lemma total_app l1 l2 : total (l1 ++ l2) = (total l1 + total l2)%nat.
Proof. unfold total. rewrite foldr_app. induction l1 as [|x l1 IH]; cbn; lia. Qed.
Lemma total_cons x l : total (x :: l) = (x + total l)%nat.
Proof. done. Qed.

(** The steps left, at most. *)
Definition work (t : Tunnel) : nat :=
  (total ((λ g, size (fst g)) <$> goroutines t) + total ((λ f, S (size (handleConn t f))) <$> queue t) +
   match loop t with Cancelled => 1 | _ => 0 end)%nat.

Lemma pstep_size x y : pstep x y → (size y.1.1 < size x.1.1)%nat.
Proof. induction 1; cbn in *; lia. Qed.

Lemma step_work t t' : step t t' → (work t' < work t)%nat.
Proof.
  intros [q d dl lp g1 p r g2 s p' r' s' H|q1 f q2 d dl lp gs s _|q d dl gs s]; unfold work; cbn [goroutines queue loop].
  - apply pstep_size in H. cbn in H. rewrite !fmap_app, !total_app, !fmap_cons, !total_cons. cbn [fst]. unfold handleConn. cbn. lia.
  - rewrite !fmap_app, !total_app, !fmap_cons, !total_cons. cbn [fst fmap list_fmap]. unfold handleConn. cbn. lia.
  - unfold handleConn. cbn. lia.
Qed.

Lemma run_bounded n t t' : nsteps step n t t' → (n + work t' ≤ work t)%nat.
Proof. induction 1 as [|n t1 t2 t3 H _ IH]; [lia|]. apply step_work in H. lia. Qed.

Lemma pstep_can p r s : p = PEnd ∨ ∃ y, pstep (p, r, s) y.
Proof.
  revert r s. induction p as [|a p _|p IHp q IHq k _]; intros r s; [by left| |]; right; [eexists; constructor|].
  destruct (IHp r s) as [-> | [[[p' r'] s'] H]]; [|eexists; by constructor].
  destruct (IHq r s) as [-> | [[[q' r'] s'] H]]; [|eexists; by apply pstep_right]. eexists. apply pstep_join.
Qed.

(** Nothing is left to do. *)
Definition settled (t : Tunnel) : Prop := Forall (λ g, fst g = PEnd) (goroutines t) ∧ queue t = [].
Definition stuck (t : Tunnel) : Prop := ∀ t', ¬ step t t'.

Lemma goroutines_can q d dl lp gs s :
  Forall (λ g, fst g = PEnd) gs ∨ ∃ t', step (mkTunnel q d dl lp gs s) t'.
Proof.
  assert (∀ g1 g2, g1 ++ g2 = gs → Forall (λ g, fst g = PEnd) g2 ∨ ∃ t', step (mkTunnel q d dl lp gs s) t') as H;
    [|by apply (H [])].
  intros g1 g2. revert g1. induction g2 as [|[p r] g2 IH]; intros g1 Hg; [by left|].
  destruct (pstep_can p r s) as [-> | [[[p' r'] s'] Hp]].
  - destruct (IH (g1 ++ [(PEnd, r)])) as [HF|?]; [by rewrite <- app_assoc| |by right]. left. by apply Forall_cons.
  - right. subst gs. eexists. by constructor.
Qed.

(** A loop that runs is stuck only when nothing is left to do. *)
Lemma running_progress t : loop t = Running → settled t ∨ ∃ t', step t t'.
Proof.
  destruct t as [q d dl lp gs s]. cbn. intros ->. destruct q as [|f q].
  - destruct (goroutines_can [] d dl Running gs s); [by left; split|by right].
  - right. eexists. apply (step_accept [] f q). by left.
Qed.
Lemma running_settles t : loop t = Running → stuck t → settled t.
Proof. intros Hl Hs. destruct (running_progress t Hl) as [?|[t' H]]; [done|]. by apply Hs in H. Qed.

Lemma run_settles t : loop t = Running → ∃ t', rtc step t t' ∧ settled t'.
Proof.
  remember (work t) as k eqn:Hk. revert t Hk. induction (Nat.lt_wf_0 k) as [k _ IH]. intros t -> Hl.
  destruct (running_progress t Hl) as [Hs|[t1 H1]]; [by exists t|].
  destruct (IH (work t1) (step_work _ _ H1) t1 eq_refl) as (t2 & H2 & Hs2); [by destruct H1|].
  exists t2. split; [by eapply rtc_l|done].
Qed.

Lemma settled_stuck t : loop t = Running → settled t → stuck t.
Proof.
  intros Hl [Hg Hq] t' H. destruct H as [q d dl lp g1 p r g2 s p' r' s' Hp|q1 f q2 d dl lp gs s _|]; cbn in *; [| |done].
  - apply Forall_app in Hg as [_ [Hx _]%Forall_cons]. cbn in Hx. subst p. inversion Hp.
  - by destruct q1.
Qed.

Lemma running_stays t t' : rtc step t t' → loop t = Running → loop t' = Running.
Proof. induction 1 as [|t1 t2 t3 H _ IH]; [done|]. intros Hl. apply IH. by destruct H. Qed.

(** *** What has settled has no weight *)

Lemma settled_pending w t : settled t → pending w t = 0.
Proof.
  intros [Hg Hq]. unfold pending. rewrite Hq. cbn. assert (sum ((λ g, weigh w (fst g)) <$> goroutines t) = 0) as ->; [|done].
  induction Hg as [|[p r] gs Hp _ IH]; [done|]. rewrite fmap_cons, sum_cons, IH. cbn in *. by rewrite Hp.
Qed.

(** ** Counters that nobody stores to *)

Definition adds (c : counter) (a : act) : Z := match a with AAdd c' n => if decide (c' = c) then n else 0 | _ => 0 end.
Definition only_adds (c : counter) (a : act) : bool :=
  match a with AStore c' _ | AStoreLoaded c' => negb (bool_decide (c' = c)) | _ => true end.

Lemma s64_near z : (18446744073709551616 | s64 z - z).
Proof.
  unfold s64. exists (- ((z + 9223372036854775808) / 18446744073709551616)).
  pose proof (Z.div_mod (z + 9223372036854775808) 18446744073709551616). lia.
Qed.
Lemma s64_eq a b : (18446744073709551616 | a - b) → s64 a = s64 b.
Proof.
  intros [k Hk]. unfold s64. f_equal. replace (a + 9223372036854775808) with (b + 9223372036854775808 + k * 18446744073709551616) by lia.
  by rewrite Z.mod_add.
Qed.

Lemma counter_act c a r s : only_adds c a = true →
  (18446744073709551616 | value (do_act a r s).2 c - value s c - adds c a).
Proof.
  intros Ha. assert (∀ z, (18446744073709551616 | z - z - 0)) as H0 by (intros z; exists 0; lia).
  destruct a as [c' n|c'|c'|c' v|id|id|o]; cbn in *; try apply H0.
  - destruct (decide (c' = c)) as [->|Hne]; [rewrite fn_lookup_insert|rewrite fn_lookup_insert_ne by done; apply H0].
    replace (_ - _) with (s64 (value s c + n) - (value s c + n)) by lia. apply s64_near.
  - apply negb_true_iff, bool_decide_eq_false in Ha. rewrite fn_lookup_insert_ne by done. apply H0.
  - apply negb_true_iff, bool_decide_eq_false in Ha. rewrite fn_lookup_insert_ne by done. apply H0.
Qed.

(** ** Outputs *)

Definition occurs (o : out) (l : list out) : Z := sum ((λ x, if decide (x = o) then 1 else 0) <$> l).
Definition emits (o : out) (a : act) : Z := match a with AOut x => if decide (x = o) then 1 else 0 | _ => 0 end.
Lemma occurs_app o l1 l2 : occurs o (l1 ++ l2) = occurs o l1 + occurs o l2.
Proof. unfold occurs. by rewrite fmap_app, sum_app. Qed.
Lemma output_act o a r s : (0 | occurs o (outputs (do_act a r s).2) - occurs o (outputs s) - emits o a).
Proof.
  exists 0. destruct a as [| | | | | |x]; cbn [do_act snd outputs emits]; try lia. rewrite occurs_app. unfold occurs at 2, sum. cbn. lia.
Qed.

(** ** Who owns a connection

    The programs that are left, in no order.  A step is a step of one of them. *)

Definition pool (t : Tunnel) : list prog := (fst <$> goroutines t) ++ (handleConn t <$> queue t).

Lemma step_pool t t' : step t t' →
  (∃ p r p' r' rest, pool t ≡ₚ p :: rest ∧ pool t' ≡ₚ p' :: rest ∧ pstep (p, r, sh t) (p', r', sh t')) ∨
  (pool t ≡ₚ pool t' ∧ sh t' = sh t).
Proof.
  intros [q d dl lp g1 p r g2 s p' r' s' H|q1 f q2 d dl lp gs s _|q d dl gs s]; unfold pool; cbn [goroutines queue sh].
  - left. exists p, r, p', r', ((fst <$> g1) ++ (fst <$> g2) ++ (handleConn (mkTunnel q d dl lp (g1 ++ (p, r) :: g2) s) <$> q)).
    rewrite !fmap_app, !fmap_cons. cbn [fst]. split; [|split; [|done]];
      by rewrite <- !app_assoc, <- !app_comm_cons, <- Permutation_middle.
  - right. split; [|done]. rewrite !fmap_app, !fmap_cons. cbn [fst]. rewrite fmap_nil.
    change (handleConn (mkTunnel (q1 ++ q2) d dl lp (gs ++ _) s)) with (handleConn (mkTunnel (q1 ++ f :: q2) d dl lp gs s)).
    rewrite <- app_assoc. cbn [app]. apply Permutation_app_head. by rewrite <- Permutation_middle.
  - by right.
Qed.

Lemma Permutation_cons_cases {A} (x y : A) l k :
  x :: l ≡ₚ y :: k → (x = y ∧ l ≡ₚ k) ∨ ∃ r, l ≡ₚ y :: r ∧ k ≡ₚ x :: r.
Proof.
  intros H. assert (y ∈ x :: l) as [->|Hy]%elem_of_cons by (rewrite H; by left).
  - left. split; [done|]. by apply Permutation_cons_inv in H.
  - right. apply elem_of_Permutation in Hy as [r Hr]. exists r. split; [done|].
    rewrite Hr, perm_swap in H. by apply Permutation_cons_inv in H.
Qed.

(** One program owns what [I] is about; the others keep away from it. *)
Section owner.
Context (I : prog → shared → Prop) (N : prog → Prop).
Context (own_step : ∀ p r s p' r' s', pstep (p, r, s) (p', r', s') → I p s → I p' s')
  (other_step : ∀ p r s p' r' s' x, pstep (p, r, s) (p', r', s') → N p → I x s → N p' ∧ I x s').

Definition owned (t : Tunnel) : Prop := ∃ x rest, pool t ≡ₚ x :: rest ∧ I x (sh t) ∧ Forall N rest.

Lemma owned_step t t' : step t t' → owned t → owned t'.
Proof.
  intros Hst (x & rest & Hp & Hx & Hn). destruct (step_pool t t' Hst) as [(p & r & p' & r' & rest' & H1 & H2 & Hs)|[H1 H2]].
  - rewrite Hp in H1. apply Permutation_cons_cases in H1 as [[-> Hr]|(l & Hl1 & Hl2)].
    + exists p', rest. split; [by rewrite H2, Hr|]. split; [by eapply own_step|done].
    + rewrite Hl1 in Hn. apply Forall_cons in Hn as [Hnp Hnl]. destruct (other_step _ _ _ _ _ _ x Hs Hnp Hx) as [Hnp' Hx'].
      exists x, (p' :: l). split; [by rewrite H2, Hl2, perm_swap|]. split; [done|]. by apply Forall_cons.
  - exists x, rest. rewrite H2. split; [by rewrite <- H1|done].
Qed.
Lemma owned_run t t' : rtc step t t' → owned t → owned t'.
Proof. induction 1; [done|]. eauto using owned_step. Qed.
End owner.

(** *** The actions of a program *)

Fixpoint actions (p : prog) : list act :=
  match p with PEnd => [] | PAct a p => a :: actions p | PPar p q k => actions p ++ actions q ++ actions k end.

Lemma actions_acts l k : actions (acts l k) = l ++ actions k.
Proof. induction l as [|a l IH]; [done|]. cbn. by f_equal. Qed.

Lemma pstep_actions x y : pstep x y → actions y.1.1 ⊆ actions x.1.1.
Proof.
  induction 1 as [a p r s|p q k r s p' r' s' _ IH|p q k r s q' r' s' _ IH|k r s]; cbn in *; intros b;
    rewrite ?elem_of_cons, ?elem_of_app; [by right| | |done]; intros [Hb|[Hb|Hb]]; auto.
Qed.

(** What a step does to the shared state: one of the actions, or nothing. *)
Lemma pstep_effect x y : pstep x y →
  y.2 = x.2 ∨ ∃ a, a ∈ actions x.1.1 ∧ y.2 = (do_act a x.1.2 x.2).2.
Proof.
  induction 1 as [a p r s|p q k r s p' r' s' _ IH|p q k r s q' r' s' _ IH|k r s]; cbn in *; [right| | |by left].
  - exists a. split; [by left|done].
  - destruct IH as [->|(a & Ha & ->)]; [by left|]. right. exists a. split; [|done]. apply elem_of_app. by left.
  - destruct IH as [->|(a & Ha & ->)]; [by left|]. right. exists a. split; [|done]. rewrite !elem_of_app. auto.
Qed.

Lemma outputs_act a r s :
  outputs (do_act a r s).2 = outputs s ++ match a with AOut o => [o] | _ => [] end.
Proof. by destruct a; cbn; rewrite ?app_nil_r. Qed.

Lemma pstep_output o x y : pstep x y → o ∈ outputs y.2 → o ∈ outputs x.2 ∨ AOut o ∈ actions x.1.1.
Proof.
  intros H Ho. destruct (pstep_effect _ _ H) as [E|(a & Ha & E)]; rewrite E in Ho; [by left|].
  rewrite outputs_act, elem_of_app in Ho. destruct Ho as [Ho|Ho]; [by left|]. right.
  destruct a; try (by apply elem_of_nil in Ho). by apply list_elem_of_singleton in Ho as ->.
Qed.

(** *** Silence after the end *)

Definition about (c : conn) (a : act) : Prop := match a with AOut o => out_conn o = c | _ => False end.
Definition quiet_prog (c : conn) (p : prog) : Prop := ∀ a, a ∈ actions p → ¬ about c a.

(** Nothing about [c] comes after it is closed. *)
Fixpoint sealed (c : conn) (p : prog) : Prop :=
  match p with
  | PEnd => True
  | PAct a p => (a = AOut (OClose c) → quiet_prog c p) ∧ sealed c p
  | PPar p q k => (AOut (OClose c) ∉ actions p) ∧ (AOut (OClose c) ∉ actions q) ∧ sealed c k
  end.
Definition closed_last (c : conn) (l : list out) : Prop :=
  ∀ l1 l2, l = l1 ++ OClose c :: l2 → Forall (λ o, out_conn o ≠ c) l2.

Lemma quiet_subset c p p' : actions p' ⊆ actions p → quiet_prog c p → quiet_prog c p'.
Proof. intros Hs Hq a Ha. by apply Hq, Hs. Qed.
Lemma sealed_absent c p : AOut (OClose c) ∉ actions p → sealed c p.
Proof.
  induction p as [|a p IH|p _ q _ k IHk]; cbn; [done| |].
  - rewrite not_elem_of_cons. intros [Hne H]. split; [congruence|auto].
  - rewrite !not_elem_of_app. intros (Hp & Hq & Hk). auto.
Qed.

Lemma pstep_sealed c x y : pstep x y → sealed c x.1.1 →
  sealed c y.1.1 ∧ (OClose c ∈ outputs y.2 → OClose c ∈ outputs x.2 ∨ quiet_prog c y.1.1).
Proof.
  induction 1 as [a p r s|p q k r s p' r' s' H IH|p q k r s q' r' s' H IH|k r s]; cbn.
  - intros [Hc Hp]. split; [done|]. rewrite outputs_act, elem_of_app. intros [Ho|Ho]; [by left|]. right.
    destruct a as [| | | | | |o]; try (by apply elem_of_nil in Ho). apply list_elem_of_singleton in Ho as <-. by apply Hc.
  - intros (Hp & Hq & Hk). pose proof (pstep_actions _ _ H) as Hsub. cbn in Hsub. split; [split; [by intros ?%Hsub|done]|].
    intros Ho. left. by apply (pstep_output _ _ _ H) in Ho as [Ho|Ho].
  - intros (Hp & Hq & Hk). pose proof (pstep_actions _ _ H) as Hsub. cbn in Hsub. split; [split; [done|split; [by intros ?%Hsub|done]]|].
    intros Ho. left. by apply (pstep_output _ _ _ H) in Ho as [Ho|Ho].
  - intros (_ & _ & Hk). split; [done|by left].
Qed.

Lemma closed_last_snoc c l o : closed_last c l → (OClose c ∈ l → out_conn o ≠ c) → closed_last c (l ++ [o]).
Proof.
  intros Hq Ho l1 l2 E. destruct l2 as [|x l2] using rev_ind; [done|]. clear IHl2.
  rewrite app_comm_cons, app_assoc in E. apply app_inj_tail in E as [-> ->].
  apply Forall_app. split; [by eapply Hq|]. apply Forall_singleton, Ho, elem_of_app. right. by left.
Qed.

(** *** What is written to a connection *)

Definition payload (c : conn) (o : out) : option bytes :=
  match o with OWrite d b | OWriteTo d b _ => if decide (d = c) then Some b else None | _ => None end.
Definition written (c : conn) (l : list out) : list bytes := omap (payload c) l.
Definition payload_act (c : conn) (a : act) : option bytes := match a with AOut o => payload c o | _ => None end.
Definition data (c : conn) (p : prog) : list bytes := omap (payload_act c) (actions p).

(** Only one goroutine at a time writes to [c]. *)
Fixpoint single (c : conn) (p : prog) : Prop :=
  match p with
  | PEnd => True
  | PAct _ p => single c p
  | PPar p q k => (data c p = [] ∨ data c q = []) ∧ single c p ∧ single c q ∧ single c k
  end.

Lemma written_act c a r s :
  written c (outputs (do_act a r s).2) = written c (outputs s) ++ match payload_act c a with Some b => [b] | None => [] end.
Proof.
  unfold written. rewrite outputs_act, omap_app. f_equal. by destruct a; cbn; try done; destruct (payload c o).
Qed.
Lemma data_par c p q k : data c (PPar p q k) = data c p ++ data c q ++ data c k.
Proof. unfold data. cbn. by rewrite !omap_app. Qed.
Lemma data_acts c l k : data c (acts l k) = omap (payload_act c) l ++ data c k.
Proof. unfold data. by rewrite actions_acts, omap_app. Qed.
Lemma single_acts c l k : single c (acts l k) ↔ single c k.
Proof. by induction l. Qed.

Lemma pstep_grows c x y : pstep x y → ∃ l, written c (outputs y.2) = written c (outputs x.2) ++ l.
Proof.
  intros [E|(a & _ & E)]%pstep_effect; rewrite E; [exists []; by rewrite app_nil_r|]. rewrite written_act. by eexists.
Qed.

(** What is written already, and what the program still writes. *)
Lemma pstep_data c x y : pstep x y → single c x.1.1 →
  single c y.1.1 ∧ written c (outputs y.2) ++ data c y.1.1 = written c (outputs x.2) ++ data c x.1.1.
Proof.
  induction 1 as [a p r s|p q k r s p' r' s' H IH|p q k r s q' r' s' H IH|k r s]; cbn [fst snd single].
  - intros Hs. split; [done|]. rewrite written_act, <- app_assoc. f_equal. unfold data. cbn. by destruct (payload_act c a).
  - intros (Hd & Hp & Hq & Hk). destruct (IH Hp) as [Hp' E]. cbn [fst snd] in E, Hp'. rewrite !data_par.
    split; [|by rewrite !(app_assoc (written _ _)), E]. split; [|done]. destruct Hd as [Hd|Hd]; [left|by right].
    destruct (pstep_grows c _ _ H) as [l Hl]. cbn in Hl. rewrite Hl, Hd, <- app_assoc in E.
    apply app_inv_head in E. by apply app_nil in E as [_ ->].
  - intros (Hd & Hp & Hq & Hk). destruct (IH Hq) as [Hq' E]. cbn [fst snd] in E, Hq'. rewrite !data_par.
    destruct (pstep_grows c _ _ H) as [l Hl]. cbn in Hl. rewrite Hl, <- app_assoc in E. apply app_inv_head in E.
    rewrite Hl. destruct Hd as [Hd|Hd].
    + rewrite Hd. cbn. split; [split; [by left|done]|]. rewrite !app_assoc. f_equal. rewrite <- app_assoc. f_equal. done.
    + rewrite Hd in E. apply app_nil in E as [-> E]. rewrite Hd, E, app_nil_r. split; [split; [by right|done]|done].
  - intros (_ & _ & _ & Hk). done.
Qed.

(** *** The owner of a connection *)

Definition owner (c : conn) (all : list bytes) (p : prog) (s : shared) : Prop :=
  single c p ∧ written c (outputs s) ++ data c p = all ∧ sealed c p ∧
  (OClose c ∈ outputs s → quiet_prog c p) ∧ closed_last c (outputs s).

Lemma quiet_output c a r s : ¬ about c a →
  written c (outputs (do_act a r s).2) = written c (outputs s) ∧
  (OClose c ∈ outputs (do_act a r s).2 → OClose c ∈ outputs s) ∧
  (closed_last c (outputs s) → closed_last c (outputs (do_act a r s).2)).
Proof.
  intros Ha. rewrite written_act, outputs_act. destruct a as [| | | | | |o]; cbn [payload_act]; rewrite ?app_nil_r; try done.
  cbn in Ha. split; [|split].
  - unfold payload. destruct o; cbn in Ha; rewrite ?decide_False by done; by rewrite app_nil_r.
  - intros [Ho|Ho]%elem_of_app; [done|]. by apply list_elem_of_singleton in Ho as <-.
  - intros Hc. by apply closed_last_snoc.
Qed.

Lemma owner_step c all p r s p' r' s' : pstep (p, r, s) (p', r', s') → owner c all p s → owner c all p' s'.
Proof.
  intros H (Hs & Hd & Hse & Hq & Hc).
  destruct (pstep_data c _ _ H Hs) as [Hs' Hd']. destruct (pstep_sealed c _ _ H Hse) as [Hse' Hq'].
  pose proof (pstep_actions _ _ H) as Hsub. cbn [fst snd] in *. split; [done|]. split; [by rewrite Hd', Hd|]. split; [done|].
  split; [intros Ho; destruct (Hq' Ho); [by eapply quiet_subset, Hq|done]|].
  destruct (pstep_effect _ _ H) as [E|(a & Ha & E)]; cbn [fst snd] in *; rewrite E; [done|].
  rewrite outputs_act. destruct a as [| | | | | |o]; rewrite ?app_nil_r; try done.
  apply closed_last_snoc; [done|]. intros Ho. exact (Hq Ho _ Ha).
Qed.
Lemma owner_others c all p r s p' r' s' x :
  pstep (p, r, s) (p', r', s') → quiet_prog c p → owner c all x s → quiet_prog c p' ∧ owner c all x s'.
Proof.
  intros H Hn (Hs & Hd & Hse & Hq & Hc). pose proof (pstep_actions _ _ H) as Hsub.
  split; [by eapply quiet_subset|]. destruct (pstep_effect _ _ H) as [E|(a & Ha & E)]; cbn [fst snd] in *; rewrite E; [done|].
  destruct (quiet_output c a r s (Hn a Ha)) as (E1 & E2 & E3). unfold owner. rewrite E1. auto 10.
Qed.
Lemma owner_run c all t t' :
  rtc step t t' → owned (owner c all) (quiet_prog c) t → owned (owner c all) (quiet_prog c) t'.
Proof. apply owned_run; [apply owner_step|apply owner_others]. Qed.

(** ** Trackers leave

    Every tracker that joins is going to leave. *)

Fixpoint bracketed (p : prog) : Prop :=
  match p with
  | PEnd => True
  | PAct a p => (∀ id, a = AJoin id → ALeave id ∈ actions p) ∧ bracketed p
  | PPar p q k => bracketed p ∧ bracketed q ∧ bracketed k
  end.

Lemma pstep_bracketed x y : pstep x y → bracketed x.1.1 →
  bracketed y.1.1 ∧ ∀ id, id ∈ connections y.2 →
    ALeave id ∈ actions y.1.1 ∨ (id ∈ connections x.2 ∧ (ALeave id ∈ actions x.1.1 → ALeave id ∈ actions y.1.1)).
Proof.
  induction 1 as [a p r s|p q k r s p' r' s' H IH|p q k r s q' r' s' H IH|k r s]; cbn.
  - intros [Hj Hp]. split; [done|]. intros id Hin. rewrite elem_of_cons.
    destruct a as [| | | |id'|id'|]; cbn in Hin; try (right; split; [done|]; by intros [?|?]).
    + apply elem_of_union in Hin as [->%elem_of_singleton|Hin]; [left; by apply Hj|]. right. split; [done|]. by intros [?|?].
    + apply elem_of_difference in Hin as [Hin Hne]. right. split; [done|]. intros [[= ->]|?]; [by rewrite elem_of_singleton in Hne|done].
  - intros (Hp & Hq & Hk). destruct (IH Hp) as [Hp' HI]. split; [done|]. intros id Hin. rewrite !elem_of_app.
    destruct (HI id Hin) as [Hl|[Hc Hl]]; cbn in *; [by left; left|]. right. split; [done|]. tauto.
  - intros (Hp & Hq & Hk). destruct (IH Hq) as [Hq' HI]. split; [done|]. intros id Hin. rewrite !elem_of_app.
    destruct (HI id Hin) as [Hl|[Hc Hl]]; cbn in *; [by left; right; left|]. right. split; [done|]. tauto.
  - intros (_ & _ & Hk). split; [done|]. intros id Hin. right. by split.
Qed.

Definition registered (t : Tunnel) : Prop :=
  Forall bracketed (pool t) ∧ ∀ id, id ∈ connections (sh t) → ∃ p, p ∈ pool t ∧ ALeave id ∈ actions p.

Lemma registered_step t t' : step t t' → registered t → registered t'.
Proof.
  intros Hst [Hb Hr]. destruct (step_pool t t' Hst) as [(p & r & p' & r' & rest & H1 & H2 & Hs)|[H1 H2]].
  - unfold registered. rewrite H1 in Hb. apply Forall_cons in Hb as [Hp Hrest].
    destruct (pstep_bracketed _ _ Hs Hp) as [Hp' HI]. cbn in Hp', HI. split; [rewrite H2; by apply Forall_cons|].
    intros id Hin. setoid_rewrite H2. destruct (HI id Hin) as [Hl|[Hc Hl]]; [exists p'; split; [by left|done]|].
    destruct (Hr id Hc) as (x & Hx & Hxl). rewrite H1 in Hx. apply elem_of_cons in Hx as [->|Hx].
    + exists p'. split; [by left|auto].
    + exists x. split; [by right|done].
  - unfold registered. rewrite <- H1. split; [done|]. intros id. rewrite H2. intros Hid. setoid_rewrite <- H1. auto.
Qed.
Lemma registered_run t t' : rtc step t t' → registered t → registered t'.
Proof. induction 1; eauto using registered_step. Qed.

Lemma settled_pool t : settled t → Forall (λ p, p = PEnd) (pool t).
Proof. intros [Hg Hq]. unfold pool. rewrite Hq, app_nil_r. by apply Forall_fmap. Qed.

Lemma settled_registered t : settled t → registered t → connections (sh t) = ∅.
Proof.
  intros Hs%settled_pool [_ Hr]. apply set_eq. intros id. split; [|set_solver]. intros (p & Hp & Hl)%Hr.
  rewrite Forall_forall in Hs. rewrite (Hs p Hp) in Hl. by apply elem_of_nil in Hl.
Qed.
