(* ===== verification/FlowFacts.v ===== *)
(** What the tunnel of the VPN guarantees ([Flow]) in every interleaving of its
    goroutines: the bytes of a flow arrive, in order; connections are closed once
    and last; the filter of the symmetric NAT; the statistics; and that every run
    ends with nothing left to do. *)

From stdpp Require Import functions.
From S2P Require Import Prelude GoStd GoNet GoTime Conn.
From S2P Require Import Allocator LumineProxy Flow FlowRun.

(** ** The program of a flow *)

Definition flow_prog (u : Z) (o c : conn) (l1 l2 : list act) : prog :=
  acts (Join u) (PPar (acts l1 PEnd) (acts l2 PEnd) (acts (tracker_Close u c ++ [AOut (OClose o)]) PEnd)).

(** What the two directions consist of. *)
Definition body (c o : conn) (a : act) : Prop :=
  match a with
  | AAdd _ _ => True
  | AOut (OClose _) => False
  | AOut x => out_conn x = c ∨ out_conn x = o
  | _ => False
  end.
Definition additions (f : Z → list act) : Prop := ∀ n, Forall (λ a, ∃ k z, a = AAdd k z) (f n).
Lemma untracked_additions : additions untracked.
Proof. by intros n. Qed.
Lemma read_additions u : additions (tracked_read u).
Proof. intros n. cbn. repeat (apply Forall_cons; split; [by eexists _, _|]). apply Forall_nil_2. Qed.
Lemma write_additions u : additions (tracked_write u).
Proof. intros n. cbn. repeat (apply Forall_cons; split; [by eexists _, _|]). apply Forall_nil_2. Qed.

Lemma additions_body f c o n : additions f → Forall (body c o) (f n).
Proof. intros H. eapply Forall_impl; [apply H|]. by intros a (k & z & ->). Qed.

Lemma body_sym c o l : Forall (body c o) l → Forall (body o c) l.
Proof. intros H. eapply Forall_impl; [exact H|]. intros [| | | | | |[]]; cbn; tauto. Qed.

Section bodies.
Context (onRead onWrite : Z → list act) (HR : additions onRead) (HW : additions onWrite) (dst src : conn).

Lemma chunk_body b w : Forall (body dst src) (copy_chunk onWrite dst b w).1.
Proof.
  unfold copy_chunk. case_decide; [apply Forall_nil_2|]. destruct (default _ w) as [n err]. cbn.
  apply Forall_cons. split; [by left|]. by apply additions_body.
Qed.
Lemma copy_body reads last writes : Forall (body dst src) (copyBuffer onRead onWrite dst reads last writes).
Proof.
  revert writes. induction reads as [|b reads IH]; intros writes; cbn [copyBuffer].
  - apply Forall_app. split; [by apply additions_body|apply chunk_body].
  - pose proof (chunk_body b (head writes)) as Hc. destruct (copy_chunk _ _ _ _) as [l go]. cbn in Hc.
    apply Forall_app. split; [by apply additions_body|]. apply Forall_app. split; [done|]. destruct go; [apply IH|apply Forall_nil_2].
Qed.
Lemma stream_body dh sh reads last writes :
  Forall (body dst src) (unidirectionalStream onRead onWrite dst src dh sh reads last writes).
Proof.
  unfold unidirectionalStream. apply Forall_app. split; [apply copy_body|].
  destruct dh, sh; repeat (apply Forall_cons; split; [cbn; tauto|]); apply Forall_nil_2.
Qed.
Lemma packet_body nat to timeout reads writes :
  Forall (body dst src) (copyPacketData onRead onWrite nat dst src to timeout reads writes).
Proof.
  unfold copyPacketData. apply Forall_cons. split; [by right|]. revert writes.
  induction reads as [|[[b from] err] reads IH]; intros writes; cbn [copyPacketData_loop]; [by apply additions_body|].
  apply Forall_app. split; [by apply additions_body|]. destruct (nat_drops nat from); [apply IH|].
  destruct err as [e|]; [apply Forall_nil_2|]. destruct (default _ _) as [n werr].
  apply Forall_cons. split; [by left|]. apply Forall_app. split; [by apply additions_body|].
  destruct werr; [apply Forall_nil_2|]. apply Forall_cons. split; [by left|]. apply Forall_cons. split; [by right|apply IH].
Qed.
End bodies.

Definition flow_uuid (f : flow) : Z := match f with TCPFlow f => tUUID f | UDPFlow f => uUUID f end.
Definition flow_origin (f : flow) : conn := match f with TCPFlow f => tOrigin f | UDPFlow f => uOrigin f end.
Definition dialled (d : Dialer) (f : flow) : option conn :=
  match (match f with
         | TCPFlow f => DialContext d (flow_metadata TCP (tID f))
         | UDPFlow f => DialUDP d (flow_metadata UDP (uID f))
         end) with
  | Ok r => Some (rConn r)
  | Fail _ => None
  end.
(** The connections of a flow: the one from the stack, and the dialled one. *)
Definition flow_conns (d : Dialer) (f : flow) : list conn := flow_origin f :: option_list (dialled d f).

(** The two directions of a flow that has been dialled. *)
Definition flow_up (timeout : Z) (f : flow) (r : remoteConn) : list act :=
  match f with
  | TCPFlow f => unidirectionalStream untracked (tracked_write (tUUID f)) (rConn r) (tOrigin f) (rHalf r) true
                   (sReads (tUp f)) (sLast (tUp f)) (sWrites (tUp f))
  | UDPFlow f => copyPacketData untracked (tracked_write (uUUID f)) None (rConn r) (uOrigin f)
                   (Some (flow_remote (flow_metadata UDP (uID f)))) timeout (pReads (uUp f)) (pWrites (uUp f))
  end.
Definition flow_down (timeout : Z) (f : flow) (r : remoteConn) : list act :=
  match f with
  | TCPFlow f => unidirectionalStream (tracked_read (tUUID f)) untracked (tOrigin f) (rConn r) true (rHalf r)
                   (sReads (tDown f)) (sLast (tDown f)) (sWrites (tDown f))
  | UDPFlow f => copyPacketData (tracked_read (uUUID f)) untracked (Some (DestinationAddress (flow_metadata UDP (uID f))))
                   (uOrigin f) (rConn r) None timeout (pReads (uDown f)) (pWrites (uDown f))
  end.

Lemma handleConn_shape t f :
  match (match f with
         | TCPFlow f => DialContext (dialer t) (flow_metadata TCP (tID f))
         | UDPFlow f => DialUDP (dialer t) (flow_metadata UDP (uID f))
         end) with
  | Fail _ => handleConn t f = acts [AOut (OClose (flow_origin f))] PEnd
  | Ok r => handleConn t f =
      flow_prog (flow_uuid f) (flow_origin f) (rConn r) (flow_up (udpTimeout t) f r) (flow_down (udpTimeout t) f r)
  end.
Proof. destruct f as [f|f]; cbn; unfold handleTCPConn, handleUDPConn; by destruct (_ (dialer t) _). Qed.

Lemma up_body timeout f r : Forall (body (rConn r) (flow_origin f)) (flow_up timeout f r).
Proof. destruct f; [apply stream_body|apply packet_body]; auto using untracked_additions, write_additions. Qed.
Lemma down_body timeout f r : Forall (body (rConn r) (flow_origin f)) (flow_down timeout f r).
Proof.
  apply body_sym. destruct f; [apply stream_body|apply packet_body]; auto using untracked_additions, read_additions.
Qed.

Section flow_prog.
Context (u : Z) (o c : conn) (l1 l2 : list act) (H1 : Forall (body c o) l1) (H2 : Forall (body c o) l2).

Lemma flow_actions : actions (flow_prog u o c l1 l2) = AJoin u :: l1 ++ l2 ++ [ALeave u; AOut (OClose c); AOut (OClose o)].
Proof. unfold flow_prog. cbn. rewrite !actions_acts. cbn. by rewrite !app_nil_r. Qed.

Lemma body_every l k : Forall (body c o) l → forallb (only_adds k) l = true.
Proof. induction 1 as [|a l Ha _ IH]; [done|]. cbn. rewrite IH. by destruct a. Qed.
Lemma flow_only_adds k : every (only_adds k) (flow_prog u o c l1 l2) = true.
Proof. unfold flow_prog. cbn. by rewrite !every_acts, !body_every. Qed.

Lemma body_bracketed l : Forall (body c o) l → bracketed (acts l PEnd).
Proof. induction 1 as [|a l Ha _ IH]; [done|]. split; [|done]. by intros id ->. Qed.
Lemma flow_bracketed : bracketed (flow_prog u o c l1 l2).
Proof.
  split.
  - intros id [= ->]. cbn. rewrite !actions_acts. cbn. rewrite !elem_of_app. right. right. by left.
  - cbn. split; [by apply body_bracketed|]. split; [by apply body_bracketed|]. by repeat (split; [done|]).
Qed.

Lemma body_no_close l d : Forall (body c o) l → AOut (OClose d) ∉ actions (acts l PEnd).
Proof. intros H. rewrite actions_acts, app_nil_r. rewrite Forall_forall in H. by intros Hin%H. Qed.
Lemma flow_sealed d : o ≠ c → sealed d (flow_prog u o c l1 l2).
Proof.
  intros Hne. split; [done|]. split; [by apply body_no_close|]. split; [by apply body_no_close|]. cbn.
  split; [done|]. split; [|split; [|done]].
  - intros [= ->] a Ha. apply list_elem_of_singleton in Ha as ->. by cbn.
  - intros _ a Ha. by apply elem_of_nil in Ha.
Qed.
Lemma flow_quiet d : d ≠ o → d ≠ c → quiet_prog d (flow_prog u o c l1 l2).
Proof.
  intros Ho Hc a Ha. rewrite flow_actions in Ha.
  assert (∀ l, Forall (body c o) l → a ∈ l → ¬ about d a) as Hb.
  { intros l Hl Hin. rewrite Forall_forall in Hl. apply Hl in Hin. destruct a as [| | | | | |[]]; cbn in *; intuition congruence. }
  apply elem_of_cons in Ha as [->|[Ha|[Ha|Ha]%elem_of_app]%elem_of_app]; [by intros []|by apply (Hb l1)|by apply (Hb l2)|].
  repeat (apply elem_of_cons in Ha as [->|Ha]; [cbn; intros Hx; congruence || done|]). by apply elem_of_nil in Ha.
Qed.

Lemma body_emits l d : Forall (body c o) l → sum (emits (OClose d) <$> l) = 0.
Proof.
  induction 1 as [|a l Ha _ IH]; [done|]. rewrite fmap_cons, sum_cons, IH.
  destruct a as [| | | | | |[]]; cbn in *; try done; rewrite decide_False by discriminate; lia.
Qed.
Lemma flow_closes d : weigh (emits (OClose d)) (flow_prog u o c l1 l2) =
  (if decide (d = c) then 1 else 0) + (if decide (d = o) then 1 else 0).
Proof.
  unfold flow_prog. cbn. rewrite !weigh_acts, !body_emits by done. cbn.
  repeat case_decide; simplify_eq; lia.
Qed.
Lemma flow_data d : data d (flow_prog u o c l1 l2) = omap (payload_act d) l1 ++ omap (payload_act d) l2.
Proof. unfold data. rewrite flow_actions. cbn. rewrite !omap_app. cbn. by rewrite app_nil_r. Qed.
Lemma flow_single d : omap (payload_act d) l1 = [] ∨ omap (payload_act d) l2 = [] → single d (flow_prog u o c l1 l2).
Proof. intros H. cbn. rewrite !data_acts, !single_acts. cbn. by rewrite !app_nil_r. Qed.
Lemma flow_weigh w : w (AJoin u) = 0 → w (ALeave u) = 0 → (∀ x, w (AOut x) = 0) →
  weigh w (flow_prog u o c l1 l2) = sum (w <$> l1) + sum (w <$> l2).
Proof. intros Hj Hl Ho. unfold flow_prog. cbn. rewrite !weigh_acts. cbn. rewrite Hj, Hl, !Ho. lia. Qed.
End flow_prog.

(** *** What the directions write and count *)

Section contents.
Context (onRead onWrite : Z → list act) (HR : additions onRead) (HW : additions onWrite).

Lemma additions_payload f c n : additions f → omap (payload_act c) (f n) = [].
Proof. intros H. specialize (H n). by induction H as [|a l (k & z & ->) _ IH]. Qed.

(** The bytes of a stream, as they are written. *)
Definition chunks (reads : list bytes) (last : bytes) : list bytes := filter (λ b, b ≠ []) (reads ++ [last]).

Lemma chunk_data c dst b w :
  omap (payload_act c) (copy_chunk onWrite dst b w).1 = if decide (dst = c ∧ b ≠ []) then [b] else [].
Proof.
  unfold copy_chunk. case_decide as Hb; [by rewrite decide_False by tauto|]. destruct (default _ w) as [n err]. cbn.
  rewrite additions_payload by done. repeat case_decide; tauto || done.
Qed.
Lemma stream_data c dst src dh sh reads last :
  omap (payload_act c) (unidirectionalStream onRead onWrite dst src dh sh reads last []) =
  if decide (dst = c) then chunks reads last else [].
Proof.
  unfold unidirectionalStream. rewrite omap_app.
  assert (∀ l, omap (payload_act c) (copyBuffer onRead onWrite dst reads last []) = l →
    omap (payload_act c) (copyBuffer onRead onWrite dst reads last []) ++
    omap (payload_act c) ((if sh then [AOut (OCloseRead src)] else []) ++ (if dh then [AOut (OCloseWrite dst)] else []) ++
      [AOut (OReadDeadline dst tcpWaitTimeout)]) = l) as Htail by (intros l <-; destruct dh, sh; cbn; by rewrite app_nil_r).
  apply Htail. clear Htail. unfold chunks. induction reads as [|b reads IH]; cbn [copyBuffer app].
  - rewrite omap_app, additions_payload, chunk_data by done. cbn. repeat case_decide; tauto || done.
  - pose proof (chunk_data c dst b None) as Hc. cbn [head] in *. unfold copy_chunk in *. case_decide as Hb.
    + subst b. rewrite !omap_app, additions_payload by done. rewrite filter_cons_False by tauto. exact IH.
    + cbn [default fst] in *. rewrite bool_decide_eq_true_2 by done. rewrite !omap_app, additions_payload, Hc by done.
      cbn [tail]. rewrite IH. rewrite filter_cons_True by done. repeat case_decide; tauto || done.
Qed.

(** The packets that pass, when no read fails: all without a filter, else those
    that come from its address or tell none. *)
Definition passes (nat from : option string) : Prop := nat = None ∨ from = None ∨ from = nat.
#[local] Instance passes_decision nat from : Decision (passes nat from).
Proof. unfold passes. apply _. Defined.
Definition passing (nat : option string) (reads : list packet_read) : list bytes :=
  (λ x, x.1.1) <$> filter (λ x, passes nat x.1.2) reads.

Lemma nat_drops_passes nat from : nat_drops nat from = false ↔ passes nat from.
Proof.
  unfold nat_drops, passes. destruct nat as [a|], from as [b|]; [|naive_solver..].
  rewrite bool_decide_eq_false. split; [intros H; right; right; f_equal; by apply dec_stable|].
  by intros [|[|[= ->]]] ?.
Qed.

Lemma packets_data c nat dst src to timeout reads writes :
  dst ≠ c → omap (payload_act c) (copyPacketData onRead onWrite nat dst src to timeout reads writes) = [].
Proof.
  intros Hne. unfold copyPacketData. cbn. revert writes. induction reads as [|[[b from] err] reads IH]; intros writes;
    cbn [copyPacketData_loop]; [by apply additions_payload|]. rewrite omap_app, additions_payload by done.
  destruct (nat_drops nat from); [apply IH|]. destruct err as [e|]; [done|]. destruct (default _ _) as [n werr]. cbn.
  rewrite decide_False, omap_app, additions_payload by done. destruct werr; [done|apply IH].
Qed.
Lemma packets_data_dst nat dst src to timeout reads :
  Forall (λ x, x.2 = None) reads →
  omap (payload_act dst) (copyPacketData onRead onWrite nat dst src to timeout reads []) = passing nat reads.
Proof.
  intros H. unfold copyPacketData, passing. cbn. induction H as [|[[b from] err] reads Herr _ IH]; cbn [copyPacketData_loop];
    [by apply additions_payload|]. cbn in Herr. subst err. rewrite omap_app, additions_payload by done. cbn [app].
  destruct (nat_drops nat from) eqn:Hd.
  { rewrite filter_cons_False; [done|]. cbn. intros H1%nat_drops_passes. congruence. }
  apply nat_drops_passes in Hd. rewrite filter_cons_True by done. cbn. rewrite decide_True, omap_app, additions_payload by done. cbn. by rewrite IH.
Qed.

(** Two weights that agree on what is read and written agree on the whole. *)
Context (w1 w2 : act → Z) (out1 : ∀ o, w1 (AOut o) = w2 (AOut o))
  (read1 : ∀ n, sum (w1 <$> onRead n) = sum (w2 <$> onRead n)) (write1 : ∀ n, sum (w1 <$> onWrite n) = sum (w2 <$> onWrite n)).

Ltac weights := repeat (progress rewrite ?fmap_app, ?fmap_cons, ?sum_app, ?sum_cons, ?out1, ?read1, ?write1); try done.

Lemma chunk_weights dst b w :
  sum (w1 <$> (copy_chunk onWrite dst b w).1) = sum (w2 <$> (copy_chunk onWrite dst b w).1).
Proof. unfold copy_chunk. case_decide; [done|]. destruct (default _ w) as [n err]. cbn [fst]. weights. Qed.
Lemma copy_weights dst reads last writes :
  sum (w1 <$> copyBuffer onRead onWrite dst reads last writes) = sum (w2 <$> copyBuffer onRead onWrite dst reads last writes).
Proof.
  revert writes. induction reads as [|b reads IH]; intros writes; cbn [copyBuffer].
  - weights. by rewrite chunk_weights.
  - pose proof (chunk_weights dst b (head writes)) as Hc. destruct (copy_chunk _ _ _ _) as [l go]. cbn [fst] in Hc.
    weights. rewrite Hc. destruct go; [by rewrite IH|done].
Qed.
Lemma stream_weights dst src dh sh reads last writes :
  sum (w1 <$> unidirectionalStream onRead onWrite dst src dh sh reads last writes) =
  sum (w2 <$> unidirectionalStream onRead onWrite dst src dh sh reads last writes).
Proof. unfold unidirectionalStream. weights. rewrite copy_weights. destruct dh, sh; weights. Qed.
Lemma packets_weights nat dst src to timeout reads writes :
  sum (w1 <$> copyPacketData onRead onWrite nat dst src to timeout reads writes) =
  sum (w2 <$> copyPacketData onRead onWrite nat dst src to timeout reads writes).
Proof.
  unfold copyPacketData. weights. f_equal. revert writes. induction reads as [|[[b from] err] reads IH]; intros writes;
    cbn [copyPacketData_loop]; weights. f_equal. destruct (nat_drops nat from); [apply IH|]. destruct err; [done|].
  destruct (default _ _) as [n werr]. weights. destruct werr; [done|]. weights. by rewrite IH.
Qed.
End contents.

(** A direction whose writes all succeed moves all of its bytes. *)
Definition volume (reads : list bytes) (last : bytes) : Z := len (concat (reads ++ [last])).

Lemma stream_volume onRead onWrite (w : act → Z) (a b : Z) dst src dh sh reads last :
  (∀ o, w (AOut o) = 0) → (∀ n, sum (w <$> onRead n) = a * n) → (∀ n, sum (w <$> onWrite n) = b * n) →
  sum (w <$> unidirectionalStream onRead onWrite dst src dh sh reads last []) = (a + b) * volume reads last.
Proof.
  intros Ho Ha Hb. unfold unidirectionalStream, volume. rewrite fmap_app, sum_app.
  assert (sum (w <$> (if sh then [AOut (OCloseRead src)] else []) ++ (if dh then [AOut (OCloseWrite dst)] else []) ++
    [AOut (OReadDeadline dst tcpWaitTimeout)]) = 0) as -> by (destruct dh, sh; cbn; rewrite ?Ho; lia).
  induction reads as [|x reads IH]; cbn [copyBuffer app concat].
  - rewrite fmap_app, sum_app, Ha. unfold copy_chunk. cbn [head default]. case_decide as Hx; cbn [fst].
    + subst last. change (len ([] ++ [])) with 0. change (len []) with 0. cbn. lia.
    + rewrite fmap_cons, sum_cons, Ho, Hb, app_nil_r. lia.
  - unfold copy_chunk. cbn [head default]. rewrite len_app. case_decide as Hx.
    + subst x. rewrite fmap_app, sum_app, Ha. change (len []) with 0. cbn [app]. lia.
    + rewrite bool_decide_eq_true_2 by done. rewrite !fmap_app, !sum_app, fmap_cons, sum_cons, Ha, Ho, Hb. cbn [tail]. lia.
Qed.

(** ** The states the tunnel starts from *)

(** The tunnel is made, its loop runs, the manager ticks, and the stack hands over [fs]. *)
Definition started (d : Dialer) (timeout : Z) (n : nat) (fs : list flow) : Tunnel :=
  foldl (λ t f, Handle f t) (with_manager n (ProcessAsync (SetUDPTimeout timeout (New d)))) fs.

Lemma started_is d timeout n fs :
  started d timeout n fs = mkTunnel fs timeout d Running [(handle n, 0)] shared_init.
Proof.
  unfold started. change fs with ([] ++ fs) at 2.
  change (with_manager n (ProcessAsync (SetUDPTimeout timeout (New d))))
    with (mkTunnel [] timeout d Running [(handle n, 0)] shared_init).
  generalize (@nil flow). induction fs as [|f fs IH]; intros q; cbn [foldl]; [by rewrite app_nil_r|].
  unfold Handle at 2. cbn. rewrite IH. by rewrite <- app_assoc.
Qed.

Lemma Forall_repeat (P : act → Prop) (n : nat) : Forall P tick → Forall P (concat (repeat tick n)).
Proof. intros H. induction n as [|n IH]; [apply Forall_nil_2|]. change (Forall P (tick ++ concat (repeat tick n))). apply Forall_app. done. Qed.

Definition counts (a : act) : Prop :=
  match a with
  | ALoad _ => True
  | AStoreLoaded c | AStore c _ => c = uploadTemp ∨ c = downloadTemp ∨ c = uploadBlip ∨ c = downloadBlip
  | _ => False
  end.
Lemma handle_counts n : Forall counts (concat (repeat tick n)).
Proof. apply Forall_repeat. repeat (apply Forall_cons; split; [cbn; tauto|]). apply Forall_nil_2. Qed.

Lemma handle_bracketed n : bracketed (handle n).
Proof. unfold handle. induction (handle_counts n) as [|a l Ha _ IH]; [done|]. split; [|done]. by intros id ->. Qed.
Lemma handle_quiet c n : quiet_prog c (handle n).
Proof.
  intros a Ha. unfold handle in Ha. rewrite actions_acts, app_nil_r in Ha.
  pose proof (handle_counts n) as H. rewrite Forall_forall in H. apply H in Ha. destruct a; by intros [].
Qed.

(** The totals and the counters of the trackers. *)
Definition lasting (k : counter) : Prop := k ≠ uploadTemp ∧ k ≠ downloadTemp ∧ k ≠ uploadBlip ∧ k ≠ downloadBlip.
Lemma handle_only_adds k n : lasting k → every (only_adds k) (handle n) = true.
Proof.
  intros Hk. unfold handle. rewrite every_acts, andb_true_r. induction (handle_counts n) as [|a l Ha _ IH]; [done|]. cbn.
  rewrite IH, andb_true_r. destruct a; cbn in *; try done;
    apply negb_true_iff, bool_decide_eq_false; unfold lasting in Hk; intuition congruence.
Qed.
Lemma handle_weigh w n : (∀ a, counts a → w a = 0) → weigh w (handle n) = 0.
Proof.
  intros Hw. unfold handle. rewrite weigh_acts. cbn. induction (handle_counts n) as [|a l Ha _ IH]; [done|].
  rewrite fmap_cons, sum_cons, (Hw a Ha). lia.
Qed.

(** The connections of different flows, and the two of one flow, are different. *)
Definition distinct (d : Dialer) (fs : list flow) : Prop := NoDup (concat (flow_conns d <$> fs)).

Lemma distinct_flow d fs f c : distinct d fs → f ∈ fs → dialled d f = Some c → flow_origin f ≠ c.
Proof.
  unfold distinct. intros Hnd [k Hk]%elem_of_Permutation Hdial. rewrite Hk, fmap_cons in Hnd. cbn [concat] in Hnd.
  apply NoDup_app in Hnd as (Hnf & _). unfold flow_conns in Hnf. rewrite Hdial in Hnf. cbn in Hnf.
  apply NoDup_cons in Hnf as [Hnf _]. by rewrite list_elem_of_singleton in Hnf.
Qed.

Section started.
Context (d : Dialer) (timeout : Z) (n : nat) (fs : list flow).
Abbreviation begin := (started d timeout n fs).

Lemma handleConn_quiet t f c : dialer t = d → c ∉ flow_conns d f → quiet_prog c (handleConn t f).
Proof.
  intros Hd Hc. pose proof (handleConn_shape t f) as Hs. rewrite Hd in Hs. unfold flow_conns, dialled in Hc.
  destruct (match f with TCPFlow _ => _ | UDPFlow _ => _ end) as [r|e]; rewrite Hs; cbn in Hc.
  - apply flow_quiet; [apply up_body|apply down_body| |]; set_solver.
  - intros a Ha. cbn in Ha. apply list_elem_of_singleton in Ha as ->. cbn. set_solver.
Qed.

Lemma begin_pool : pool begin = handle n :: (handleConn begin <$> fs).
Proof. rewrite started_is. done. Qed.

(** Every flow owns its connections. *)
Lemma begin_owned f r c :
  distinct d fs → f ∈ fs → dialled d f = Some r → c ∈ flow_conns d f →
  single c (handleConn begin f) → sealed c (handleConn begin f) →
  owned (owner c (data c (handleConn begin f))) (quiet_prog c) begin.
Proof.
  intros Hnd [k Hk]%elem_of_Permutation Hdial Hc Hs Hse.
  assert (Forall (λ g, c ∉ flow_conns d g) k) as Hothers.
  { unfold distinct in Hnd. rewrite Hk, fmap_cons in Hnd. cbn [concat] in Hnd. apply NoDup_app in Hnd as (_ & Hd & _). specialize (Hd c Hc). apply Forall_forall.
    intros g Hg Hcg. apply Hd. apply list_elem_of_In, in_concat. exists (flow_conns d g).
    split; apply list_elem_of_In; [by apply list_elem_of_fmap_2|done]. }
  exists (handleConn begin f), (handle n :: (handleConn begin <$> k)). rewrite begin_pool. split; [|split].
  - etrans; [apply perm_skip, Permutation_map, Hk|]. apply perm_swap.
  - unfold owner. rewrite started_is in *. cbn [sh outputs shared_init]. split; [done|]. split; [done|]. split; [done|].
    split; [by intros ?%elem_of_nil|]. by intros [].
  - apply Forall_cons. split; [apply handle_quiet|]. apply Forall_fmap. eapply Forall_impl; [exact Hothers|].
    intros g Hg. apply handleConn_quiet; [by rewrite started_is|done].
Qed.

Lemma begin_sound k : lasting k → sound (only_adds k) begin.
Proof.
  intros Hk. rewrite started_is. split; cbn [goroutines queue].
  - apply Forall_singleton. by apply handle_only_adds.
  - apply Forall_forall. intros f _. match goal with |- every _ (handleConn ?t f) = _ => pose proof (handleConn_shape t f) as Hs end.
    destruct (match f with TCPFlow _ => _ | UDPFlow _ => _ end) as [r|e]; rewrite Hs; [|done].
    eapply flow_only_adds; [apply up_body|apply down_body].
Qed.

Lemma begin_registered : registered begin.
Proof.
  unfold registered. rewrite begin_pool. split; [|rewrite started_is; cbn; set_solver].
  apply Forall_cons. split; [apply handle_bracketed|]. apply Forall_fmap, Forall_forall. intros f _. cbn.
  pose proof (handleConn_shape begin f) as Hs. destruct (match f with TCPFlow _ => _ | UDPFlow _ => _ end) as [r|e]; rewrite Hs.
  - eapply flow_bracketed; [apply up_body|apply down_body].
  - by split.
Qed.

Lemma begin_dialer t : rtc step begin t → dialer t = d ∧ udpTimeout t = timeout.
Proof.
  rewrite started_is. assert (∀ t1 t2, rtc step t1 t2 → dialer t1 = d ∧ udpTimeout t1 = timeout → dialer t2 = d ∧ udpTimeout t2 = timeout) as H
    by (induction 1 as [|t1 t2 t3 Hs _ IH]; [done|]; intros H; apply IH; by destruct Hs).
  intros Hr. by eapply H.
Qed.

Lemma begin_settles t : rtc step begin t → stuck t → settled t.
Proof. intros Hr. apply running_settles. eapply running_stays; [done|]. by rewrite started_is. Qed.

Lemma sum_perm l1 l2 : l1 ≡ₚ l2 → sum l1 = sum l2.
Proof. induction 1; rewrite ?sum_cons in *; lia. Qed.

Lemma sum_zero {A} (g : A → Z) l : Forall (λ x, g x = 0) l → sum (g <$> l) = 0.
Proof. induction 1 as [|x l Hx _ IH]; [done|]. rewrite fmap_cons, sum_cons. lia. Qed.

(** What the goroutines of the flows add to an account, all together. *)
Lemma begin_account w P obs m t :
  (∀ a r s, P a = true → (m | obs (do_act a r s).2 - obs s - w a)) → (∀ a, counts a → w a = 0) → sound P begin →
  rtc step begin t → stuck t →
  (m | obs (sh t) - (obs shared_init + sum ((λ f, weigh w (handleConn begin f)) <$> fs))).
Proof.
  intros Ho Hw Hs Hr Hst. destruct (run_account w P obs m Ho begin t Hr Hs) as [_ Hd].
  rewrite (settled_pending w t) in Hd by by apply begin_settles. unfold pending in Hd.
  assert (sum ((λ g, weigh w (fst g)) <$> goroutines begin) = 0) as E.
  { rewrite started_is. cbn. rewrite handle_weigh by done. lia. }
  rewrite E in Hd. replace (queue begin) with fs in Hd by by rewrite started_is.
  replace (sh begin) with shared_init in Hd by by rewrite started_is.
  by rewrite Z.add_0_l, Z.add_0_r in Hd.
Qed.

Lemma closing_weight f c : NoDup (flow_conns d f) ∨ c ∉ flow_conns d f →
  weigh (emits (OClose c)) (handleConn begin f) = if decide (c ∈ flow_conns d f) then 1 else 0.
Proof.
  pose proof (handleConn_shape begin f) as Hs. replace (dialer begin) with d in Hs by by rewrite started_is.
  unfold flow_conns, dialled. destruct (match f with TCPFlow _ => _ | UDPFlow _ => _ end) as [r|e]; rewrite Hs; cbn [option_list].
  - rewrite flow_closes by (apply up_body || apply down_body). intros H.
    change (option_list (Some (rConn r))) with [rConn r] in *.
    assert (c ∈ [flow_origin f; rConn r] ↔ c = flow_origin f ∨ c = rConn r) as E
      by by rewrite elem_of_cons, list_elem_of_singleton.
    assert (NoDup [flow_origin f; rConn r] → flow_origin f ≠ rConn r) as Hne
      by (rewrite NoDup_cons, list_elem_of_singleton; by intros []).
    repeat case_decide; first [lia|exfalso; intuition congruence].
  - intros _. change (option_list None) with (@nil conn).
    assert (c ∈ [flow_origin f] ↔ c = flow_origin f) as E by apply list_elem_of_singleton. cbn.
    repeat case_decide; simplify_eq; first [lia|exfalso; intuition congruence].
Qed.

(** Every connection is closed, once. *)
Lemma closes_once f c t :
  distinct d fs → f ∈ fs → c ∈ flow_conns d f → rtc step begin t → stuck t →
  occurs (OClose c) (outputs (sh t)) = 1.
Proof.
  intros Hnd Hf Hc Hr Hst. pose proof (begin_account (emits (OClose c)) (λ _, true) (λ s, occurs (OClose c) (outputs s)) 0 t) as H.
  destruct H as [z Hz]; [intros; apply output_act|by intros []| |done|done|].
  { assert (∀ p, every (λ _, true) p = true) as E by (induction p as [|a p IH|p IHp q IHq k IHk]; cbn; rewrite ?IHp, ?IHq; done).
    split; apply Forall_forall; intros; apply E. }
  change (occurs (OClose c) (outputs shared_init)) with 0 in Hz.
  assert (sum ((λ g, weigh (emits (OClose c)) (handleConn begin g)) <$> fs) = 1); [|lia].
  clear z Hz Hr Hst. apply elem_of_Permutation in Hf as [k Hk].
  unfold distinct in Hnd. rewrite Hk, fmap_cons in Hnd. cbn [concat] in Hnd. apply NoDup_app in Hnd as (Hnf & Hd & _). specialize (Hd c Hc).
  etrans; [apply sum_perm, Permutation_map, Hk|]. change (weigh (emits (OClose c)) (handleConn begin f) +
    sum ((λ g, weigh (emits (OClose c)) (handleConn begin g)) <$> k) = 1).
  rewrite closing_weight, decide_True by auto. rewrite sum_zero; [done|].
  apply Forall_forall. intros g Hg. assert (c ∉ flow_conns d g) as Hcg.
  { intros Hcg. apply Hd. apply list_elem_of_In, in_concat. exists (flow_conns d g).
    split; apply list_elem_of_In; [by apply list_elem_of_fmap_2|done]. }
  by rewrite closing_weight, decide_False by auto.
Qed.


(** What a dialled flow writes to one of its connections, where only one of the
    two directions writes. *)
Lemma flow_delivers f r c t :
  distinct d fs → f ∈ fs → dialled d f = Some (rConn r) → c ∈ flow_conns d f →
  handleConn begin f =
    flow_prog (flow_uuid f) (flow_origin f) (rConn r) (flow_up timeout f r) (flow_down timeout f r) →
  (omap (payload_act c) (flow_up timeout f r) = [] ∨ omap (payload_act c) (flow_down timeout f r) = []) →
  rtc step begin t →
  let all := omap (payload_act c) (flow_up timeout f r) ++ omap (payload_act c) (flow_down timeout f r) in
  written c (outputs (sh t)) `prefix_of` all ∧ closed_last c (outputs (sh t)) ∧
  (stuck t → written c (outputs (sh t)) = all ∧ occurs (OClose c) (outputs (sh t)) = 1).
Proof.
  intros Hnd Hf Hdial Hc Hprog Hone Hr all.
  assert (flow_origin f ≠ rConn r) as Hne by by eapply distinct_flow.
  assert (owned (owner c all) (quiet_prog c) t) as (x & rest & Hpool & (Hs & Hd & Hse & Hq & Hcl) & _).
  { eapply owner_run; [exact Hr|]. replace all with (data c (handleConn begin f)) by (rewrite Hprog; apply flow_data).
    eapply begin_owned; [done..| |]; rewrite Hprog; [by apply flow_single|]. apply flow_sealed; [apply up_body|apply down_body|done]. }
  split; [by exists (data c x)|]. split; [done|]. intros Hst. split; [|by apply (closes_once f)].
  pose proof (settled_pool t (begin_settles t Hr Hst)) as Hp. rewrite Hpool in Hp. apply Forall_cons in Hp as [-> _].
  by rewrite app_nil_r in Hd.
Qed.

Lemma flow_delivers_both f r up down t :
  distinct d fs → f ∈ fs → dialled d f = Some (rConn r) →
  handleConn begin f =
    flow_prog (flow_uuid f) (flow_origin f) (rConn r) (flow_up timeout f r) (flow_down timeout f r) →
  (∀ c, c ∈ flow_conns d f → omap (payload_act c) (flow_up timeout f r) = (if decide (rConn r = c) then up else [])) →
  (∀ c, c ∈ flow_conns d f → omap (payload_act c) (flow_down timeout f r) = (if decide (flow_origin f = c) then down else [])) →
  flow_origin f ≠ rConn r → rtc step begin t →
  let outs := outputs (sh t) in
  written (rConn r) outs `prefix_of` up ∧ written (flow_origin f) outs `prefix_of` down ∧
  closed_last (rConn r) outs ∧ closed_last (flow_origin f) outs ∧
  (stuck t → written (rConn r) outs = up ∧ written (flow_origin f) outs = down ∧
    occurs (OClose (rConn r)) outs = 1 ∧ occurs (OClose (flow_origin f)) outs = 1).
Proof.
  intros Hnd Hf Hdial Hprog Hup Hdown Hne Hr outs.
  assert (rConn r ∈ flow_conns d f ∧ flow_origin f ∈ flow_conns d f) as [Hc Ho]
    by (unfold flow_conns; rewrite Hdial; cbn; set_solver).
  destruct (flow_delivers f r (rConn r) t) as (H1 & H2 & H3);
    [done..|rewrite Hdown, decide_False by done; by right|done|].
  destruct (flow_delivers f r (flow_origin f) t) as (K1 & K2 & K3);
    [done..|rewrite Hup, decide_False by done; by left|done|].
  rewrite Hup, Hdown, decide_True, decide_False, ?app_nil_r in H1, H3 by done.
  rewrite Hup, Hdown, decide_False, decide_True in K1, K3 by done.
  do 4 (split; [done|]). intros Hst. destruct (H3 Hst), (K3 Hst). done.
Qed.
End started.


Lemma passing_all reads : passing None reads = (λ x, x.1.1) <$> reads.
Proof. unfold passing. f_equal. induction reads as [|x reads IH]; [done|]. rewrite filter_cons_True by (by left). by f_equal. Qed.



(** ** The statistics *)

Definition in_range (k : counter) (s : shared) : Prop := s64 (value s k) = value s k.

Lemma s64_idem z : s64 (s64 z) = s64 z.
Proof. apply s64_eq, s64_near. Qed.
Lemma s64_sum {A} (g : A → Z) l : s64 (sum (g <$> l)) = s64 (sum ((λ x, s64 (g x)) <$> l)).
Proof.
  apply s64_eq. induction l as [|x l IH]; [exists 0; done|]. rewrite !fmap_cons, !sum_cons.
  pose proof (s64_near (g x)) as Hx. destruct IH as [i Hi], Hx as [j Hj]. exists (i - j). lia.
Qed.

Lemma act_range k a r s : only_adds k a = true → in_range k s → in_range k (do_act a r s).2.
Proof.
  unfold in_range. intros Ha Hs. destruct a as [c n|c|c|c v|id|id|o]; cbn in *; try done.
  - destruct (decide (c = k)) as [->|Hne]; [rewrite fn_lookup_insert; apply s64_idem|by rewrite fn_lookup_insert_ne].
  - apply negb_true_iff, bool_decide_eq_false in Ha. by rewrite fn_lookup_insert_ne.
  - apply negb_true_iff, bool_decide_eq_false in Ha. by rewrite fn_lookup_insert_ne.
Qed.
Lemma every_actions P p a : every P p = true → a ∈ actions p → P a = true.
Proof.
  induction p as [|b p IH|p IHp q IHq k IHk]; cbn; [by intros _ ?%elem_of_nil| |].
  - intros [Hb Hp]%andb_prop [->|Ha]%elem_of_cons; auto.
  - intros [[Hp Hq]%andb_prop Hk]%andb_prop. rewrite !elem_of_app. intuition.
Qed.
Lemma step_range k t t' : step t t' → sound (only_adds k) t → in_range k (sh t) → in_range k (sh t').
Proof.
  intros Hst [Hg _] Hr. destruct Hst as [q d dl lp g1 p r g2 s p' r' s' H| |]; [|done..]. cbn in *.
  apply Forall_app in Hg as [_ [Hp _]%Forall_cons]. cbn in Hp.
  destruct (pstep_effect _ _ H) as [E|(a & Ha & E)]; cbn [fst snd] in *; rewrite E; [done|].
  apply act_range; [by eapply every_actions|done].
Qed.
Lemma run_range k t t' : rtc step t t' → sound (only_adds k) t → in_range k (sh t) → in_range k (sh t').
Proof.
  induction 1 as [|t1 t2 t3 H _ IH]; [done|]. intros Hs Hr.
  destruct (step_account (adds k) (only_adds k) (λ s, value s k) _ (λ a r s, counter_act k a r s) _ _ H Hs) as [Hs2 _].
  apply IH; [done|]. by eapply step_range.
Qed.

Section statistics.
Context (d : Dialer) (timeout : Z) (n : nat) (fs : list flow).
Abbreviation begin := (started d timeout n fs).

(** A counter holds what its flows add. *)
Lemma counter_exact k t : lasting k → rtc step begin t → stuck t →
  value (sh t) k = s64 (sum ((λ f, weigh (adds k) (handleConn begin f)) <$> fs)).
Proof.
  intros Hk Hr Hst. pose proof (begin_sound d timeout n fs k Hk) as Hs.
  assert (in_range k (sh t)) as <-.
  { eapply run_range; [exact Hr|done|]. by rewrite started_is. }
  apply s64_eq. pose proof (begin_account d timeout n fs (adds k) (only_adds k) (λ s, value s k) 18446744073709551616 t) as H.
  cbn in H. rewrite Z.add_0_l in H. apply H; [apply counter_act|by intros []|done..].
Qed.

(** Two weights that see the same reads and writes see the same flow. *)
Lemma flow_weights f w1 w2 u : u = flow_uuid f →
  (∀ w, w = w1 ∨ w = w2 → w (AJoin u) = 0 ∧ w (ALeave u) = 0 ∧ ∀ x, w (AOut x) = 0) →
  (∀ z, sum (w1 <$> tracked_read u z) = sum (w2 <$> tracked_read u z)) →
  (∀ z, sum (w1 <$> tracked_write u z) = sum (w2 <$> tracked_write u z)) →
  weigh w1 (handleConn begin f) = weigh w2 (handleConn begin f).
Proof.
  intros -> Hw Hread Hwrite. destruct (Hw w1) as (J1 & L1 & O1); [by left|]. destruct (Hw w2) as (J2 & L2 & O2); [by right|].
  assert (∀ o, w1 (AOut o) = w2 (AOut o)) as Ho by (intros o; by rewrite O1, O2).
  pose proof (handleConn_shape begin f) as Hs. destruct (match f with TCPFlow _ => _ | UDPFlow _ => _ end) as [r|e]; rewrite Hs.
  - rewrite !flow_weigh by done. destruct f as [f|f]; cbn [flow_up flow_down flow_uuid] in *.
    + rewrite (stream_weights untracked _ w1 w2), (stream_weights _ untracked w1 w2); done.
    + rewrite (packets_weights untracked _ w1 w2), (packets_weights _ untracked w1 w2); done.
  - cbn. by rewrite O1, O2.
Qed.

(** A direction of the statistics: the counter of the manager and those of the trackers. *)
Definition upwards (up : bool) : counter := if up then uploadTotal else downloadTotal.
Definition of_tracker (up : bool) (u : Z) : counter := if up then UploadTotal u else DownloadTotal u.

Lemma adds_quiet k : ∀ u, adds k (AJoin u) = 0 ∧ adds k (ALeave u) = 0 ∧ ∀ x, adds k (AOut x) = 0.
Proof. done. Qed.
Lemma tracked_sums up u v z :
  (sum (adds (upwards up) <$> tracked_read u z) = if up then 0 else z) ∧
  (sum (adds (upwards up) <$> tracked_write u z) = if up then z else 0) ∧
  (sum (adds (of_tracker up v) <$> tracked_read u z) = if up then 0 else if decide (u = v) then z else 0) ∧
  (sum (adds (of_tracker up v) <$> tracked_write u z) = if up then if decide (u = v) then z else 0 else 0).
Proof.
  unfold tracked_read, tracked_write, PushUploaded, PushDownloaded, upwards, of_tracker.
  destruct up, (decide (u = v)) as [->|Hne]; cbn -[decide];
    repeat match goal with
    | |- context [decide ?P] => first [rewrite (decide_True (P:=P)) by congruence | rewrite (decide_False (P:=P)) by congruence]
    end; split_and!; lia.
Qed.

Lemma tracker_weigh up f : weigh (adds (upwards up)) (handleConn begin f) = weigh (adds (of_tracker up (flow_uuid f))) (handleConn begin f).
Proof.
  apply (flow_weights f _ _ (flow_uuid f)); [done|by intros w [->| ->]| |]; intros z;
    destruct (tracked_sums up (flow_uuid f) (flow_uuid f) z) as (E1 & E2 & E3 & E4); rewrite ?E1, ?E2, ?E3, ?E4;
    destruct up; by rewrite ?decide_True.
Qed.
Lemma other_weigh up u f : u ≠ flow_uuid f → weigh (adds (of_tracker up u)) (handleConn begin f) = 0.
Proof.
  intros Hu. rewrite (flow_weights f _ (λ _, 0) (flow_uuid f)); [|done|by intros w [->| ->]| |].
  - assert (∀ p, weigh (λ _, 0) p = 0) as E by (induction p as [|a p IH|p IHp q IHq k IHk]; cbn; rewrite ?IHp, ?IHq; done). apply E.
  - intros z. destruct (tracked_sums up (flow_uuid f) u z) as (_ & _ & -> & _). destruct up; by rewrite ?decide_False.
  - intros z. destruct (tracked_sums up (flow_uuid f) u z) as (_ & _ & _ & ->). destruct up; by rewrite ?decide_False.
Qed.

(** The counter of a tracker holds what its flow adds. *)
Lemma tracker_exact up f t : NoDup (flow_uuid <$> fs) → f ∈ fs → rtc step begin t → stuck t →
  value (sh t) (of_tracker up (flow_uuid f)) = s64 (weigh (adds (upwards up)) (handleConn begin f)).
Proof.
  intros Hnd [k Hk]%elem_of_Permutation Hr Hst. rewrite (counter_exact _ t) by (by destruct up). f_equal.
  etrans; [apply sum_perm, Permutation_map, Hk|].
  change (weigh (adds (of_tracker up (flow_uuid f))) (handleConn begin f) +
    sum ((λ g, weigh (adds (of_tracker up (flow_uuid f))) (handleConn begin g)) <$> k) = weigh (adds (upwards up)) (handleConn begin f)).
  rewrite sum_zero, tracker_weigh; [lia|]. apply Forall_forall. intros g Hg. apply other_weigh. intros E.
  rewrite Hk, fmap_cons in Hnd. apply NoDup_cons in Hnd as [Hn _]. apply Hn. rewrite E. by apply list_elem_of_fmap_2.
Qed.

Lemma total_exact up t : NoDup (flow_uuid <$> fs) → rtc step begin t → stuck t →
  value (sh t) (upwards up) = s64 (sum ((λ f, value (sh t) (of_tracker up (flow_uuid f))) <$> fs)).
Proof.
  intros Hnd Hr Hst. rewrite (counter_exact _ t) by (by destruct up). rewrite s64_sum. do 2 f_equal.
  apply list_fmap_ext. intros i f Hf. symmetry. apply tracker_exact; [done| |done..]. by eapply list_elem_of_lookup_2.
Qed.

(** What a TCP flow whose writes succeed adds. *)
Lemma tcp_volume up f r :
  DialContext d (flow_metadata TCP (tID f)) = Ok r → sWrites (tUp f) = [] → sWrites (tDown f) = [] →
  weigh (adds (upwards up)) (handleConn begin (TCPFlow f)) =
  if up then volume (sReads (tUp f)) (sLast (tUp f)) else volume (sReads (tDown f)) (sLast (tDown f)).
Proof.
  intros Hd Hwu Hwd. pose proof (handleConn_shape begin (TCPFlow f)) as Hs.
  replace (dialer begin) with d in Hs by by rewrite started_is. rewrite Hd in Hs. rewrite Hs, flow_weigh by done.
  cbn [flow_up flow_down]. rewrite Hwu, Hwd.
  rewrite (stream_volume untracked _ _ 0 (if up then 1 else 0)), (stream_volume _ untracked _ (if up then 0 else 1) 0); try done;
    [destruct up; lia| |]; intros z; destruct (tracked_sums up (tUUID f) 0 z) as (E1 & E2 & _); rewrite ?E1, ?E2; destruct up; lia.
Qed.
End statistics.

(** C37: the statistics are exact whatever the interleaving of the flows and of the
    manager's ticks.  When nothing is left to do no tracker is registered, the
    manager's totals are the sums of the trackers' totals, and the tracker of a
    TCP flow whose writes succeed has counted exactly its bytes (all modulo the
    width of the counters). *)
Theorem statistics_exact (d : Dialer) (timeout : Z) (n : nat) (fs : list flow) (t : Tunnel) :
  NoDup (flow_uuid <$> fs) → rtc step (started d timeout n fs) t → stuck t →
  let s := Manager_Snapshot (sh t) in
  snapConnections s = ∅ ∧
  snapUpload s = s64 (sum ((λ f, value (sh t) (UploadTotal (flow_uuid f))) <$> fs)) ∧
  snapDownload s = s64 (sum ((λ f, value (sh t) (DownloadTotal (flow_uuid f))) <$> fs)) ∧
  ∀ f r, TCPFlow f ∈ fs → DialContext d (flow_metadata TCP (tID f)) = Ok r → sWrites (tUp f) = [] → sWrites (tDown f) = [] →
    value (sh t) (UploadTotal (tUUID f)) = s64 (volume (sReads (tUp f)) (sLast (tUp f))) ∧
    value (sh t) (DownloadTotal (tUUID f)) = s64 (volume (sReads (tDown f)) (sLast (tDown f))).
Proof.
  intros Hnd Hr Hst s. split.
  { apply settled_registered; [by eapply begin_settles|]. eapply registered_run; [exact Hr|apply begin_registered]. }
  split; [by apply (total_exact d timeout n fs true)|]. split; [by apply (total_exact d timeout n fs false)|].
  intros f r Hf Hd Hwu Hwd. split.
  - etrans; [by apply (tracker_exact d timeout n fs true (TCPFlow f) t)|]. by rewrite (tcp_volume _ _ _ _ true f r).
  - etrans; [by apply (tracker_exact d timeout n fs false (TCPFlow f) t)|]. by rewrite (tcp_volume _ _ _ _ false f r).
Qed.

(** The rate of a second is not exact: what is counted between the two calls of a
    tick is in the total but in no second. *)
Example tick_loses :
  ∃ s, rtc pstep (PPar (handle 1) (acts (PushUploaded 5) PEnd) PEnd, 0, shared_init) (PEnd, 0, s) ∧
    value s uploadTotal = 5 ∧ value s uploadBlip = 0 ∧ value s uploadTemp = 0.
Proof.
  eexists. split.
  - do 2 (eapply rtc_l; [apply pstep_left, pstep_act|]). do 2 (eapply rtc_l; [apply pstep_right, pstep_act|]).
    do 4 (eapply rtc_l; [apply pstep_left, pstep_act|]). eapply rtc_l; [apply pstep_join|]. apply rtc_refl.
  - done.
Qed.

(** ** Witnesses *)

Definition toy_dialer : Dialer :=
  mkDialer (λ _, Ok (mkRemote (mkConn 2 true) (HasAddrPort (Addr4 167772161) 1000) true)) (λ _, Ok (mkRemote (mkConn 4 false) NoAddr false)).
Definition toy_id : endpointID := mkEndpointID [192; 0; 2; 1] 443 [10; 0; 0; 2] 40000.
Definition toy_tcp : tcpFlow :=
  mkTCPFlow (mkConn 1 true) toy_id 7 (mkStream [[Byte.x01; Byte.x02]; []; [Byte.x03]] [] []) (mkStream [[Byte.x04]] [Byte.x05; Byte.x06] []).
Definition toy_udp : udpFlow :=
  mkUDPFlow (mkConn 3 false) toy_id 8 (mkPackets [([Byte.x01], None, None); ([Byte.x02], None, None)] [])
    (mkPackets [([Byte.x03], Some "192.0.2.1:443", None); ([Byte.x04], Some "198.51.100.9:443", None)] []).
Abbreviation toy_begin := (started toy_dialer 60 2 [TCPFlow toy_tcp; UDPFlow toy_udp]).

Lemma toy_distinct : distinct toy_dialer [TCPFlow toy_tcp; UDPFlow toy_udp].
Proof. refine (bool_decide_unpack (NoDup _) _). vm_compute. exact I. Qed.
Lemma toy_uuids : NoDup (flow_uuid <$> [TCPFlow toy_tcp; UDPFlow toy_udp]).
Proof. refine (bool_decide_unpack (NoDup _) _). vm_compute. exact I. Qed.
Lemma toy_end : ∃ t, rtc step toy_begin t ∧ stuck t.
Proof.
  destruct (run_settles toy_begin) as (t & Hr & Hs); [by rewrite started_is|]. exists t. split; [done|].
  apply settled_stuck; [|done]. eapply running_stays; [exact Hr|by rewrite started_is].
Qed.


Lemma toy_reads : Forall (λ x : packet_read, x.2 = None) (pReads (uUp toy_udp)) ∧ Forall (λ x : packet_read, x.2 = None) (pReads (uDown toy_udp)).
Proof. split; cbn; repeat (apply Forall_cons; split; [done|]); apply Forall_nil_2. Qed.


Lemma statistics_exact_witness :
  ∃ t, rtc step toy_begin t ∧ connections (sh t) = ∅ ∧ value (sh t) (UploadTotal 7) = 3 ∧ value (sh t) (DownloadTotal 7) = 3.
Proof.
  destruct toy_end as (t & Hr & Hs). exists t. split; [exact Hr|].
  destruct (statistics_exact toy_dialer 60 2 _ t toy_uuids Hr Hs) as (H1 & _ & _ & H2). split; [exact H1|].
  exact (H2 toy_tcp _ ltac:(left) eq_refl eq_refl eq_refl).
Defined.
