(* ===== verification/RestApi.v ===== *)
(** The REST server of the engine ([tun2socks/restapi]): the check of the token
    in front of every endpoint ([server.go]), the rates of the traffic, the list
    of connections with the calls that close them ([connections.go]) and the
    counters of the network stack with the JSON encoder written for them
    ([netstats.go]).  A handler acts on the manager of [Flow]; what it answers is
    a list of responses. *)

From Stdlib Require Import Strings.Ascii.
From S2P Require Import Prelude GoStd Conn Json Flow.

#[local] Set Warnings "-register-all".

(** ** Requests and responses *)

(** A request: whether [websocket.IsWebSocketUpgrade] holds, [URL.Query().Get],
    [Header.Get] and [chi.URLParam]. *)
Record Request := mkRequest {
  rMethod : string; rPath : string; isUpgrade : bool;
  query : string → string; header : string → string; urlParam : string → string
}.

Inductive response :=
| RUpgrade                          (* the connection is now a websocket *)
| RHeader (key val : string)
| RStatus (code : Z)
| RJSON (v : json)                  (* render.JSON *)
| RWrite (b : string)
| RFlush
| RMessage (b : string)             (* a websocket text message *)
| RNoContent
| RTicker (d : Z)
| RStop.
(** What the server touches: the manager, and what it has answered. *)
Record Api := mkApi { sh : shared; sent : list response }.
Definition handler : Type := Request → St Api unit.

Definition respond (r : response) : St Api unit := λ s, Some (tt, mkApi (sh s) (sent s ++ [r])).
(** Actions on the manager and on connections. *)
Definition perform (l : list act) : St Api unit := λ s,
  Some (tt, mkApi (foldl (λ s a, (do_act a 0 s).2) (sh s) l) (sent s)).

(** What happens while a handler runs: the error of the upgrade, the error of the
    first message, and at every tick the manager as the other goroutines have
    left it and the error of the write that follows. *)
Record Environment := mkEnv { upgradeErr : option error; firstErr : option error; ticks : list (shared * option error) }.

(** ** Errors ([errors.go]) *)

Record HTTPError := newError { Message : string }.
Definition ErrBadRequest : HTTPError := newError "Body invalid".
Definition ErrUnauthorized : HTTPError := newError "Unauthorized".
Definition ErrUninitialized : HTTPError := newError "Uninitialized".
Definition HTTPError_Error (e : HTTPError) : string := Message e.
Definition error_json (e : HTTPError) : json := JObj [("message", JStr (Message e))].
Definition refuse (code : Z) (e : HTTPError) : St Api unit := respond (RStatus code);;; respond (RJSON (error_json e)).

(** ** The token ([authenticator]) *)

(** [strings.SplitN(s, " ", 2)]. *)
Fixpoint SplitN2 (s : string) (c : ascii) : list string :=
  match s with
  | EmptyString => [""]
  | String a r =>
      if decide (a = c) then [""; r]
      else match SplitN2 r c with x :: l => String a x :: l | [] => [] end
  end.

Definition authenticator (token : string) (next : handler) : handler := λ r,
  if decide (token = "") then next r
  else if isUpgrade r && bool_decide (query r "token" ≠ "") then
    (if decide (query r "token" ≠ token) then refuse 401 ErrUnauthorized else next r)
  else
    let text := SplitN2 (header r "Authorization") " " in
    let* scheme := lift (head text) in
    let hasInvalidHeader := bool_decide (scheme ≠ "Bearer") in
    let hasInvalidToken :=
      match text with [_; given] => bool_decide (given ≠ token) | _ => true end in
    if hasInvalidHeader || hasInvalidToken then refuse 401 ErrUnauthorized else next r.

(** ** Rates ([traffic]) *)

(** The text [encoding/json] makes of the struct, and the newline of [Encode]. *)
Definition quoted (s : string) : string := String "034" (s +:+ String "034" "").
Definition encode_rates (up down : Z) : string :=
  "{" +:+ quoted "up" +:+ ":" +:+ itoa up +:+ "," +:+ quoted "down" +:+ ":" +:+ itoa down +:+ "}" +:+ String "010" "".

(** [for range tick.C]: when the ticks are over the handler waits for the next. *)
Fixpoint traffic_loop (ws : bool) (ticks : list (shared * option error)) : St Api unit :=
  match ticks with
  | [] => ret tt
  | (now, err) :: ticks =>
      let '(up, down) := Now now in
      let text := encode_rates up down in
      let* _ := (if ws then respond (RMessage text) else respond (RWrite text);;; respond RFlush) in
      match err with
      | Some _ => respond RStop
      | None => traffic_loop ws ticks
      end
  end.

Definition traffic (env : Environment) : handler := λ r,
  match (if isUpgrade r then upgradeErr env else None) with
  | Some _ => ret tt
  | None =>
      let* _ := (if isUpgrade r then respond RUpgrade
                 else respond (RHeader "Content-Type" "application/json");;; respond (RStatus 200)) in
      respond (RTicker Second);;; traffic_loop (isUpgrade r) (ticks env)
  end.

(** ** Connections *)

Section connections.
(** The text of a UUID, what the encoder makes of a tracker (third-party types),
    and the connection the tracker wraps. *)
Context (uuid_String : Z → string) (tracker_json : Z → json) (Encode : json → result string) (conn_of : Z → conn).

(** [sync.Map.Range] visits in an unspecified order; here that of [elements].  A
    nil slice is [null]. *)
Definition connections_json (l : list Z) : json := match l with [] => JNull | _ => JArr (tracker_json <$> l) end.
Definition snapshot_json (s : Snapshot) : json :=
  JObj [("downloadTotal", JNum (Some (snapDownload s))); ("uploadTotal", JNum (Some (snapUpload s)));
        ("connections", connections_json (elements (snapConnections s)))].

(** [sendSnapshot], with the error of the write. *)
Definition sendSnapshot (now : shared) (err : option error) : St Api (option error) :=
  match Encode (snapshot_json (Manager_Snapshot now)) with
  | Fail e => ret (Some e)
  | Ok text => respond (RMessage text);;; ret err
  end.

Fixpoint snapshot_loop (ticks : list (shared * option error)) : St Api unit :=
  match ticks with
  | [] => ret tt
  | (now, err) :: ticks =>
      let* e := sendSnapshot now err in
      match e with Some _ => respond RStop | None => snapshot_loop ticks end
  end.

Definition defaultInterval : Z := 1000.

(** [time.NewTicker], which panics when the period is not positive. *)
Definition NewTicker (d : Z) : St Api unit :=
  if decide (d ≤ 0) then lift None else respond (RTicker d).

Definition getConnections (env : Environment) : handler := λ r,
  let* s := get in
  if negb (isUpgrade r) then respond (RJSON (snapshot_json (Manager_Snapshot (sh s)))) else
  match upgradeErr env with
  | Some _ => ret tt
  | None =>
      let* _ := respond RUpgrade in
      let intervalStr := query r "interval" in
      match (if decide (intervalStr = "") then Ok defaultInterval else Atoi intervalStr) with
      | Fail _ => refuse 400 ErrBadRequest
      | Ok interval =>
          let* e := sendSnapshot (sh s) (firstErr env) in
          match e with
          | Some _ => ret tt
          | None => NewTicker (s64 (Millisecond * interval));;; snapshot_loop (ticks env)
          end
      end
  end.

(** The loop of [closeConnection], up to its [break]. *)
Fixpoint close_first (id : string) (l : list Z) : St Api unit :=
  match l with
  | [] => ret tt
  | c :: l => if decide (id = uuid_String c) then perform (tracker_Close c (conn_of c)) else close_first id l
  end.

Definition closeConnection : handler := λ r,
  let id := urlParam r "id" in
  let* s := get in
  close_first id (elements (snapConnections (Manager_Snapshot (sh s))));;; respond RNoContent.

Fixpoint close_each (l : list Z) : St Api unit :=
  match l with
  | [] => ret tt
  | c :: l => perform (tracker_Close c (conn_of c));;; close_each l
  end.

Definition closeAllConnections : handler := λ r,
  let* s := get in
  close_each (elements (snapConnections (Manager_Snapshot (sh s))));;; respond RNoContent.

(** ** Counters of the network stack ([netstats.go]) *)

(** What the reflection over [tcpip.Stats] meets: a counter, a map of counters
    with the answer of [Get] for each of its [Keys], or a struct. *)
Inductive stat :=
| StatCounter (v : Z)
| CounterMap (l : list (Z * option Z))
| Struct (l : list (string * stat)).

(** The entries of a map: a comma after each but the last key. *)
Fixpoint encode_map (l : list (Z * option Z)) : string :=
  match l with
  | [] => ""
  | (k, counter) :: l =>
      match counter with
      | Some v => quoted (itoa k) +:+ ":" +:+ itoa v +:+ (if decide (l = []) then "" else ",")
      | None => ""
      end +:+ encode_map l
  end.

Section fields.
Context (encode : stat → string).
Fixpoint encode_fields (l : list (string * stat)) : string :=
  match l with
  | [] => ""
  | (name, v) :: l =>
      quoted name +:+ ":" +:+ encode v +:+ (match l with [] => "" | _ => "," end) +:+ encode_fields l
  end.
End fields.

Fixpoint encode_stat (v : stat) : string :=
  match v with
  | StatCounter v => itoa v
  | CounterMap l => "{" +:+ encode_map l +:+ "}"
  | Struct l => "{" +:+ encode_fields encode_stat l +:+ "}"
  end.
(** [encodeToJSON] itself is called on a struct. *)
Definition encodeToJSON (l : list (string * stat)) : string := encode_stat (Struct l).

Fixpoint netstats_loop (snapshots : list (list (string * stat) * option error)) : St Api unit :=
  match snapshots with
  | [] => ret tt
  | (s, err) :: snapshots =>
      respond (RMessage (encodeToJSON s));;;
      match err with Some _ => respond RStop | None => netstats_loop snapshots end
  end.

(** [stats] is [_stackStatsFunc] with what it answers now; [snapshots] is what it
    answers at every tick, with the error of the write. *)
Definition getNetStats (env : Environment) (stats : option (list (string * stat)))
    (snapshots : list (list (string * stat) * option error)) : handler := λ r,
  match stats with
  | None => refuse 500 ErrUninitialized
  | Some s =>
      if negb (isUpgrade r) then
        respond (RHeader "Content-Type" "application/json");;; respond (RStatus 200);;;
        respond (RWrite (encodeToJSON s));;; respond RFlush
      else match upgradeErr env with
           | Some _ => ret tt
           | None => respond RUpgrade;;; respond (RTicker Second);;; netstats_loop snapshots
           end
  end.

(** ** The server ([server.go]) *)

Definition Name : string := "tun2socks".
Definition hello : handler := λ _, respond (RJSON (JObj [("hello", JStr Name)])).
(** [modules]: what [debug.ReadBuildInfo] lists. *)
Definition version (Version GitCommit : string) (modules : json) : handler := λ _,
  respond (RJSON (JObj [("version", JStr Version); ("commit", JStr GitCommit); ("modules", modules)])).

(** A pattern of the router: a method (none for [Mount]) and a path. *)
Record route := mkRoute { onMethod : option string; pattern : string; handle : handler }.

Definition connectionRouter (env : Environment) : list route :=
  [mkRoute (Some "GET") "/" (getConnections env); mkRoute (Some "DELETE") "/" closeAllConnections;
   mkRoute (Some "DELETE") "/{id}" closeConnection].

(** [_endpoints]; registration replaces, the order of a Go map is unspecified. *)
Definition endpoints : Type := list (string * list route).
Definition registerEndpoint (p : string) (h : list route) (e : endpoints) : endpoints :=
  (p, h) :: filter (λ x, x.1 ≠ p) e.

(** The routes behind [authenticator]: [Mount] puts those of an endpoint under its
    pattern. *)
Definition mount (e : endpoints) : list route :=
  p ← e; (λ r, mkRoute (onMethod r) (p.1 +:+ pattern r) (handle r)) <$> p.2.
Definition routes (env : Environment) (Version GitCommit : string) (modules : json) (e : endpoints) : list route :=
  [mkRoute (Some "GET") "/" hello; mkRoute (Some "GET") "/traffic" (traffic env);
   mkRoute (Some "GET") "/version" (version Version GitCommit modules)] ++ mount e.

(** The server of [Start]: [cors] answers what it answers itself, [choose] is how
    chi matches a request against the routes. *)
Section server.
Context (cors : Request → option (list response)) (choose : list route → Request → option route).
Definition serve (token : string) (rs : list route) : handler := λ r,
  match cors r with
  | Some answer => (λ s, Some (tt, mkApi (sh s) (sent s ++ answer)))
  | None =>
      match choose rs r with
      | Some rt => authenticator token (handle rt) r
      | None => respond (RStatus 404)
      end
  end.
End server.
End connections.

(** ** The token guards every endpoint *)

Fixpoint no_char (c : ascii) (s : string) : Prop :=
  match s with EmptyString => True | String a r => a ≠ c ∧ no_char c r end.

Lemma SplitN2_cons s c : ∃ x l, SplitN2 s c = x :: l.
Proof.
  induction s as [|a r (x & l & IH)]; [by eexists _, _|]. cbn [SplitN2]. case_decide; [by eexists _, _|].
  rewrite IH. by eexists _, _.
Qed.

Lemma SplitN2_two s c a b : SplitN2 s c = [a; b] ↔ s = a +:+ String c b ∧ no_char c a.
Proof.
  revert a. induction s as [|x r IH]; intros a; cbn [SplitN2].
  - split; [done|]. intros [H _]. by destruct a.
  - case_decide as Hx.
    + subst x. split; [by intros [= <- <-]|]. intros [H Hn]. destruct a as [|y a]; [by injection H as ->|].
      injection H as -> ->. by destruct Hn.
    + destruct (SplitN2_cons r c) as (y & l & E). rewrite E. split.
      * intros [= <- ->]. rewrite E in IH. destruct (proj1 (IH y)) as [-> Hn]; [done|]. done.
      * intros [H Hn]. destruct a as [|z a]; [by injection H as ->|]. injection H as -> ->. destruct Hn as [_ Hn].
        rewrite (proj2 (IH a)) in E by done. by injection E as <- <-.
Qed.

(** The header the client has to send. *)
Lemma bearer_header h token :
  match SplitN2 h " " with
  | [scheme; given] => bool_decide (scheme ≠ "Bearer") || bool_decide (given ≠ token)
  | _ => true
  end = false ↔ h = "Bearer " +:+ token.
Proof.
  split.
  - destruct (SplitN2 h " ") as [|a [|b [|]]] eqn:E; try done. intros H. apply SplitN2_two in E as [-> _].
    apply orb_false_iff in H as [H1%bool_decide_eq_false H2%bool_decide_eq_false].
    by rewrite (dec_stable H1), (dec_stable H2).
  - intros ->. replace (SplitN2 _ _) with ["Bearer"; token] by (symmetry; by apply (SplitN2_two _ " " "Bearer")).
    rewrite !bool_decide_eq_false_2 by naive_solver. done.
Qed.

(** Who may pass: nobody has to show a token that is not configured; a websocket
    may carry it in its address, every other request in the header. *)
Definition authorised (token : string) (r : Request) : Prop :=
  token = "" ∨
  (isUpgrade r = true ∧ query r "token" = token) ∨
  (¬ (isUpgrade r = true ∧ query r "token" ≠ "") ∧ header r "Authorization" = "Bearer " +:+ token).

Lemma authenticator_passes token next r s :
  authorised token r → authenticator token next r s = next r s.
Proof.
  unfold authorised, authenticator. case_decide as Ht; [done|]. intros [?|[[-> Hq]|[Hn Hh]]]; [done| |].
  - rewrite Hq, bool_decide_eq_true_2 by done. cbn [andb]. by rewrite decide_False by naive_solver.
  - replace (isUpgrade r && bool_decide (query r "token" ≠ "")) with false.
    2: { symmetry. apply not_true_is_false. intros [? ?%bool_decide_eq_true]%andb_true_iff. by apply Hn. }
    apply bearer_header in Hh. unfold bind, lift.
    destruct (SplitN2 (header r "Authorization") " ") as [|a [|b [|]]]; try done. cbn [head].
    by rewrite Hh.
Qed.

Lemma authenticator_refuses token next r s :
  ¬ authorised token r → authenticator token next r s = refuse 401 ErrUnauthorized s.
Proof.
  unfold authorised, authenticator. intros H. rewrite decide_False by tauto.
  destruct (isUpgrade r && bool_decide (query r "token" ≠ "")) eqn:E.
  - apply andb_true_iff in E as [E _]. rewrite decide_True; [done|]. intros Hq. apply H. auto.
  - destruct (SplitN2_cons (header r "Authorization") " ") as (a & l & El).
    assert (match SplitN2 (header r "Authorization") " " with
            | [scheme; given] => bool_decide (scheme ≠ "Bearer") || bool_decide (given ≠ token)
            | _ => true end = true) as Hb.
    { apply not_false_is_true. intros Hf%bearer_header. apply H. right. right. split; [|done].
      intros [H1 H2]. rewrite H1, bool_decide_eq_true_2 in E by done. done. }
    rewrite El in *. unfold bind, lift. cbn [head]. destruct l as [|b [|]]; rewrite ?orb_true_r; [done| |done].
    by rewrite Hb.
Qed.


(** ** Closing connections *)

Section closing.
Context (uuid_String : Z → string) (conn_of : Z → conn).

Lemma perform_close c s :
  perform (tracker_Close c (conn_of c)) s =
  Some (tt, mkApi (mkShared (value (sh s)) (connections (sh s) ∖ {[c]}) (outputs (sh s) ++ [OClose (conn_of c)])) (sent s)).
Proof. done. Qed.

Lemma close_first_one c l s :
  (∀ a b, uuid_String a = uuid_String b → a = b) → c ∈ l →
  close_first uuid_String conn_of (uuid_String c) l s = perform (tracker_Close c (conn_of c)) s.
Proof.
  intros Hi. induction 1 as [l|x l Hin IH]; cbn [close_first]; [by rewrite decide_True|].
  case_decide as Hx; [by apply Hi in Hx as ->|done].
Qed.

Lemma close_first_none id l s :
  (∀ c, c ∈ l → uuid_String c ≠ id) → close_first uuid_String conn_of id l s = Some (tt, s).
Proof.
  induction l as [|c l IH]; intros H; cbn [close_first]; [done|].
  rewrite decide_False by (intros ->; by apply (H c); [left|]). apply IH. intros d Hd. apply H. by right.
Qed.

End closing.

Lemma close_each_all (conn_of : Z → conn) (l : list Z) (s : Api) :
  close_each conn_of l s =
  Some (tt, mkApi (mkShared (value (sh s)) (connections (sh s) ∖ list_to_set l)
                     (outputs (sh s) ++ ((λ c, OClose (conn_of c)) <$> l))) (sent s)).
Proof.
  revert s. induction l as [|c l IH]; intros s; cbn [close_each].
  - destruct s as [[v cs o] rs]. cbn. rewrite app_nil_r. unfold ret. do 4 f_equal. by rewrite difference_empty_L.
  - unfold bind. rewrite perform_close. rewrite IH. cbn [sh sent value connections outputs].
    rewrite fmap_cons, <-app_assoc. cbn [app list_to_set]. do 4 f_equal. by rewrite difference_difference_l_L.
Qed.

(** [DELETE /connections/{id}] closes the connection with that id, if there is
    one, and forgets it; every other connection stays open and in the list. *)
Theorem closeConnection_closes (uuid_String : Z → string) (conn_of : Z → conn) (r : Request) (s : Api) :
  (∀ a b, uuid_String a = uuid_String b → a = b) →
  ∃ s', closeConnection uuid_String conn_of r s = Some (tt, s') ∧ sent s' = sent s ++ [RNoContent] ∧
    value (sh s') = value (sh s) ∧
    ((∃ c, c ∈ connections (sh s) ∧ uuid_String c = urlParam r "id" ∧
        connections (sh s') = connections (sh s) ∖ {[c]} ∧ outputs (sh s') = outputs (sh s) ++ [OClose (conn_of c)]) ∨
     ((∀ c, c ∈ connections (sh s) → uuid_String c ≠ urlParam r "id") ∧ sh s' = sh s)).
Proof.
  intros Hi. unfold closeConnection, bind, get. cbn [snapConnections Manager_Snapshot].
  destruct (decide (Exists (λ c, uuid_String c = urlParam r "id") (elements (connections (sh s))))) as [Hx|Hx].
  - apply Exists_exists in Hx as (c & Hc & Hid). rewrite <-Hid. rewrite close_first_one by done.
    rewrite perform_close. eexists. split; [reflexivity|]. cbn. split; [done|]. split; [done|]. left. exists c.
    split; [by apply elem_of_elements|]. done.
  - rewrite close_first_none.
    2: { intros c Hc Hid. apply Hx, Exists_exists. by exists c. }
    eexists. split; [reflexivity|]. cbn. split; [done|]. split; [done|]. right. split; [|done].
    intros c Hc Hid. apply Hx, Exists_exists. exists c. split; [by apply elem_of_elements|done].
Qed.

(** [DELETE /connections] closes every connection of the list exactly once and
    leaves the list empty. *)
Theorem closeAllConnections_closes (conn_of : Z → conn) (r : Request) (s : Api) :
  ∃ s', closeAllConnections conn_of r s = Some (tt, s') ∧ sent s' = sent s ++ [RNoContent] ∧
    connections (sh s') = ∅ ∧ value (sh s') = value (sh s) ∧
    outputs (sh s') = outputs (sh s) ++ ((λ c, OClose (conn_of c)) <$> elements (connections (sh s))).
Proof.
  unfold closeAllConnections, bind, get. rewrite close_each_all. eexists. split; [reflexivity|]. cbn.
  rewrite list_to_set_elements_L. split; [done|]. split; [|split; done].
  apply set_eq. intros c. rewrite elem_of_difference. split; [by intros []|done].
Qed.

(** ** Rates *)

(** The ticks [traffic] serves: up to the first write that fails, with it. *)
Fixpoint served {A} (ticks : list (A * option error)) : list A * bool :=
  match ticks with
  | [] => ([], false)
  | (x, None) :: ticks => let '(l, e) := served ticks in (x :: l, e)
  | (x, Some _) :: _ => ([x], true)
  end.
Definition rates_of (now : shared) : string := encode_rates (fst (Now now)) (snd (Now now)).
Definition rate_responses (ws : bool) (now : shared) : list response :=
  if ws then [RMessage (rates_of now)] else [RWrite (rates_of now); RFlush].

Lemma traffic_loop_sends ws ticks s :
  traffic_loop ws ticks s =
  Some (tt, mkApi (sh s) (sent s ++ concat (rate_responses ws <$> (served ticks).1) ++ (if (served ticks).2 then [RStop] else []))).
Proof.
  revert s. induction ticks as [|[now [e|]] ticks IH]; intros [m rs]; cbn [traffic_loop served]; unfold Now.
  - cbn. by rewrite app_nil_r.
  - destruct ws; unfold bind, respond; cbn; by rewrite <-!app_assoc.
  - unfold bind at 1. destruct (served ticks) as [l b]. destruct ws; unfold respond; cbn [sh sent];
      unfold bind; rewrite IH; cbn [sh sent fst snd]; rewrite fmap_cons; cbn [concat]; by rewrite <-!app_assoc.
Qed.

(** [GET /traffic] sends the rates of every second, each once and in order, until
    a write fails; it changes nothing of the manager. *)
Theorem traffic_reports (env : Environment) (r : Request) (s : Api) :
  upgradeErr env = None →
  ∃ start, traffic env r s =
    Some (tt, mkApi (sh s)
      (sent s ++ start ++ RTicker Second :: concat (rate_responses (isUpgrade r) <$> (served (ticks env)).1) ++
       (if (served (ticks env)).2 then [RStop] else []))) ∧
    start = (if isUpgrade r then [RUpgrade] else [RHeader "Content-Type" "application/json"; RStatus 200]).
Proof.
  intros Hu. eexists. split; [|reflexivity]. unfold traffic. rewrite Hu.
  destruct (isUpgrade r); unfold bind, respond; cbn [sh sent]; rewrite traffic_loop_sends; cbn [sh sent];
    by rewrite <-!app_assoc.
Qed.

(** ** The encoder writes JSON

    [json_text v s]: [s] is a JSON text of [v] without white space; [members] are
    those between the braces of an object, with plain keys. *)

Fixpoint plain (s : string) : Prop :=
  match s with
  | EmptyString => True
  | String a r => (32 ≤ ascZ a ∧ a ≠ "034"%char ∧ a ≠ "\"%char) ∧ plain r
  end.

Inductive json_text : json → string → Prop :=
| text_num n : json_text (JNum (Some n)) (itoa n)
| text_obj l s : members l s → json_text (JObj l) ("{" +:+ s +:+ "}")
with members : list (string * json) → string → Prop :=
| members_nil : members [] ""
| members_one k v s : plain k → json_text v s → members [(k, v)] (quoted k +:+ ":" +:+ s)
| members_cons k v s m l t :
    plain k → json_text v s → members (m :: l) t →
    members ((k, v) :: m :: l) (quoted k +:+ ":" +:+ s +:+ "," +:+ t).

(** What the counters are. *)
Fixpoint stat_json (v : stat) : json :=
  match v with
  | StatCounter v => JNum (Some v)
  | CounterMap l => JObj ((λ x, (itoa x.1, JNum x.2)) <$> l)
  | Struct l => JObj ((λ x, (x.1, stat_json x.2)) <$> l)
  end.

(** Every key of a map is still there when it is read, and names are plain, as
    the identifiers of Go are. *)
Inductive readable : stat → Prop :=
| readable_counter v : readable (StatCounter v)
| readable_map l : Forall (λ x, is_Some x.2) l → readable (CounterMap l)
| readable_struct l : Forall (λ x, plain x.1 ∧ readable x.2) l → readable (Struct l).

Lemma plain_digit (x : N) s : (x < 10)%N → plain s → plain (String (pretty_N_char x) s).
Proof.
  intros Hx Hs. assert (∃ n, x = N.of_nat n ∧ (n < 10)%nat) as (n & -> & Hn) by (exists (N.to_nat x); lia).
  do 10 (destruct n as [|n]; [by repeat split|]). lia.
Qed.

Lemma plain_pretty_N_go x s : plain s → plain (pretty_N_go x s).
Proof.
  revert s. induction (N.lt_wf_0 x) as [x _ IH]. intros s Hs.
  destruct (decide (x = 0)%N) as [->|]; [by rewrite pretty_N_go_0|].
  rewrite pretty_N_go_step by lia. apply IH; [apply N.div_lt; lia|].
  apply plain_digit; [apply N.mod_lt; lia|done].
Qed.

Lemma plain_itoa z : plain (itoa z).
Proof.
  destruct z as [|p|p].
  - by repeat split.
  - change (plain (pretty_N_go (N.pos p) "")). by apply plain_pretty_N_go.
  - change (plain (String "-" (pretty_N_go (N.pos p) ""))). split; [by repeat split|]. by apply plain_pretty_N_go.
Qed.

Lemma encode_map_text l : Forall (λ x, is_Some x.2) l → members ((λ x, (itoa x.1, JNum x.2)) <$> l) (encode_map l).
Proof.
  induction 1 as [|[k c] l [v Hv] Hl IH]; [constructor|]. cbn [fst snd] in Hv. subst c. cbn [encode_map].
  destruct l as [|m l].
  - cbn. rewrite !append_nil_r. apply (members_one _ (JNum (Some v))); [apply plain_itoa|constructor].
  - rewrite decide_False by done. rewrite !append_assoc.
    apply (members_cons _ (JNum (Some v))); [apply plain_itoa|constructor|done].
Qed.

Lemma encode_fields_text l :
  Forall (λ x, plain x.1 ∧ json_text (stat_json x.2) (encode_stat x.2)) l →
  members ((λ x, (x.1, stat_json x.2)) <$> l) (encode_fields encode_stat l).
Proof.
  induction 1 as [|[k v] l [Hk Hv] Hl IH]; [constructor|]. cbn [encode_fields fst snd] in *.
  destruct l as [|m l].
  - cbn. rewrite !append_nil_r. by apply members_one.
  - by apply members_cons.
Qed.

Lemma encode_stat_text v : readable v → json_text (stat_json v) (encode_stat v).
Proof.
  revert v. fix IH 2. intros v H. destruct H as [v|l Hl|l Hl]; cbn [stat_json encode_stat]; constructor; [by apply encode_map_text|].
  apply encode_fields_text. induction Hl as [|x l [Hp Hx] Hl IHl]; constructor; [|done].
  split; [done|]. by apply IH.
Qed.

(** [encodeToJSON] writes a JSON text of the counters: every brace and comma is
    where the grammar wants it, for structs nested to any depth, empty structs
    and empty maps included. *)
Theorem encodeToJSON_valid (l : list (string * stat)) :
  readable (Struct l) → json_text (stat_json (Struct l)) (encodeToJSON l).
Proof. apply encode_stat_text. Qed.

(** ** At work *)

Definition get_request (auth : string) : Request :=
  mkRequest "GET" "/connections" false (λ _, "") (λ k, if decide (k = "Authorization") then auth else "") (λ _, "").
Definition busy : Api := mkApi (mkShared (λ _, 0) {[1; 2]} []) [].
Definition toy_conn (u : Z) : conn := mkConn u true.
Definition first_route (rs : list route) (r : Request) : option route := head rs.


Lemma closeConnection_closes_witness :
  ∃ s', closeConnection itoa toy_conn (mkRequest "DELETE" "/connections/2" false (λ _, "") (λ _, "") (λ _, "2")) busy = Some (tt, s') ∧
    sent s' = [RNoContent].
Proof.
  destruct (closeConnection_closes itoa toy_conn (mkRequest "DELETE" "/connections/2" false (λ _, "") (λ _, "") (λ _, "2")) busy)
    as (s' & E & Hs & _).
  - intros a b. apply (inj pretty).
  - exists s'. split; [exact E|exact Hs].
Defined.

Lemma traffic_reports_witness :
  let env := mkEnv None None [(shared_init, None); (shared_init, Some EOF); (shared_init, None)] in
  ∃ start, traffic env (get_request "") busy =
    Some (tt, mkApi (sh busy)
      (sent busy ++ start ++ RTicker Second :: concat (rate_responses false <$> [shared_init; shared_init]) ++ [RStop])).
Proof.
  intros env. destruct (traffic_reports env (get_request "") busy eq_refl) as (start & E & _). exists start. exact E.
Defined.

Lemma encodeToJSON_valid_witness :
  let l := [("IP", Struct [("PacketsReceived", StatCounter 7); ("ByProtocol", CounterMap [(6, Some 4); (17, Some 3)])])] in
  readable (Struct l) ∧ json_text (stat_json (Struct l)) (encodeToJSON l) ∧
  String.length (encodeToJSON l) = 56%nat.
Proof.
  intros l. assert (H : readable (Struct l)).
  { repeat constructor; done. }
  split; [exact H|]. split; [exact (encodeToJSON_valid l H)|vm_compute; reflexivity].
Defined.

(** A websocket client of [/connections] chooses the period of the ticker, and
    with it the panic of [time.NewTicker]. *)
Example interval_zero_panics :
  getConnections (λ _, JNull) (λ _, Ok "{}") (mkEnv None None [])
    (mkRequest "GET" "/connections" true (λ k, if decide (k = "interval") then "0" else "") (λ _, "") (λ _, "")) busy = None.
Proof. reflexivity. Qed.
