(* ===== verification/Format.v ===== *)
(** What log lines are made of: [internal/format/fmt.go], [time.Duration.String]
    of the Go standard library, which prints the durations of the configuration
    so that [time.ParseDuration] reads them back, and [Policy.String]. *)

From Stdlib Require Import Strings.Ascii.
From S2P Require Import Prelude GoStd GoTime Conn Json Policy Desync.

(** ** [internal/format] *)

(** The dynamic type of an argument, in the order of the type switch. *)
Inductive arg :=
| AStringer (s : string) | AString (s : string) | AError (e : error)
| AInt (z : Z) | AUint (z : Z) | AOther.

Fixpoint Concat (values : list arg) : go string :=
  match values with
  | [] => Some ""
  | v :: values =>
      let! s := match v with
                | AStringer s | AString s => Some s
                | AError e => Some (error_Error e)
                | AInt z | AUint z => Some (itoa z)
                | AOther => panic
                end in
      let! rest := Concat values in
      Some (s +:+ rest)
  end.

Definition hexDigits : string := "0123456789abcdef".
Definition hexDigit (n : Z) : go ascii := String.get (Z.to_nat n) hexDigits.
Definition Byte (b : byte) : go string :=
  let! hi := hexDigit (Z.shiftr (bZ b) 4) in
  let! lo := hexDigit (Z.land (bZ b) 15) in
  Some (String hi (String lo "")).

(** The value of a hexadecimal digit. *)
Definition hexVal (c : ascii) : Z :=
  if is_digit c then digit_val c else ascZ c - 87.

Definition byte_told (b : byte) : bool :=
  match Byte b with
  | Some (String hi (String lo "")) => 16 * hexVal hi + hexVal lo =? bZ b
  | _ => false
  end.

Lemma bytes_told : forallb byte_told (Zb <$> seqZ 0 256) = true.
Proof. by vm_compute. Qed.

(** Two digits tell the byte. *)
Theorem Byte_tells (b : byte) :
  ∃ hi lo, Byte b = Some (String hi (String lo "")) ∧ 16 * hexVal hi + hexVal lo = bZ b.
Proof.
  pose proof bytes_told as H. rewrite forallb_forall in H. specialize (H b).
  assert (byte_told b = true) as Hb.
  { apply H, list_elem_of_In, list_elem_of_fmap. exists (bZ b). rewrite Zb_bZ. split; [done|].
    apply elem_of_seqZ. pose proof (bZ_range b). lia. }
  unfold byte_told in Hb. destruct (Byte b) as [[|hi [|lo [|]]]|]; try done.
  exists hi, lo. split; [done|]. by apply Z.eqb_eq.
Qed.

(** ** [time.Duration.String] *)

(** [fmtFrac]: the fraction without trailing zeros in front of [buf], and what is
    above it. *)
Fixpoint fmtFrac (prec : nat) (print : bool) (v : Z) (buf : string) : string * Z :=
  match prec with
  | O => (if print then String "." buf else buf, v)
  | S prec =>
      let digit := v mod 10 in
      let print := print || negb (digit =? 0) in
      fmtFrac prec print (v / 10) (if print then itoa digit +:+ buf else buf)
  end.

Definition Microsecond : Z := 1000.

Definition Duration_String (d : Z) : string :=
  let neg := d <? 0 in
  let u := if neg then u64 (- d) else d in
  if decide (u = 0) then "0s" else
  let body :=
    if decide (u < Second) then
      let '(prec, unit) :=
        if decide (u < Microsecond) then (0%nat, "ns")
        else if decide (u < Millisecond) then (3%nat, micro1) else (6%nat, "ms") in
      let '(buf, u) := fmtFrac prec false u unit in itoa u +:+ buf
    else
      let '(buf, u) := fmtFrac 9 false u "s" in
      let buf := itoa (u mod 60) +:+ buf in
      let u := u / 60 in
      if decide (0 < u) then
        let buf := itoa (u mod 60) +:+ "m" +:+ buf in
        let u := u / 60 in
        if decide (0 < u) then itoa u +:+ "h" +:+ buf else buf
      else buf in
  if neg then "-" +:+ body else body.

Example Duration_Strings :
  Duration_String 5400000000000 = "1h30m0s" ∧ Duration_String 300000000 = "300ms" ∧
  Duration_String 1500000 = "1.5ms" ∧ Duration_String 0 = "0s" ∧ Duration_String (-7) = "-7ns" ∧
  Duration_String 60300000000 = "1m0.3s" ∧ Duration_String (-2 ^ 63) = "-2562047h47m16.854775808s".
Proof. by vm_compute. Qed.

(** *** Durations without a fraction are read back *)

Definition digit_head (s : string) : Prop :=
  match s with String a _ => is_digit a = true | EmptyString => False end.
(** A unit's letters: neither digits nor dots. *)
Fixpoint letters (s : string) : Prop :=
  match s with
  | EmptyString => True
  | String a s => is_digit a = false ∧ a ≠ "."%char ∧ letters s
  end.

Lemma leadingInt_pretty (x : N) s :
  Z.of_N x ≤ max63 → leadingInt 0 (pretty_N_go x s) = leadingInt (Z.of_N x) s.
Proof.
  revert s. induction (N.lt_wf_0 x) as [x _ IH]. intros s Hm.
  destruct (decide (x = 0)%N) as [->|Hx]; [by rewrite pretty_N_go_0|].
  pose proof (N.mod_lt x 10 ltac:(lia)). destruct (pretty_N_char_digit (x mod 10)) as [Hd Hv]; [done|].
  pose proof (N.div_mod x 10 ltac:(lia)).
  rewrite pretty_N_go_step by lia. rewrite IH; [|apply N.div_lt; lia|pose proof (N.Div0.div_le_upper_bound x 10 x); lia].
  cbn [leadingInt]. rewrite Hd. cbn [negb]. unfold digit_val. rewrite Hv.
  replace (Z.of_N (x / 10) * 10 + Z.of_N (x mod 10)) with (Z.of_N x) by lia.
  unfold max63 in *. change (2 ^ 63 / 10) with 922337203685477580. change (2 ^ 63) with 9223372036854775808 in *.
  pose proof (N.Div0.div_lt_upper_bound x 10 922337203685477581 ltac:(lia)).
  rewrite decide_False by lia.
  by rewrite decide_False by lia.
Qed.

Lemma leadingInt_itoa z s : 0 ≤ z ≤ max63 → no_digit s → leadingInt 0 (itoa z +:+ s) = Some (z, s).
Proof.
  intros Hz Hs. assert (∀ x, leadingInt x s = Some (x, s)) as Hstop
    by (intros x; destruct s as [|a s]; [done|]; cbn [leadingInt]; cbn in Hs; by rewrite Hs).
  unfold itoa, pretty, pretty_Z. destruct z as [|p|p]; [| |lia].
  - change (leadingInt 0 s = Some (0, s)). apply Hstop.
  - change (leadingInt 0 (pretty_N_go (N.pos p) "" +:+ s) = Some (Z.pos p, s)).
    rewrite <-pretty_N_go_app. change ("" +:+ s) with s. rewrite leadingInt_pretty by (simpl; lia). apply Hstop.
Qed.

Lemma itoa_head z s : 0 ≤ z → digit_head (itoa z +:+ s).
Proof.
  intros Hz. unfold itoa, pretty, pretty_Z. destruct z as [|p|p]; [done| |lia].
  change (digit_head (pretty_N_go (N.pos p) "" +:+ s)). rewrite <-pretty_N_go_app.
  destruct (pretty_N_go_head (N.pos p) ("" +:+ s)) as (c & t & -> & Hc); [done|exact Hc].
Qed.

Lemma unit_prefix_letters u rest : letters u → rest = "" ∨ digit_head rest → unit_prefix (u +:+ rest) = (u, rest).
Proof.
  intros Hu Hr. induction u as [|a u IH].
  - destruct Hr as [->|Hr]; [done|]. destruct rest as [|c r]; [done|]. cbn in Hr |- *. by rewrite Hr.
  - destruct Hu as (Hd & Hdot & Hu). cbn [unit_prefix String.append]. rewrite Hd, bool_decide_eq_false_2 by done.
    cbn [orb]. by rewrite IH.
Qed.

(** One term of the sum. *)
Lemma duration_term fuel orig n u unit rest d :
  letters u → u ≠ "" → unitMap u = Some unit → 0 < unit → 0 ≤ n → 0 ≤ d → d + n * unit < max63 →
  rest = "" ∨ digit_head rest →
  duration_terms (S fuel) orig (itoa n +:+ u +:+ rest) d = duration_terms fuel orig rest (d + n * unit).
Proof.
  intros Hu Hne Hmap Hunit Hn Hd Hlim Hrest. assert (n ≤ n * unit) by nia.
  destruct (itoa n +:+ u +:+ rest) as [|c s] eqn:Es.
  { pose proof (itoa_head n (u +:+ rest) Hn) as Hh. by rewrite Es in Hh. }
  pose proof (itoa_head n (u +:+ rest) Hn) as Hh. rewrite Es in Hh. cbn [digit_head] in Hh.
  cbn [duration_terms]. rewrite Hh, orb_true_r. cbn [negb]. rewrite <-Es.
  assert (no_digit (u +:+ rest)) as Hnd by (destruct u; [done|]; by destruct Hu).
  rewrite leadingInt_itoa by (done || lia).
  assert (String.length (u +:+ rest) ≠ String.length (itoa n +:+ u +:+ rest)) as Hlen.
  { rewrite (Patterns.length_append (itoa n)). intros Hl. assert (String.length (itoa n) = 0%nat) as H0 by lia.
    pose proof (itoa_head n "" Hn) as Hh'. destruct (itoa n); [done|]. done. }
  rewrite (bool_decide_eq_false_2 _ Hlen). cbn [negb orb].
  assert (∀ (T : Type) (A : string → T) (B : T), match u +:+ rest with String "." r => A r | _ => B end = B) as Hnodot.
  { intros T A B. destruct u as [|a u]; [done|]. destruct Hu as (_ & Hdot & _). cbn [String.append].
    destruct a as [[] [] [] [] [] [] [] []]; try done. }
  rewrite Hnodot. cbn [orb negb]. rewrite unit_prefix_letters by done. rewrite decide_False by done. rewrite Hmap.
  unfold max63 in *. assert (n ≤ 2 ^ 63 / unit) by (apply Z.div_le_lower_bound; nia).
  rewrite decide_False by lia. rewrite (decide_False (P:=0 < 0)) by lia. rewrite decide_False by nia.
  assert (u64 (d + n * unit) = d + n * unit) as -> by (unfold u64; rewrite Z.mod_small; nia).
  by rewrite decide_False by lia.
Qed.

Lemma duration_terms_end fuel orig d : duration_terms fuel orig "" d = Ok d.
Proof. by destruct fuel. Qed.

Lemma ParseDuration_terms s d :
  digit_head s → (2 ≤ String.length s)%nat → d < max63 →
  (∀ fuel, duration_terms (S (S (S fuel))) s s 0 = Ok d) → (String.length s = 2%nat → duration_terms 2 s s 0 = Ok d) →
  ParseDuration s = Ok d.
Proof.
  intros Hh Hl Hd Ht H2. unfold ParseDuration. destruct s as [|a s]; [done|]. cbn [digit_head] in Hh.
  assert (∀ (A B : string → bool * string) (C : bool * string),
    match String a s with String "-" r => A r | String "+" r => B r | _ => C end = C) as Hsign.
  { intros A B C. destruct a as [[] [] [] [] [] [] [] []]; done. }
  rewrite Hsign. rewrite decide_False by (intros [= -> ->]; cbn in Hl; lia). rewrite decide_False by done.
  assert (duration_terms (String.length (String a s)) (String a s) (String a s) 0 = Ok d) as ->.
  { destruct (String.length (String a s)) as [|[|[|n]]] eqn:El; [lia|lia|by apply H2|apply Ht]. }
  by rewrite decide_False by (unfold max63 in *; lia).
Qed.

Lemma fmtFrac_whole k v buf : 0 ≤ v → v mod 10 ^ Z.of_nat k = 0 → fmtFrac k false v buf = (buf, v / 10 ^ Z.of_nat k).
Proof.
  revert v. induction k as [|k IH]; intros v Hv Hm; [by rewrite Z.div_1_r|].
  replace (Z.of_nat (S k)) with (1 + Z.of_nat k) in * by lia. rewrite Z.pow_add_r in * by lia. change (10 ^ 1) with 10 in *.
  assert (0 < 10 ^ Z.of_nat k) by (apply Z.pow_pos_nonneg; lia).
  rewrite Z.rem_mul_r in Hm by lia. pose proof (Z.mod_pos_bound v 10 ltac:(lia)).
  pose proof (Z.mod_pos_bound (v / 10) (10 ^ Z.of_nat k) ltac:(lia)).
  assert (v mod 10 = 0 ∧ (v / 10) mod 10 ^ Z.of_nat k = 0) as [Hd0 Hd1] by nia.
  cbn [fmtFrac]. rewrite Hd0. cbn [Z.eqb negb orb]. rewrite IH; [|by apply Z.div_pos; lia|done].
  by rewrite Z.div_div by lia.
Qed.

(** Without a fraction in the unit the text uses. *)
Definition plain_duration (d : Z) : Prop :=
  d < Microsecond ∨ (d < Millisecond ∧ d mod Microsecond = 0) ∨
  (d < Second ∧ d mod Millisecond = 0) ∨ d mod Second = 0.

(** One number with one unit. *)
Lemma ParseDuration_single n u unit :
  letters u → u ≠ "" → unitMap u = Some unit → 0 < unit → 0 ≤ n → n * unit < max63 →
  ParseDuration (itoa n +:+ u) = Ok (n * unit).
Proof.
  intros Hu Hne Hm Hp Hn Hl. assert (itoa n +:+ u = itoa n +:+ u +:+ "") as -> by (f_equal; by rewrite append_nil_r).
  assert (∀ fuel s, duration_terms (S fuel) s (itoa n +:+ u +:+ "") 0 = Ok (n * unit)) as Ht.
  { intros fuel s. rewrite (duration_term _ _ _ _ unit) by (done || lia || by left). apply duration_terms_end. }
  apply ParseDuration_terms; [by apply itoa_head| |done|intros fuel; apply Ht|intros _; apply Ht].
  rewrite append_nil_r, Patterns.length_append. pose proof (itoa_head n "" Hn) as Hh.
  rewrite append_nil_r in Hh. destruct (itoa n), u; try done. cbn. lia.
Qed.

(** Hours, minutes and seconds. *)
Lemma ParseDuration_clock h m s :
  0 ≤ h → 0 ≤ m → 0 ≤ s → (h * 3600 + m * 60 + s) * Second < max63 →
  ParseDuration (itoa m +:+ "m" +:+ itoa s +:+ "s") = Ok ((m * 60 + s) * Second) ∧
  ParseDuration (itoa h +:+ "h" +:+ itoa m +:+ "m" +:+ itoa s +:+ "s") = Ok ((h * 3600 + m * 60 + s) * Second).
Proof.
  unfold Second, Millisecond. intros Hh Hm Hs Hl.
  assert (∀ fuel o d, 0 ≤ d → d + s * 1000000000 < max63 →
    duration_terms (S fuel) o (itoa s +:+ "s") d = Ok (d + s * 1000000000)) as Hsec.
  { intros fuel o d Hd Hb. assert (itoa s +:+ "s" = itoa s +:+ "s" +:+ "") as -> by done.
    rewrite (duration_term _ _ _ "s" 1000000000) by (done || lia || by left). apply duration_terms_end. }
  assert (∀ fuel o d, 0 ≤ d → d + m * 60000000000 + s * 1000000000 < max63 →
    duration_terms (S (S fuel)) o (itoa m +:+ "m" +:+ itoa s +:+ "s") d = Ok (d + m * 60000000000 + s * 1000000000)) as Hmin.
  { intros fuel o d Hd Hb. rewrite (duration_term _ _ _ "m" 60000000000) by (done || lia || (right; by apply itoa_head)).
    apply Hsec; lia. }
  assert (∀ n t, 0 ≤ n → (2 ≤ String.length t)%nat → (3 ≤ String.length (itoa n +:+ t))%nat) as Hlen.
  { intros n t Hn Ht. rewrite Patterns.length_append. pose proof (itoa_head n "" Hn) as Hd.
    rewrite append_nil_r in Hd. destruct (itoa n); [done|]. cbn. lia. }
  assert (2 ≤ String.length (itoa s +:+ "s"))%nat as H1.
  { rewrite Patterns.length_append. pose proof (itoa_head s "" Hs) as Hd. rewrite append_nil_r in Hd.
    destruct (itoa s); [done|]. cbn. lia. }
  assert (3 ≤ String.length (itoa m +:+ "m" +:+ itoa s +:+ "s"))%nat as H2
    by (apply Hlen; [done|change (2 ≤ S (String.length (itoa s +:+ "s")))%nat; lia]).
  assert (3 ≤ String.length (itoa h +:+ "h" +:+ itoa m +:+ "m" +:+ itoa s +:+ "s"))%nat as H3
    by (apply Hlen; [done|change (2 ≤ S (String.length (itoa m +:+ "m" +:+ itoa s +:+ "s")))%nat; lia]).
  split; (apply ParseDuration_terms; [by apply itoa_head|lia|unfold max63 in *; lia| |lia]); intros fuel.
  - rewrite Hmin by lia. f_equal. lia.
  - rewrite (duration_term _ _ _ "h" 3600000000000) by (done || lia || (right; by apply itoa_head)).
    rewrite Hmin by lia. f_equal. lia.
Qed.

(** A duration that needs no fraction is read back from what is printed for it. *)
Theorem ParseDuration_String (d : Z) :
  0 ≤ d < max63 → plain_duration d → ParseDuration (Duration_String d) = Ok d.
Proof.
  intros [Hd Hm] Hp. unfold plain_duration, Microsecond, Second, Millisecond in Hp. change (1000 * 1000000) with 1000000000 in Hp.
  unfold Duration_String, Microsecond, Second, Millisecond. change (1000 * 1000000) with 1000000000. rewrite (proj2 (Z.ltb_ge d 0) Hd). cbv beta zeta.
  destruct (decide (d = 0)) as [->|Hne]; [done|].
  destruct (decide (d < 1000000000)) as [Hs|Hs].
  - destruct (decide (d < 1000)) as [H1|H1]; [|destruct (decide (d < 1000000)) as [H2|H2]].
    + cbn [fmtFrac]. rewrite (ParseDuration_single d "ns" 1) by (done || lia). f_equal. lia.
    + assert (d mod 1000 = 0) as Hz by (Z.div_mod_to_equations; lia).
      rewrite (fmtFrac_whole 3) by done. change (10 ^ Z.of_nat 3) with 1000.
      rewrite (ParseDuration_single _ micro1 1000) by (done || (unfold max63 in *; Z.div_mod_to_equations; lia)).
      f_equal. Z.div_mod_to_equations; lia.
    + assert (d mod 1000000 = 0) as Hz by (Z.div_mod_to_equations; lia).
      rewrite (fmtFrac_whole 6) by done. change (10 ^ Z.of_nat 6) with 1000000.
      rewrite (ParseDuration_single _ "ms" 1000000) by (done || (unfold max63 in *; Z.div_mod_to_equations; lia)).
      f_equal. Z.div_mod_to_equations; lia.
  - assert (d mod 1000000000 = 0) as Hz by (Z.div_mod_to_equations; lia).
    rewrite (fmtFrac_whole 9) by done. change (10 ^ Z.of_nat 9) with 1000000000.
    set (u := d / 1000000000). assert (d = u * 1000000000) as Hu by (unfold u; Z.div_mod_to_equations; lia).
    assert (1 ≤ u) by lia. pose proof (Z.mod_pos_bound u 60 ltac:(lia)). pose proof (Z.div_mod u 60 ltac:(lia)) as Hu'.
    pose proof (Z.mod_pos_bound (u / 60) 60 ltac:(lia)). pose proof (Z.div_mod (u / 60) 60 ltac:(lia)) as Hu''.
    destruct (decide (0 < u / 60)) as [Hge|Hge].
    + destruct (decide (0 < u / 60 / 60)) as [Hgh|Hgh].
      * destruct (ParseDuration_clock (u / 60 / 60) (u / 60 mod 60) (u mod 60)) as [_ Hc]; [lia|lia|lia|unfold Second, Millisecond; lia|].
        rewrite Hc. unfold Second, Millisecond. f_equal. lia.
      * destruct (ParseDuration_clock 0 (u / 60 mod 60) (u mod 60)) as [Hc _]; [lia|lia|lia|unfold Second, Millisecond; lia|].
        rewrite Hc. unfold Second, Millisecond. f_equal. lia.
    + rewrite (ParseDuration_single _ "s" 1000000000) by (done || lia). f_equal. lia.
Qed.

Lemma ParseDuration_String_witness :
  plain_duration (10 * Second) ∧ Duration_String (10 * Second) = "10s" ∧ ParseDuration "10s" = Ok 10000000000.
Proof.
  split; [by right; right; right|]. split; [by vm_compute|].
  exact (ParseDuration_String (10 * Second) ltac:(done) ltac:(by right; right; right)).
Defined.

(** ** [Policy.String] *)

Definition field (c : bool) (s : string) : list string := if c then [s] else [].

(** The fields of the mode. *)
Definition mode_fields (p : Policy) : list string :=
  match pMode p with
  | ModeTLSRF =>
      field (bool_decide (ModMinorVer p = BoolTrue)) "mod_minor_ver" ++
      field (bool_decide (NumRecords p ≠ unsetInt ∧ NumRecords p ≠ 1)) (itoa (NumRecords p) +:+ " records") ++
      field (bool_decide (NumSegments p ≠ unsetInt ∧ NumSegments p ≠ 1)) (itoa (NumSegments p) +:+ " segments") ++
      field (bool_decide (0 < SendInterval p)) ("send_interval=" +:+ Duration_String (SendInterval p)) ++
      field (bool_decide (OOB p = BoolTrue)) "oob" ++
      field (bool_decide (OOBEx p = BoolTrue)) "oob_ex"
  | ModeTTLD =>
      (if decide (FakeTTL p = 0 ∨ FakeTTL p = unsetInt) then
         ["auto_fake_ttl"] ++
         field (bool_decide (Attempts p ≠ 0)) ("attempts=" +:+ itoa (Attempts p)) ++
         field (bool_decide (MaxTTL p ≠ 0)) ("max_ttl=" +:+ itoa (MaxTTL p)) ++
         field (bool_decide (SingleTimeout p ≠ 0)) ("single_timeout=" +:+ Duration_String (SingleTimeout p))
       else ["fake_ttl=" +:+ itoa (FakeTTL p)]) ++
      ["fake_sleep=" +:+ Duration_String (FakeSleep p)]
  | _ => []
  end.

Definition Policy_fields (p : Policy) : list string :=
  field (bool_decide (ConnectTimeout p ≠ 0)) ("timeout=" +:+ Duration_String (ConnectTimeout p)) ++
  field (bool_decide (Port p ≠ unsetInt ∧ Port p ≠ 0)) (":" +:+ itoa (Port p)) ++
  field (bool_decide (pDNSMode p ≠ DNSModeUnknown ∧ (Host p = "" ∨ Host p = unsetString))) (DNSMode_String (pDNSMode p)) ++
  field (bool_decide (0 < HttpStatus p)) ("http_status=" +:+ itoa (HttpStatus p)) ++
  field (bool_decide (TLS13Only p = BoolTrue)) "tls13_only" ++
  [Mode_String (pMode p)] ++ mode_fields p.

Definition Policy_String (p : Policy) : string := Join (Policy_fields p) ", ".

Lemma field_length c s : (length (field c s) ≤ 1)%nat.
Proof. destruct c; cbn; lia. Qed.

(** The slice is made for eleven fields; only TLS fragmentation can show one more. *)
Theorem Policy_fields_count (p : Policy) :
  (length (Policy_fields p) ≤ 12)%nat ∧ (pMode p ≠ ModeTLSRF → (length (Policy_fields p) ≤ 11)%nat).
Proof.
  assert (length (mode_fields p) ≤ 6 ∧ (pMode p ≠ ModeTLSRF → length (mode_fields p) ≤ 5))%nat as [H6 H5].
  { unfold mode_fields. destruct (pMode p); try (split; cbn; lia).
    - split; [|done]. rewrite !length_app. repeat match goal with |- context [length (field ?c ?s)] =>
        pose proof (field_length c s); generalize dependent (length (field c s)); intros end. lia.
    - enough (∀ l : list string, (length l ≤ 4)%nat → (length (l ++ ["fake_sleep=" +:+ Duration_String (FakeSleep p)]) ≤ 5)%nat) as Hl.
      { split; [|intros _]; [etransitivity; [apply Hl|lia]|apply Hl]; case_decide; cbn [app length]; rewrite ?length_app;
          repeat match goal with |- context [length (field ?c ?s)] =>
            pose proof (field_length c s); generalize dependent (length (field c s)); intros end; lia. }
      intros l Hl. rewrite length_app. cbn. lia. }
  unfold Policy_fields. rewrite !length_app. cbn [length].
  repeat match goal with |- context [length (field ?c ?s)] =>
    pose proof (field_length c s); generalize dependent (length (field c s)); intros end.
  split; [lia|]. intros Hm. specialize (H5 Hm). lia.
Qed.

(** The names of modes are read back. *)
Theorem mode_names (m : Mode) (d : DNSMode) :
  (m ≠ ModeUnknown → Mode_UnmarshalJSON (JStr (Mode_String m)) = Ok m) ∧
  (d ≠ DNSModeUnknown → DNSMode_UnmarshalJSON (JStr (DNSMode_String d)) = Ok d).
Proof. by destruct m, d. Qed.

Example Policy_Strings :
  Policy_String (normalizePolicyDefaults (mergePolicies [])) =
    "timeout=10s, prefer_ipv4, tls-rf, 0 records, 0 segments".
Proof. vm_compute. reflexivity. Qed.
