(* ===== verification/Glue.v ===== *)
(** What holds the program together: the hooks it puts into the standard library
    ([internal/dns_patch.go], [internal/tz_android.go]), the detection of the local
    address ([internal/dial/dialdetect.go]), what stands in for unsupported systems
    ([internal/desync_stub.go], [internal/waitack_stub.go], [fd_windows.go]), the
    log of the engine ([tun2socks/log]), its global tunnel ([tunnel/global.go]),
    its buffers ([internal/bufferpool]) and its version. *)

From Stdlib Require Import Strings.Ascii.
From S2P Require Import Prelude GoStd GoNet Policy Conn Session.

(** ** Hooks of the standard library *)

Definition dns1 : string := "223.5.5.5:53".
Definition dns2 : string := "8.8.8.8:53".

(** [net.DefaultResolver.Dial]: the address it is asked for is not used. *)
Definition DefaultResolver_Dial (address : string) : St World (result conn) :=
  let* r := dial dns1 (3 * Second) in
  match r with
  | Ok c => ret (Ok c)
  | Fail _ => dial dns2 (3 * Second)
  end.

(** [init] of tz_android.go: [getprop] is the output of the command, the result is
    [time.Local]. *)
Definition init_Local (getprop : result string) (LoadLocation : string → result string) (Local : string) : string :=
  match getprop with
  | Fail _ => Local
  | Ok output =>
      match LoadLocation (TrimSpace output) with
      | Fail _ => Local
      | Ok location => location
      end
  end.

(** [itou] on systems of 64 and of 32 bits. *)
Definition itou64 (n : Z) : Z := u64 n.
Definition itou32 (n : Z) : Z := u32 n.

(** ** The local address *)

Inductive local_addr := TCPAddr (ip : IP) (zone : string) | UDPAddr (ip : IP) (zone : string) | OtherAddr.

Definition detectByDial (LocalAddr : conn → local_addr) (network target : string) (timeout : Z)
    : St World (result (IP * string)) :=
  let timeout := if decide (timeout ≤ 0) then 5 * Second else timeout in
  let* r := dial target timeout in
  match r with
  | Fail err => throw (ErrOp "dial detect" err)
  | Ok c =>
      let res := match LocalAddr c with
                 | TCPAddr ip zone | UDPAddr ip zone => Ok (ip, zone)
                 | OtherAddr => Fail (ErrNew "unsupported network")
                 end in
      let* _ := ignoring (EClose c) in ret res
  end.

(** ** Unsupported systems *)

Definition errTTLDNotSupported : error := ErrNew "`ttl-d` is not supported on current system".
Definition stub_loadTTLRules (rules : string) : result unit := Ok tt.
Definition stub_getFakeTTL (p : Policy) (addr : string) (v6 : bool) : Z * result unit :=
  (unsetInt, Fail errTTLDNotSupported).
Definition stub_desyncSend (c : conn) (v6 : bool) (record : bytes) (sniPos sniLen fakeTTL fakeSleep : Z)
    : St World (result unit) := throw errTTLDNotSupported.
Definition stub_waitForAck (enabled : bool) (c : conn) (delay : Z) : St World (result unit) :=
  let* _ := sleep delay in ret (Ok tt).
Definition windows_fd_Open (name : string) (mtu offset : Z) : result unit := Fail (ErrNew "unsupported operation").

(** ** The log of the engine *)

Definition DebugLevel : Z := -1.
Definition InfoLevel : Z := 0.
Definition WarnLevel : Z := 1.
Definition ErrorLevel : Z := 2.
Definition FatalLevel : Z := 5.
Definition InvalidLevel : Z := 6.
Definition SilentLevel : Z := InvalidLevel + 1.

(** A zap logger: [NewNop], or one that writes what has at least a level. *)
Inductive Logger := Nop | AtLeast (min : Z).

(** [build] is the error of zap's constructors. *)
Definition NewLeveled (build : option error) (l : Z) : result Logger :=
  if decide (l = SilentLevel) then Ok Nop
  else if decide (DebugLevel ≤ l ≤ FatalLevel) then
    match build with Some e => Fail e | None => Ok (AtLeast l) end
  else Fail (ErrNew ("invalid level: Level(" +:+ itoa l +:+ ")")).

(** The global loggers and the lines written. *)
Record Logs := mkLogs { globalL : Logger; globalS : Logger; emitterL : Logger; lines : list (Z * string) }.
Definition SetLogger (logger : Logger) (s : Logs) : Logs := mkLogs logger logger logger (lines s).
(** [init]: [zap.Must(zap.NewProduction())]. *)
Definition log_init : Logs := SetLogger (AtLeast InfoLevel) (mkLogs Nop Nop Nop []).

Definition writes (logger : Logger) (lvl : Z) : bool :=
  match logger with Nop => false | AtLeast min => min <=? lvl end.
Definition put_line (logger : Logger) (lvl : Z) (text : string) (s : Logs) : Logs :=
  mkLogs (globalL s) (globalS s) (emitterL s) (if writes logger lvl then lines s ++ [(lvl, text)] else lines s).

Definition logf (lvl : Z) (text : string) (s : Logs) : Logs := put_line (globalS s) lvl text s.

(** gVisor's levels count from Warning = 0 to Debug = 2. *)
Definition emitter_logf (level : Z) (text : string) (s : Logs) : Logs :=
  put_line (emitterL s) (1 - level) ("[STACK] " +:+ text) s.
Definition HasSuffix (s suffix : string) : bool :=
  bool_decide (String.length suffix ≤ String.length s)%nat &&
  bool_decide (sdrop (String.length s - String.length suffix) s = suffix).
(** [caller] is the file and line that [runtime.Caller] finds. *)
Definition Emit (caller : option (string * Z)) (level : Z) (text : string) (s : Logs) : Logs :=
  match caller with
  | Some (file, line) =>
      if (line =? 457) && HasSuffix file "gonet/gonet.go" then s else emitter_logf level text s
  | None => emitter_logf level text s
  end.

(** ** The global tunnel *)

Section global.
Context {Tunnel : Type}.
(** [T]: nil before the first [ReplaceGlobal]. *)
Definition T : St (option Tunnel) (option Tunnel) := get.
(** [ReplaceGlobal] returns the function that restores. *)
Definition ReplaceGlobal (t : option Tunnel) : St (option Tunnel) (St (option Tunnel) unit) :=
  let* prev := get in
  let* _ := modify (λ _, t) in
  ret (modify (λ _, prev)).
End global.

(** ** Buffers *)

(** A [sync.Pool]: [Get] gives one of the values put back, or a new one. *)
Definition pool_Get {T} (fresh : T) (choice : nat) (pool : list T) : T * list T :=
  match pool !! choice with
  | Some x => (x, delete choice pool)
  | None => (fresh, pool)
  end.
Definition bufferpool_Get (choice : nat) (pool : list bytes) : bytes * list bytes :=
  let '(buf, pool) := pool_Get [] choice pool in ([], pool).    (* [buf.Reset()] *)
Definition bufferpool_Put (b : bytes) (pool : list bytes) : list bytes := b :: pool.

(** ** The version *)

Definition TrimPrefix (s prefix : string) : string :=
  if HasPrefix s prefix then sdrop (String.length prefix) s else s.
Definition version_String (Version : string) : string := "tun2socks" +:+ "-" +:+ TrimPrefix Version "v".

(** ** What it does *)

Lemma dial_event target t w :
  ∃ r w', dial target t w = Some (r, w') ∧ events w' = events w ++ [EDial target t].
Proof.
  unfold dial, call. cbv beta zeta. destruct (default None _); eexists _, _; (split; [reflexivity|apply events_snoc]).
Qed.

(** The second server is asked for only when the first cannot be reached, and the
    resolver never holds two connections. *)
Theorem resolver_dials (address : string) (w : World) :
  ∃ r w', DefaultResolver_Dial address w = Some (r, w') ∧
    ((is_ok r = true ∧ events w' = events w ++ [EDial dns1 (3 * Second)]) ∨
     events w' = events w ++ [EDial dns1 (3 * Second); EDial dns2 (3 * Second)] ∧
       ∃ e w1, dial dns1 (3 * Second) w = Some (Fail e, w1) ∧ dial dns2 (3 * Second) w1 = Some (r, w')).
Proof.
  unfold DefaultResolver_Dial, bind. destruct (dial_event dns1 (3 * Second) w) as (r1 & w1 & E1 & H1). rewrite E1.
  destruct r1 as [c|e].
  - exists (Ok c), w1. split; [done|]. by left.
  - destruct (dial_event dns2 (3 * Second) w1) as (r2 & w2 & E2 & H2). exists r2, w2. rewrite E2, H2, H1, <-app_assoc.
    split; [done|]. right. split; [done|]. by exists e, w1.
Qed.

(** The connection that is made to learn the local address is closed. *)
Theorem detect_closes (LocalAddr : conn → local_addr) (network target : string) (timeout : Z) (w : World) :
  ∃ r w', detectByDial LocalAddr network target timeout w = Some (r, w') ∧ ∃ t, 0 < t ∧
    ((is_ok r = false ∧ events w' = events w ++ [EDial target t]) ∨
     ∃ c w1, dial target t w = Some (Ok c, w1) ∧ events w' = events w ++ [EDial target t; EClose c] ∧
       match LocalAddr c with
       | TCPAddr ip zone | UDPAddr ip zone => r = Ok (ip, zone)
       | OtherAddr => is_ok r = false
       end).
Proof.
  unfold detectByDial. set (t := if decide (timeout ≤ 0) then 5 * Second else timeout).
  assert (0 < t) as Ht by (unfold t; case_decide; [done|lia]). unfold bind at 1.
  destruct (dial_event target t w) as (r1 & w1 & E1 & H1). rewrite E1. destruct r1 as [c|e].
  - destruct (ignoring_total (EClose c) w1) as (w2 & E2 & H2). unfold bind. rewrite E2.
    eexists _, w2. split; [reflexivity|]. exists t. split; [done|]. right. exists c, w1. split; [done|].
    rewrite H2, H1, <-app_assoc. split; [done|]. by destruct (LocalAddr c).
  - eexists _, w1. split; [reflexivity|]. exists t. split; [done|]. by left.
Qed.

(** A logger made for a level writes the lines of at least that level, for the
    engine and for gVisor alike, and the silent one none. *)
Theorem logger_filters (build : option error) (l : Z) (logger : Logger) (s : Logs) (lvl : Z) (text : string) :
  NewLeveled build l = Ok logger →
  lines (logf lvl text (SetLogger logger s)) =
    lines s ++ (if bool_decide (l ≠ SilentLevel ∧ l ≤ lvl) then [(lvl, text)] else []) ∧
  lines (Emit None (1 - lvl) text (SetLogger logger s)) =
    lines s ++ (if bool_decide (l ≠ SilentLevel ∧ l ≤ lvl) then [(lvl, "[STACK] " +:+ text)] else []).
Proof.
  intros H. assert (writes logger lvl = bool_decide (l ≠ SilentLevel ∧ l ≤ lvl)) as Hw.
  { unfold NewLeveled in H. destruct (decide (l = SilentLevel)) as [Hs|Hs].
    - injection H as <-. symmetry. apply bool_decide_eq_false. by intros [? _].
    - destruct (decide (DebugLevel ≤ l ≤ FatalLevel)); [|done]. destruct build; [done|]. injection H as <-.
      cbn [writes]. apply eq_bool_prop_intro. rewrite !Is_true_true, Z.leb_le, bool_decide_eq_true. tauto. }
  unfold logf, Emit, emitter_logf, put_line, SetLogger. cbn [globalS emitterL lines].
  replace (1 - (1 - lvl)) with lvl by lia. rewrite Hw. destruct (bool_decide _); by rewrite ?app_nil_r.
Qed.

Lemma logger_filters_witness :
  NewLeveled None WarnLevel = Ok (AtLeast WarnLevel) ∧
  lines (logf InfoLevel "x" (SetLogger (AtLeast WarnLevel) log_init)) = [] ∧
  lines (logf ErrorLevel "x" (SetLogger (AtLeast WarnLevel) log_init)) = [(ErrorLevel, "x")].
Proof.
  split; [done|]. split.
  - exact (proj1 (logger_filters None WarnLevel (AtLeast WarnLevel) log_init InfoLevel "x" eq_refl)).
  - exact (proj1 (logger_filters None WarnLevel (AtLeast WarnLevel) log_init ErrorLevel "x" eq_refl)).
Defined.

(** What [ReplaceGlobal] returns puts the old tunnel back, whatever was installed
    meanwhile. *)
Theorem ReplaceGlobal_restores {Tunnel : Type} (t t' old : option Tunnel) :
  (let* undo := ReplaceGlobal t in let* _ := ReplaceGlobal t' in let* _ := undo in T) old = Some (old, old) ∧
  (let* _ := ReplaceGlobal t in T) old = Some (t, t).
Proof. done. Qed.

(** A buffer of the pool is empty, whatever was left in it. *)
Theorem bufferpool_empty (choice : nat) (pool : list bytes) :
  ∃ pool', bufferpool_Get choice pool = ([], pool') ∧ (length pool' ≤ length pool)%nat.
Proof.
  unfold bufferpool_Get, pool_Get. destruct (pool !! choice) as [b|] eqn:E; eexists; (split; [reflexivity|]); [|done].
  rewrite length_delete by (by eexists). lia.
Qed.
